(** * Connection manager of the dispatch router: a shallow embedding

    The development follows [src/connection_manager.c].  Pure helpers
    ([get_failover_info_length], [populate_log_message],
    [load_strip_annotations]) are Rocq functions; the functions that
    allocate strings, record an error code or write to the log run in a
    small state-and-jump monad whose [Jump] result is the C [goto error];
    loops without a syntactic bound take fuel. *)

From Stdlib Require Import ZArith List String Ascii Bool Lia Permutation.
Import ListNotations.

Local Open Scope Z_scope.

(** ** C integers and strings *)

Definition INT_MAX : Z := 2147483647.
Definition INT32_MAX : Z := 2147483647.

Definition to_uint32 (z : Z) : Z := z mod 2 ^ 32.
Definition to_uint64 (z : Z) : Z := z mod 2 ^ 64.

Definition strlen (s : string) : Z := Z.of_nat (String.length s).

(** [strcmp a b == 0] *)
Definition streq (a b : string) : bool := String.eqb a b.

Definition to_int32 (z : Z) : Z := (z + 2 ^ 31) mod 2 ^ 32 - 2 ^ 31.

(** What a call can come to: a value; behaviour the C standard leaves
    undefined (a write past a buffer, a signed overflow, a read through a
    null, dangling or uninitialised pointer); the end of the process (a
    failed [assert], [exit]); or a loop that ran out of fuel. *)
Inductive outcome (A : Type) : Type :=
| Done (a : A)
| Undefined
| Aborted
| OutOfFuel.
Arguments Done {A} a.
Arguments Undefined {A}.
Arguments Aborted {A}.
Arguments OutOfFuel {A}.

Definition obind {A B} (x : outcome A) (f : A -> outcome B) : outcome B :=
  match x with
  | Done a => f a
  | Undefined => Undefined
  | Aborted => Aborted
  | OutOfFuel => OutOfFuel
  end.

(** ** Failover list of a connector *)

(** qd_failover_item_t, with the fields the source reads or writes
    (the declaration is in failoverlist.h); a [char*] that is NULL is [None]. *)
Record qd_failover_item_t : Type := {
  scheme : option string;
  host : option string;
  port : option string;
  host_port : option string
}.

Inductive cxtr_state_t : Type :=
| CXTR_STATE_CONNECTING
| CXTR_STATE_OPEN
| CXTR_STATE_FAILED.

(** The live connection context a connector may point to. *)
Record qd_connection_t : Type := {
  connector : option nat;
  pn_conn : option nat
}.

(** qd_connector_t, with the fields the source uses; [ct_addr] is the
    address of the object, the handle the management agent holds. *)
Record qd_connector_t : Type := {
  ct_addr : nat;
  state : cxtr_state_t;
  ctx : option qd_connection_t;
  conn_index : Z;
  conn_info_list : list qd_failover_item_t;
  ref_count : Z
}.

Module Failover.

(** The [while (item)] loop of get_failover_info_length. *)
Fixpoint failover_length_loop (item : list qd_failover_item_t) (arr_length : Z) : Z :=
  match item with
  | [] => arr_length
  | it :: next =>
      let arr_length :=
        match scheme it with
        | Some s => arr_length + (strlen s + 3)
        | None => arr_length
        end in
      let arr_length :=
        match host_port it with
        | Some hp => arr_length + strlen hp
        | None => arr_length
        end in
      let arr_length :=
        match next with
        | [] => arr_length
        | _ :: _ => arr_length + 2
        end in
      failover_length_loop next arr_length
  end.

Definition get_failover_info_length (conn_info_list : list qd_failover_item_t) : Z :=
  let arr_length := failover_length_loop conn_info_list 0 in
  if 0 <? arr_length then arr_length + 1 else arr_length.

(** [strcat] into a zero-filled [char failover_info[cap]]: the result and
    its terminator must fit. *)
Definition strcat (cap : Z) (dest src : string) : outcome string :=
  if strlen dest + strlen src <? cap
  then Done (dest ++ src)%string
  else Undefined.

(** The two [strcat] groups that write one item. *)
Definition strcat_item (cap : Z) (it : qd_failover_item_t) (failover_info : string)
  : outcome string :=
  obind
    match scheme it with
    | Some s => obind (strcat cap failover_info s) (fun b => strcat cap b "://")
    | None => Done failover_info
    end
    (fun failover_info =>
       match host_port it with
       | Some hp => strcat cap failover_info hp
       | None => Done failover_info
       end).

(** [item = DEQ_NEXT(item); if (item == 0) item = DEQ_HEAD(conn_info_list)] *)
Definition next_or_head (conn_info_list next : list qd_failover_item_t)
  : list qd_failover_item_t :=
  match next with
  | [] => conn_info_list
  | _ :: _ => next
  end.

(** The [while (item)] loop of qd_entity_refresh_connector.  The cursor
    [item] is the part of the list from the current element on. *)
Fixpoint refresh_loop (fuel : nat) (conn_info_list item : list qd_failover_item_t)
    (conn_index conn_info_len cap i num_items : Z) (failover_info : string)
  : outcome string :=
  match fuel with
  | O => OutOfFuel
  | S fuel =>
      match item with
      | [] => Done failover_info
      | it :: next =>
          if conn_info_len <=? num_items then Done failover_info
          else
            obind
              (if 1 <=? num_items then strcat cap failover_info ", "
               else Done failover_info)
              (fun failover_info =>
            obind
              (if conn_index =? i then
                 obind (strcat_item cap it failover_info)
                       (fun b => Done (num_items + 1, b))
               else if 0 <? num_items then
                 obind (strcat_item cap it failover_info)
                       (fun b => Done (num_items + 1, b))
               else Done (num_items, failover_info))
              (fun '(num_items, failover_info) =>
            if INT_MAX <=? i then Undefined
            else
              refresh_loop fuel conn_info_list (next_or_head conn_info_list next)
                           conn_index conn_info_len cap (i + 1) num_items failover_info))
      end
  end.

(** qd_entity_refresh_connector: the string handed to
    [qd_entity_set_string(entity, "failoverUrls", ...)]. *)
Definition qd_entity_refresh_connector (fuel : nat) (ct : qd_connector_t)
  : outcome string :=
  let conn_index := conn_index ct in
  let conn_info_list := conn_info_list ct in
  let conn_info_len := Z.of_nat (List.length conn_info_list) in
  let arr_length := get_failover_info_length conn_info_list in
  if (arr_length <=? 0) || (INT_MAX <? arr_length) then Undefined
  else
    refresh_loop fuel conn_info_list conn_info_list conn_index conn_info_len
                 arr_length 1 0 "".

(** *** What the serialization should be, in the words of the specification *)

(** [scheme://host:port], absent parts omitted. *)
Definition failover_url (it : qd_failover_item_t) : string :=
  ((match scheme it with Some s => s ++ "://" | None => "" end) ++
   (match host_port it with Some hp => hp | None => "" end))%string.

(** The list read circularly from position [k] (0-based). *)
Definition rotate {A} (k : nat) (l : list A) : list A := skipn k l ++ firstn k l.

(** The item qd_dispatch_configure_connector puts first in the list: the
    connector's own address, always with a scheme. *)
Definition own_address (ssl_required : bool) (h p : string) : qd_failover_item_t :=
  {| scheme := Some (if ssl_required then "amqps" else "amqp")%string;
     host := Some h;
     port := Some p;
     host_port := Some (h ++ ":" ++ p)%string |}.

End Failover.

(** ** Message logging components *)

Module LogMessage.

Definition qd_log_message_components : list string :=
  ["message-id"; "user-id"; "to"; "subject"; "reply-to"; "correlation-id";
   "content-type"; "content-encoding"; "absolute-expiry-time"; "creation-time";
   "group-id"; "group-sequence"; "reply-to-group-id"; "app-properties"]%string.

Definition ALL : string := "all".
Definition NONE : string := "none".

Definition is_delim (delim : string) (c : ascii) : bool :=
  existsb (Ascii.eqb c) (list_ascii_of_string delim).

(** [s += strspn(s, delim)] *)
Fixpoint skip_delims (delim s : string) : string :=
  match s with
  | EmptyString => EmptyString
  | String c s' => if is_delim delim c then skip_delims delim s' else s
  end.

(** The token that starts [s] and the position saved for the next call:
    the text after the delimiter that ended the token, or the end. *)
Fixpoint scan_token (delim s : string) : string * string :=
  match s with
  | EmptyString => (EmptyString, EmptyString)
  | String c s' =>
      if is_delim delim c then (EmptyString, s')
      else let '(tok, saved) := scan_token delim s' in (String c tok, saved)
  end.

(** One call of [strtok], from the saved position: the token found, if
    any, and the new saved position. *)
Definition strtok (delim saved : string) : option (string * string) :=
  match skip_delims delim saved with
  | EmptyString => None
  | String c s' => Some (scan_token delim (String c s'))
  end.

(** The [for (int i=0;; i++)] loop over the null-terminated table. *)
Fixpoint component_loop (components : list string) (i : Z) (token : string)
    (ret_val : Z) : Z :=
  match components with
  | [] => ret_val
  | component :: rest =>
      let ret_val :=
        if streq component token then Z.lor ret_val (Z.shiftl 1 i) else ret_val in
      component_loop rest (i + 1) token ret_val
  end.

(** The [while (token != NULL)] loop; [fuel] bounds the calls of [strtok]. *)
Fixpoint token_loop (fuel : nat) (delim saved : string) (ret_val : Z) : outcome Z :=
  match fuel with
  | O => OutOfFuel
  | S fuel =>
      match strtok delim saved with
      | None => Done ret_val
      | Some (token, saved) =>
          token_loop fuel delim saved
                     (component_loop qd_log_message_components 0 token ret_val)
      end
  end.

(** populate_log_message, on the text of [config->log_message]: every
    call of [strtok] consumes a character, so the length of the text is
    fuel enough. *)
Definition populate_log_message (log_message : option string) : outcome Z :=
  match log_message with
  | None => Done 0
  | Some s =>
      if streq s NONE then Done 0
      else if streq s ALL then Done INT32_MAX
      else token_loop (S (String.length s)) "," s 0
  end.

(** What the first call of [strtok] leaves of the text it was given: it
    overwrites the delimiter that ends the first token with a terminator. *)
Fixpoint strtok_residue (delim s : string) : string :=
  match s with
  | EmptyString => EmptyString
  | String c s' =>
      if is_delim delim c then String c (strtok_residue delim s')
      else fst (scan_token delim s)
  end.

(** The tokens of a text, as a specification would list them. *)
Fixpoint tokens_from (delim : string) (cur : string) (s : string) : list string :=
  match s with
  | EmptyString => match cur with EmptyString => [] | _ => [cur] end
  | String c s' =>
      if is_delim delim c
      then match cur with
           | EmptyString => tokens_from delim EmptyString s'
           | _ => cur :: tokens_from delim EmptyString s'
           end
      else tokens_from delim (cur ++ String c EmptyString)%string s'
  end.

Definition tokens (delim s : string) : list string := tokens_from delim EmptyString s.

End LogMessage.

(** ** Memory, error state and log *)

(** A [char*]: null, the address of a heap block, or the indeterminate
    content of a member that was never assigned. *)
Inductive cptr : Type :=
| NULL
| Ptr (a : nat)
| Indeterminate.

Definition is_null (p : cptr) : bool :=
  match p with NULL => true | _ => false end.

(** error.h is not among the sources; these are the codes the source names. *)
Inductive qd_error_t : Type :=
| QD_ERROR_NONE
| QD_ERROR_NOT_FOUND
| QD_ERROR_VALUE
| QD_ERROR_RUNTIME.

Definition is_error (e : qd_error_t) : bool :=
  match e with QD_ERROR_NONE => false | _ => true end.

Inductive qd_log_level_t : Type :=
| QD_LOG_INFO
| QD_LOG_WARNING
| QD_LOG_ERROR
| QD_LOG_CRITICAL.

Inductive log_arg : Type :=
| LText (s : option string)
| LNum (z : Z).

(** A call of [qd_log]: level, format text and the arguments it prints. *)
Record log_entry : Type := {
  level : qd_log_level_t;
  format : string;
  args : list log_arg
}.

(** The heap of strings: block [a] holds [Some text] while it is
    allocated and [None] once freed; [malloc] takes the next address. *)
Definition heap_t : Type := list (option string).

Definition heap_read (h : heap_t) (a : nat) : option string :=
  match nth_error h a with
  | Some (Some s) => Some s
  | _ => None
  end.

Fixpoint heap_write (h : heap_t) (a : nat) (v : option string) : heap_t :=
  match h, a with
  | [], _ => []
  | _ :: h', O => v :: h'
  | x :: h', S a' => x :: heap_write h' a' v
  end.

(** The state a function works on: the object [L] it fills in, the heap,
    the thread's error code and message (error.c), and the log. *)
Record world (L : Type) : Type := mkWorld {
  locals : L;
  heap : heap_t;
  error_code : qd_error_t;
  error_message : string;
  log : list log_entry
}.
Arguments mkWorld {L}.
Arguments locals {L}.
Arguments heap {L}.
Arguments error_code {L}.
Arguments error_message {L}.
Arguments log {L}.

(** A step either goes on with a value or jumps to the [error:] label. *)
Inductive flow (A : Type) : Type :=
| Next (a : A)
| Jump.
Arguments Next {A} a.
Arguments Jump {A}.

Definition M (L A : Type) : Type := world L -> outcome (flow A * world L).

Definition ret {L A} (a : A) : M L A := fun w => Done (Next a, w).

Definition bind {L A B} (m : M L A) (f : A -> M L B) : M L B :=
  fun w =>
    match m w with
    | Done (Next a, w') => f a w'
    | Done (Jump, w') => Done (Jump, w')
    | Undefined => Undefined
    | Aborted => Aborted
    | OutOfFuel => OutOfFuel
    end.

Notation "x <- c1 ;; c2" := (bind c1 (fun x => c2))
  (at level 61, c1 at next level, right associativity).
Notation "c1 ;; c2" := (bind c1 (fun _ => c2))
  (at level 61, right associativity).

Definition goto_error {L A} : M L A := fun w => Done (Jump, w).
Definition undefined {L A} : M L A := fun _ => Undefined.
Definition abort {L A} : M L A := fun _ => Aborted.

(** [body] with the code after the [error:] label. *)
Definition on_error {L A} (body handler : M L A) : M L A :=
  fun w =>
    match body w with
    | Done (Jump, w') => handler w'
    | r => r
    end.

Definition lift {L A} (o : outcome A) : M L A :=
  fun w => match o with
           | Done a => Done (Next a, w)
           | Undefined => Undefined
           | Aborted => Aborted
           | OutOfFuel => OutOfFuel
           end.

Definition get_locals {L} : M L L := fun w => Done (Next (locals w), w).

Definition modify {L} (f : L -> L) : M L unit :=
  fun w => Done (Next tt, mkWorld (f (locals w)) (heap w) (error_code w)
                                  (error_message w) (log w)).

(** *** error.h and log.h, as the source uses them

    Modelled from the spec: error.c and log.c are not among the sources.
    A "hard" failure is reported to the caller with a message; [qd_error]
    records code and message for the thread, [qd_error_code] reads the
    code back (which is what the CHECK macro of the source tests), and
    [qd_error_clear] resets it.  [qd_log] appends to the log. *)

(** Modelled from the spec: [qd_error] records the code and the message of a
    hard failure. *)
Definition qd_error {L} (code : qd_error_t) (msg : string) : M L unit :=
  fun w => Done (Next tt, mkWorld (locals w) (heap w) code msg (log w)).

(** Modelled from the spec: the text a format gives with its arguments,
    as [qd_error] and printf build it, for formats whose directives are
    %s: each directive stands for the next argument. *)
Fixpoint format_text (fmt : string) (a : list string) : string :=
  match fmt with
  | EmptyString => EmptyString
  | String ch rest =>
      match rest, a with
      | String ch2 rest2, x :: more =>
          if (Ascii.eqb ch "%" && Ascii.eqb ch2 "s")%bool
          then x ++ format_text rest2 more
          else String ch (format_text rest a)
      | _, _ => String ch (format_text rest a)
      end
  end.

(** Modelled from the spec: no failure is on record. *)
Definition qd_error_clear {L} : M L unit :=
  fun w => Done (Next tt, mkWorld (locals w) (heap w) QD_ERROR_NONE "" (log w)).

(** Modelled from the spec: the code on record, which CHECK tests. *)
Definition qd_error_code {L} : M L qd_error_t :=
  fun w => Done (Next (error_code w), w).

(** Modelled from the spec: the message on record. *)
Definition qd_error_message {L} : M L string :=
  fun w => Done (Next (error_message w), w).

(** Modelled from the spec: a warning or a notice is appended to the log. *)
Definition qd_log {L} (lvl : qd_log_level_t) (fmt : string) (a : list log_arg) : M L unit :=
  fun w => Done (Next tt, mkWorld (locals w) (heap w) (error_code w) (error_message w)
                                  (log w ++ [{| level := lvl; format := fmt; args := a |}])).

(** [#define CHECK() if (qd_error_code()) goto error] *)
Definition CHECK {L} : M L unit :=
  code <- qd_error_code ;;
  if is_error code then goto_error else ret tt.

(** *** The heap *)

(** A fresh block holding [s]: [malloc] followed by the write of the text. *)
Definition new_string {L} (s : string) : M L cptr :=
  fun w => Done (Next (Ptr (List.length (heap w))),
                 mkWorld (locals w) (heap w ++ [Some s]) (error_code w)
                         (error_message w) (log w)).

(** The text a non-null pointer points to. *)
Definition read {L} (p : cptr) : M L string :=
  fun w =>
    match p with
    | Ptr a => match heap_read (heap w) a with
               | Some s => Done (Next s, w)
               | None => Undefined
               end
    | _ => Undefined
    end.

(** The text behind a pointer that may be null. *)
Definition read_opt {L} (p : cptr) : M L (option string) :=
  match p with
  | NULL => ret None
  | _ => s <- read p ;; ret (Some s)
  end.

Definition write {L} (p : cptr) (s : string) : M L unit :=
  fun w =>
    match p with
    | Ptr a => match heap_read (heap w) a with
               | Some _ => Done (Next tt, mkWorld (locals w) (heap_write (heap w) a (Some s))
                                                  (error_code w) (error_message w) (log w))
               | None => Undefined
               end
    | _ => Undefined
    end.

Definition free {L} (p : cptr) : M L unit :=
  fun w =>
    match p with
    | NULL => Done (Next tt, w)
    | Ptr a => match heap_read (heap w) a with
               | Some _ => Done (Next tt, mkWorld (locals w) (heap_write (heap w) a None)
                                                  (error_code w) (error_message w) (log w))
               | None => Undefined
               end
    | Indeterminate => Undefined
    end.

Definition strdup {L} (p : cptr) : M L cptr :=
  s <- read p ;; new_string s.

(** [#define SSTRDUP(S) ((S) ? strdup(S) : NULL)] *)
Definition SSTRDUP {L} (p : cptr) : M L cptr :=
  match p with
  | NULL => ret NULL
  | Ptr _ => strdup p
  | Indeterminate => undefined
  end.

(** *** The configuration entity

    Modelled from the spec: entity.c is not among the sources.
    "get_required_{string,long}(key) -> value|hard_failure;
    get_optional_{string,bool,long}(key, default) -> value"; a missing
    required field or a malformed value (here: an attribute of another
    kind) is a hard failure.  A string comes back in a block of its own. *)

Inductive attr : Type :=
| AString (s : string)
| ALong (z : Z)
| ABool (b : bool).

Definition qd_entity_t : Type := list (string * attr).

Fixpoint entity_get (entity : qd_entity_t) (attribute : string) : option attr :=
  match entity with
  | [] => None
  | (k, v) :: rest => if streq k attribute then Some v else entity_get rest attribute
  end.

(** The value of an attribute, when it is there and of the kind asked for. *)
Definition string_attr (entity : qd_entity_t) (attribute : string) : option string :=
  match entity_get entity attribute with
  | Some (AString s) => Some s
  | _ => None
  end.

Definition long_attr (entity : qd_entity_t) (attribute : string) (default_value : Z) : Z :=
  match entity_get entity attribute with
  | Some (ALong z) => z
  | _ => default_value
  end.

Definition bool_attr (entity : qd_entity_t) (attribute : string) (default_value : bool)
  : bool :=
  match entity_get entity attribute with
  | Some (ABool b) => b
  | _ => default_value
  end.

(** Modelled from the spec: a required text; a hard failure if it is missing
    or of another kind. *)
Definition qd_entity_get_string {L} (entity : qd_entity_t) (attribute : string) : M L cptr :=
  match entity_get entity attribute with
  | Some (AString s) => new_string s
  | _ => qd_error QD_ERROR_VALUE attribute ;; ret NULL
  end.

(** Modelled from the spec: a required number. *)
Definition qd_entity_get_long {L} (entity : qd_entity_t) (attribute : string) : M L Z :=
  match entity_get entity attribute with
  | Some (ALong z) => ret z
  | _ => qd_error QD_ERROR_VALUE attribute ;; ret (-1)
  end.

(** Modelled from the spec: a required truth value. *)
Definition qd_entity_get_bool {L} (entity : qd_entity_t) (attribute : string) : M L bool :=
  match entity_get entity attribute with
  | Some (ABool b) => ret b
  | _ => qd_error QD_ERROR_VALUE attribute ;; ret false
  end.

(** Modelled from the spec: an optional text, with its default. *)
Definition qd_entity_opt_string {L} (entity : qd_entity_t) (attribute : string)
    (default_value : option string) : M L cptr :=
  match entity_get entity attribute with
  | Some _ => qd_entity_get_string entity attribute
  | None => match default_value with
            | Some d => new_string d
            | None => ret NULL
            end
  end.

(** Modelled from the spec: an optional number, with its default. *)
Definition qd_entity_opt_long {L} (entity : qd_entity_t) (attribute : string)
    (default_value : Z) : M L Z :=
  match entity_get entity attribute with
  | Some _ => qd_entity_get_long entity attribute
  | None => ret default_value
  end.

(** Modelled from the spec: an optional truth value, with its default. *)
Definition qd_entity_opt_bool {L} (entity : qd_entity_t) (attribute : string)
    (default_value : bool) : M L bool :=
  match entity_get entity attribute with
  | Some _ => qd_entity_get_bool entity attribute
  | None => ret default_value
  end.

(** ** Profiles and the server configuration *)

(** The members of qd_config_ssl_profile_t. *)
Inductive ssl_profile_member : Type :=
| p_name
| p_ssl_password
| p_ssl_trusted_certificate_db
| p_ssl_trusted_certificates
| p_ssl_uid_format
| p_uid_name_mapping_file
| p_ssl_certificate_file
| p_ssl_private_key_file
| p_ssl_ciphers
| p_ssl_protocols.

Scheme Equality for ssl_profile_member.

(** qd_config_ssl_profile_t: every member is a [char*], so the object is
    the value of each member; [sp_addr] is the address of the object. *)
Record qd_config_ssl_profile_t : Type := {
  sp_addr : nat;
  sp : ssl_profile_member -> cptr
}.

Definition sp_set (m : ssl_profile_member) (v : cptr) (p : qd_config_ssl_profile_t)
  : qd_config_ssl_profile_t :=
  {| sp_addr := sp_addr p;
     sp := fun m' => if ssl_profile_member_beq m' m then v else sp p m' |}.

Record qd_config_sasl_plugin_t : Type := {
  name : cptr;
  auth_service : cptr;
  sasl_init_hostname : cptr;
  auth_ssl_profile : cptr
}.

(** qd_connection_manager_t: the two profile collections, in insertion
    order.  (The listeners and connectors are in [Lifecycle] below.) *)
Record qd_connection_manager_t : Type := {
  config_ssl_profiles : list qd_config_ssl_profile_t;
  config_sasl_plugins : list qd_config_sasl_plugin_t
}.

(** The [char*] members of qd_server_config_t (server.h), those of the
    nested [sasl_plugin_config] with the prefix [spc_]. *)
Inductive str_member : Type :=
| f_host
| f_port
| f_host_port
| f_role
| f_http_root_dir
| f_name
| f_protocol_family
| f_sasl_username
| f_sasl_password
| f_sasl_mechanisms
| f_ssl_profile
| f_sasl_plugin
| f_failover_list
| f_log_message
| f_ssl_certificate_file
| f_ssl_private_key_file
| f_ssl_ciphers
| f_ssl_protocols
| f_ssl_password
| f_ssl_trusted_certificate_db
| f_ssl_trusted_certificates
| f_ssl_uid_format
| f_ssl_uid_name_mapping_file
| spc_auth_service
| spc_sasl_init_hostname
| spc_ssl_certificate_file
| spc_ssl_private_key_file
| spc_ssl_ciphers
| spc_ssl_protocols
| spc_ssl_password
| spc_ssl_trusted_certificate_db
| spc_ssl_trusted_certificates
| spc_ssl_uid_format
| spc_ssl_uid_name_mapping_file.

Inductive flag_member : Type :=
| f_metrics
| f_http
| f_multi_tenant
| f_allowInsecureAuthentication
| f_verify_host_name
| f_strip_inbound_annotations
| f_strip_outbound_annotations
| f_requireAuthentication
| f_requireEncryption
| f_ssl_required
| f_ssl_require_peer_authentication
| spc_use_ssl.

Inductive num_member : Type :=
| f_log_bits
| f_inter_router_cost
| f_max_frame_size
| f_max_sessions
| f_incoming_capacity
| f_idle_timeout_seconds
| f_initial_handshake_timeout_seconds
| f_link_capacity.

Scheme Equality for str_member.
Scheme Equality for flag_member.
Scheme Equality for num_member.

(** qd_server_config_t as a store indexed by its members, so that an
    assignment to a member is a point update.  [f_max_frame_size] and
    [f_max_sessions] are [uint32_t], [f_incoming_capacity] is [size_t],
    the other numbers are [int]. *)
Record qd_server_config_t : Type := {
  strs : str_member -> cptr;
  flags : flag_member -> bool;
  nums : num_member -> Z
}.

Definition set_str (m : str_member) (v : cptr) (c : qd_server_config_t)
  : qd_server_config_t :=
  {| strs := fun m' => if str_member_beq m' m then v else strs c m';
     flags := flags c;
     nums := nums c |}.

Definition set_flag (m : flag_member) (v : bool) (c : qd_server_config_t)
  : qd_server_config_t :=
  {| strs := strs c;
     flags := fun m' => if flag_member_beq m' m then v else flags c m';
     nums := nums c |}.

Definition set_num (m : num_member) (v : Z) (c : qd_server_config_t)
  : qd_server_config_t :=
  {| strs := strs c;
     flags := flags c;
     nums := fun m' => if num_member_beq m' m then v else nums c m' |}.

(** The [memset] of the whole object to zero. *)
Definition config_zero : qd_server_config_t :=
  {| strs := fun _ => NULL; flags := fun _ => false; nums := fun _ => 0 |}.

(** Modelled from the spec: amqp.h is not among the sources.
    "frame-size floor = 512". *)
Definition QD_AMQP_MIN_MAX_FRAME_SIZE : Z := 512.

Section Profiles.

Context {L : Type}.

(** qd_find_ssl_profile: the first profile whose name compares equal. *)
Fixpoint qd_find_ssl_profile_loop (ssl_profile : list qd_config_ssl_profile_t)
    (name : string) : M L (option qd_config_ssl_profile_t) :=
  match ssl_profile with
  | [] => ret None
  | p :: next =>
      pname <- read (sp p p_name) ;;
      if streq pname name then ret (Some p)
      else qd_find_ssl_profile_loop next name
  end.

Definition qd_find_ssl_profile (cm : qd_connection_manager_t) (name : cptr)
  : M L (option qd_config_ssl_profile_t) :=
  n <- read name ;;
  qd_find_ssl_profile_loop (config_ssl_profiles cm) n.

Fixpoint qd_find_sasl_plugin_loop (sasl_plugin : list qd_config_sasl_plugin_t)
    (nm : string) : M L (option qd_config_sasl_plugin_t) :=
  match sasl_plugin with
  | [] => ret None
  | p :: next =>
      pname <- read (name p) ;;
      if streq pname nm then ret (Some p)
      else qd_find_sasl_plugin_loop next nm
  end.

Definition qd_find_sasl_plugin (cm : qd_connection_manager_t) (nm : cptr)
  : M L (option qd_config_sasl_plugin_t) :=
  n <- read nm ;;
  qd_find_sasl_plugin_loop (config_sasl_plugins cm) n.

End Profiles.

(** ** Resolution of an endpoint: load_server_config *)

Section LoadServerConfig.

(** Whether assertions are compiled out, and the width of [size_t] in bytes. *)
Variable NDEBUG : bool.
Variable sizeof_size_t : Z.

Definition to_size_t (z : Z) : Z := z mod 2 ^ (8 * sizeof_size_t).

(** load_strip_annotations, on the text behind [stripAnnotations]
    ([None] for a null pointer). *)
Definition load_strip_annotations (config : qd_server_config_t)
    (stripAnnotations : option string) : outcome qd_server_config_t :=
  match stripAnnotations with
  | Some s =>
      if streq s "both" then
        Done (set_flag f_strip_outbound_annotations true
               (set_flag f_strip_inbound_annotations true config))
      else if streq s "in" then
        Done (set_flag f_strip_outbound_annotations false
               (set_flag f_strip_inbound_annotations true config))
      else if streq s "out" then
        Done (set_flag f_strip_outbound_annotations true
               (set_flag f_strip_inbound_annotations false config))
      else if streq s "no" then
        Done (set_flag f_strip_outbound_annotations false
               (set_flag f_strip_inbound_annotations false config))
      else Done config
  | None =>
      (* assert(stripAnnotations) *)
      if NDEBUG then
        Done (set_flag f_strip_outbound_annotations true
               (set_flag f_strip_inbound_annotations true config))
      else Aborted
  end.

(** [PRId64] of inttypes.h: the conversion of an [int64_t], with the
    length modifier of the platform ("l" where a long has 64 bits, "ll"
    where it has 32). *)
Definition PRId64 : string := if sizeof_size_t <? 8 then "lld" else "ld".

(** The computation of [config->incoming_capacity] from the session frame
    count and the promoted frame size (the block that starts at
    [if (ssn_frames == 0)]): the capacity and, when the request is
    truncated, the frame count the warning reports. *)
Definition incoming_capacity (max_frame_size ssn_frames : Z) : Z * option Z :=
  if ssn_frames =? 0 then
    (to_size_t (if sizeof_size_t <? 8 then 0x7FFFFFFF
                else 0x7FFFFFFF * max_frame_size), None)
  else
    let mfs := to_uint64 max_frame_size in
    let trial_ic := to_uint64 (ssn_frames * mfs) in
    let limit := if sizeof_size_t <? 8 then 2 ^ 31 - 1 else 0 in
    if (limit =? 0) || (trial_ic <? limit) then
      (to_size_t (if trial_ic <? QD_AMQP_MIN_MAX_FRAME_SIZE
                  then QD_AMQP_MIN_MAX_FRAME_SIZE else trial_ic), None)
    else
      (to_size_t limit, Some (limit / mfs)).

Definition cfgM : Type -> Type := M qd_server_config_t.

Definition assign_str (m : str_member) (v : cptr) : cfgM unit := modify (set_str m v).
Definition assign_flag (m : flag_member) (v : bool) : cfgM unit := modify (set_flag m v).
Definition assign_num (m : num_member) (v : Z) : cfgM unit := modify (set_num m v).
Definition member_str (m : str_member) : cfgM cptr := c <- get_locals ;; ret (strs c m).
Definition member_flag (m : flag_member) : cfgM bool := c <- get_locals ;; ret (flags c m).
Definition member_num (m : num_member) : cfgM Z := c <- get_locals ;; ret (nums c m).

Definition c_assert {L} (b : bool) : M L unit :=
  if b then ret tt else if NDEBUG then ret tt else abort.

(** The members qd_server_config_free releases, in its order. *)
Definition freed_members : list str_member :=
  [f_host; f_port; f_host_port; f_role; f_http_root_dir; f_name; f_protocol_family;
   f_sasl_username; f_sasl_password; f_sasl_mechanisms; f_ssl_profile;
   f_failover_list; f_log_message;
   f_ssl_certificate_file; f_ssl_private_key_file; f_ssl_ciphers; f_ssl_protocols;
   f_ssl_password; f_ssl_trusted_certificate_db; f_ssl_trusted_certificates;
   f_ssl_uid_format; f_ssl_uid_name_mapping_file;
   spc_auth_service; spc_sasl_init_hostname; spc_ssl_certificate_file;
   spc_ssl_private_key_file; spc_ssl_ciphers; spc_ssl_protocols; spc_ssl_password;
   spc_ssl_trusted_certificate_db; spc_ssl_trusted_certificates; spc_ssl_uid_format;
   spc_ssl_uid_name_mapping_file].

Fixpoint free_members (ms : list str_member) : cfgM unit :=
  match ms with
  | [] => ret tt
  | m :: rest => p <- member_str m ;; free p ;; free_members rest
  end.

Definition qd_server_config_free : cfgM unit :=
  free_members freed_members ;;
  modify (fun _ => config_zero).

Definition set_config_host (entity : qd_entity_t) : cfgM unit :=
  h <- qd_entity_opt_string entity "host" None ;;
  assign_str f_host h ;;
  c_assert (negb (is_null h)) ;;
  hs <- read h ;;
  p <- member_str f_port ;;
  ps <- read p ;;
  hp <- new_string (hs ++ ":" ++ ps) ;;
  assign_str f_host_port hp.

(** The call of populate_log_message: its result, and what [strtok] does
    to the text in place. *)
Definition call_populate_log_message : cfgM Z :=
  p <- member_str f_log_message ;;
  t <- read_opt p ;;
  bits <- lift (LogMessage.populate_log_message t) ;;
  match t with
  | Some s =>
      if streq s LogMessage.NONE || streq s LogMessage.ALL then ret tt
      else write p (LogMessage.strtok_residue "," s)
  | None => ret tt
  end ;;
  ret bits.

(** [strstr(s, "EXTERNAL") != 0] *)
Definition mentions_external (s : string) : bool :=
  match String.index 0 "EXTERNAL" s with Some _ => true | None => false end.

(** The block [if (config->ssl_profile) { ... }]. *)
Definition load_ssl_profile (cm : qd_connection_manager_t) (requireSsl : bool)
  : cfgM unit :=
  sslp <- member_str f_ssl_profile ;;
  if is_null sslp then ret tt
  else
    assign_flag f_ssl_required requireSsl ;;
    mechs <- member_str f_sasl_mechanisms ;;
    mt <- read_opt mechs ;;
    assign_flag f_ssl_require_peer_authentication
                (match mt with Some s => mentions_external s | None => false end) ;;
    found <- qd_find_ssl_profile cm sslp ;;
    match found with
    | Some ssl_profile =>
        v <- SSTRDUP (sp ssl_profile p_ssl_certificate_file) ;;
        assign_str f_ssl_certificate_file v ;;
        v <- SSTRDUP (sp ssl_profile p_ssl_private_key_file) ;;
        assign_str f_ssl_private_key_file v ;;
        v <- SSTRDUP (sp ssl_profile p_ssl_ciphers) ;;
        assign_str f_ssl_ciphers v ;;
        v <- SSTRDUP (sp ssl_profile p_ssl_protocols) ;;
        assign_str f_ssl_protocols v ;;
        v <- SSTRDUP (sp ssl_profile p_ssl_password) ;;
        assign_str f_ssl_password v ;;
        v <- SSTRDUP (sp ssl_profile p_ssl_trusted_certificate_db) ;;
        assign_str f_ssl_trusted_certificate_db v ;;
        v <- SSTRDUP (sp ssl_profile p_ssl_trusted_certificates) ;;
        assign_str f_ssl_trusted_certificates v ;;
        v <- SSTRDUP (sp ssl_profile p_ssl_uid_format) ;;
        assign_str f_ssl_uid_format v ;;
        v <- SSTRDUP (sp ssl_profile p_uid_name_mapping_file) ;;
        assign_str f_ssl_uid_name_mapping_file v
    | None => ret tt
    end.

(** The copy of the auth channel's TLS material: [auth_ssl_profile] is
    the result of the lookup, dereferenced as it is. *)
Definition copy_auth_ssl_profile (auth_ssl_profile : option qd_config_ssl_profile_t)
  : cfgM unit :=
  match auth_ssl_profile with
  | None => undefined
  | Some auth_ssl_profile =>
      v <- SSTRDUP (sp auth_ssl_profile p_ssl_certificate_file) ;;
      assign_str spc_ssl_certificate_file v ;;
      v <- SSTRDUP (sp auth_ssl_profile p_ssl_private_key_file) ;;
      assign_str spc_ssl_private_key_file v ;;
      v <- SSTRDUP (sp auth_ssl_profile p_ssl_ciphers) ;;
      assign_str spc_ssl_ciphers v ;;
      v <- SSTRDUP (sp auth_ssl_profile p_ssl_protocols) ;;
      assign_str spc_ssl_protocols v ;;
      v <- SSTRDUP (sp auth_ssl_profile p_ssl_password) ;;
      assign_str spc_ssl_password v ;;
      v <- SSTRDUP (sp auth_ssl_profile p_ssl_trusted_certificate_db) ;;
      assign_str spc_ssl_trusted_certificate_db v ;;
      v <- SSTRDUP (sp auth_ssl_profile p_ssl_trusted_certificates) ;;
      assign_str spc_ssl_trusted_certificates v ;;
      v <- SSTRDUP (sp auth_ssl_profile p_ssl_uid_format) ;;
      assign_str spc_ssl_uid_format v ;;
      v <- SSTRDUP (sp auth_ssl_profile p_uid_name_mapping_file) ;;
      assign_str spc_ssl_uid_name_mapping_file v
  end.

(** The block [if (config->sasl_plugin) { ... }]. *)
Definition load_sasl_plugin (cm : qd_connection_manager_t) : cfgM unit :=
  sasl_plugin_name <- member_str f_sasl_plugin ;;
  if is_null sasl_plugin_name then ret tt
  else
    found <- qd_find_sasl_plugin cm sasl_plugin_name ;;
    match found with
    | Some sasl_plugin =>
        v <- SSTRDUP (auth_service sasl_plugin) ;;
        assign_str spc_auth_service v ;;
        v <- SSTRDUP (sasl_init_hostname sasl_plugin) ;;
        assign_str spc_sasl_init_hostname v ;;
        svc <- member_str spc_auth_service ;;
        svct <- read_opt svc ;;
        plg <- read_opt sasl_plugin_name ;;
        qd_log QD_LOG_INFO "Using auth service %s from  SASL Plugin %s"
               [LText svct; LText plg] ;;
        if is_null (auth_ssl_profile sasl_plugin) then
          assign_flag spc_use_ssl false
        else
          assign_flag spc_use_ssl true ;;
          auth_ssl <- qd_find_ssl_profile cm (auth_ssl_profile sasl_plugin) ;;
          copy_auth_ssl_profile auth_ssl
    | None =>
        plg <- read sasl_plugin_name ;;
        qd_error QD_ERROR_RUNTIME (format_text "Cannot find sasl plugin %s" [plg]) ;;
        CHECK
    end.

(** The statements of load_server_config up to the two profile blocks:
    the attributes, the defaults and the derived numbers.  The result is
    the value of [requireSsl], which the TLS block reads. *)
Definition load_attributes (entity : qd_entity_t) (is_listener : bool) : cfgM bool :=
  qd_error_clear ;;
  authenticatePeer <- qd_entity_opt_bool entity "authenticatePeer" false ;; CHECK ;;
  verifyHostName <- qd_entity_opt_bool entity "verifyHostname" true ;; CHECK ;;
  requireEncryption <- qd_entity_opt_bool entity "requireEncryption" false ;; CHECK ;;
  requireSsl <- qd_entity_opt_bool entity "requireSsl" false ;; CHECK ;;
  modify (fun _ => config_zero) ;;
  v <- qd_entity_opt_string entity "messageLoggingComponents" None ;;
  assign_str f_log_message v ;; CHECK ;;
  bits <- call_populate_log_message ;;
  assign_num f_log_bits bits ;;
  v <- qd_entity_get_string entity "port" ;; assign_str f_port v ;; CHECK ;;
  v <- qd_entity_opt_string entity "name" None ;; assign_str f_name v ;; CHECK ;;
  v <- qd_entity_get_string entity "role" ;; assign_str f_role v ;; CHECK ;;
  n <- qd_entity_opt_long entity "cost" 1 ;;
  assign_num f_inter_router_cost (to_int32 n) ;; CHECK ;;
  v <- qd_entity_opt_string entity "protocolFamily" None ;;
  assign_str f_protocol_family v ;; CHECK ;;
  b <- qd_entity_opt_bool entity "metrics" true ;; assign_flag f_metrics b ;; CHECK ;;
  b <- qd_entity_opt_bool entity "http" false ;; assign_flag f_http b ;; CHECK ;;
  v <- qd_entity_opt_string entity "httpRootDir" None ;;
  assign_str f_http_root_dir v ;; CHECK ;;
  http <- member_flag f_http ;;
  root <- member_str f_http_root_dir ;;
  assign_flag f_http (http || negb (is_null root)) ;;
  http <- member_flag f_http ;;
  (if http && is_null root then
     qd_log QD_LOG_INFO "HTTP service is requested but no httpRootDir specified. The router will serve AMQP-over-websockets but no static content." []
   else ret tt) ;;
  metrics <- member_flag f_metrics ;;
  (if metrics && negb http then
     qd_log QD_LOG_INFO "Metrics can only be exported on listener with http enabled." []
   else ret tt) ;;
  n <- qd_entity_get_long entity "maxFrameSize" ;;
  assign_num f_max_frame_size (to_uint32 n) ;; CHECK ;;
  n <- qd_entity_get_long entity "maxSessions" ;;
  assign_num f_max_sessions (to_uint32 n) ;; CHECK ;;
  n <- qd_entity_opt_long entity "maxSessionFrames" 0 ;;
  let ssn_frames := to_uint64 n in
  CHECK ;;
  n <- qd_entity_get_long entity "idleTimeoutSeconds" ;;
  assign_num f_idle_timeout_seconds (to_int32 n) ;; CHECK ;;
  (if is_listener then
     n <- qd_entity_get_long entity "initialHandshakeTimeoutSeconds" ;;
     assign_num f_initial_handshake_timeout_seconds (to_int32 n) ;; CHECK
   else ret tt) ;;
  v <- qd_entity_opt_string entity "saslUsername" None ;;
  assign_str f_sasl_username v ;; CHECK ;;
  v <- qd_entity_opt_string entity "saslPassword" None ;;
  assign_str f_sasl_password v ;; CHECK ;;
  v <- qd_entity_opt_string entity "saslMechanisms" None ;;
  assign_str f_sasl_mechanisms v ;; CHECK ;;
  v <- qd_entity_opt_string entity "sslProfile" None ;;
  assign_str f_ssl_profile v ;; CHECK ;;
  v <- qd_entity_opt_string entity "saslPlugin" None ;;
  assign_str f_sasl_plugin v ;; CHECK ;;
  n <- qd_entity_opt_long entity "linkCapacity" 0 ;;
  assign_num f_link_capacity (to_int32 n) ;; CHECK ;;
  b <- qd_entity_opt_bool entity "multiTenant" false ;;
  assign_flag f_multi_tenant b ;; CHECK ;;
  set_config_host entity ;;
  (* the defaults *)
  link_capacity <- member_num f_link_capacity ;;
  (if link_capacity =? 0 then assign_num f_link_capacity 250 else ret tt) ;;
  max_sessions <- member_num f_max_sessions ;;
  (if (max_sessions =? 0) || (32768 <? max_sessions)
   then assign_num f_max_sessions 32768 else ret tt) ;;
  max_frame_size <- member_num f_max_frame_size ;;
  (if max_frame_size <? QD_AMQP_MIN_MAX_FRAME_SIZE
   then assign_num f_max_frame_size QD_AMQP_MIN_MAX_FRAME_SIZE else ret tt) ;;
  (* session frame count and frame size give the incoming capacity *)
  max_frame_size <- member_num f_max_frame_size ;;
  let '(capacity, truncated) := incoming_capacity max_frame_size ssn_frames in
  assign_num f_incoming_capacity capacity ;;
  match truncated with
  | Some computed_ssn_frames =>
      nm <- member_str f_name ;; nmt <- read_opt nm ;;
      h <- member_str f_host ;; ht <- read_opt h ;;
      p <- member_str f_port ;; pt <- read_opt p ;;
      qd_log QD_LOG_WARNING
             ("Server configuation for I/O adapter entity name:'%s', host:'%s', port:'%s', requested maxSessionFrames truncated from %"
                ++ PRId64 ++ " to %" ++ PRId64)%string
             [LText nmt; LText ht; LText pt; LNum ssn_frames; LNum computed_ssn_frames]
  | None => ret tt
  end ;;
  assign_flag f_allowInsecureAuthentication true ;;
  assign_flag f_verify_host_name verifyHostName ;;
  stripAnnotations <- qd_entity_opt_string entity "stripAnnotations" None ;;
  st <- read_opt stripAnnotations ;;
  config <- get_locals ;;
  config <- lift (load_strip_annotations config st) ;;
  modify (fun _ => config) ;;
  free stripAnnotations ;;
  CHECK ;;
  assign_flag f_requireAuthentication authenticatePeer ;;
  assign_flag f_requireEncryption (requireEncryption || requireSsl) ;;
  ret requireSsl.

(** load_server_config: the configuration is the object the state
    carries; the result is the error code. *)
Definition load_server_config (cm : qd_connection_manager_t) (entity : qd_entity_t)
    (is_listener : bool) : cfgM qd_error_t :=
  on_error
    (requireSsl <- load_attributes entity is_listener ;;
     load_ssl_profile cm requireSsl ;;
     load_sasl_plugin cm ;;
     ret QD_ERROR_NONE)
    (qd_server_config_free ;;
     qd_error_code).

End LoadServerConfig.

(** ** Registration and deletion of a TLS profile *)

Section SslProfile.

(** The process environment and the file system, as [getenv] and
    [fopen(path, "r")] see them: the value of a variable, the bytes of a
    file that can be opened. *)
Variable getenv : string -> option string.
Variable fopen : string -> option string.

Definition cmM : Type -> Type := M qd_connection_manager_t.

(** The profile object at address [a] is an element of the collection;
    a write through the pointer is a write to that element. *)
Fixpoint profile_at (a : nat) (l : list qd_config_ssl_profile_t)
  : option qd_config_ssl_profile_t :=
  match l with
  | [] => None
  | p :: rest => if Nat.eqb (sp_addr p) a then Some p else profile_at a rest
  end.

Fixpoint profile_update (a : nat) (f : qd_config_ssl_profile_t -> qd_config_ssl_profile_t)
    (l : list qd_config_ssl_profile_t) : list qd_config_ssl_profile_t :=
  match l with
  | [] => []
  | p :: rest =>
      if Nat.eqb (sp_addr p) a then f p :: rest else p :: profile_update a f rest
  end.

Fixpoint profile_remove (a : nat) (l : list qd_config_ssl_profile_t)
  : list qd_config_ssl_profile_t :=
  match l with
  | [] => []
  | p :: rest => if Nat.eqb (sp_addr p) a then rest else p :: profile_remove a rest
  end.

Definition with_profiles (f : list qd_config_ssl_profile_t -> list qd_config_ssl_profile_t)
    (cm : qd_connection_manager_t) : qd_connection_manager_t :=
  {| config_ssl_profiles := f (config_ssl_profiles cm);
     config_sasl_plugins := config_sasl_plugins cm |}.

(** [ssl_profile->m] *)
Definition profile_member (ssl_profile : nat) (m : ssl_profile_member) : cmM cptr :=
  cm <- get_locals ;;
  match profile_at ssl_profile (config_ssl_profiles cm) with
  | Some p => ret (sp p m)
  | None => undefined
  end.

(** [ssl_profile->m = v] *)
Definition profile_assign (ssl_profile : nat) (m : ssl_profile_member) (v : cptr)
  : cmM unit :=
  modify (with_profiles (profile_update ssl_profile (sp_set m v))).

(** An address no profile of the collection has. *)
Definition fresh_profile_addr (l : list qd_config_ssl_profile_t) : nat :=
  S (fold_right Nat.max 0%nat (map sp_addr l)).

Fixpoint skip_spaces (s : string) : string :=
  match s with
  | String " " s' => skip_spaces s'
  | _ => s
  end.

Fixpoint drop (n : nat) (s : string) : string :=
  match n, s with
  | O, _ => s
  | S n', String _ s' => drop n' s'
  | S _, EmptyString => EmptyString
  end.

Definition qd_config_ssl_profile_process_password (ssl_profile : nat) : cmM unit :=
  pw <- profile_member ssl_profile p_ssl_password ;;
  if is_null pw then ret tt
  else
    text <- read pw ;;
    if String.prefix "env:" text then
      let env := skip_spaces (drop 4 text) in
      match getenv env with
      | Some passwd =>
          free pw ;;
          v <- new_string passwd ;;
          profile_assign ssl_profile p_ssl_password v
      | None =>
          qd_error QD_ERROR_NOT_FOUND
                   "Failed to find a password in the environment variable"
      end
    else if String.prefix "literal:" text then
      copy <- new_string (skip_spaces (drop 8 text)) ;;
      free pw ;;
      profile_assign ssl_profile p_ssl_password copy
    else ret tt.

(** The members config_ssl_profile_free releases, in its order. *)
Definition profile_members : list ssl_profile_member :=
  [p_name; p_ssl_password; p_ssl_trusted_certificate_db; p_ssl_trusted_certificates;
   p_ssl_uid_format; p_uid_name_mapping_file; p_ssl_certificate_file;
   p_ssl_private_key_file; p_ssl_ciphers; p_ssl_protocols].

Fixpoint free_profile_members (p : qd_config_ssl_profile_t) (ms : list ssl_profile_member)
  : cmM unit :=
  match ms with
  | [] => ret tt
  | m :: rest => free (sp p m) ;; free_profile_members p rest
  end.

Definition config_ssl_profile_free (ssl_profile : nat) : cmM bool :=
  cm <- get_locals ;;
  match profile_at ssl_profile (config_ssl_profiles cm) with
  | None => undefined
  | Some p =>
      modify (with_profiles (profile_remove ssl_profile)) ;;
      free_profile_members p profile_members ;;
      ret true
  end.

(** The bytes the [fgetc] loop stores: up to [n] of them, ended by a
    newline or the end of the file. *)
Fixpoint read_line (n : nat) (file : string) : string :=
  match n, file with
  | S n', String c rest =>
      if Ascii.eqb c "010" then EmptyString else String c (read_line n' rest)
  | _, _ => EmptyString
  end.

(** The C string a buffer holds: its bytes up to the first zero. *)
Fixpoint c_str (buffer : string) : string :=
  match buffer with
  | EmptyString => EmptyString
  | String c rest => if Ascii.eqb c zero then EmptyString else String c (c_str rest)
  end.

Definition entity_member (entity : qd_entity_t) (ssl_profile : nat)
    (m : ssl_profile_member) (attribute : string) : cmM unit :=
  v <- qd_entity_opt_string entity attribute None ;;
  profile_assign ssl_profile m v ;;
  CHECK.

(** qd_dispatch_configure_ssl_profile: the address of the new profile, or
    [None] for the null result. *)
Definition qd_dispatch_configure_ssl_profile (entity : qd_entity_t) : cmM (option nat) :=
  cm <- get_locals ;;
  let ssl_profile := fresh_profile_addr (config_ssl_profiles cm) in
  on_error
    (qd_error_clear ;;
     modify (with_profiles
               (fun l => l ++ [{| sp_addr := ssl_profile; sp := fun _ => Indeterminate |}])) ;;
     entity_member entity ssl_profile p_name "name" ;;
     entity_member entity ssl_profile p_ssl_certificate_file "certFile" ;;
     entity_member entity ssl_profile p_ssl_private_key_file "privateKeyFile" ;;
     entity_member entity ssl_profile p_ssl_password "password" ;;
     pw <- profile_member ssl_profile p_ssl_password ;;
     (if is_null pw then
        password_file <- qd_entity_opt_string entity "passwordFile" None ;;
        CHECK ;;
        (if is_null password_file then ret tt
         else
           path <- read password_file ;;
           match fopen path with
           | Some file =>
               let buffer := read_line 199 file in
               if (String.length buffer =? 0)%nat then ret tt
               else
                 old <- profile_member ssl_profile p_ssl_password ;;
                 free old ;;
                 v <- new_string (c_str buffer) ;;
                 profile_assign ssl_profile p_ssl_password v
           | None => ret tt
           end) ;;
        free password_file
      else
        qd_log QD_LOG_WARNING
               "Attribute password of entity sslProfile has been deprecated. Use passwordFile instead."
               []) ;;
     entity_member entity ssl_profile p_ssl_ciphers "ciphers" ;;
     entity_member entity ssl_profile p_ssl_protocols "protocols" ;;
     entity_member entity ssl_profile p_ssl_trusted_certificate_db "caCertFile" ;;
     entity_member entity ssl_profile p_ssl_trusted_certificates "trustedCertsFile" ;;
     entity_member entity ssl_profile p_ssl_uid_format "uidFormat" ;;
     entity_member entity ssl_profile p_uid_name_mapping_file "uidNameMappingFile" ;;
     qd_config_ssl_profile_process_password ssl_profile ;;
     CHECK ;;
     nm <- profile_member ssl_profile p_name ;;
     nmt <- read_opt nm ;;
     qd_log QD_LOG_INFO "Created SSL Profile with name %s " [LText nmt] ;;
     ret (Some ssl_profile))
    (msg <- qd_error_message ;;
     qd_log QD_LOG_ERROR "Unable to create ssl profile: %s" [LText (Some msg)] ;;
     config_ssl_profile_free ssl_profile ;;
     ret None).

End SslProfile.

(** ** Start and deletion of listeners and connectors *)

Module Lifecycle.

(** qd_listener_t, with the members the source uses; [li_addr] is the
    address of the object and [pn_listener] the accept channel it holds
    while it is accepting. *)
Record qd_listener_t : Type := {
  li_addr : nat;
  pn_listener : option nat;
  exit_on_error : bool
}.

(** The I/O driver (server.c, not among the sources), as start() calls
    it: [qd_listener_listen] gives the listener as the attempt leaves it
    and whether it succeeded, [qd_connector_connect] the connector as the
    attempt leaves it. *)
Record driver : Type := {
  qd_listener_listen : qd_listener_t -> qd_listener_t * bool;
  qd_connector_connect : qd_connector_t -> qd_connector_t
}.

(** The calls that leave the connection manager, each with the object as
    it was when the call was made. *)
Inductive event : Type :=
| Listen (li : qd_listener_t)
| Connect (ct : qd_connector_t)
| InvokeDeferredClose (pn_conn : nat)
| DeqRemove (ct : nat)
| Decref (ct : nat).

(** The connection manager's listeners and connectors.  The listeners
    are in the collection by value.  The connector collection holds
    addresses, the objects are in [connector_objects]: an object whose
    reference count has not reached zero outlives its place in the
    collection.  [first_start] is the function-static flag of start(). *)
Record manager : Type := {
  listeners : list qd_listener_t;
  connectors : list nat;
  connector_objects : list qd_connector_t;
  first_start : bool
}.

Definition set_exit_on_error (b : bool) (li : qd_listener_t) : qd_listener_t :=
  {| li_addr := li_addr li; pn_listener := pn_listener li; exit_on_error := b |}.

Fixpoint object_at (a : nat) (objs : list qd_connector_t) : option qd_connector_t :=
  match objs with
  | [] => None
  | o :: rest => if Nat.eqb (ct_addr o) a then Some o else object_at a rest
  end.

Fixpoint object_store (o : qd_connector_t) (objs : list qd_connector_t)
  : list qd_connector_t :=
  match objs with
  | [] => []
  | x :: rest =>
      if Nat.eqb (ct_addr x) (ct_addr o) then o :: rest else x :: object_store o rest
  end.

Definition object_free (a : nat) (objs : list qd_connector_t) : list qd_connector_t :=
  filter (fun x => negb (Nat.eqb (ct_addr x) a)) objs.

Definition connector_active (ct : qd_connector_t) : bool :=
  match state ct with
  | CXTR_STATE_OPEN | CXTR_STATE_CONNECTING => true
  | _ => false
  end.

Definition listener_active (li : qd_listener_t) : bool :=
  match pn_listener li with Some _ => true | None => false end.

(** The [while (li)] loop of qd_connection_manager_start: the listeners
    as it leaves them and the calls it made; [exit(1)] ends the process. *)
Fixpoint start_listeners (d : driver) (first_start : bool) (li : list qd_listener_t)
  : outcome (list qd_listener_t * list event) :=
  match li with
  | [] => Done ([], [])
  | l :: next =>
      match pn_listener l with
      | None =>
          let '(l', ok) := qd_listener_listen d l in
          if negb ok && first_start then Aborted
          else
            obind (start_listeners d first_start next)
                  (fun '(rest, evs) =>
                     Done (set_exit_on_error first_start l' :: rest, Listen l :: evs))
      | Some _ =>
          obind (start_listeners d first_start next)
                (fun '(rest, evs) => Done (l :: rest, evs))
      end
  end.

(** The [while (ct)] loop. *)
Fixpoint start_connectors (d : driver) (ct : list nat) (objs : list qd_connector_t)
  : outcome (list qd_connector_t * list event) :=
  match ct with
  | [] => Done (objs, [])
  | a :: next =>
      match object_at a objs with
      | None => Undefined
      | Some c =>
          if connector_active c then start_connectors d next objs
          else
            obind (start_connectors d next (object_store (qd_connector_connect d c) objs))
                  (fun '(objs', evs) => Done (objs', Connect c :: evs))
      end
  end.

Definition qd_connection_manager_start (d : driver) (m : manager)
  : outcome (manager * list event) :=
  obind (start_listeners d (first_start m) (listeners m)) (fun '(lis, evs1) =>
  obind (start_connectors d (connectors m) (connector_objects m)) (fun '(objs, evs2) =>
  Done ({| listeners := lis;
           connectors := connectors m;
           connector_objects := objs;
           first_start := false |}, evs1 ++ evs2))).

(** Modelled from the spec: the DEQ macros are in ctools.h, which is
    not among the sources.  "Detach from the collection": the place of
    [ct] in the collection is given up. *)
Fixpoint deq_remove (a : nat) (l : list nat) : list nat :=
  match l with
  | [] => []
  | x :: rest => if Nat.eqb x a then rest else x :: deq_remove a rest
  end.

(** Modelled from the spec: qd_connector_decref is in server.c, which is
    not among the sources.  "Connector/Listener handle:
    reference-counted": a release takes one reference away, and the
    object goes with the last one. *)
Definition qd_connector_decref (c : qd_connector_t) (objs : list qd_connector_t)
  : list qd_connector_t :=
  if ref_count c =? 1 then object_free (ct_addr c) objs
  else
    object_store {| ct_addr := ct_addr c; state := state c; ctx := ctx c;
                    conn_index := conn_index c; conn_info_list := conn_info_list c;
                    ref_count := ref_count c - 1 |} objs.

Definition clear_backref (c : qd_connector_t) : qd_connector_t :=
  {| ct_addr := ct_addr c; state := state c;
     ctx := match ctx c with
            | Some cx => Some {| connector := None; pn_conn := pn_conn cx |}
            | None => None
            end;
     conn_index := conn_index c; conn_info_list := conn_info_list c;
     ref_count := ref_count c |}.

(** qd_connection_manager_delete_connector, on the handle [impl]
    ([None] for a null pointer): a handle whose object is gone is a
    dangling pointer. *)
Definition qd_connection_manager_delete_connector (m : manager) (impl : option nat)
  : outcome (manager * list event) :=
  match impl with
  | None => Done (m, [])
  | Some a =>
      match object_at a (connector_objects m) with
      | None => Undefined
      | Some ct =>
          let evs :=
            match ctx ct with
            | Some cx =>
                match pn_conn cx with
                | Some pn => [InvokeDeferredClose pn]
                | None => []
                end
            | None => []
            end in
          let ct := clear_backref ct in
          let objs := object_store ct (connector_objects m) in
          Done ({| listeners := listeners m;
                   connectors := deq_remove a (connectors m);
                   connector_objects := qd_connector_decref ct objs;
                   first_start := first_start m |},
                evs ++ [DeqRemove a; Decref a])
      end
  end.

End Lifecycle.

(** ** More of connection_manager.c *)

(** *** is_log_component_enabled *)

(** The [for(int i=0;;i++)] loop of is_log_component_enabled over the
    null-terminated table: the value of the [return] statement it
    reaches. *)
Fixpoint enabled_loop (components : list string) (i : Z) (log_message : Z)
    (component_name : string) : Z :=
  match components with
  | [] => 0
  | component :: rest =>
      if streq component_name component then Z.land (Z.shiftr log_message i) 1
      else enabled_loop rest (i + 1) log_message component_name
  end.

(** is_log_component_enabled: the [int] converted to the [bool] result. *)
Definition is_log_component_enabled (log_message : Z) (component_name : string) : bool :=
  negb (enabled_loop LogMessage.qd_log_message_components 0 log_message component_name =? 0).


(** qd_connection_manager_delete_ssl_profile, on the address [impl] of
    the profile. *)
Definition qd_connection_manager_delete_ssl_profile (impl : nat) : cmM unit :=
  config_ssl_profile_free impl ;;
  ret tt.

(** ** Creation of a connector *)

Section ConfigureConnector.

Variable NDEBUG : bool.
Variable sizeof_size_t : Z.

(** log_config, on the configuration the state carries. *)
Definition log_config (what : string) : cfgM unit :=
  c <- get_locals ;;
  host_port <- read_opt (strs c f_host_port) ;;
  protocol_family <- read_opt (strs c f_protocol_family) ;;
  role <- read_opt (strs c f_role) ;;
  ssl_profile <- read_opt (strs c f_ssl_profile) ;;
  qd_log QD_LOG_INFO "Configured %s: %s proto=%s, role=%s%s%s%s"
         [LText (Some what); LText host_port;
          LText (Some match protocol_family with Some s => s | None => "any"%string end);
          LText role;
          LText (Some (if flags c f_http then ", http" else "")%string);
          LText (Some match ssl_profile with
                      | Some _ => ", sslProfile="%string
                      | None => ""%string
                      end);
          LText (Some match ssl_profile with Some s => s | None => ""%string end)].

(** The connector with one more item at the tail of its list. *)
Definition with_item (ct : qd_connector_t) (item : qd_failover_item_t) : qd_connector_t :=
  {| ct_addr := ct_addr ct; state := state ct; ctx := ctx ct; conn_index := conn_index ct;
     conn_info_list := conn_info_list ct ++ [item]; ref_count := ref_count ct |}.

(** [DEQ_INSERT_TAIL(cm->connectors, ct)] *)
Definition insert_connector (ct : qd_connector_t) (m : Lifecycle.manager)
  : Lifecycle.manager :=
  {| Lifecycle.listeners := Lifecycle.listeners m;
     Lifecycle.connectors := Lifecycle.connectors m ++ [ct_addr ct];
     Lifecycle.connector_objects := Lifecycle.connector_objects m ++ [ct];
     Lifecycle.first_start := Lifecycle.first_start m |}.

(** qd_dispatch_configure_connector.  [server_connector] is what
    qd_server_connector returned ([None] for a null pointer); the
    configuration of the connector is the one the state carries.  The
    result is the connector ([None] for the null result), the manager,
    and the calls that leave the connection manager.  The lengths are
    added into an [int]. *)
Definition qd_dispatch_configure_connector (cm : qd_connection_manager_t)
    (entity : qd_entity_t) (server_connector : option qd_connector_t)
    (m : Lifecycle.manager)
  : cfgM (option qd_connector_t * Lifecycle.manager * list Lifecycle.event) :=
  let failed :=
    msg <- qd_error_message ;;
    qd_log QD_LOG_ERROR "Unable to create connector: %s" [LText (Some msg)] ;;
    ret (None, m,
         match server_connector with
         | Some ct => [Lifecycle.Decref (ct_addr ct)]
         | None => []
         end) in
  match server_connector with
  | Some ct =>
      code <- load_server_config NDEBUG sizeof_size_t cm entity false ;;
      if is_error code then failed
      else
        log_config "Connector" ;;
        c <- get_locals ;;
        h <- read (strs c f_host) ;;
        p <- read (strs c f_port) ;;
        if INT_MAX <? strlen h + strlen p + 2 then undefined
        else
          let ct := with_item ct (Failover.own_address (flags c f_ssl_required) h p) in
          ret (Some ct, insert_connector ct m, [])
  | None => failed
  end.

End ConfigureConnector.

(** ** Registration of an auth plugin *)

Section SaslPlugin.

(** The object of the plugin being created is the last element of the
    collection, where DEQ_INSERT_TAIL put it: a read or a write
    through the pointer is a read or a write of that element. *)
Definition last_plugin (l : list qd_config_sasl_plugin_t) : option qd_config_sasl_plugin_t :=
  match rev l with
  | p :: _ => Some p
  | [] => None
  end.

Definition update_last (f : qd_config_sasl_plugin_t -> qd_config_sasl_plugin_t)
    (l : list qd_config_sasl_plugin_t) : list qd_config_sasl_plugin_t :=
  match rev l with
  | p :: before => rev before ++ [f p]
  | [] => []
  end.

Definition with_plugins
    (f : list qd_config_sasl_plugin_t -> list qd_config_sasl_plugin_t)
    (cm : qd_connection_manager_t) : qd_connection_manager_t :=
  {| config_ssl_profiles := config_ssl_profiles cm;
     config_sasl_plugins := f (config_sasl_plugins cm) |}.

(** The members of qd_config_sasl_plugin_t. *)
Inductive plugin_member : Type :=
| g_name
| g_auth_service
| g_sasl_init_hostname
| g_auth_ssl_profile.

Scheme Equality for plugin_member.

Definition pg (p : qd_config_sasl_plugin_t) (m : plugin_member) : cptr :=
  match m with
  | g_name => name p
  | g_auth_service => auth_service p
  | g_sasl_init_hostname => sasl_init_hostname p
  | g_auth_ssl_profile => auth_ssl_profile p
  end.

Definition pg_set (m : plugin_member) (v : cptr) (p : qd_config_sasl_plugin_t)
  : qd_config_sasl_plugin_t :=
  {| name := if plugin_member_beq g_name m then v else name p;
     auth_service := if plugin_member_beq g_auth_service m then v else auth_service p;
     sasl_init_hostname :=
       if plugin_member_beq g_sasl_init_hostname m then v else sasl_init_hostname p;
     auth_ssl_profile :=
       if plugin_member_beq g_auth_ssl_profile m then v else auth_ssl_profile p |}.

(** [sasl_plugin->m] *)
Definition plugin_read (m : plugin_member) : cmM cptr :=
  cm <- get_locals ;;
  match last_plugin (config_sasl_plugins cm) with
  | Some p => ret (pg p m)
  | None => undefined
  end.

(** [sasl_plugin->m = v] *)
Definition plugin_assign (m : plugin_member) (v : cptr) : cmM unit :=
  modify (with_plugins (update_last (pg_set m v))).

(** config_sasl_plugin_free, on the plugin being created. *)
Definition config_sasl_plugin_free : cmM bool :=
  cm <- get_locals ;;
  match last_plugin (config_sasl_plugins cm) with
  | None => undefined
  | Some p =>
      modify (with_plugins (@removelast _)) ;;
      free (name p) ;;
      free (auth_service p) ;;
      free (sasl_init_hostname p) ;;
      free (auth_ssl_profile p) ;;
      ret true
  end.

(** [snprintf(buffer, size, "%s:%s", a, b)]: at most [size - 1] bytes
    of the text, and the terminator. *)
Definition snprintf_pair (size : Z) (a b : string) : string :=
  substring 0 (Z.to_nat (size - 1)) (a ++ ":" ++ b).

(** qd_dispatch_configure_sasl_plugin: the new plugin as it is on
    return, or [None] for the null result.  The lengths go through
    [int] variables. *)
Definition qd_dispatch_configure_sasl_plugin (entity : qd_entity_t)
  : cmM (option qd_config_sasl_plugin_t) :=
  on_error
    (qd_error_clear ;;
     modify (with_plugins
               (fun l => l ++ [{| name := NULL; auth_service := NULL;
                                  sasl_init_hostname := NULL; auth_ssl_profile := NULL |}])) ;;
     v <- qd_entity_opt_string entity "name" None ;;
     plugin_assign g_name v ;;
     CHECK ;;
     auth_host <- qd_entity_opt_string entity "host" None ;;
     auth_port <- qd_entity_opt_string entity "port" None ;;
     (if negb (is_null auth_host) && negb (is_null auth_port) then
        host_text <- read auth_host ;;
        port_text <- read auth_port ;;
        let strlen_auth_host := to_int32 (strlen host_text) in
        let strlen_auth_port := to_int32 (strlen port_text) in
        if (0 <? strlen_auth_host) && (0 <? strlen_auth_port) then
          let hplen := to_int32 (strlen host_text + strlen port_text + 2) in
          if 2 <? hplen then
            v <- new_string (snprintf_pair hplen host_text port_text) ;;
            plugin_assign g_auth_service v
          else ret tt
        else ret tt
      else ret tt) ;;
     free auth_host ;;
     free auth_port ;;
     service <- plugin_read g_auth_service ;;
     (if is_null service then
        v <- qd_entity_opt_string entity "authService" None ;;
        plugin_assign g_auth_service v ;;
        CHECK ;;
        qd_log QD_LOG_WARNING
               "Attribute authService of entity authServicePlugin has been deprecated. Use host and port instead."
               []
      else ret tt) ;;
     v <- qd_entity_opt_string entity "realm" None ;;
     plugin_assign g_sasl_init_hostname v ;;
     CHECK ;;
     v <- qd_entity_opt_string entity "sslProfile" None ;;
     plugin_assign g_auth_ssl_profile v ;;
     CHECK ;;
     nm <- plugin_read g_name ;;
     nmt <- read_opt nm ;;
     qd_log QD_LOG_INFO "Created SASL plugin config with name %s" [LText nmt] ;;
     cm <- get_locals ;;
     ret (last_plugin (config_sasl_plugins cm)))
    (msg <- qd_error_message ;;
     qd_log QD_LOG_ERROR "Unable to create SASL plugin config: %s" [LText (Some msg)] ;;
     config_sasl_plugin_free ;;
     ret None).

End SaslPlugin.

(** ** Well-formed inputs of a resolution *)

(** An optional attribute is absent or of its kind; a required one is
    there and of its kind. *)
Definition opt_string_ok (entity : qd_entity_t) (attribute : string) : bool :=
  match entity_get entity attribute with
  | None | Some (AString _) => true
  | _ => false
  end.

Definition opt_long_ok (entity : qd_entity_t) (attribute : string) : bool :=
  match entity_get entity attribute with
  | None | Some (ALong _) => true
  | _ => false
  end.

Definition opt_bool_ok (entity : qd_entity_t) (attribute : string) : bool :=
  match entity_get entity attribute with
  | None | Some (ABool _) => true
  | _ => false
  end.

Definition req_string_ok (entity : qd_entity_t) (attribute : string) : bool :=
  match entity_get entity attribute with
  | Some (AString _) => true
  | _ => false
  end.

Definition req_long_ok (entity : qd_entity_t) (attribute : string) : bool :=
  match entity_get entity attribute with
  | Some (ALong _) => true
  | _ => false
  end.

(** An endpoint description load_server_config reads without a failure:
    every attribute it asks for is of its kind, the required ones and
    the host are there, and [stripAnnotations] is there unless
    assertions are compiled out. *)
Definition valid_server_entity (NDEBUG : bool) (entity : qd_entity_t) (is_listener : bool)
  : bool :=
  forallb (opt_bool_ok entity)
          ["authenticatePeer"; "verifyHostname"; "requireEncryption"; "requireSsl";
           "metrics"; "http"; "multiTenant"]%string &&
  forallb (opt_string_ok entity)
          ["messageLoggingComponents"; "name"; "protocolFamily"; "httpRootDir";
           "saslUsername"; "saslPassword"; "saslMechanisms"; "sslProfile";
           "saslPlugin"; "stripAnnotations"]%string &&
  forallb (req_string_ok entity) ["port"; "role"; "host"]%string &&
  forallb (opt_long_ok entity) ["cost"; "maxSessionFrames"; "linkCapacity"]%string &&
  forallb (req_long_ok entity)
          ["maxFrameSize"; "maxSessions"; "idleTimeoutSeconds"]%string &&
  (negb is_listener || req_long_ok entity "initialHandshakeTimeoutSeconds") &&
  (NDEBUG || match entity_get entity "stripAnnotations" with Some _ => true | None => false end).

(** The text behind a pointer in a heap: [Some None] for a null pointer,
    [None] for a pointer that is not valid. *)
Definition text_at (h : heap_t) (p : cptr) : option (option string) :=
  match p with
  | NULL => Some None
  | Ptr a => option_map Some (heap_read h a)
  | Indeterminate => None
  end.

(** The first profile of the collection with the given name, as
    qd_find_ssl_profile finds it in a heap where the names are valid. *)
Fixpoint ssl_profile_named (h : heap_t) (l : list qd_config_ssl_profile_t) (nm : string)
  : option qd_config_ssl_profile_t :=
  match l with
  | [] => None
  | p :: rest =>
      match text_at h (sp p p_name) with
      | Some (Some s) => if streq s nm then Some p else ssl_profile_named h rest nm
      | _ => None
      end
  end.

Fixpoint sasl_plugin_named (h : heap_t) (l : list qd_config_sasl_plugin_t) (nm : string)
  : option qd_config_sasl_plugin_t :=
  match l with
  | [] => None
  | p :: rest =>
      match text_at h (name p) with
      | Some (Some s) => if streq s nm then Some p else sasl_plugin_named h rest nm
      | _ => None
      end
  end.

Definition valid_ptr (h : heap_t) (p : cptr) : bool :=
  match text_at h p with Some _ => true | None => false end.

Definition named_ptr (h : heap_t) (p : cptr) : bool :=
  match text_at h p with Some (Some _) => true | _ => false end.

(** The registered profiles are well formed in a heap: every member
    points to a live block or is null, and the names are not null. *)
Definition registry_ok (h : heap_t) (cm : qd_connection_manager_t) : bool :=
  forallb (fun p => named_ptr h (sp p p_name) &&
                    forallb (fun m => valid_ptr h (sp p m))
                            [p_name; p_ssl_password; p_ssl_trusted_certificate_db;
                             p_ssl_trusted_certificates; p_ssl_uid_format;
                             p_uid_name_mapping_file; p_ssl_certificate_file;
                             p_ssl_private_key_file; p_ssl_ciphers; p_ssl_protocols])
          (config_ssl_profiles cm) &&
  forallb (fun p => named_ptr h (name p) && valid_ptr h (auth_service p) &&
                    valid_ptr h (sasl_init_hostname p) && valid_ptr h (auth_ssl_profile p))
          (config_sasl_plugins cm).

(** The TLS members of the endpoint's configuration, each with the
    profile member it is copied from, and those of the auth channel. *)
Definition tls_members : list (str_member * ssl_profile_member) :=
  [(f_ssl_certificate_file, p_ssl_certificate_file);
   (f_ssl_private_key_file, p_ssl_private_key_file);
   (f_ssl_ciphers, p_ssl_ciphers);
   (f_ssl_protocols, p_ssl_protocols);
   (f_ssl_password, p_ssl_password);
   (f_ssl_trusted_certificate_db, p_ssl_trusted_certificate_db);
   (f_ssl_trusted_certificates, p_ssl_trusted_certificates);
   (f_ssl_uid_format, p_ssl_uid_format);
   (f_ssl_uid_name_mapping_file, p_uid_name_mapping_file)].

Definition auth_tls_members : list (str_member * ssl_profile_member) :=
  [(spc_ssl_certificate_file, p_ssl_certificate_file);
   (spc_ssl_private_key_file, p_ssl_private_key_file);
   (spc_ssl_ciphers, p_ssl_ciphers);
   (spc_ssl_protocols, p_ssl_protocols);
   (spc_ssl_password, p_ssl_password);
   (spc_ssl_trusted_certificate_db, p_ssl_trusted_certificate_db);
   (spc_ssl_trusted_certificates, p_ssl_trusted_certificates);
   (spc_ssl_uid_format, p_ssl_uid_format);
   (spc_ssl_uid_name_mapping_file, p_uid_name_mapping_file)].

(** ** The vocabulary of the proofs *)

(** *** Inputs and log entries *)

(** The text a pointer of the heap on entry points to. *)
Definition old_text (h0 : heap_t) (p : cptr) : option string :=
  match text_at h0 p with Some o => o | None => None end.

(** The auth block ends without an error: no plugin is named, or the
    plugin is registered and the TLS profile it names, if any, is too. *)
Definition auth_plugin_resolves (h0 : heap_t) (cm : qd_connection_manager_t)
    (entity : qd_entity_t) : bool :=
  match string_attr entity "saslPlugin" with
  | None => true
  | Some nm =>
      match sasl_plugin_named h0 (config_sasl_plugins cm) nm with
      | None => false
      | Some plg =>
          match old_text h0 (auth_ssl_profile plg) with
          | None => true
          | Some pn =>
              match ssl_profile_named h0 (config_ssl_profiles cm) pn with
              | Some _ => true
              | None => false
              end
          end
      end
  end.

(** An entity qd_dispatch_configure_ssl_profile reads without a
    failure: every attribute it asks for is absent or a text. *)
Definition valid_profile_entity (entity : qd_entity_t) : bool :=
  forallb (opt_string_ok entity)
          ["name"; "certFile"; "privateKeyFile"; "password"; "passwordFile"; "ciphers";
           "protocols"; "caCertFile"; "trustedCertsFile"; "uidFormat";
           "uidNameMappingFile"]%string.

(** The entry the auth block logs for a plugin that is found. *)
Definition plugin_log (h0 : heap_t) (plg : qd_config_sasl_plugin_t) (nm : string) : log_entry :=
  {| level := QD_LOG_INFO;
     format := "Using auth service %s from  SASL Plugin %s";
     args := [LText (old_text h0 (auth_service plg)); LText (Some nm)] |}.

(** The entry of the log when a registration succeeds. *)
Definition created_log (nm : option string) : log_entry :=
  {| level := QD_LOG_INFO; format := "Created SSL Profile with name %s ";
     args := [LText nm] |}.

(** The entry of the log when a registration fails. *)
Definition failure_log (msg : string) : log_entry :=
  {| level := QD_LOG_ERROR; format := "Unable to create ssl profile: %s";
     args := [LText (Some msg)] |}.

(** The two stripping flags of a configuration that was produced. *)
Definition strip_flags (config : outcome qd_server_config_t) : option (bool * bool) :=
  match config with
  | Done c => Some (flags c f_strip_inbound_annotations, flags c f_strip_outbound_annotations)
  | _ => None
  end.

(** *** The failover list as text *)

Module FailoverSpec.
Import Failover.

(** The text the items of a run contribute, without separators. *)
Definition text_len (l : list qd_failover_item_t) : Z :=
  fold_right (fun it acc => strlen (failover_url it) + acc) 0 l.

(** A run of items, each behind a separator. *)
Definition sep_urls (l : list qd_failover_item_t) : string :=
  fold_right (fun it acc => (", " ++ failover_url it ++ acc)%string) ""%string l.

End FailoverSpec.

(** *** The bits of the logging components *)

Module LogMessageSpec.

(** Which component, counted from [i], a token sets bit [j] for. *)
Fixpoint hits (components : list string) (i : Z) (token : string) (j : Z) : bool :=
  match components with
  | [] => false
  | component :: rest => (streq component token && (i =? j)) || hits rest (i + 1) token j
  end.

End LogMessageSpec.

(** *** Start *)

Module LifecycleSpec.
Import Lifecycle.

(** The connector at an address is connecting or open. *)
Definition active_at (a : nat) (objs : list qd_connector_t) : Prop :=
  exists c, object_at a objs = Some c /\ connector_active c = true.

(** What a call of start() may attempt, given the manager it starts from. *)
Definition attempts_only_inactive (m : manager) (evs : list event) : Prop :=
  forall ev, In ev evs ->
    (exists li, ev = Listen li /\ In li (listeners m) /\ listener_active li = false) \/
    (exists c, ev = Connect c /\ In (ct_addr c) (connectors m) /\ connector_active c = false).

(** The deferred closes that one invocation of delete_connector
    enqueues for a connector: one where its context holds a connection. *)
Definition deferred_closes (ct : qd_connector_t) : list event :=
  match ctx ct with
  | Some cx => match pn_conn cx with
               | Some pn => [InvokeDeferredClose pn]
               | None => []
               end
  | None => []
  end.

(** The context of a connector after delete_connector: the same
    context, without its reference back to the connector. *)
Definition detached_context (ct : qd_connector_t) : option qd_connection_t :=
  match ctx ct with
  | Some cx => Some {| connector := None; pn_conn := pn_conn cx |}
  | None => None
  end.

End LifecycleSpec.

(** *** Objects that own their strings *)

Module Ownership.

(** What a member of the object under construction holds: nothing yet,
    a null pointer, or a text in a block of its own. *)
Inductive slot : Type :=
| Unset
| Null
| Text (s : string).

Definition slot_of (o : option string) : slot :=
  match o with Some s => Text s | None => Null end.

Definition slot_text (t : slot) : option string :=
  match t with Text s => Some s | _ => None end.

Definition is_set (t : slot) : bool :=
  match t with Unset => false | _ => true end.

Section Owned.

Context {Mem : Type}.
Variable beq : Mem -> Mem -> bool.

(** The heap on entry: its blocks belong to others. *)
Variable h0 : heap_t.

Definition upd {X} (g : Mem -> X) (m : Mem) (x : X) : Mem -> X :=
  fun m' => if beq m' m then x else g m'.

Definition slot_ok (h : heap_t) (p : cptr) (t : slot) : Prop :=
  match p, t with
  | Indeterminate, Unset => True
  | NULL, Null => True
  | Ptr a, Text s => (List.length h0 <= a)%nat /\ heap_read h a = Some s
  | _, _ => False
  end.

(** The members [f] of the object own their blocks in [h]: the blocks
    were allocated after entry, hold the texts [T], and no two members
    share one; the blocks of the heap on entry are as they were. *)
Record owns (h : heap_t) (f : Mem -> cptr) (T : Mem -> slot) : Prop := {
  owns_old : forall a, (a < List.length h0)%nat -> nth_error h a = nth_error h0 a;
  owns_len : (List.length h0 <= List.length h)%nat;
  owns_txt : forall m, slot_ok h (f m) (T m);
  owns_inj : forall m1 m2 a, f m1 = Ptr a -> f m2 = Ptr a -> m1 = m2
}.

End Owned.

Definition opt_ptr (o : option string) (h : heap_t) : cptr :=
  match o with Some _ => Ptr (List.length h) | None => NULL end.

Definition opt_cell (o : option string) : heap_t :=
  match o with Some s => [Some s] | None => [] end.

(** A fresh copy of a text, or a null pointer for none. *)
Definition opt_new_string {L} (o : option string) : M L cptr :=
  match o with
  | Some s => new_string s
  | None => ret NULL
  end.

Definition cowns (h0 h : heap_t) (c : qd_server_config_t) (T : str_member -> slot) : Prop :=
  owns h0 h (strs c) T.

Definition tupd (T : str_member -> slot) (m : str_member) (t : slot) : str_member -> slot :=
  upd str_member_beq T m t.

(** The bits of the logging components, and the text [strtok] leaves. *)
Definition log_bits (o : option string) : Z :=
  match LogMessage.populate_log_message o with Done z => z | _ => 0 end.

Definition residue_slot (t : slot) : slot :=
  match t with
  | Text s =>
      Text (if streq s LogMessage.NONE || streq s LogMessage.ALL then s
            else LogMessage.strtok_residue "," s)
  | t => t
  end.

(** A configuration that differs from [c] in one number at most. *)
Definition num_update (c c' : qd_server_config_t) (m : num_member) (v : Z) : Prop :=
  strs c' = strs c /\ flags c' = flags c /\
  forall m', nums c' m' = if num_member_beq m' m then v else nums c m'.

(** What load_strip_annotations makes of a configuration. *)
Definition strip_result (NDEBUG : bool) (c : qd_server_config_t) (o : option string)
  : qd_server_config_t :=
  match load_strip_annotations NDEBUG c o with
  | Done c' => c'
  | _ => c
  end.

(** The frame size after the promotion to the floor. *)
Definition promoted_frame_size (entity : qd_entity_t) : Z :=
  let mfs := to_uint32 (long_attr entity "maxFrameSize" 0) in
  if mfs <? QD_AMQP_MIN_MAX_FRAME_SIZE then QD_AMQP_MIN_MAX_FRAME_SIZE else mfs.

(** The slots after the members of a profile have been copied into the
    members of the configuration paired with them. *)
Fixpoint copied (h0 : heap_t) (p : qd_config_ssl_profile_t)
    (l : list (str_member * ssl_profile_member)) (T : str_member -> slot)
  : str_member -> slot :=
  match l with
  | [] => T
  | (m, pm) :: rest => copied h0 p rest (tupd T m (slot_of (old_text h0 (sp p pm))))
  end.

(** The slots after the TLS block: the copies of the profile's members
    where the name finds a profile, and no change where it does not. *)
Definition ssl_slots (h0 : heap_t) (cm : qd_connection_manager_t) (T : str_member -> slot)
  : str_member -> slot :=
  match T f_ssl_profile with
  | Text nm =>
      match ssl_profile_named h0 (config_ssl_profiles cm) nm with
      | Some p => copied h0 p tls_members T
      | None => T
      end
  | _ => T
  end.

(** The slots after the members of an auth plugin have been copied. *)
Definition plugin_slots (h0 : heap_t) (plg : qd_config_sasl_plugin_t) (T : str_member -> slot)
  : str_member -> slot :=
  tupd (tupd T spc_auth_service (slot_of (old_text h0 (auth_service plg))))
       spc_sasl_init_hostname (slot_of (old_text h0 (sasl_init_hostname plg))).

(** What a TLS member of the configuration holds after the TLS block. *)
Definition tls_slot (h0 : heap_t) (cm : qd_connection_manager_t) (entity : qd_entity_t)
    (pm : ssl_profile_member) : slot :=
  match string_attr entity "sslProfile" with
  | Some nm =>
      match ssl_profile_named h0 (config_ssl_profiles cm) nm with
      | Some p => slot_of (old_text h0 (sp p pm))
      | None => Null
      end
  | None => Null
  end.

(** The connection manager while the profile [p] is being filled in:
    [p] is the last element of the collection. *)
Definition holding (l : list qd_config_ssl_profile_t) (plugins : list qd_config_sasl_plugin_t)
    (p : qd_config_ssl_profile_t) : qd_connection_manager_t :=
  {| config_ssl_profiles := l ++ [p]; config_sasl_plugins := plugins |}.

(** The members of the profile own their blocks. *)
Definition powns (h0 h : heap_t) (p : qd_config_ssl_profile_t)
    (T : ssl_profile_member -> slot) : Prop :=
  owns h0 h (sp p) T.

Definition pupd (T : ssl_profile_member -> slot) (m : ssl_profile_member) (t : slot)
  : ssl_profile_member -> slot :=
  upd ssl_profile_member_beq T m t.

End Ownership.

(** *** The settings of a resolved endpoint *)

Module Settings.
Import Ownership.

(** [maxSessions] with its default: zero and what Proton disallows
    become 32768. *)
Definition max_sessions_of (entity : qd_entity_t) : Z :=
  let v := to_uint32 (long_attr entity "maxSessions" 0) in
  if (v =? 0) || (32768 <? v) then 32768 else v.

(** [linkCapacity] with its default. *)
Definition link_capacity_of (entity : qd_entity_t) : Z :=
  let v := to_int32 (long_attr entity "linkCapacity" 0) in
  if v =? 0 then 250 else v.

(** The numbers of the configuration, in terms of the entity. *)
Definition resolved_numbers (sizeof_size_t : Z) (entity : qd_entity_t) (is_listener : bool)
    (c : qd_server_config_t) : Prop :=
  nums c f_log_bits = log_bits (string_attr entity "messageLoggingComponents") /\
  nums c f_inter_router_cost = to_int32 (long_attr entity "cost" 1) /\
  nums c f_max_frame_size = promoted_frame_size entity /\
  nums c f_max_sessions = max_sessions_of entity /\
  nums c f_incoming_capacity
  = fst (incoming_capacity sizeof_size_t (promoted_frame_size entity)
                           (to_uint64 (long_attr entity "maxSessionFrames" 0))) /\
  nums c f_idle_timeout_seconds = to_int32 (long_attr entity "idleTimeoutSeconds" 0) /\
  nums c f_link_capacity = link_capacity_of entity /\
  (is_listener = true ->
   nums c f_initial_handshake_timeout_seconds
   = to_int32 (long_attr entity "initialHandshakeTimeoutSeconds" 0)).

(** Whether an attribute is there as a text. *)
Definition has_text (entity : qd_entity_t) (attribute : string) : bool :=
  match string_attr entity attribute with Some _ => true | None => false end.

(** The flags the attributes decide. *)
Definition resolved_flags (entity : qd_entity_t) (c : qd_server_config_t) : Prop :=
  flags c f_metrics = bool_attr entity "metrics" true /\
  flags c f_http = bool_attr entity "http" false || has_text entity "httpRootDir" /\
  flags c f_multi_tenant = bool_attr entity "multiTenant" false /\
  flags c f_allowInsecureAuthentication = true /\
  flags c f_verify_host_name = bool_attr entity "verifyHostname" true /\
  flags c f_requireAuthentication = bool_attr entity "authenticatePeer" false /\
  flags c f_requireEncryption
  = bool_attr entity "requireEncryption" false || bool_attr entity "requireSsl" false.

(** The two flags the TLS block decides. *)
Definition resolved_tls_flags (entity : qd_entity_t) (c : qd_server_config_t) : Prop :=
  flags c f_ssl_required
  = has_text entity "sslProfile" && bool_attr entity "requireSsl" false /\
  flags c f_ssl_require_peer_authentication
  = has_text entity "sslProfile" &&
    match string_attr entity "saslMechanisms" with
    | Some s => mentions_external s
    | None => false
    end.

(** The texts the attributes give, in terms of the entity. *)
Definition resolved_texts (entity : qd_entity_t) (T : str_member -> slot) : Prop :=
  (exists hs ps,
      string_attr entity "host" = Some hs /\ string_attr entity "port" = Some ps /\
      T f_host = Text hs /\ T f_port = Text ps /\
      T f_host_port = Text (hs ++ ":" ++ ps)) /\
  T f_log_message = residue_slot (slot_of (string_attr entity "messageLoggingComponents")) /\
  T f_name = slot_of (string_attr entity "name") /\
  T f_role = slot_of (string_attr entity "role") /\
  T f_protocol_family = slot_of (string_attr entity "protocolFamily") /\
  T f_http_root_dir = slot_of (string_attr entity "httpRootDir") /\
  T f_sasl_username = slot_of (string_attr entity "saslUsername") /\
  T f_sasl_password = slot_of (string_attr entity "saslPassword") /\
  T f_sasl_mechanisms = slot_of (string_attr entity "saslMechanisms") /\
  T f_ssl_profile = slot_of (string_attr entity "sslProfile") /\
  T f_sasl_plugin = slot_of (string_attr entity "saslPlugin") /\
  T f_failover_list = Null.

(** The two notices that go with the attributes http, httpRootDir and
    metrics. *)
Definition http_notice : log_entry :=
  {| level := QD_LOG_INFO;
     format := "HTTP service is requested but no httpRootDir specified. The router will serve AMQP-over-websockets but no static content.";
     args := [] |}.

Definition metrics_notice : log_entry :=
  {| level := QD_LOG_INFO;
     format := "Metrics can only be exported on listener with http enabled.";
     args := [] |}.

Definition attribute_notices (entity : qd_entity_t) : list log_entry :=
  (if bool_attr entity "http" false && negb (has_text entity "httpRootDir")
   then [http_notice] else []) ++
  (if bool_attr entity "metrics" true
      && negb (bool_attr entity "http" false || has_text entity "httpRootDir")
   then [metrics_notice] else []).

(** The warning of a session frame count that is cut down to the
    platform's limit, with the frame count it reports. *)
Definition truncation_warning (sizeof_size_t : Z) (entity : qd_entity_t) (computed : Z)
  : log_entry :=
  {| level := QD_LOG_WARNING;
     format := ("Server configuation for I/O adapter entity name:'%s', host:'%s', port:'%s', requested maxSessionFrames truncated from %"
                ++ PRId64 sizeof_size_t ++ " to %" ++ PRId64 sizeof_size_t)%string;
     args := [LText (string_attr entity "name"); LText (string_attr entity "host");
              LText (string_attr entity "port");
              LNum (to_uint64 (long_attr entity "maxSessionFrames" 0));
              LNum computed] |}.

(** What load_server_config logs when it derives the incoming capacity. *)
Definition capacity_warnings (sizeof_size_t : Z) (entity : qd_entity_t) : list log_entry :=
  match snd (incoming_capacity sizeof_size_t (promoted_frame_size entity)
                               (to_uint64 (long_attr entity "maxSessionFrames" 0))) with
  | Some computed => [truncation_warning sizeof_size_t entity computed]
  | None => []
  end.

(** The members the attributes fill: the two profile blocks leave them. *)
Definition attribute_members : list str_member :=
  [f_host; f_port; f_host_port; f_log_message; f_name; f_role; f_protocol_family;
   f_http_root_dir; f_sasl_username; f_sasl_password; f_sasl_mechanisms; f_ssl_profile;
   f_sasl_plugin; f_failover_list].

(** The members that hold the copy of an attribute as it is, with the
    attribute. *)
Definition attribute_texts : list (str_member * string) :=
  [(f_name, "name"%string); (f_role, "role"%string);
   (f_protocol_family, "protocolFamily"%string); (f_http_root_dir, "httpRootDir"%string);
   (f_sasl_username, "saslUsername"%string); (f_sasl_password, "saslPassword"%string);
   (f_sasl_mechanisms, "saslMechanisms"%string); (f_ssl_profile, "sslProfile"%string);
   (f_sasl_plugin, "saslPlugin"%string); (f_host, "host"%string); (f_port, "port"%string)].

(** The text of the logging components that [strtok] leaves in place. *)
Definition logging_residue (o : option string) : option string :=
  slot_text (residue_slot (slot_of o)).

End Settings.

(** *** The password of a registered TLS profile *)

Module Registered.
Import Ownership.

(** The password before it is processed: the attribute, or else the
    first line of the password file, where the file can be opened and
    the line is not empty. *)
Definition initial_password (fopen : string -> option string) (entity : qd_entity_t)
  : option string :=
  match string_attr entity "password" with
  | Some text => Some text
  | None =>
      match string_attr entity "passwordFile" with
      | Some path =>
          match fopen path with
          | Some file =>
              let buffer := read_line 199 file in
              if (String.length buffer =? 0)%nat then None else Some (c_str buffer)
          | None => None
          end
      | None => None
      end
  end.

(** What qd_config_ssl_profile_process_password makes of a password;
    [None] where it raises its error. *)
Definition processed_password (getenv : string -> option string) (o : option string)
  : option (option string) :=
  match o with
  | None => Some None
  | Some text =>
      if String.prefix "env:" text then
        match getenv (skip_spaces (drop 4 text)) with
        | Some passwd => Some (Some passwd)
        | None => None
        end
      else if String.prefix "literal:" text then Some (Some (skip_spaces (drop 8 text)))
      else Some (Some text)
  end.

(** The warning a password attribute brings. *)
Definition password_warning (entity : qd_entity_t) : list log_entry :=
  match string_attr entity "password" with
  | Some _ =>
      [{| level := QD_LOG_WARNING;
          format := "Attribute password of entity sslProfile has been deprecated. Use passwordFile instead.";
          args := [] |}]
  | None => []
  end.

(** The members of a profile that hold the copy of an attribute, with
    the attribute. *)
Definition profile_attributes : list (ssl_profile_member * string) :=
  [(p_name, "name"%string); (p_ssl_certificate_file, "certFile"%string);
   (p_ssl_private_key_file, "privateKeyFile"%string); (p_ssl_ciphers, "ciphers"%string);
   (p_ssl_protocols, "protocols"%string);
   (p_ssl_trusted_certificate_db, "caCertFile"%string);
   (p_ssl_trusted_certificates, "trustedCertsFile"%string);
   (p_ssl_uid_format, "uidFormat"%string);
   (p_uid_name_mapping_file, "uidNameMappingFile"%string)].

(** What the members of a registered profile hold. *)
Definition registered_slots (entity : qd_entity_t) (password : option string)
  : ssl_profile_member -> slot :=
  fun m =>
    match m with
    | p_name => slot_of (string_attr entity "name")
    | p_ssl_password => slot_of password
    | p_ssl_trusted_certificate_db => slot_of (string_attr entity "caCertFile")
    | p_ssl_trusted_certificates => slot_of (string_attr entity "trustedCertsFile")
    | p_ssl_uid_format => slot_of (string_attr entity "uidFormat")
    | p_uid_name_mapping_file => slot_of (string_attr entity "uidNameMappingFile")
    | p_ssl_certificate_file => slot_of (string_attr entity "certFile")
    | p_ssl_private_key_file => slot_of (string_attr entity "privateKeyFile")
    | p_ssl_ciphers => slot_of (string_attr entity "ciphers")
    | p_ssl_protocols => slot_of (string_attr entity "protocols")
    end.

End Registered.

(** *** The members of a registered auth plugin *)

Module Plugins.
Import Ownership.

Definition gowns (h0 h : heap_t) (p : qd_config_sasl_plugin_t) (T : plugin_member -> slot)
  : Prop :=
  owns h0 h (pg p) T.

Definition gupd (T : plugin_member -> slot) (m : plugin_member) (t : slot)
  : plugin_member -> slot :=
  upd plugin_member_beq T m t.

(** The manager with the plugin under construction at the tail. *)
Definition holding_plugin (profiles : list qd_config_ssl_profile_t)
    (l : list qd_config_sasl_plugin_t) (p : qd_config_sasl_plugin_t)
  : qd_connection_manager_t :=
  {| config_ssl_profiles := profiles; config_sasl_plugins := l ++ [p] |}.

(** The entity of a plugin is well formed: its attributes are texts. *)
Definition valid_plugin_entity (entity : qd_entity_t) : bool :=
  forallb (opt_string_ok entity)
          ["name"; "host"; "port"; "authService"; "realm"; "sslProfile"]%string.

(** The service address made of a host and a port, where the code
    makes one: both are not empty, and the length, as an [int], is
    above 2. *)
Definition joined_service (hs ps : string) : option string :=
  if (0 <? to_int32 (strlen hs)) && (0 <? to_int32 (strlen ps)) then
    let hplen := to_int32 (strlen hs + strlen ps + 2) in
    if 2 <? hplen then Some (snprintf_pair hplen hs ps) else None
  else None.

Definition entity_service (entity : qd_entity_t) : option string :=
  match string_attr entity "host", string_attr entity "port" with
  | Some hs, Some ps => joined_service hs ps
  | _, _ => None
  end.

(** The auth service of the plugin: host and port, or else the
    attribute authService. *)
Definition plugin_service (entity : qd_entity_t) : option string :=
  match entity_service entity with
  | Some s => Some s
  | None => string_attr entity "authService"
  end.

(** The warning that comes with the attribute authService, read or
    not. *)
Definition service_warning (entity : qd_entity_t) : list log_entry :=
  match entity_service entity with
  | Some _ => []
  | None =>
      [{| level := QD_LOG_WARNING;
          format := "Attribute authService of entity authServicePlugin has been deprecated. Use host and port instead.";
          args := [] |}]
  end.

Definition plugin_created_log (nm : option string) : log_entry :=
  {| level := QD_LOG_INFO;
     format := "Created SASL plugin config with name %s";
     args := [LText nm] |}.

(** What the members of a registered plugin hold. *)
Definition plugin_registered_slots (entity : qd_entity_t) : plugin_member -> slot :=
  fun m =>
    match m with
    | g_name => slot_of (string_attr entity "name")
    | g_auth_service => slot_of (plugin_service entity)
    | g_sasl_init_hostname => slot_of (string_attr entity "realm")
    | g_auth_ssl_profile => slot_of (string_attr entity "sslProfile")
    end.

End Plugins.


(** ** Examples *)

(** A connector with its own address and two failover addresses, at
    starting position 2. *)
Definition example_connector : qd_connector_t :=
  {| ct_addr := 1%nat;
     state := CXTR_STATE_CONNECTING;
     ctx := None;
     conn_index := 2;
     conn_info_list :=
       [Failover.own_address false "a" "1";
        {| scheme := None; host := Some "b"; port := Some "2"; host_port := Some "b:2" |}%string;
        Failover.own_address true "c" "3"];
     ref_count := 1 |}.


(** An endpoint description with every required attribute, no session
    frame count, and the names of a TLS profile and of annotation
    stripping that nothing defines. *)
Definition example_entity : qd_entity_t :=
  [("port", AString "5672"); ("role", AString "normal");
   ("maxFrameSize", ALong 16384); ("maxSessions", ALong 0);
   ("idleTimeoutSeconds", ALong 16); ("host", AString "0.0.0.0");
   ("stripAnnotations", AString "bogus"); ("sslProfile", AString "nope")]%string.

Definition empty_manager : qd_connection_manager_t :=
  {| config_ssl_profiles := []; config_sasl_plugins := [] |}.

Definition empty_world {L} (l : L) : world L := mkWorld l [] QD_ERROR_NONE "" [].

(** A connector the manager and a timer hold, with no live connection. *)
Definition example_manager : Lifecycle.manager :=
  {| Lifecycle.listeners :=
       [{| Lifecycle.li_addr := 3; Lifecycle.pn_listener := None;
           Lifecycle.exit_on_error := false |}];
     Lifecycle.connectors := [7%nat];
     Lifecycle.connector_objects :=
       [{| ct_addr := 7; state := CXTR_STATE_FAILED; ctx := None; conn_index := 1;
           conn_info_list := [Failover.own_address false "a" "1"]; ref_count := 2 |}];
     Lifecycle.first_start := true |}.

(** A driver whose attempts take effect at once. *)
Definition example_driver : Lifecycle.driver :=
  {| Lifecycle.qd_listener_listen :=
       fun li => ({| Lifecycle.li_addr := Lifecycle.li_addr li;
                     Lifecycle.pn_listener := Some 1%nat;
                     Lifecycle.exit_on_error := Lifecycle.exit_on_error li |}, true);
     Lifecycle.qd_connector_connect :=
       fun ct => {| ct_addr := ct_addr ct; state := CXTR_STATE_CONNECTING; ctx := None;
                    conn_index := conn_index ct; conn_info_list := conn_info_list ct;
                    ref_count := ref_count ct + 1 |} |}.
(** A heap that holds the texts of a TLS profile and of an auth plugin
    that names it. *)
Definition example_heap : heap_t :=
  [Some "tls"; Some "cert.pem"; Some "key.pem";
   Some "auth"; Some "auth.example:5671"; Some "tls"]%string.

Definition example_profile : qd_config_ssl_profile_t :=
  {| sp_addr := 1;
     sp := fun m => match m with
                    | p_name => Ptr 0
                    | p_ssl_certificate_file => Ptr 1
                    | p_ssl_private_key_file => Ptr 2
                    | _ => NULL
                    end |}.

Definition example_plugin : qd_config_sasl_plugin_t :=
  {| name := Ptr 3; auth_service := Ptr 4; sasl_init_hostname := NULL;
     auth_ssl_profile := Ptr 5 |}.

Definition example_registry : qd_connection_manager_t :=
  {| config_ssl_profiles := [example_profile]; config_sasl_plugins := [example_plugin] |}.

(** The same without the TLS profile the plugin names. *)
Definition example_plugin_only : qd_connection_manager_t :=
  {| config_ssl_profiles := []; config_sasl_plugins := [example_plugin] |}.

(** The example endpoint with the name of the registered TLS profile,
    with the name of the registered auth plugin, and with the name of
    an auth plugin that nothing defines. *)
Definition tls_entity : qd_entity_t := ("sslProfile", AString "tls")%string :: example_entity.

Definition auth_entity : qd_entity_t := ("saslPlugin", AString "auth")%string :: example_entity.

Definition lost_auth_entity : qd_entity_t :=
  ("saslPlugin", AString "nope")%string :: example_entity.

Definition example_world (h : heap_t) : world qd_server_config_t :=
  mkWorld config_zero h QD_ERROR_NONE "" [].

(** A TLS profile whose password is to come from an environment
    variable, and one whose password is to come from a file. *)
Definition env_entity : qd_entity_t :=
  [("name", AString "tls"); ("password", AString "env:NOPE")]%string.

Definition file_entity : qd_entity_t :=
  [("name", AString "tls"); ("passwordFile", AString "/no/such/file")]%string.

(** An environment with no variables and a file system with no files. *)
Definition no_variables : string -> option string := fun _ => None.

Definition no_files : string -> option string := fun _ => None.


(** A connector with a live connection, which the manager and a timer
    hold. *)
Definition live_connector : qd_connector_t :=
  {| ct_addr := 7; state := CXTR_STATE_OPEN;
     ctx := Some {| connector := Some 7%nat; pn_conn := Some 5%nat |};
     conn_index := 1; conn_info_list := [Failover.own_address false "a" "1"];
     ref_count := 2 |}.

Definition live_manager : Lifecycle.manager :=
  {| Lifecycle.listeners := []; Lifecycle.connectors := [7%nat];
     Lifecycle.connector_objects := [live_connector];
     Lifecycle.first_start := false |}.

(** A connector whose list ends with an item that has neither scheme
    nor host_port, behind the items [l], at the starting position [i]. *)
Definition textless_connector (i : Z) (l : list qd_failover_item_t) : qd_connector_t :=
  {| ct_addr := 1%nat; state := CXTR_STATE_FAILED; ctx := None; conn_index := i;
     conn_info_list :=
       l ++ [{| scheme := None; host := None; port := None; host_port := None |}];
     ref_count := 1 |}.
(** The connector of the example with a starting position beyond the end
    of its list, and with one before its start. *)
Definition far_connector : qd_connector_t :=
  {| ct_addr := ct_addr example_connector;
     state := state example_connector;
     ctx := ctx example_connector;
     conn_index := 5;
     conn_info_list := conn_info_list example_connector;
     ref_count := ref_count example_connector |}.

Definition unplaced_connector : qd_connector_t :=
  {| ct_addr := ct_addr example_connector;
     state := state example_connector;
     ctx := ctx example_connector;
     conn_index := 0;
     conn_info_list := conn_info_list example_connector;
     ref_count := ref_count example_connector |}.


(** An environment with one variable, and a file system with one file
    whose first line sends to that variable. *)
Definition secret_environment : string -> option string :=
  fun variable => if String.eqb variable "TLS_PW" then Some "s3cret"%string else None.

Definition password_files : string -> option string :=
  fun path =>
    if String.eqb path "/etc/pw"
    then Some ("env: TLS_PW" ++ String "010" "second line")%string
    else None.

(** A TLS profile whose password comes from that file, and one with no
    name. *)
Definition file_password_entity : qd_entity_t :=
  [("name", AString "tls2"); ("certFile", AString "c2.pem");
   ("passwordFile", AString "/etc/pw")]%string.

Definition nameless_entity : qd_entity_t := [("certFile", AString "c3.pem")]%string.

(** A second profile under the name of the registered one. *)
Definition same_name_entity : qd_entity_t :=
  [("name", AString "tls"); ("certFile", AString "other.pem")]%string.

(** The example endpoint with the name of the profile to be registered. *)
Definition tls2_endpoint : qd_entity_t := ("sslProfile", AString "tls2")%string :: example_entity.

(** A connector as it comes from the server: no address in its list
    yet, and the start position 1. *)
Definition unplaced_connector_empty : qd_connector_t :=
  {| ct_addr := 9%nat; state := CXTR_STATE_CONNECTING; ctx := None; conn_index := 1;
     conn_info_list := []; ref_count := 1 |}.

(** A driver whose attempts all fail. *)
Definition failing_driver : Lifecycle.driver :=
  {| Lifecycle.qd_listener_listen := fun li => (li, false);
     Lifecycle.qd_connector_connect := fun ct => ct |}.

(** A profile entity whose name is a number. *)
Definition numbered_entity : qd_entity_t :=
  [("name", ALong 7); ("certFile", AString "c.pem")]%string.

(** An auth plugin given by host and port, with an authService that is
    not read, and an endpoint that names it. *)
Definition host_port_plugin_entity : qd_entity_t :=
  [("name", AString "auth2"); ("host", AString "auth.example"); ("port", AString "5671");
   ("authService", AString "ignored:1"); ("realm", AString "example")]%string.

Definition auth2_endpoint : qd_entity_t :=
  ("saslPlugin", AString "auth2")%string :: example_entity.

(** A connector object that has not been started, at an address of
    its own. *)
Definition idle_connector : qd_connector_t :=
  {| ct_addr := 11%nat; state := CXTR_STATE_FAILED; ctx := None; conn_index := 1;
     conn_info_list := []; ref_count := 1 |}.

(** The example endpoint with a session frame count, and with a frame
    size of 512 as well. *)
Definition framed_entity (n : Z) : qd_entity_t :=
  ("maxSessionFrames", ALong n)%string :: example_entity.

Definition small_framed_entity (n : Z) : qd_entity_t :=
  ("maxFrameSize", ALong 512)%string :: framed_entity n.

(** * Facts *)

(** ** Strings *)

Lemma strlen_append (a b : string) : strlen (a ++ b) = strlen a + strlen b.
Proof.
  unfold strlen. induction a as [|c a IH]; simpl String.length.
  - lia.
  - simpl in IH. lia.
Qed.

Lemma append_assoc (a b c : string) : ((a ++ b) ++ c = a ++ (b ++ c))%string.
Proof. induction a as [|x a IH]; simpl; [reflexivity | now rewrite IH]. Qed.

Lemma append_empty_r (a : string) : (a ++ "" = a)%string.
Proof. induction a as [|x a IH]; simpl; [reflexivity | now rewrite IH]. Qed.

Lemma strlen_nonneg (a : string) : 0 <= strlen a.
Proof. unfold strlen. lia. Qed.

(** ** The failover serialization *)

Module FailoverFacts.
Import Failover FailoverSpec.

Lemma text_len_app l1 l2 : text_len (l1 ++ l2) = text_len l1 + text_len l2.
Proof. induction l1 as [|x l1 IH]; simpl; lia. Qed.

Lemma text_len_nonneg l : 0 <= text_len l.
Proof.
  induction l as [|x l IH]; simpl; [lia|].
  pose proof (strlen_nonneg (failover_url x)). lia.
Qed.

Lemma sep_urls_app l1 l2 : sep_urls (l1 ++ l2) = (sep_urls l1 ++ sep_urls l2)%string.
Proof.
  induction l1 as [|x l1 IH]; simpl; [reflexivity|].
  rewrite IH, append_assoc. reflexivity.
Qed.

Lemma sep_urls_cons x l :
  sep_urls (x :: l) = (", " ++ failover_url x ++ sep_urls l)%string.
Proof. reflexivity. Qed.

Lemma text_len_cons x l : text_len (x :: l) = strlen (failover_url x) + text_len l.
Proof. reflexivity. Qed.

Lemma strlen_sep_urls l : strlen (sep_urls l) = text_len l + 2 * Z.of_nat (List.length l).
Proof.
  induction l as [|x l IH]; [reflexivity|].
  rewrite sep_urls_cons, text_len_cons, !strlen_append, IH.
  change (strlen ", ") with 2. cbn [List.length]. lia.
Qed.

Lemma concat_urls x l :
  String.concat ", " (map failover_url (x :: l)) = (failover_url x ++ sep_urls l)%string.
Proof.
  revert x. induction l as [|y l IH]; intros x.
  - simpl. now rewrite append_empty_r.
  - change (String.concat ", " (map failover_url (x :: y :: l)))
      with (failover_url x ++ ", " ++ String.concat ", " (map failover_url (y :: l)))%string.
    rewrite IH. reflexivity.
Qed.

Lemma strlen_failover_url it :
  strlen (failover_url it) =
  (match scheme it with Some s => strlen s + 3 | None => 0 end) +
  (match host_port it with Some hp => strlen hp | None => 0 end).
Proof.
  unfold failover_url. rewrite strlen_append.
  destruct (scheme it), (host_port it); rewrite ?strlen_append; reflexivity.
Qed.

(** get_failover_info_length adds up the parts and two per separator. *)
Lemma failover_length_loop_spec l acc :
  l <> [] ->
  failover_length_loop l acc = acc + text_len l + 2 * (Z.of_nat (List.length l) - 1).
Proof.
  revert acc. induction l as [|x l IH]; intros acc Hne; [congruence|].
  cbn [failover_length_loop text_len fold_right].
  change (fold_right (fun it acc => strlen (failover_url it) + acc) 0 l) with (text_len l).
  rewrite strlen_failover_url.
  destruct l as [|y l].
  - cbn. destruct (scheme x), (host_port x); lia.
  - rewrite IH by congruence.
    cbn [List.length]. destruct (scheme x), (host_port x); lia.
Qed.

Lemma get_failover_info_length_spec l :
  l <> [] -> 0 < get_failover_info_length l ->
  get_failover_info_length l = text_len l + 2 * (Z.of_nat (List.length l) - 1) + 1.
Proof.
  intros Hne. unfold get_failover_info_length.
  rewrite failover_length_loop_spec by assumption.
  destruct (0 <? _) eqn:E; lia.
Qed.

(** With two items or more the separators alone make the List.length positive. *)
Lemma get_failover_info_length_pos l :
  (2 <= List.length l)%nat -> 0 < get_failover_info_length l.
Proof.
  intros Hlen. unfold get_failover_info_length.
  rewrite failover_length_loop_spec by (destruct l; simpl in *; [lia | congruence]).
  pose proof (text_len_nonneg l).
  destruct (0 <? _) eqn:E; [lia|].
  apply Z.ltb_ge in E. lia.
Qed.

Lemma strcat_fits cap dest src :
  strlen dest + strlen src < cap -> strcat cap dest src = Done (dest ++ src)%string.
Proof. intros H. unfold strcat. apply Z.ltb_lt in H. now rewrite H. Qed.

Lemma strcat_item_fits cap it buf :
  strlen buf + strlen (failover_url it) < cap ->
  strcat_item cap it buf = Done (buf ++ failover_url it)%string.
Proof.
  intros H. rewrite strlen_failover_url in H.
  unfold strcat_item, failover_url.
  destruct (scheme it) as [s|], (host_port it) as [hp|]; cbn [obind].
  - pose proof (strlen_nonneg hp).
    rewrite strcat_fits by lia. cbn [obind].
    rewrite strcat_fits by (rewrite strlen_append; change (strlen "://") with 3; lia).
    cbn [obind].
    rewrite strcat_fits
      by (rewrite !strlen_append; change (strlen "://") with 3; lia).
    now rewrite !append_assoc.
  - rewrite strcat_fits by lia. cbn [obind].
    rewrite strcat_fits by (rewrite strlen_append; change (strlen "://") with 3; lia).
    now rewrite append_empty_r, append_assoc.
  - rewrite strcat_fits by lia. reflexivity.
  - now rewrite append_empty_r.
Qed.

Section Loop.

Variable items : list qd_failover_item_t.
Variables ci n cap : Z.
Hypothesis n_pos : 0 < n.

(** Before the starting position is reached nothing is written. *)
Lemma skip_run run rest fuel i buf :
  i + Z.of_nat (List.length run) <= ci -> ci <= INT_MAX ->
  refresh_loop (List.length run + fuel) items (next_or_head items (run ++ rest))
               ci n cap i 0 buf
  = refresh_loop fuel items (next_or_head items rest) ci n cap
                 (i + Z.of_nat (List.length run)) 0 buf.
Proof.
  revert i. induction run as [|x run IH]; intros i Hi Hmax.
  - simpl. now rewrite Z.add_0_r.
  - cbn [List.length Nat.add app next_or_head refresh_loop].
    cbn [List.length] in Hi. rewrite Nat2Z.inj_succ in Hi.
    replace (n <=? 0) with false by (symmetry; apply Z.leb_gt; lia).
    cbn [Z.leb Z.compare obind].
    replace (ci =? i) with false by (symmetry; apply Z.eqb_neq; lia).
    cbn [Z.ltb Z.compare obind].
    replace (INT_MAX <=? i) with false by (symmetry; apply Z.leb_gt; lia).
    rewrite IH by lia.
    f_equal. lia.
Qed.

(** The item at the starting position is written without a separator. *)
Lemma emit_first x next fuel buf :
  strlen buf + strlen (failover_url x) < cap -> ci < INT_MAX ->
  refresh_loop (S fuel) items (x :: next) ci n cap ci 0 buf
  = refresh_loop fuel items (next_or_head items next) ci n cap (ci + 1) 1
                 (buf ++ failover_url x)%string.
Proof.
  intros Hcap Hmax. cbn [refresh_loop].
  replace (n <=? 0) with false by (symmetry; apply Z.leb_gt; lia).
  cbn [Z.leb Z.compare obind].
  rewrite Z.eqb_refl, strcat_item_fits by assumption.
  cbn [obind].
  replace (INT_MAX <=? ci) with false by (symmetry; apply Z.leb_gt; lia).
  reflexivity.
Qed.

(** Once an item has been written every further one follows a separator. *)
Lemma emit_run run rest fuel i m buf :
  1 <= m -> m + Z.of_nat (List.length run) <= n ->
  strlen buf + strlen (sep_urls run) < cap ->
  i + Z.of_nat (List.length run) <= INT_MAX ->
  refresh_loop (List.length run + fuel) items (next_or_head items (run ++ rest))
               ci n cap i m buf
  = refresh_loop fuel items (next_or_head items rest) ci n cap
                 (i + Z.of_nat (List.length run)) (m + Z.of_nat (List.length run))
                 (buf ++ sep_urls run)%string.
Proof.
  revert i m buf. induction run as [|x run IH]; intros i m buf Hm Hn Hcap Hmax.
  - simpl. now rewrite !Z.add_0_r, append_empty_r.
  - cbn [List.length Nat.add app next_or_head refresh_loop].
    cbn [List.length] in Hn, Hmax. rewrite Nat2Z.inj_succ in Hn, Hmax.
    rewrite strlen_sep_urls, text_len_cons in Hcap.
    cbn [List.length] in Hcap. rewrite Nat2Z.inj_succ in Hcap.
    pose proof (text_len_nonneg run) as Ht.
    pose proof (strlen_nonneg (failover_url x)) as Hx.
    replace (n <=? m) with false by (symmetry; apply Z.leb_gt; lia).
    replace (1 <=? m) with true by (symmetry; apply Z.leb_le; lia).
    rewrite strcat_fits by (change (strlen ", ") with 2; lia).
    cbn [obind].
    assert (Hitem : strcat_item cap x (buf ++ ", ")
                    = Done ((buf ++ ", ") ++ failover_url x)%string).
    { apply strcat_item_fits. rewrite strlen_append. change (strlen ", ") with 2. lia. }
    replace (0 <? m) with true by (symmetry; apply Z.ltb_lt; lia).
    rewrite Hitem. cbn [obind].
    assert (Hstep : (if ci =? i
                     then Done (m + 1, ((buf ++ ", ") ++ failover_url x)%string)
                     else Done (m + 1, ((buf ++ ", ") ++ failover_url x)%string))
                    = Done (m + 1, ((buf ++ ", ") ++ failover_url x)%string))
      by (destruct (ci =? i); reflexivity).
    rewrite Hstep. cbn [obind].
    replace (INT_MAX <=? i) with false by (symmetry; apply Z.leb_gt; lia).
    rewrite IH.
    + f_equal; try lia.
      now rewrite sep_urls_cons, !append_assoc.
    + lia.
    + lia.
    + rewrite !strlen_append, strlen_sep_urls. change (strlen ", ") with 2. lia.
    + lia.
Qed.

(** When every item has been written the loop ends. *)
Lemma loop_done cur fuel i buf :
  refresh_loop (S fuel) items cur ci n cap i n buf = Done buf.
Proof.
  cbn [refresh_loop]. destruct cur; [reflexivity|].
  now rewrite Z.leb_refl.
Qed.

End Loop.

Lemma rotate_split {A} (pre : list A) x post :
  rotate (List.length pre) (pre ++ x :: post) = x :: post ++ pre.
Proof.
  unfold rotate.
  rewrite skipn_app, firstn_app, Nat.sub_diag, skipn_all, firstn_all.
  simpl. now rewrite app_nil_r.
Qed.

Lemma rotate_perm {A} k (l : list A) : Permutation (rotate k l) l.
Proof.
  unfold rotate. rewrite <- (firstn_skipn k l) at 3.
  apply Permutation_app_comm.
Qed.

(** The whole loop, from a list split at the starting position. *)
Lemma refresh_loop_split pre x post extra :
  let items := pre ++ x :: post in
  let n := Z.of_nat (List.length items) in
  let ci := Z.of_nat (List.length pre) + 1 in
  let cap := text_len items + 2 * (n - 1) + 1 in
  ci + n <= INT_MAX ->
  refresh_loop (List.length pre + S (List.length post + (List.length pre + S extra)))
               items items ci n cap 1 0 ""
  = Done (String.concat ", " (map failover_url (x :: post ++ pre))).
Proof.
  intros items n ci cap Hmax.
  assert (Hn : n = Z.of_nat (List.length pre) + 1 + Z.of_nat (List.length post)).
  { unfold n, items. rewrite length_app. cbn [List.length]. lia. }
  assert (Hitems : items = next_or_head items (pre ++ x :: post)).
  { unfold items. destruct pre; reflexivity. }
  assert (Htext : text_len items = text_len pre + strlen (failover_url x) + text_len post).
  { unfold items. rewrite text_len_app, text_len_cons. lia. }
  pose proof (text_len_nonneg pre) as Hpre.
  pose proof (text_len_nonneg post) as Hpost.
  pose proof (strlen_nonneg (failover_url x)) as Hx.
  rewrite Hitems at 2.
  rewrite skip_run by lia.
  cbn [next_or_head].
  replace (1 + Z.of_nat (List.length pre)) with ci by (unfold ci; lia).
  rewrite emit_first by (change (strlen "") with 0; lia).
  replace (next_or_head items post) with (next_or_head items (post ++ []))
    by now rewrite app_nil_r.
  rewrite emit_run; try lia.
  2:{ rewrite strlen_append, strlen_sep_urls. change (strlen "") with 0. lia. }
  cbn [next_or_head]. rewrite Hitems at 2.
  rewrite emit_run; try lia.
  2:{ rewrite !strlen_append, !strlen_sep_urls. change (strlen "") with 0. lia. }
  replace (1 + Z.of_nat (List.length post) + Z.of_nat (List.length pre)) with n by lia.
  rewrite loop_done.
  rewrite concat_urls, sep_urls_app, !append_assoc. reflexivity.
Qed.

Lemma refresh_connector_rotation (ct : qd_connector_t) (fuel : nat) :
  let items := conn_info_list ct in
  let n := Z.of_nat (List.length items) in
  1 <= conn_index ct <= n ->
  0 < get_failover_info_length items < INT_MAX ->
  conn_index ct + n <= Z.of_nat fuel ->
  qd_entity_refresh_connector fuel ct
  = Done (String.concat ", "
            (map failover_url (rotate (Z.to_nat (conn_index ct - 1)) items))).
Proof.
  unfold qd_entity_refresh_connector. cbv zeta.
  generalize (conn_index ct) as ci. generalize (conn_info_list ct) as items.
  clear ct. intros items ci Hci Hlen Hfuel.
  set (n := Z.of_nat (List.length items)) in *.
  set (k := Z.to_nat (ci - 1)).
  assert (Hk : (k < List.length items)%nat) by (unfold k, n in *; lia).
  assert (Hne : items <> []) by (intros E; rewrite E in Hk; simpl in Hk; lia).
  pose proof (firstn_skipn k items) as Hsplit.
  destruct (skipn k items) as [|x post] eqn:Hskip.
  { apply (f_equal (@List.length _)) in Hskip. rewrite length_skipn in Hskip.
    simpl in Hskip. lia. }
  set (pre := firstn k items) in *.
  assert (Hpre : List.length pre = k) by (unfold pre; rewrite length_firstn; lia).
  clearbody pre.
  pose proof (get_failover_info_length_spec items Hne (proj1 Hlen)) as Hcap.
  pose proof (text_len_nonneg items) as Htl.
  assert (Hn : n = Z.of_nat (List.length pre) + 1 + Z.of_nat (List.length post)).
  { unfold n. rewrite <- Hsplit. rewrite length_app. cbn [List.length]. lia. }
  assert (Hrot : rotate k items = x :: post ++ pre).
  { rewrite <- Hsplit, <- Hpre. apply rotate_split. }
  pose proof (refresh_loop_split pre x post
                (fuel - (2 * List.length pre + List.length post + 2))) as H.
  cbv zeta in H. rewrite Hsplit in H. fold n in H.
  replace ((get_failover_info_length items <=? 0) || (INT_MAX <? get_failover_info_length items))
    with false.
  2:{ symmetry. apply orb_false_iff. split; [apply Z.leb_gt | apply Z.ltb_ge]; lia. }
  rewrite Hrot, Hcap, <- H by (unfold k in *; lia).
  f_equal; unfold k in *; lia.
Qed.

(** The list has no text to write exactly when it is one item without
    scheme and host_port. *)
Lemma strlen_empty (a : string) : strlen a = 0 -> a = ""%string.
Proof. destruct a; [reflexivity|]. unfold strlen. cbn [String.length]. lia. Qed.

Lemma get_failover_info_length_zero l :
  l <> [] ->
  (get_failover_info_length l = 0 <-> exists it, l = [it] /\ failover_url it = ""%string).
Proof.
  intros Hne. destruct l as [|x [|y l]]; [congruence| |].
  - unfold get_failover_info_length.
    rewrite failover_length_loop_spec by assumption.
    cbn [text_len fold_right List.length].
    pose proof (strlen_nonneg (failover_url x)) as Hx.
    split.
    + intros H. exists x. split; [reflexivity|]. apply strlen_empty.
      destruct (0 <? _) eqn:E; [lia|]. apply Z.ltb_ge in E. lia.
    + intros (it & [= <-] & Hit). rewrite Hit. reflexivity.
  - split.
    + intros H. pose proof (get_failover_info_length_pos (x :: y :: l)) as Hpos.
      cbn [List.length] in Hpos. lia.
    + intros (it & [=] & _).
Qed.

Lemma get_failover_info_length_nonneg l : 0 <= get_failover_info_length l.
Proof.
  destruct l as [|x l]; [cbn; lia|].
  unfold get_failover_info_length.
  rewrite failover_length_loop_spec by congruence.
  pose proof (text_len_nonneg (x :: l)). cbn [List.length] in *.
  destruct (0 <? _) eqn:E; [apply Z.ltb_lt in E|]; lia.
Qed.

(** An item without text at the end, or at the start, of a join. *)
Lemma concat_urls_trailing pre it :
  pre <> [] -> failover_url it = ""%string ->
  String.concat ", " (map failover_url (pre ++ [it]))
  = (String.concat ", " (map failover_url pre) ++ ", ")%string.
Proof.
  intros Hne Hit. destruct pre as [|x pre]; [congruence|].
  change ((x :: pre) ++ [it]) with (x :: (pre ++ [it])).
  rewrite !concat_urls, sep_urls_app. cbn [sep_urls fold_right].
  rewrite Hit, append_assoc. reflexivity.
Qed.

Lemma concat_urls_leading it post :
  post <> [] -> failover_url it = ""%string ->
  String.concat ", " (map failover_url (it :: post))
  = (", " ++ String.concat ", " (map failover_url post))%string.
Proof.
  intros Hne Hit. destruct post as [|y post]; [congruence|].
  change (String.concat ", " (map failover_url (it :: y :: post)))
    with (failover_url it ++ ", " ++ String.concat ", " (map failover_url (y :: post)))%string.
  now rewrite Hit.
Qed.

Lemma concat_urls_last pre it :
  exists t, String.concat ", " (map failover_url (pre ++ [it])) = (t ++ failover_url it)%string.
Proof.
  destruct pre as [|x pre].
  - exists ""%string. cbn. reflexivity.
  - change ((x :: pre) ++ [it]) with (x :: (pre ++ [it])).
    rewrite concat_urls, sep_urls_app. cbn [sep_urls fold_right].
    exists (failover_url x ++ sep_urls pre ++ ", ")%string.
    now rewrite append_empty_r, !append_assoc.
Qed.

Lemma rotate_length {A} k (l : list A) : List.length (rotate k l) = List.length l.
Proof. apply Permutation_length, rotate_perm. Qed.

End FailoverFacts.

Import Failover FailoverSpec FailoverFacts.

(** C1, as the code has it.  For a connector whose failover list is
    not empty and fits an [int], and whose 1-based starting position
    is that of an element, qd_entity_refresh_connector, given fuel
    for the loop, returns the items joined by ", ", read circularly
    from the starting position: a rearrangement of the list that
    visits every item once, each item as [scheme://host:port] with
    absent parts left out; the result starts with the text of the
    first item visited and ends with the text of the last.  For
    [A; B; C] at position 2 this is "B, C, A", and with D appended
    "B, C, D, A".  An item with neither scheme nor host_port gives no
    text and keeps its separator: visited last it leaves the result
    with ", " at its end, and visited first with ", " at its start.
    And a list of one such item has nothing to write: the buffer
    would have no byte, and the function is undefined. *)
Theorem C1_refresh_failover_urls (ct : qd_connector_t) (fuel : nat) :
  conn_info_list ct <> [] ->
  1 <= conn_index ct <= Z.of_nat (List.length (conn_info_list ct)) ->
  get_failover_info_length (conn_info_list ct) < INT_MAX ->
  conn_index ct + Z.of_nat (List.length (conn_info_list ct)) <= Z.of_nat fuel ->
  let start := Z.to_nat (conn_index ct - 1) in
  let visited := rotate start (conn_info_list ct) in
  Permutation visited (conn_info_list ct) /\
  nth_error visited 0 = nth_error (conn_info_list ct) start /\
  ((exists it, conn_info_list ct = [it] /\ failover_url it = ""%string) ->
   qd_entity_refresh_connector fuel ct = Undefined) /\
  (~ (exists it, conn_info_list ct = [it] /\ failover_url it = ""%string) ->
   qd_entity_refresh_connector fuel ct
     = Done (String.concat ", " (map failover_url visited)) /\
   (forall first rest,
       visited = first :: rest ->
       exists t, qd_entity_refresh_connector fuel ct = Done (failover_url first ++ t)%string) /\
   (forall pre last,
       visited = pre ++ [last] ->
       exists t, qd_entity_refresh_connector fuel ct = Done (t ++ failover_url last)%string)) /\
  (forall A B C,
      conn_info_list ct = [A; B; C] -> conn_index ct = 2 ->
      qd_entity_refresh_connector fuel ct
      = Done (failover_url B ++ ", " ++ failover_url C ++ ", " ++ failover_url A)%string) /\
  (forall A B C D,
      conn_info_list ct = [A; B; C; D] -> conn_index ct = 2 ->
      qd_entity_refresh_connector fuel ct
      = Done (failover_url B ++ ", " ++ failover_url C ++ ", " ++ failover_url D
              ++ ", " ++ failover_url A)%string) /\
  (forall pre it,
      visited = pre ++ [it] -> pre <> [] -> failover_url it = ""%string ->
      qd_entity_refresh_connector fuel ct
      = Done (String.concat ", " (map failover_url pre) ++ ", ")%string) /\
  (forall it post,
      visited = it :: post -> post <> [] -> failover_url it = ""%string ->
      qd_entity_refresh_connector fuel ct
      = Done (", " ++ String.concat ", " (map failover_url post))%string).
Proof.
  intros Hne Hci Hmax Hfuel start visited.
  pose proof (get_failover_info_length_nonneg (conn_info_list ct)) as Hnn.
  pose proof (get_failover_info_length_zero (conn_info_list ct) Hne) as Hzero.
  assert (Hrun : 0 < get_failover_info_length (conn_info_list ct) ->
                 qd_entity_refresh_connector fuel ct
                 = Done (String.concat ", " (map failover_url visited))).
  { intros Hpos. apply (refresh_connector_rotation ct fuel Hci); [lia | exact Hfuel]. }
  assert (Htwo : (2 <= List.length visited)%nat ->
                 qd_entity_refresh_connector fuel ct
                 = Done (String.concat ", " (map failover_url visited))).
  { intros Hlen. apply Hrun, get_failover_info_length_pos.
    unfold visited in Hlen. now rewrite rotate_length in Hlen. }
  split; [apply rotate_perm|].
  split.
  { unfold visited, rotate.
    rewrite nth_error_app1 by (rewrite length_skipn; unfold start; lia).
    rewrite nth_error_skipn. now rewrite Nat.add_0_r. }
  split.
  { intros Hone. apply Hzero in Hone.
    unfold qd_entity_refresh_connector. cbv zeta. now rewrite Hone. }
  split.
  { intros Htext.
    assert (Hpos : 0 < get_failover_info_length (conn_info_list ct)).
    { destruct (Z.eq_dec (get_failover_info_length (conn_info_list ct)) 0) as [E|E];
        [|lia]. exfalso. apply Htext, Hzero, E. }
    split; [exact (Hrun Hpos)|]. split.
    - intros first rest Hv. rewrite (Hrun Hpos), Hv, concat_urls. eauto.
    - intros pre last Hv. rewrite (Hrun Hpos), Hv.
      destruct (concat_urls_last pre last) as (t & Ht). exists t. now rewrite Ht. }
  split.
  { intros A B C Hl Hi. rewrite Hrun by (apply get_failover_info_length_pos; rewrite Hl; cbn; lia).
    unfold visited, start. rewrite Hl, Hi. reflexivity. }
  split.
  { intros A B C D Hl Hi.
    rewrite Hrun by (apply get_failover_info_length_pos; rewrite Hl; cbn; lia).
    unfold visited, start. rewrite Hl, Hi. reflexivity. }
  split.
  - intros pre it Hv Hpre Hit.
    rewrite Htwo by (rewrite Hv, length_app; destruct pre; [congruence | cbn; lia]).
    rewrite Hv. f_equal. now apply concat_urls_trailing.
  - intros it post Hv Hpost Hit.
    rewrite Htwo by (rewrite Hv; destruct post; [congruence | cbn; lia]).
    rewrite Hv. f_equal. now apply concat_urls_leading.
Qed.

Lemma C1_refresh_failover_urls_witness :
  qd_entity_refresh_connector 5 example_connector
  = Done "b:2, amqps://c:3, amqp://a:1"%string.
Proof.
  refine (proj1 (proj1 (proj2 (proj2 (proj2
            (C1_refresh_failover_urls example_connector 5 _ _ _ _)))) _)).
  - discriminate.
  - vm_compute. split; discriminate.
  - vm_compute. reflexivity.
  - vm_compute. discriminate.
  - intros (it & H & _). discriminate.
Defined.

(** C1 as stated fails.  On the list of a connector's own address and
    an item without scheme and host_port, the result has a separator
    at its end from the first position and at its start from the
    second; and on the list of that one item the function is
    undefined. *)
Lemma C1_counterexample :
  qd_entity_refresh_connector 5 (textless_connector 1 [Failover.own_address false "a" "1"])
  = Done "amqp://a:1, "%string /\
  qd_entity_refresh_connector 5 (textless_connector 2 [Failover.own_address false "a" "1"])
  = Done ", amqp://a:1"%string /\
  qd_entity_refresh_connector 5 (textless_connector 1 []) = Undefined.
Proof. vm_compute. repeat split. Qed.

(** ** Message logging components *)

Module LogMessageFacts.
Import LogMessage LogMessageSpec.

Section Tokens.

Variable delim : string.

Lemma scan_token_shorter s :
  (String.length (snd (scan_token delim s)) <= String.length s)%nat.
Proof.
  induction s as [|c s IH]; simpl; [lia|].
  destruct (is_delim delim c); simpl; [lia|].
  destruct (scan_token delim s) as [tok saved]. simpl in *. lia.
Qed.

Lemma skip_delims_shorter s :
  (String.length (skip_delims delim s) <= String.length s)%nat.
Proof.
  induction s as [|c s IH]; simpl; [lia|].
  destruct (is_delim delim c); simpl; lia.
Qed.

Lemma skip_delims_head s c s' :
  skip_delims delim s = String c s' -> is_delim delim c = false.
Proof.
  induction s as [|x s IH]; simpl; [discriminate|].
  destruct (is_delim delim x) eqn:E; [assumption|].
  intros H. injection H as -> _. assumption.
Qed.

(** A call of [strtok] that finds a token leaves less text behind. *)
Lemma strtok_shorter saved token saved' :
  strtok delim saved = Some (token, saved') ->
  (String.length saved' < String.length saved)%nat.
Proof.
  unfold strtok. pose proof (skip_delims_shorter saved) as Hs.
  destruct (skip_delims delim saved) as [|c s'] eqn:E; [discriminate|].
  pose proof (skip_delims_head _ _ _ E) as Hc.
  simpl. rewrite Hc.
  pose proof (scan_token_shorter s') as Hr.
  destruct (scan_token delim s') as [tok r]. simpl in *.
  intros H. injection H as _ <-. lia.
Qed.

Lemma tokens_from_scan s cur :
  tokens_from delim cur s =
  match (cur ++ fst (scan_token delim s))%string with
  | EmptyString => tokens delim (snd (scan_token delim s))
  | tok => tok :: tokens delim (snd (scan_token delim s))
  end.
Proof.
  revert cur. induction s as [|c s IH]; intros cur.
  - simpl. rewrite append_empty_r. destruct cur; reflexivity.
  - simpl. destruct (is_delim delim c).
    + simpl. rewrite append_empty_r. destruct cur; reflexivity.
    + rewrite IH. destruct (scan_token delim s) as [tok r]. simpl.
      rewrite append_assoc. reflexivity.
Qed.

Lemma tokens_skip_delims s : tokens delim (skip_delims delim s) = tokens delim s.
Proof.
  induction s as [|c s IH]; [reflexivity|].
  simpl. destruct (is_delim delim c) eqn:E; [|reflexivity].
  rewrite IH. unfold tokens. simpl. now rewrite E.
Qed.

(** [strtok] hands out the tokens of the text one by one. *)
Lemma strtok_tokens saved :
  match strtok delim saved with
  | None => tokens delim saved = []
  | Some (token, saved') => tokens delim saved = token :: tokens delim saved'
  end.
Proof.
  unfold strtok. rewrite <- (tokens_skip_delims saved).
  destruct (skip_delims delim saved) as [|c s'] eqn:E; [reflexivity|].
  pose proof (skip_delims_head _ _ _ E) as Hc.
  unfold tokens at 1. rewrite tokens_from_scan.
  simpl. rewrite Hc.
  destruct (scan_token delim s') as [tok r]. reflexivity.
Qed.

End Tokens.

(** The loop folds the component table over the tokens; it never runs
    out of the fuel populate_log_message gives it. *)
Lemma token_loop_fold fuel saved ret_val :
  (String.length saved < fuel)%nat ->
  token_loop fuel "," saved ret_val
  = Done (fold_left (fun r token => component_loop qd_log_message_components 0 token r)
                    (tokens "," saved) ret_val).
Proof.
  revert saved ret_val. induction fuel as [|fuel IH]; intros saved ret_val Hlen; [lia|].
  cbn [token_loop].
  pose proof (strtok_tokens "," saved) as Htok.
  pose proof (strtok_shorter "," saved) as Hshort.
  destruct (strtok "," saved) as [[token saved']|].
  - specialize (Hshort _ _ eq_refl).
    rewrite IH by lia. rewrite Htok. reflexivity.
  - rewrite Htok. reflexivity.
Qed.

Lemma testbit_one_shifted i j : 0 <= i -> 0 <= j -> Z.testbit (Z.shiftl 1 i) j = (i =? j).
Proof.
  intros Hi Hj. rewrite Z.shiftl_spec by assumption.
  destruct (Z.eqb_spec i j) as [->|Hne].
  - now rewrite Z.sub_diag.
  - destruct (Z.lt_ge_cases j i).
    + apply Z.testbit_neg_r. lia.
    + apply Z.bits_above_log2; simpl; lia.
Qed.

Lemma component_loop_bits components i token ret_val j :
  0 <= i -> 0 <= j ->
  Z.testbit (component_loop components i token ret_val) j
  = Z.testbit ret_val j || hits components i token j.
Proof.
  revert i ret_val. induction components as [|c rest IH]; intros i ret_val Hi Hj.
  - simpl. now rewrite orb_false_r.
  - cbn [component_loop hits]. rewrite IH by lia.
    destruct (streq c token); cbn [andb orb].
    + rewrite Z.lor_spec, testbit_one_shifted by assumption.
      now rewrite orb_assoc.
    + reflexivity.
Qed.

Lemma hits_above components i token j : j < i -> hits components i token j = false.
Proof.
  revert i. induction components as [|c rest IH]; intros i Hij; [reflexivity|].
  cbn [hits]. rewrite IH by lia.
  replace (i =? j) with false by (symmetry; apply Z.eqb_neq; lia).
  now rewrite andb_false_r.
Qed.

Lemma hits_nth components i token j :
  0 <= i -> i <= j ->
  hits components i token j = true <-> nth_error components (Z.to_nat (j - i)) = Some token.
Proof.
  revert i. induction components as [|c rest IH]; intros i Hi Hij.
  - simpl. destruct (Z.to_nat (j - i)); simpl; split; discriminate.
  - cbn [hits]. rewrite orb_true_iff, andb_true_iff.
    destruct (Z.eqb_spec i j) as [->|Hne].
    + rewrite Z.sub_diag. simpl. unfold streq. rewrite String.eqb_eq.
      split.
      * intros [[-> _]|H]; [reflexivity|].
        rewrite hits_above in H by lia. discriminate.
      * intros [= ->]. now left.
    + replace (Z.to_nat (j - i)) with (S (Z.to_nat (j - (i + 1)))) by lia.
      simpl. rewrite <- IH by lia.
      split; [intros [[_ H]|H]; [discriminate | assumption] | now right].
Qed.

Lemma fold_bits_gen components toks ret_val j :
  0 <= j ->
  Z.testbit (fold_left (fun r token => component_loop components 0 token r)
                       toks ret_val) j
  = Z.testbit ret_val j || existsb (fun token => hits components 0 token j) toks.
Proof.
  intros Hj. revert ret_val. induction toks as [|t toks IH]; intros ret_val.
  - simpl. now rewrite orb_false_r.
  - cbn [fold_left existsb]. rewrite IH, component_loop_bits by lia.
    now rewrite orb_assoc.
Qed.

(** A token that is no component leaves the bits as they are. *)
Lemma component_loop_unknown components i token ret_val :
  ~ In token components -> component_loop components i token ret_val = ret_val.
Proof.
  revert i ret_val. induction components as [|c rest IH]; intros i ret_val Hin; [reflexivity|].
  cbn [component_loop]. unfold streq.
  destruct (String.eqb_spec c token) as [->|Hne].
  - exfalso. apply Hin. now left.
  - apply IH. intros H. apply Hin. now right.
Qed.

Lemma populate_tokens s :
  s <> NONE -> s <> ALL ->
  populate_log_message (Some s)
  = Done (fold_left (fun r token => component_loop qd_log_message_components 0 token r)
                    (tokens "," s) 0).
Proof.
  intros Hnone Hall. unfold populate_log_message, streq.
  apply String.eqb_neq in Hnone, Hall. rewrite Hnone, Hall.
  apply token_loop_fold. lia.
Qed.

Lemma populate_total log_message :
  exists bits, populate_log_message log_message = Done bits.
Proof.
  destruct log_message as [s|]; [|eexists; reflexivity].
  unfold populate_log_message.
  destruct (streq s NONE); [eexists; reflexivity|].
  destruct (streq s ALL); [eexists; reflexivity|].
  eexists. apply token_loop_fold. lia.
Qed.

Lemma populate_bits s bits i :
  s <> NONE -> s <> ALL -> 0 <= i ->
  populate_log_message (Some s) = Done bits ->
  (Z.testbit bits i = true <->
   exists component,
     nth_error qd_log_message_components (Z.to_nat i) = Some component /\
     In component (tokens "," s)).
Proof.
  intros Hnone Hall Hi Hpop.
  rewrite populate_tokens in Hpop by assumption.
  generalize dependent (tokens "," s). generalize qd_log_message_components.
  intros components toks Hpop.
  assert (Hbits : bits = fold_left (fun r token => component_loop components 0 token r) toks 0)
    by congruence.
  rewrite Hbits, fold_bits_gen by assumption.
  rewrite Z.testbit_0_l, orb_false_l, existsb_exists.
  split.
  - intros (token & Hin & Hhit). exists token. split; [|assumption].
    apply hits_nth in Hhit; [|lia|assumption].
    now rewrite Z.sub_0_r in Hhit.
  - intros (component & Hnth & Hin). exists component. split; [assumption|].
    apply hits_nth; [lia|assumption|]. now rewrite Z.sub_0_r.
Qed.

End LogMessageFacts.

Import LogMessage LogMessageSpec LogMessageFacts.

(** C5: populate_log_message always returns; on a text other than
    "none" and "all" bit [i] of the result is set exactly when entry [i]
    of the 14-entry table is one of the comma-separated tokens, so that
    unknown tokens contribute nothing; "message-id,to" gives bits 0 and 2,
    "all" sets every bit of the table, "none", an absent value and the
    empty text give zero, and so does "bogus". *)
Theorem C5_populate_log_message :
  (forall log_message, exists bits, populate_log_message log_message = Done bits) /\
  List.length qd_log_message_components = 14%nat /\
  (forall s bits i,
      s <> "none"%string -> s <> "all"%string -> 0 <= i ->
      populate_log_message (Some s) = Done bits ->
      (Z.testbit bits i = true <->
       exists component,
         nth_error qd_log_message_components (Z.to_nat i) = Some component /\
         In component (tokens "," s))) /\
  (forall token ret_val,
      ~ In token qd_log_message_components ->
      component_loop qd_log_message_components 0 token ret_val = ret_val) /\
  populate_log_message (Some "message-id,to"%string)
    = Done (Z.lor (Z.shiftl 1 0) (Z.shiftl 1 2)) /\
  (exists bits, populate_log_message (Some "all"%string) = Done bits /\
                forall i, 0 <= i < 14 -> Z.testbit bits i = true) /\
  populate_log_message (Some "none"%string) = Done 0 /\
  populate_log_message None = Done 0 /\
  populate_log_message (Some ""%string) = Done 0 /\
  populate_log_message (Some "bogus"%string) = Done 0.
Proof.
  split; [|split; [reflexivity|split; [|split; [|split; [reflexivity|split]]]]].
  - exact populate_total.
  - intros s bits i Hnone Hall Hi Hpop. now apply populate_bits.
  - intros token ret_val Hin. now apply component_loop_unknown.
  - exists INT32_MAX. split; [reflexivity|].
    intros i Hi.
    assert (Hcases : i = 0 \/ i = 1 \/ i = 2 \/ i = 3 \/ i = 4 \/ i = 5 \/ i = 6 \/ i = 7 \/
                     i = 8 \/ i = 9 \/ i = 10 \/ i = 11 \/ i = 12 \/ i = 13) by lia.
    repeat (destruct Hcases as [->|Hcases]; [reflexivity|]). subst i. reflexivity.
  - repeat split; reflexivity.
Qed.


(** ** Annotation stripping and the incoming capacity *)

(** C4: load_strip_annotations maps "both", "in", "out" and "no" to the
    two flags as listed, and a null pointer to (true, true) when
    assertions are compiled out (it fails the assertion otherwise); but
    any other text leaves the configuration as it is, which in
    load_server_config is the zeroed one: (false, false), not the
    documented default. *)
Theorem C4_load_strip_annotations :
  (forall ndebug config,
      strip_flags (load_strip_annotations ndebug config (Some "both"%string))
        = Some (true, true) /\
      strip_flags (load_strip_annotations ndebug config (Some "in"%string))
        = Some (true, false) /\
      strip_flags (load_strip_annotations ndebug config (Some "out"%string))
        = Some (false, true) /\
      strip_flags (load_strip_annotations ndebug config (Some "no"%string))
        = Some (false, false)) /\
  (forall config, strip_flags (load_strip_annotations true config None) = Some (true, true)) /\
  (forall config, load_strip_annotations false config None = Aborted) /\
  (forall ndebug config s,
      s <> "both"%string -> s <> "in"%string -> s <> "out"%string -> s <> "no"%string ->
      load_strip_annotations ndebug config (Some s) = Done config) /\
  (forall ndebug,
      strip_flags (load_strip_annotations ndebug config_zero (Some "bogus"%string))
        = Some (false, false)) /\
  (forall ndebug,
      match load_server_config ndebug 8 empty_manager example_entity false
                               (empty_world config_zero) with
      | Done (Next e, w) =>
          e = QD_ERROR_NONE /\
          flags (locals w) f_strip_inbound_annotations = false /\
          flags (locals w) f_strip_outbound_annotations = false
      | _ => False
      end).
Proof.
  split; [|split; [|split; [|split; [|split]]]].
  - intros ndebug config. repeat split; reflexivity.
  - reflexivity.
  - reflexivity.
  - intros ndebug config s Hboth Hin Hout Hno.
    unfold load_strip_annotations, streq.
    apply String.eqb_neq in Hboth, Hin, Hout, Hno.
    now rewrite Hboth, Hin, Hout, Hno.
  - reflexivity.
  - intros ndebug. destruct ndebug; vm_compute; repeat split; reflexivity.
Qed.

Lemma to_size_t_small sz z : (sz = 4 \/ sz = 8) -> 0 <= z < 2 ^ 32 -> to_size_t sz z = z.
Proof.
  intros [-> | ->] Hz; unfold to_size_t; apply Z.mod_small; simpl; lia.
Qed.

Lemma to_size_t_wide z : 0 <= z < 2 ^ 64 -> to_size_t 8 z = z.
Proof. intros Hz. unfold to_size_t. apply Z.mod_small. simpl. lia. Qed.

(** The capacity and the frame count of the warning, by cases: from a
    frame size already raised to the floor of 512 and a session frame
    count [n]. *)
Lemma incoming_capacity_cases (sizeof_size_t max_frame_size n : Z) :
  sizeof_size_t = 4 \/ sizeof_size_t = 8 ->
  QD_AMQP_MIN_MAX_FRAME_SIZE <= max_frame_size < 2 ^ 32 ->
  0 <= n < 2 ^ 64 ->
  let capacity := fst (incoming_capacity sizeof_size_t max_frame_size n) in
  let warning := snd (incoming_capacity sizeof_size_t max_frame_size n) in
  let candidate := (n * max_frame_size) mod 2 ^ 64 in
  let limit := 2 ^ 31 - 1 in
  (n = 0 ->
   warning = None /\
   capacity = if sizeof_size_t <? 8 then INT32_MAX else INT32_MAX * max_frame_size) /\
  (0 < n -> sizeof_size_t = 8 \/ candidate < limit ->
   warning = None /\ capacity = Z.max candidate QD_AMQP_MIN_MAX_FRAME_SIZE) /\
  (0 < n -> sizeof_size_t = 4 -> limit <= candidate ->
   warning = Some (limit / max_frame_size) /\ capacity = limit) /\
  (n = 4 -> max_frame_size = 512 -> capacity = 2048) /\
  QD_AMQP_MIN_MAX_FRAME_SIZE <= capacity /\
  (sizeof_size_t = 4 -> capacity <= limit).
Proof.
  intros Hsz Hmfs Hn capacity warning candidate limit.
  unfold QD_AMQP_MIN_MAX_FRAME_SIZE in *.
  assert (Hcand : 0 <= candidate < 2 ^ 64) by (apply Z.mod_pos_bound; lia).
  assert (Hmfs64 : to_uint64 max_frame_size = max_frame_size)
    by (unfold to_uint64; apply Z.mod_small; lia).
  assert (Hprod : INT32_MAX * max_frame_size < 2 ^ 64) by (unfold INT32_MAX; nia).
  unfold capacity, warning, incoming_capacity, QD_AMQP_MIN_MAX_FRAME_SIZE.
  rewrite Hmfs64. fold candidate. unfold to_uint64. fold candidate.
  change (2 ^ 31 - 1) with limit.
  change 0x7FFFFFFF with INT32_MAX.
  destruct (Z.eqb_spec n 0) as [Hn0|Hn0].
  - (* no override *)
    cbn [fst snd].
    destruct Hsz as [-> | ->].
    + change (4 <? 8) with true. cbv iota.
      rewrite to_size_t_small by (first [now left | unfold INT32_MAX; lia]).
      unfold INT32_MAX, limit. repeat split; intros; try lia.
    + change (8 <? 8) with false. cbv iota.
      rewrite to_size_t_wide by (unfold INT32_MAX in *; nia).
      unfold INT32_MAX, limit in *. repeat split; intros; try lia; try nia.
  - destruct Hsz as [-> | ->].
    + (* narrow platform *)
      change (4 <? 8) with true. cbv iota.
      replace (limit =? 0) with false by reflexivity. cbn [orb].
      destruct (Z.ltb_spec candidate limit) as [Hlt|Hge]; cbn [fst snd].
      * destruct (Z.ltb_spec candidate 512);
          rewrite to_size_t_small by (first [now left | unfold limit in *; lia]);
          unfold limit in *; repeat split; intros; try lia.
        all: subst; vm_compute in Hlt; try discriminate; reflexivity.
      * rewrite to_size_t_small by (first [now left | unfold limit; lia]).
        unfold limit in *. repeat split; intros; try lia.
        subst. vm_compute in Hge. exfalso. apply Hge. reflexivity.
    + (* size_t has 8 bytes *)
      change (8 <? 8) with false. cbv iota.
      change (0 =? 0) with true. cbn [orb fst snd].
      destruct (Z.ltb_spec candidate 512);
        rewrite to_size_t_wide by lia;
        unfold limit in *; repeat split; intros; try lia.
      all: subst; try reflexivity; vm_compute in H; try discriminate.
Qed.

(** ** Start and deletion *)

Module LifecycleFacts.
Import Lifecycle LifecycleSpec.

Lemma object_at_addr a objs c : object_at a objs = Some c -> ct_addr c = a.
Proof.
  induction objs as [|x objs IH]; simpl; [discriminate|].
  destruct (Nat.eqb_spec (ct_addr x) a) as [E|E]; [|assumption].
  intros [= <-]. assumption.
Qed.

(** A store at an address that holds an object puts the new object there
    and leaves the other addresses alone. *)
Lemma object_at_store a o objs :
  object_at a (object_store o objs)
  = if Nat.eqb (ct_addr o) a
    then match object_at a objs with Some _ => Some o | None => None end
    else object_at a objs.
Proof.
  induction objs as [|x objs IH]; cbn [object_at object_store].
  - now destruct (Nat.eqb (ct_addr o) a).
  - destruct (Nat.eqb_spec (ct_addr x) (ct_addr o)) as [Exo|Exo]; cbn [object_at].
    + rewrite Exo. now destruct (Nat.eqb (ct_addr o) a).
    + rewrite IH.
      destruct (Nat.eqb_spec (ct_addr x) a) as [Exa|Exa]; [|reflexivity].
      destruct (Nat.eqb_spec (ct_addr o) a) as [Eoa|Eoa]; [congruence | reflexivity].
Qed.

Lemma object_at_free a objs : object_at a (object_free a objs) = None.
Proof.
  unfold object_free. induction objs as [|x objs IH]; simpl; [reflexivity|].
  destruct (Nat.eqb_spec (ct_addr x) a) as [E|E]; simpl; [assumption|].
  now rewrite (proj2 (Nat.eqb_neq _ _) E).
Qed.

(** *** start() *)

(** Every listen attempt is on a listener of the collection that was not
    accepting, and every such listener is attempted. *)
Lemma start_listeners_events d fs lis lis' evs :
  start_listeners d fs lis = Done (lis', evs) ->
  evs = map Listen (filter (fun li => negb (listener_active li)) lis).
Proof.
  revert lis' evs. induction lis as [|l lis IH]; intros lis' evs H.
  - injection H as <- <-. reflexivity.
  - cbn [start_listeners] in H. unfold listener_active. cbn [filter].
    destruct (pn_listener l) as [h|] eqn:Hpn; cbn [negb].
    + destruct (start_listeners d fs lis) as [[rest evs0]| | |]; try discriminate.
      cbn [obind] in H. injection H as <- <-. now apply (IH rest).
    + destruct (qd_listener_listen d l) as [l' ok].
      destruct (negb ok && fs); [discriminate|].
      destruct (start_listeners d fs lis) as [[rest evs0]| | |]; try discriminate.
      cbn [obind] in H. injection H as <- <-. cbn [map]. f_equal. now apply (IH rest).
Qed.

(** Every connect attempt is on a connector of the collection that was
    neither connecting nor open when start() came to it. *)
Lemma start_connectors_events d ct objs objs' evs :
  start_connectors d ct objs = Done (objs', evs) ->
  forall ev, In ev evs ->
             exists c, ev = Connect c /\ connector_active c = false /\ In (ct_addr c) ct.
Proof.
  revert objs objs' evs. induction ct as [|a ct IH]; intros objs objs' evs H ev Hin.
  - injection H as <- <-. destruct Hin.
  - cbn [start_connectors] in H.
    destruct (object_at a objs) as [c|] eqn:Hat; [|discriminate].
    pose proof (object_at_addr _ _ _ Hat) as Haddr.
    destruct (connector_active c) eqn:Hact.
    + destruct (IH _ _ _ H ev Hin) as (c' & -> & Hc' & Hin').
      exists c'. repeat split; [assumption | now right].
    + destruct (start_connectors d ct (object_store (qd_connector_connect d c) objs))
        as [[objs0 evs0]| | |] eqn:Hrest; try discriminate.
      cbn [obind] in H. injection H as <- <-.
      destruct Hin as [<-|Hin].
      * exists c. repeat split; [assumption | left; congruence].
      * destruct (IH _ _ _ Hrest ev Hin) as (c' & -> & Hc' & Hin').
        exists c'. repeat split; [assumption | now right].
Qed.

Section Activating.

(** A driver whose connect attempt leaves the connector, at its address,
    connecting or open. *)
Variable d : driver.
Hypothesis connect_activates :
  forall c, connector_active (qd_connector_connect d c) = true /\
            ct_addr (qd_connector_connect d c) = ct_addr c.

Lemma start_connectors_keeps_active ct objs objs' evs a :
  start_connectors d ct objs = Done (objs', evs) ->
  active_at a objs -> active_at a objs'.
Proof.
  revert objs objs' evs. induction ct as [|x ct IH]; intros objs objs' evs H Hact.
  - injection H as <- <-. assumption.
  - cbn [start_connectors] in H.
    destruct (object_at x objs) as [c|] eqn:Hat; [|discriminate].
    destruct (connector_active c) eqn:Hc.
    + now apply (IH _ _ _ H).
    + destruct (start_connectors d ct (object_store (qd_connector_connect d c) objs))
        as [[objs0 evs0]| | |] eqn:Hrest; try discriminate.
      cbn [obind] in H. injection H as <- <-.
      apply (IH _ _ _ Hrest).
      destruct Hact as (c0 & Hc0 & Hact0).
      destruct (connect_activates c) as [Hnew Haddr].
      unfold active_at. rewrite object_at_store, Haddr, Hc0.
      destruct (Nat.eqb (ct_addr c) a); eauto.
Qed.

Lemma start_connectors_activates ct objs objs' evs :
  start_connectors d ct objs = Done (objs', evs) ->
  forall a, In a ct -> active_at a objs'.
Proof.
  revert objs objs' evs. induction ct as [|x ct IH]; intros objs objs' evs H a Hin;
    [destruct Hin|].
  cbn [start_connectors] in H.
  destruct (object_at x objs) as [c|] eqn:Hat; [|discriminate].
  pose proof (object_at_addr _ _ _ Hat) as Hx.
  destruct (connector_active c) eqn:Hc.
  - destruct Hin as [<-|Hin]; [|now apply (IH _ _ _ H)].
    apply (start_connectors_keeps_active _ _ _ _ _ H). now exists c.
  - destruct (start_connectors d ct (object_store (qd_connector_connect d c) objs))
      as [[objs0 evs0]| | |] eqn:Hrest; try discriminate.
    cbn [obind] in H. injection H as <- <-.
    destruct Hin as [<-|Hin]; [|now apply (IH _ _ _ Hrest)].
    apply (start_connectors_keeps_active _ _ _ _ _ Hrest).
    destruct (connect_activates c) as [Hnew Haddr].
    exists (qd_connector_connect d c). split; [|assumption].
    rewrite object_at_store, Haddr, Hx, Nat.eqb_refl, Hat. reflexivity.
Qed.

End Activating.

(** When every connector of the collection is connecting or open, the
    loop attempts nothing. *)
Lemma start_connectors_idle d ct objs :
  (forall a, In a ct -> active_at a objs) ->
  start_connectors d ct objs = Done (objs, []).
Proof.
  induction ct as [|x ct IH]; intros Hall; [reflexivity|].
  cbn [start_connectors].
  destruct (Hall x (or_introl eq_refl)) as (c & -> & ->).
  apply IH. intros a Ha. apply Hall. now right.
Qed.

(** After a first start that returns, every listener is accepting if the
    driver's successful attempts leave it so. *)
Lemma start_listeners_first d lis lis' evs :
  (forall li li', qd_listener_listen d li = (li', true) -> listener_active li' = true) ->
  start_listeners d true lis = Done (lis', evs) ->
  forallb listener_active lis' = true.
Proof.
  intros Hok. revert lis' evs. induction lis as [|l lis IH]; intros lis' evs H.
  - injection H as <- <-. reflexivity.
  - cbn [start_listeners] in H.
    destruct (pn_listener l) as [h|] eqn:Hpn.
    + destruct (start_listeners d true lis) as [[rest evs0]| | |]; try discriminate.
      cbn [obind] in H. injection H as <- <-. cbn [forallb].
      rewrite (IH _ _ eq_refl). unfold listener_active. now rewrite Hpn.
    + destruct (qd_listener_listen d l) as [l' ok] eqn:Hl.
      destruct ok; [|discriminate]. cbn [negb andb] in H.
      destruct (start_listeners d true lis) as [[rest evs0]| | |]; try discriminate.
      cbn [obind] in H. injection H as <- <-. cbn [forallb].
      rewrite (IH _ _ eq_refl), andb_true_r.
      apply (Hok _ _ Hl).
Qed.

Lemma filter_all_active lis :
  forallb listener_active lis = true ->
  filter (fun li => negb (listener_active li)) lis = [].
Proof.
  induction lis as [|l lis IH]; [reflexivity|].
  cbn [forallb filter]. intros H. apply andb_true_iff in H as [Hl Hrest].
  rewrite Hl. cbn [negb]. now apply IH.
Qed.

Lemma start_inv d m m' evs :
  qd_connection_manager_start d m = Done (m', evs) ->
  exists lis evs1 objs evs2,
    start_listeners d (first_start m) (listeners m) = Done (lis, evs1) /\
    start_connectors d (connectors m) (connector_objects m) = Done (objs, evs2) /\
    m' = {| listeners := lis; connectors := connectors m;
            connector_objects := objs; first_start := false |} /\
    evs = evs1 ++ evs2.
Proof.
  unfold qd_connection_manager_start. intros H.
  destruct (start_listeners d (first_start m) (listeners m)) as [[lis evs1]| | |];
    try discriminate.
  cbn [obind] in H.
  destruct (start_connectors d (connectors m) (connector_objects m)) as [[objs evs2]| | |];
    try discriminate.
  cbn [obind] in H. injection H as <- <-.
  now exists lis, evs1, objs, evs2.
Qed.

Lemma start_attempts d m m' evs :
  qd_connection_manager_start d m = Done (m', evs) ->
  attempts_only_inactive m evs /\
  (forall li, In li (listeners m) -> listener_active li = false -> In (Listen li) evs).
Proof.
  intros H. destruct (start_inv _ _ _ _ H) as (lis & evs1 & objs & evs2 & Hl & Hc & -> & ->).
  pose proof (start_listeners_events _ _ _ _ _ Hl) as Hevs1.
  split.
  - intros ev Hin. apply in_app_or in Hin as [Hin|Hin].
    + left. rewrite Hevs1 in Hin. apply in_map_iff in Hin as (li & <- & Hli).
      apply filter_In in Hli as [Hli Hact]. exists li. repeat split; [assumption|].
      now apply negb_true_iff.
    + right. destruct (start_connectors_events _ _ _ _ _ Hc ev Hin) as (c & -> & Hact & Hc').
      now exists c.
  - intros li Hli Hact. apply in_or_app. left. rewrite Hevs1.
    apply in_map, filter_In. split; [assumption|]. now rewrite Hact.
Qed.

End LifecycleFacts.

Import Lifecycle LifecycleSpec LifecycleFacts.

(** C7: whatever the driver does, a call of start() that returns made a
    listen attempt on the listeners that were not accepting, and only on
    them, and connect attempts only on connectors that were neither
    connecting nor open; so a second call attempts nothing on a handle
    the first call left active.  If the first call's driver leaves every
    connector it attempts connecting or open (at its address), the second
    call attempts no connector; if moreover the first call was the first
    start and a successful listen leaves the listener accepting, the
    second call attempts nothing at all. *)
Theorem C7_start_attempts (d1 d2 : driver) (m m1 m2 : manager) (evs1 evs2 : list event) :
  qd_connection_manager_start d1 m = Done (m1, evs1) ->
  qd_connection_manager_start d2 m1 = Done (m2, evs2) ->
  attempts_only_inactive m evs1 /\
  (forall li, In li (listeners m) -> listener_active li = false -> In (Listen li) evs1) /\
  attempts_only_inactive m1 evs2 /\
  ((forall c, connector_active (qd_connector_connect d1 c) = true /\
              ct_addr (qd_connector_connect d1 c) = ct_addr c) ->
   (forall c, ~ In (Connect c) evs2) /\
   ((forall li li', qd_listener_listen d1 li = (li', true) -> listener_active li' = true) ->
    first_start m = true ->
    evs2 = [])).
Proof.
  intros H1 H2.
  destruct (start_attempts _ _ _ _ H1) as [Hsound1 Hcomplete1].
  destruct (start_attempts _ _ _ _ H2) as [Hsound2 _].
  repeat (split; [assumption|]).
  intros Hconnect.
  destruct (start_inv _ _ _ _ H1) as (lis & e1 & objs & e1' & Hl1 & Hc1 & -> & ->).
  destruct (start_inv _ _ _ _ H2) as (lis2 & e2 & objs2 & e2' & Hl2 & Hc2 & -> & ->).
  cbn [listeners connectors connector_objects first_start] in *.
  pose proof (start_connectors_activates d1 Hconnect _ _ _ _ Hc1) as Hactive.
  rewrite (start_connectors_idle d2 _ _ Hactive) in Hc2.
  injection Hc2 as <- <-.
  pose proof (start_listeners_events _ _ _ _ _ Hl2) as He2.
  split.
  - intros c Hin. rewrite app_nil_r, He2 in Hin.
    apply in_map_iff in Hin as (li & [=] & _).
  - intros Hlisten Hfirst. rewrite Hfirst in Hl1.
    rewrite app_nil_r, He2.
    rewrite (filter_all_active _ (start_listeners_first _ _ _ _ Hlisten Hl1)).
    reflexivity.
Qed.

Lemma C7_start_attempts_witness :
  match qd_connection_manager_start example_driver example_manager with
  | Done (m1, evs1) =>
      match qd_connection_manager_start example_driver m1 with
      | Done (_, evs2) => List.length evs1 = 2%nat /\ evs2 = []
      | _ => False
      end
  | _ => False
  end.
Proof.
  destruct (qd_connection_manager_start example_driver example_manager)
    as [[m1 evs1]| | |] eqn:H1; try (vm_compute in H1; discriminate).
  destruct (qd_connection_manager_start example_driver m1)
    as [[m2 evs2]| | |] eqn:H2;
    try (vm_compute in H1; injection H1 as <- <-; vm_compute in H2; discriminate).
  split.
  - vm_compute in H1. injection H1 as _ <-. reflexivity.
  - refine (proj2 (proj2 (proj2 (proj2
             (C7_start_attempts example_driver example_driver example_manager
                                m1 m2 evs1 evs2 H1 H2))) _) _ _).
    + intros c. split; reflexivity.
    + intros li li' [= <-]. reflexivity.
    + reflexivity.
Defined.

(** C9, as the code has it: delete_connector does not clear the
    context of the handle, it clears the reference from the context
    back to the connector.  So every invocation on a handle whose
    object lives enqueues a deferred close where the context holds a
    connection, gives up the place in the collection and releases a
    reference, and a second invocation does all of it again: of an
    object the first release freed it goes through a dangling pointer,
    and otherwise it enqueues the same close a second time and takes a
    second reference away. *)
Theorem C9_delete_connector_twice (m : manager) (a : nat) (ct : qd_connector_t) :
  object_at a (connector_objects m) = Some ct ->
  exists m1,
    qd_connection_manager_delete_connector m (Some a)
      = Done (m1, deferred_closes ct ++ [DeqRemove a; Decref a]) /\
    connectors m1 = deq_remove a (connectors m) /\
    (ref_count ct = 1 ->
     object_at a (connector_objects m1) = None /\
     qd_connection_manager_delete_connector m1 (Some a) = Undefined) /\
    (ref_count ct <> 1 ->
     exists m2 ct1,
       object_at a (connector_objects m1) = Some ct1 /\
       ref_count ct1 = ref_count ct - 1 /\
       ctx ct1 = detached_context ct /\
       qd_connection_manager_delete_connector m1 (Some a)
         = Done (m2, deferred_closes ct ++ [DeqRemove a; Decref a]) /\
       connectors m2 = deq_remove a (deq_remove a (connectors m)) /\
       (ref_count ct = 2 -> object_at a (connector_objects m2) = None) /\
       (ref_count ct <> 2 ->
        exists ct2, object_at a (connector_objects m2) = Some ct2 /\
                    ref_count ct2 = ref_count ct - 2)).
Proof.
  intros Hat.
  pose proof (object_at_addr _ _ _ Hat) as Haddr.
  assert (Hdel : forall m0 c0,
             object_at a (connector_objects m0) = Some c0 ->
             qd_connection_manager_delete_connector m0 (Some a)
             = Done ({| listeners := listeners m0;
                        connectors := deq_remove a (connectors m0);
                        connector_objects :=
                          qd_connector_decref (clear_backref c0)
                            (object_store (clear_backref c0) (connector_objects m0));
                        first_start := first_start m0 |},
                     deferred_closes c0 ++ [DeqRemove a; Decref a])).
  { intros m0 c0 H0. unfold qd_connection_manager_delete_connector, deferred_closes.
    rewrite H0. reflexivity. }
  assert (Hdecref : forall c0 objs,
             ct_addr c0 = a -> object_at a objs = Some c0 ->
             (ref_count c0 = 1 -> object_at a (qd_connector_decref c0 objs) = None) /\
             (ref_count c0 <> 1 ->
              exists c1, object_at a (qd_connector_decref c0 objs) = Some c1 /\
                         ref_count c1 = ref_count c0 - 1 /\ ctx c1 = ctx c0 /\
                         ct_addr c1 = a)).
  { intros c0 objs Ha0 H0. unfold qd_connector_decref. split; intros Hrc.
    - apply Z.eqb_eq in Hrc. rewrite Hrc, Ha0. apply object_at_free.
    - apply Z.eqb_neq in Hrc. rewrite Hrc.
      eexists. rewrite object_at_store. cbn [ct_addr]. rewrite Ha0, Nat.eqb_refl, H0.
      split; [reflexivity|]. cbn. auto. }
  assert (Hstored : forall c0 objs,
             ct_addr c0 = a -> object_at a objs = Some c0 ->
             object_at a (object_store (clear_backref c0) objs) = Some (clear_backref c0)).
  { intros c0 objs Ha0 H0. rewrite object_at_store. cbn [clear_backref ct_addr].
    now rewrite Ha0, Nat.eqb_refl, H0. }
  assert (Hcloses : forall c0 c1, ctx c1 = detached_context c0 ->
                                  deferred_closes c1 = deferred_closes c0).
  { intros c0 c1 Hc. unfold deferred_closes, detached_context in *. rewrite Hc.
    now destruct (ctx c0) as [[bk [pn|]]|]. }
  eexists. split; [apply (Hdel m ct Hat)|].
  split; [reflexivity|].
  cbn [connector_objects connectors].
  destruct (Hdecref (clear_backref ct) _ Haddr (Hstored ct _ Haddr Hat)) as [Hlast Hmore].
  cbn [clear_backref ref_count] in Hlast, Hmore.
  split.
  - intros Hrc. split; [exact (Hlast Hrc)|].
    unfold qd_connection_manager_delete_connector.
    cbn [connector_objects]. now rewrite (Hlast Hrc).
  - intros Hrc. destruct (Hmore Hrc) as (ct1 & Hat2 & Hrc1 & Hctx1 & Haddr1).
    cbn [clear_backref ctx] in Hctx1. fold (detached_context ct) in Hctx1.
    eexists. exists ct1. split; [exact Hat2|]. split; [exact Hrc1|]. split; [exact Hctx1|].
    split.
    + rewrite <- (Hcloses ct ct1 Hctx1).
      match goal with
      | |- qd_connection_manager_delete_connector ?m1 _ = _ => apply (Hdel m1 ct1 Hat2)
      end.
    + cbn [connector_objects connectors]. split; [reflexivity|].
      destruct (Hdecref (clear_backref ct1) _ Haddr1 (Hstored ct1 _ Haddr1 Hat2))
        as [Hlast2 Hmore2].
      cbn [clear_backref ref_count] in Hlast2, Hmore2.
      split.
      * intros H2. apply Hlast2. lia.
      * intros H2. destruct Hmore2 as (ct2 & Hat4 & Hrc2 & _); [lia|].
        exists ct2. split; [assumption | lia].
Qed.

Lemma C9_delete_connector_twice_witness :
  exists m1 m2,
    qd_connection_manager_delete_connector live_manager (Some 7%nat)
      = Done (m1, [InvokeDeferredClose 5; DeqRemove 7; Decref 7]) /\
    qd_connection_manager_delete_connector m1 (Some 7%nat)
      = Done (m2, [InvokeDeferredClose 5; DeqRemove 7; Decref 7]).
Proof.
  destruct (C9_delete_connector_twice live_manager 7 live_connector eq_refl)
    as (m1 & Hfirst & _ & _ & Hsecond).
  destruct Hsecond as (m2 & ct1 & _ & _ & _ & Hdel & _); [discriminate|].
  exists m1, m2. split; [exact Hfirst | exact Hdel].
Defined.

(** C9 as stated fails.  The first invocation leaves the context of
    the handle in place: on a connector with a live connection that
    the manager and a timer hold, the second invocation enqueues the
    close of the connection a second time, gives up the place and
    releases a reference again, and the object is freed while the
    timer still refers to it.  On the same connector without a live
    connection the second invocation releases again just the same. *)
Lemma C9_counterexample :
  match qd_connection_manager_delete_connector live_manager (Some 7%nat) with
  | Done (m1, evs1) =>
      match qd_connection_manager_delete_connector m1 (Some 7%nat) with
      | Done (m2, evs2) =>
          evs1 = [InvokeDeferredClose 5; DeqRemove 7; Decref 7] /\
          (exists ct1, object_at 7 (connector_objects m1) = Some ct1 /\
                       ctx ct1 = Some {| connector := None; pn_conn := Some 5%nat |}) /\
          evs2 = [InvokeDeferredClose 5; DeqRemove 7; Decref 7] /\
          object_at 7 (connector_objects m2) = None
      | _ => False
      end
  | _ => False
  end /\
  match qd_connection_manager_delete_connector example_manager (Some 7%nat) with
  | Done (m1, _) =>
      match qd_connection_manager_delete_connector m1 (Some 7%nat) with
      | Done (m2, evs) =>
          evs = [DeqRemove 7; Decref 7] /\
          object_at 7 (connector_objects m1) <> None /\
          object_at 7 (connector_objects m2) = None
      | _ => False
      end
  | _ => False
  end.
Proof.
  vm_compute. split.
  - split; [reflexivity|]. split; [|split; reflexivity].
    eexists. split; reflexivity.
  - repeat split. discriminate.
Qed.

(** ** The heap under a resolution *)

Module HeapFacts.
Import Ownership.

Lemma heap_read_app_old h x a s : heap_read h a = Some s -> heap_read (h ++ x) a = Some s.
Proof.
  unfold heap_read. intros H.
  destruct (nth_error h a) as [c|] eqn:E; [|discriminate].
  rewrite nth_error_app1 by (apply nth_error_Some; congruence).
  now rewrite E.
Qed.

Lemma heap_read_live h a s : heap_read h a = Some s -> (a < List.length h)%nat.
Proof.
  unfold heap_read. intros H. apply nth_error_Some.
  destruct (nth_error h a); [discriminate | discriminate H].
Qed.

Lemma heap_read_new h s : heap_read (h ++ [Some s]) (List.length h) = Some s.
Proof.
  unfold heap_read. rewrite nth_error_app2 by lia.
  now rewrite Nat.sub_diag.
Qed.

Lemma nth_error_heap_write h a v b :
  nth_error (heap_write h a v) b
  = if Nat.eqb b a then match nth_error h a with Some _ => Some v | None => None end
    else nth_error h b.
Proof.
  revert a b. induction h as [|x h IH]; intros a b.
  - destruct a, b; simpl; try reflexivity. now destruct (Nat.eqb b a).
  - destruct a as [|a], b as [|b]; simpl; try reflexivity.
    apply IH.
Qed.

Lemma heap_read_write_same h a s v :
  heap_read h a = Some s -> heap_read (heap_write h a (Some v)) a = Some v.
Proof.
  unfold heap_read. rewrite nth_error_heap_write, Nat.eqb_refl.
  destruct (nth_error h a) as [[c|]|]; intros; [reflexivity | discriminate | discriminate].
Qed.

Lemma heap_read_write_other h a b v :
  a <> b -> heap_read (heap_write h a v) b = heap_read h b.
Proof.
  intros Hne. unfold heap_read. rewrite nth_error_heap_write.
  now rewrite (proj2 (Nat.eqb_neq b a)) by congruence.
Qed.

Lemma heap_write_last h x v : heap_write (h ++ [x]) (List.length h) v = h ++ [v].
Proof. induction h as [|y h IH]; simpl; [reflexivity | now rewrite IH]. Qed.

Lemma length_heap_write h a v : List.length (heap_write h a v) = List.length h.
Proof.
  revert a. induction h as [|x h IH]; intros a; [reflexivity|].
  destruct a; simpl; [reflexivity | now rewrite IH].
Qed.

Section Owned.

Context {Mem : Type}.
Variable beq : Mem -> Mem -> bool.
Hypothesis beq_eq : forall a b, beq a b = true <-> a = b.

(** The heap on entry: its blocks belong to others. *)
Variable h0 : heap_t.
Implicit Types (f : Mem -> cptr) (T : Mem -> slot) (m : Mem).

Lemma beq_refl m : beq m m = true.
Proof. now apply beq_eq. Qed.

Lemma slot_ok_ptr h a t : slot_ok h0 h (Ptr a) t -> (List.length h0 <= a < List.length h)%nat.
Proof.
  destruct t; simpl; try contradiction.
  intros [Hge Hr]. split; [assumption|]. now apply heap_read_live in Hr.
Qed.

Lemma slot_ok_app h x p t : slot_ok h0 h p t -> slot_ok h0 (h ++ x) p t.
Proof.
  destruct p, t; simpl; try tauto.
  intros [Hge Hr]. split; [assumption | now apply heap_read_app_old].
Qed.

(** More blocks at the end are nobody's business. *)
Lemma owns_app h f T x : owns h0 h f T -> owns h0 (h ++ x) f T.
Proof.
  intros [Hold Hlen Htxt Hinj]. split.
  - intros a Ha. rewrite nth_error_app1 by lia. now apply Hold.
  - rewrite length_app. lia.
  - intros m. now apply slot_ok_app.
  - assumption.
Qed.

(** A member assigned a fresh copy of a text, or a null pointer, owns it. *)
Lemma owns_assign h f T m o :
  owns h0 h f T ->
  owns h0 (h ++ opt_cell o) (upd beq f m (opt_ptr o h)) (upd beq T m (slot_of o)).
Proof.
  intros HO. pose proof (owns_app h f T (opt_cell o) HO) as [Hold Hlen Htxt Hinj].
  destruct HO as [_ Hlen0 Htxt0 _].
  split; try assumption.
  - intros m'. unfold upd. destruct (beq m' m); [|apply Htxt].
    destruct o as [s|]; simpl; [|exact I].
    split; [assumption | apply heap_read_new].
  - intros m1 m2 a. unfold upd.
    destruct (beq m1 m) eqn:E1, (beq m2 m) eqn:E2.
    + intros _ _. apply beq_eq in E1, E2. congruence.
    + destruct o; simpl; [|discriminate]. intros [= <-] H2.
      pose proof (Htxt0 m2) as Hs. rewrite H2 in Hs. apply slot_ok_ptr in Hs. lia.
    + destruct o; simpl; [|discriminate]. intros H1 [= <-].
      pose proof (Htxt0 m1) as Hs. rewrite H1 in Hs. apply slot_ok_ptr in Hs. lia.
    + apply Hinj.
Qed.

(** A member's text rewritten in place. *)
Lemma owns_write h f T m a s' :
  owns h0 h f T -> f m = Ptr a ->
  owns h0 (heap_write h a (Some s')) f (upd beq T m (Text s')).
Proof.
  intros [Hold Hlen Htxt Hinj] Hm.
  pose proof (Htxt m) as Hsm. rewrite Hm in Hsm.
  pose proof (slot_ok_ptr _ _ _ Hsm) as Ha.
  destruct (T m) as [| |s] eqn:ETm; simpl in Hsm; try contradiction.
  destruct Hsm as [_ Hread].
  split.
  - intros b Hb. rewrite nth_error_heap_write.
    rewrite (proj2 (Nat.eqb_neq b a)) by lia. now apply Hold.
  - now rewrite length_heap_write.
  - intros m'. unfold upd. destruct (beq m' m) eqn:E.
    + apply beq_eq in E. subst m'. rewrite Hm. simpl.
      split; [lia | now apply (heap_read_write_same _ _ s)].
    + pose proof (Htxt m') as Hs'.
      destruct (f m') as [|b|] eqn:Efm, (T m') as [| |t]; simpl in *; try tauto.
      destruct Hs' as [Hge Hr]. split; [assumption|].
      rewrite heap_read_write_other; [assumption|].
      intros ->. rewrite (Hinj m' m b Efm Hm), beq_refl in E. discriminate.
  - assumption.
Qed.

(** The text of a member that is set. *)
Lemma owns_text h f T m :
  owns h0 h f T -> is_set (T m) = true -> text_at h (f m) = Some (slot_text (T m)).
Proof.
  intros [_ _ Htxt _] Hset. specialize (Htxt m).
  destruct (f m), (T m); simpl in *; try tauto; try discriminate.
  destruct Htxt as [_ ->]. reflexivity.
Qed.

Lemma owns_null h f T m : owns h0 h f T -> T m = Null -> f m = NULL.
Proof.
  intros [_ _ Htxt _] HT. specialize (Htxt m). rewrite HT in Htxt.
  destruct (f m); simpl in Htxt; tauto.
Qed.

Lemma owns_ptr h f T m s :
  owns h0 h f T -> T m = Text s ->
  exists a, f m = Ptr a /\ (List.length h0 <= a)%nat /\ heap_read h a = Some s.
Proof.
  intros [_ _ Htxt _] HT. specialize (Htxt m). rewrite HT in Htxt.
  destruct (f m) as [|a|]; simpl in Htxt; try tauto. now exists a.
Qed.

(** A text of the heap on entry reads the same later on. *)
Lemma owns_old_text h f T p : owns h0 h f T -> text_at h0 p <> None -> text_at h p = text_at h0 p.
Proof.
  intros [Hold _ _ _] Hp. destruct p as [|a|]; simpl in *; try reflexivity.
  unfold heap_read in *.
  destruct (nth_error h0 a) as [c|] eqn:E; [|now destruct Hp].
  rewrite Hold by (apply nth_error_Some; congruence). now rewrite E.
Qed.

End Owned.

End HeapFacts.


(** ** Running the monad on a given world *)

Module RunFacts.
Import Ownership HeapFacts.

Section Run.

Context {L : Type}.
Implicit Types (c : L) (h : heap_t) (err : qd_error_t) (msg : string) (lg : list log_entry).

Lemma run_bind {A B} (m : M L A) (k : A -> M L B) w a w' :
  m w = Done (Next a, w') -> bind m k w = k a w'.
Proof. unfold bind. now intros ->. Qed.

Lemma run_bind_jump {A B} (m : M L A) (k : A -> M L B) w w' :
  m w = Done (Jump, w') -> bind m k w = Done (Jump, w').
Proof. unfold bind. now intros ->. Qed.

Lemma run_bind_undefined {A B} (m : M L A) (k : A -> M L B) w :
  m w = Undefined -> bind m k w = Undefined.
Proof. unfold bind. now intros ->. Qed.

Lemma run_assoc {A B C} (m : M L A) (f : A -> M L B) (g : B -> M L C) w :
  bind (bind m f) g w = bind m (fun x => bind (f x) g) w.
Proof. unfold bind. destruct (m w) as [[[a|] w']| | |]; reflexivity. Qed.

Lemma run_ret {A B} (a : A) (k : A -> M L B) w : bind (ret a) k w = k a w.
Proof. reflexivity. Qed.

Lemma run_lift_done {A B} (a : A) (k : A -> M L B) w : bind (lift (Done a)) k w = k a w.
Proof. reflexivity. Qed.

Lemma run_clear {B} (k : unit -> M L B) c h err msg lg :
  bind qd_error_clear k (mkWorld c h err msg lg) = k tt (mkWorld c h QD_ERROR_NONE "" lg).
Proof. reflexivity. Qed.

Lemma run_check {B} (k : unit -> M L B) c h msg lg :
  bind CHECK k (mkWorld c h QD_ERROR_NONE msg lg) = k tt (mkWorld c h QD_ERROR_NONE msg lg).
Proof. reflexivity. Qed.

Lemma run_modify {B} (f : L -> L) (k : unit -> M L B) c h err msg lg :
  bind (modify f) k (mkWorld c h err msg lg) = k tt (mkWorld (f c) h err msg lg).
Proof. reflexivity. Qed.

Lemma run_get_locals {B} (k : L -> M L B) c h err msg lg :
  bind get_locals k (mkWorld c h err msg lg) = k c (mkWorld c h err msg lg).
Proof. reflexivity. Qed.

Lemma run_log {B} lvl fmt a (k : unit -> M L B) c h err msg lg :
  bind (qd_log lvl fmt a) k (mkWorld c h err msg lg)
  = k tt (mkWorld c h err msg (lg ++ [{| level := lvl; format := fmt; args := a |}])).
Proof. reflexivity. Qed.

Lemma run_if_log {B} (b : bool) lvl fmt a (k : unit -> M L B) c h err msg lg :
  bind (if b then qd_log lvl fmt a else ret tt) k (mkWorld c h err msg lg)
  = k tt (mkWorld c h err msg
                  (lg ++ if b then [{| level := lvl; format := fmt; args := a |}] else [])).
Proof. destruct b; [reflexivity|]. now rewrite app_nil_r. Qed.

Lemma run_error {B} code text (k : unit -> M L B) c h err msg lg :
  bind (qd_error code text) k (mkWorld c h err msg lg) = k tt (mkWorld c h code text lg).
Proof. reflexivity. Qed.

(** *** The entity, when the attribute asked for is well formed *)

Lemma run_opt_bool {B} e a d (k : bool -> M L B) w :
  opt_bool_ok e a = true ->
  bind (qd_entity_opt_bool e a d) k w = k (bool_attr e a d) w.
Proof.
  unfold opt_bool_ok, qd_entity_opt_bool, qd_entity_get_bool, bool_attr.
  destruct (entity_get e a) as [[s|z|b]|]; try discriminate; reflexivity.
Qed.

Lemma run_opt_long {B} e a d (k : Z -> M L B) w :
  opt_long_ok e a = true ->
  bind (qd_entity_opt_long e a d) k w = k (long_attr e a d) w.
Proof.
  unfold opt_long_ok, qd_entity_opt_long, qd_entity_get_long, long_attr.
  destruct (entity_get e a) as [[s|z|b]|]; try discriminate; reflexivity.
Qed.

Lemma run_get_long {B} e a (k : Z -> M L B) w :
  req_long_ok e a = true ->
  bind (qd_entity_get_long e a) k w = k (long_attr e a 0) w.
Proof.
  unfold req_long_ok, qd_entity_get_long, long_attr.
  destruct (entity_get e a) as [[s|z|b]|]; try discriminate; reflexivity.
Qed.

Lemma run_opt_new_string {B} o (k : cptr -> M L B) c h err msg lg :
  bind (opt_new_string o) k (mkWorld c h err msg lg)
  = k (opt_ptr o h) (mkWorld c (h ++ opt_cell o) err msg lg).
Proof. destruct o; [reflexivity|]. cbn. now rewrite app_nil_r. Qed.

Lemma run_new_string {B} s (k : cptr -> M L B) c h err msg lg :
  bind (new_string s) k (mkWorld c h err msg lg)
  = k (Ptr (List.length h)) (mkWorld c (h ++ [Some s]) err msg lg).
Proof. reflexivity. Qed.

Lemma req_opt_string e a : req_string_ok e a = true -> opt_string_ok e a = true.
Proof.
  unfold req_string_ok, opt_string_ok.
  now destruct (entity_get e a) as [[s|z|b]|].
Qed.

Lemma run_opt_string {B} e a (k : cptr -> M L B) w :
  opt_string_ok e a = true ->
  bind (qd_entity_opt_string e a None) k w = bind (opt_new_string (string_attr e a)) k w.
Proof.
  unfold opt_string_ok, qd_entity_opt_string, qd_entity_get_string, string_attr.
  destruct (entity_get e a) as [[s|z|b]|]; try discriminate; reflexivity.
Qed.

Lemma run_get_string {B} e a (k : cptr -> M L B) w :
  req_string_ok e a = true ->
  bind (qd_entity_get_string e a) k w = bind (opt_new_string (string_attr e a)) k w.
Proof.
  unfold req_string_ok, qd_entity_get_string, string_attr.
  destruct (entity_get e a) as [[s|z|b]|]; try discriminate; reflexivity.
Qed.

Lemma req_string_attr e a : req_string_ok e a = true -> exists s, string_attr e a = Some s.
Proof.
  unfold req_string_ok, string_attr.
  destruct (entity_get e a) as [[s|z|b]|]; try discriminate. now exists s.
Qed.

(** *** The heap *)

Lemma run_read_text {B} p s (k : string -> M L B) c h err msg lg :
  text_at h p = Some (Some s) ->
  bind (read p) k (mkWorld c h err msg lg) = k s (mkWorld c h err msg lg).
Proof.
  destruct p as [|a|]; simpl; try discriminate.
  unfold bind, read. cbn [heap]. destruct (heap_read h a); [|discriminate].
  now intros [= ->].
Qed.

Lemma run_read_opt {B} p o (k : option string -> M L B) c h err msg lg :
  text_at h p = Some o ->
  bind (read_opt p) k (mkWorld c h err msg lg) = k o (mkWorld c h err msg lg).
Proof.
  destruct p as [|a|]; simpl; try discriminate.
  - now intros [= <-].
  - unfold bind, read_opt, read, ret. cbn [heap bind].
    destruct (heap_read h a); [|discriminate]. now intros [= <-].
Qed.

Lemma run_free_null {B} (k : unit -> M L B) w : bind (free NULL) k w = k tt w.
Proof. reflexivity. Qed.

Lemma run_free {B} a s (k : unit -> M L B) c h err msg lg :
  heap_read h a = Some s ->
  bind (free (Ptr a)) k (mkWorld c h err msg lg)
  = k tt (mkWorld c (heap_write h a None) err msg lg).
Proof. intros H. unfold bind, free. cbn [heap]. now rewrite H. Qed.

Lemma run_write {B} a s s' (k : unit -> M L B) c h err msg lg :
  heap_read h a = Some s ->
  bind (write (Ptr a) s') k (mkWorld c h err msg lg)
  = k tt (mkWorld c (heap_write h a (Some s')) err msg lg).
Proof. intros H. unfold bind, write. cbn [heap]. now rewrite H. Qed.

(** [SSTRDUP] of a valid pointer copies its text. *)
Lemma run_SSTRDUP {B} p o (k : cptr -> M L B) c h err msg lg :
  text_at h p = Some o ->
  bind (SSTRDUP p) k (mkWorld c h err msg lg)
  = bind (opt_new_string o) k (mkWorld c h err msg lg).
Proof.
  destruct p as [|a|]; simpl; try discriminate.
  - now intros [= <-].
  - unfold SSTRDUP, strdup, bind, read. cbn [heap].
    destruct (heap_read h a) as [s|]; [|discriminate]. now intros [= <-].
Qed.

End Run.

End RunFacts.


(** ** load_server_config on a well-formed input *)

Module ResolveFacts.
Import Ownership HeapFacts RunFacts.

Lemma str_beq_eq a b : str_member_beq a b = true <-> a = b.
Proof.
  split; [apply internal_str_member_dec_bl | apply internal_str_member_dec_lb].
Qed.

Lemma is_set_slot_of o : is_set (slot_of o) = true.
Proof. now destruct o. Qed.

Section Resolve.

Variable NDEBUG : bool.
Variable sizeof_size_t : Z.
Variable h0 : heap_t.

Lemma cowns_ext h c T T' : (forall m, T m = T' m) -> cowns h0 h c T -> cowns h0 h c T'.
Proof.
  intros HT [Hold Hlen Htxt Hinj]. split; try assumption.
  intros m. rewrite <- HT. apply Htxt.
Qed.

Lemma cowns_zero : cowns h0 h0 config_zero (fun _ => Null).
Proof.
  split; [reflexivity | apply Nat.le_refl | intros m; exact I
         | intros m1 m2 a H; discriminate H].
Qed.

Lemma cowns_text h c T m :
  cowns h0 h c T -> is_set (T m) = true -> text_at h (strs c m) = Some (slot_text (T m)).
Proof. apply owns_text. Qed.

Lemma cowns_assign h c T m o :
  cowns h0 h c T ->
  cowns h0 (h ++ opt_cell o) (set_str m (opt_ptr o h) c) (tupd T m (slot_of o)).
Proof. apply (owns_assign str_member_beq str_beq_eq). Qed.

Lemma cowns_write h c T m a s' :
  cowns h0 h c T -> strs c m = Ptr a ->
  cowns h0 (heap_write h a (Some s')) c (tupd T m (Text s')).
Proof. apply (owns_write str_member_beq str_beq_eq). Qed.

Lemma cowns_ptr h c T m s :
  cowns h0 h c T -> T m = Text s ->
  exists a, strs c m = Ptr a /\ (List.length h0 <= a)%nat /\ heap_read h a = Some s.
Proof. apply owns_ptr. Qed.

Lemma cowns_null h c T m : cowns h0 h c T -> T m = Null -> strs c m = NULL.
Proof. apply owns_null. Qed.

Lemma cowns_app h c T x : cowns h0 h c T -> cowns h0 (h ++ x) c T.
Proof. apply owns_app. Qed.

Lemma cowns_same_T h c T m : cowns h0 h c T -> cowns h0 h c (tupd T m (T m)).
Proof.
  apply cowns_ext. intros m'. unfold tupd, upd.
  destruct (str_member_beq m' m) eqn:E; [|reflexivity].
  apply str_beq_eq in E. now subst.
Qed.

Lemma run_member_str {B} m (k : cptr -> cfgM B) c h err msg lg :
  bind (member_str m) k (mkWorld c h err msg lg) = k (strs c m) (mkWorld c h err msg lg).
Proof. reflexivity. Qed.

Lemma run_member_flag {B} m (k : bool -> cfgM B) c h err msg lg :
  bind (member_flag m) k (mkWorld c h err msg lg) = k (flags c m) (mkWorld c h err msg lg).
Proof. reflexivity. Qed.

Lemma run_member_num {B} m (k : Z -> cfgM B) c h err msg lg :
  bind (member_num m) k (mkWorld c h err msg lg) = k (nums c m) (mkWorld c h err msg lg).
Proof. reflexivity. Qed.

Lemma run_assign_str {B} m v (k : unit -> cfgM B) c h err msg lg :
  bind (assign_str m v) k (mkWorld c h err msg lg) = k tt (mkWorld (set_str m v c) h err msg lg).
Proof. reflexivity. Qed.

Lemma run_assign_flag {B} m v (k : unit -> cfgM B) c h err msg lg :
  bind (assign_flag m v) k (mkWorld c h err msg lg)
  = k tt (mkWorld (set_flag m v c) h err msg lg).
Proof. reflexivity. Qed.

Lemma run_assign_num {B} m v (k : unit -> cfgM B) c h err msg lg :
  bind (assign_num m v) k (mkWorld c h err msg lg) = k tt (mkWorld (set_num m v c) h err msg lg).
Proof. reflexivity. Qed.

Lemma is_set_residue t : is_set (residue_slot t) = is_set t.
Proof. now destruct t. Qed.

(** A member assigned the fresh copy of a text (or null for none). *)
Lemma step_assign {B} h c T o m err msg lg :
  cowns h0 h c T ->
  exists v h',
    cowns h0 h' (set_str m v c) (tupd T m (slot_of o)) /\
    forall K : cfgM B,
      bind (opt_new_string o) (fun v => bind (assign_str m v) (fun _ => K))
           (mkWorld c h err msg lg)
      = K (mkWorld (set_str m v c) h' err msg lg).
Proof.
  intros HO. exists (opt_ptr o h), (h ++ opt_cell o). split.
  - now apply cowns_assign.
  - intros K. now rewrite run_opt_new_string, run_assign_str.
Qed.

Lemma step_populate {B} h c T msg lg :
  cowns h0 h c T -> is_set (T f_log_message) = true ->
  exists h',
    cowns h0 h' c (tupd T f_log_message (residue_slot (T f_log_message))) /\
    forall K : Z -> cfgM B,
      bind call_populate_log_message K (mkWorld c h QD_ERROR_NONE msg lg)
      = K (log_bits (slot_text (T f_log_message))) (mkWorld c h' QD_ERROR_NONE msg lg).
Proof.
  intros HO Hset.
  pose proof (cowns_text _ _ _ _ HO Hset) as Htext.
  destruct (LogMessageFacts.populate_total (slot_text (T f_log_message))) as [bits Hbits].
  assert (Hlb : log_bits (slot_text (T f_log_message)) = bits)
    by (unfold log_bits; now rewrite Hbits).
  rewrite Hlb.
  destruct (T f_log_message) as [| |s] eqn:ET; [discriminate | |].
  - (* no text *)
    exists h. split.
    + apply (cowns_ext h c (tupd T f_log_message (T f_log_message)));
        [|now apply cowns_same_T].
      intros m. unfold tupd, upd. now rewrite ET.
    + intros K. apply run_bind. unfold call_populate_log_message.
      rewrite run_member_str. erewrite run_read_opt by exact Htext.
      cbn [slot_text] in *. rewrite Hbits, run_lift_done. reflexivity.
  - destruct (cowns_ptr _ _ _ _ _ HO ET) as (a & Ha & Hge & Hread).
    cbn [slot_text residue_slot] in *.
    destruct (streq s LogMessage.NONE || streq s LogMessage.ALL) eqn:Ekw.
    + exists h. split.
      * apply (cowns_ext h c (tupd T f_log_message (T f_log_message)));
          [|now apply cowns_same_T].
        intros m. unfold tupd, upd. now rewrite ET.
      * intros K. apply run_bind. unfold call_populate_log_message.
        rewrite run_member_str. erewrite run_read_opt by exact Htext.
        rewrite Hbits, run_lift_done, Ekw. reflexivity.
    + exists (heap_write h a (Some (LogMessage.strtok_residue "," s))). split.
      * now apply cowns_write.
      * intros K. apply run_bind. unfold call_populate_log_message.
        rewrite run_member_str. erewrite run_read_opt by exact Htext.
        rewrite Hbits, run_lift_done, Ekw, Ha.
        erewrite run_write by exact Hread. reflexivity.
Qed.

Lemma num_beq_eq a b : num_member_beq a b = true <-> a = b.
Proof.
  split; [apply internal_num_member_dec_bl | apply internal_num_member_dec_lb].
Qed.

Lemma num_update_if (b : bool) m v c :
  num_update c (if b then set_num m v c else c) m (if b then v else nums c m).
Proof.
  destruct b; repeat split; intros m'.
  destruct (num_member_beq m' m) eqn:E; [|reflexivity].
  apply num_beq_eq in E. now subst.
Qed.

Lemma cowns_num_update h c c' T m v : num_update c c' m v -> cowns h0 h c T -> cowns h0 h c' T.
Proof. intros [Hs _]. unfold cowns. now rewrite Hs. Qed.

(** A default written over a number, or not. *)
Lemma step_if_assign_num {B} (b : bool) m v c h err msg lg :
  exists c',
    num_update c c' m (if b then v else nums c m) /\
    forall K : unit -> cfgM B,
      bind (if b then assign_num m v else ret tt) K (mkWorld c h err msg lg)
      = K tt (mkWorld c' h err msg lg).
Proof.
  exists (if b then set_num m v c else c). split; [apply num_update_if|].
  intros K. now destruct b.
Qed.

(** set_config_host: two more texts, the host and the composed key. *)
Lemma step_host {B} e h c T ps msg lg :
  cowns h0 h c T -> T f_port = Text ps -> req_string_ok e "host" = true ->
  exists hs v1 v2 h',
    string_attr e "host" = Some hs /\
    cowns h0 h' (set_str f_host_port v2 (set_str f_host v1 c))
          (tupd (tupd T f_host (Text hs)) f_host_port (Text (hs ++ ":" ++ ps))) /\
    forall K : unit -> cfgM B,
      bind (set_config_host NDEBUG e) K (mkWorld c h QD_ERROR_NONE msg lg)
      = K tt (mkWorld (set_str f_host_port v2 (set_str f_host v1 c)) h' QD_ERROR_NONE msg lg).
Proof.
  intros HO Hport Hreq.
  destruct (req_string_attr _ _ Hreq) as [hs Hhs].
  exists hs, (Ptr (List.length h)), (Ptr (List.length (h ++ [Some hs]))),
         ((h ++ [Some hs]) ++ [Some (hs ++ ":" ++ ps)%string]).
  split; [assumption|]. split.
  - apply (cowns_assign _ _ _ f_host_port (Some (hs ++ ":" ++ ps)%string)).
    now apply (cowns_assign _ _ _ f_host (Some hs)).
  - intros K. apply run_bind. unfold set_config_host.
    rewrite run_opt_string by now apply req_opt_string.
    rewrite Hhs, run_opt_new_string, run_assign_str.
    cbn [opt_ptr opt_cell is_null negb c_assert]. rewrite run_ret.
    erewrite run_read_text by (cbn [text_at]; now rewrite heap_read_new).
    rewrite run_member_str.
    erewrite run_read_text.
    2:{ change (strs (set_str f_host (Ptr (List.length h)) c) f_port) with (strs c f_port).
        assert (Hset : is_set (T f_port) = true) by now rewrite Hport.
        rewrite (cowns_text _ _ _ _ (cowns_app _ _ _ [Some hs] HO) Hset), Hport.
        reflexivity. }
    rewrite run_new_string. reflexivity.
Qed.

Lemma strip_result_strs c o : strs (strip_result NDEBUG c o) = strs c.
Proof.
  unfold strip_result, load_strip_annotations.
  destruct o as [s|].
  - repeat match goal with |- context [if ?b then _ else _] => destruct b end; reflexivity.
  - destruct NDEBUG; reflexivity.
Qed.

Lemma strip_result_nums c o : nums (strip_result NDEBUG c o) = nums c.
Proof.
  unfold strip_result, load_strip_annotations.
  destruct o as [s|].
  - repeat match goal with |- context [if ?b then _ else _] => destruct b end; reflexivity.
  - destruct NDEBUG; reflexivity.
Qed.

(** The annotation key is read into a block of its own, used and freed. *)
Lemma step_strip {B} e h c T msg lg :
  cowns h0 h c T ->
  opt_string_ok e "stripAnnotations" = true ->
  NDEBUG || match entity_get e "stripAnnotations" with Some _ => true | None => false end
    = true ->
  exists h',
    cowns h0 h' (strip_result NDEBUG c (string_attr e "stripAnnotations")) T /\
    forall K : cfgM B,
      bind (qd_entity_opt_string e "stripAnnotations" None) (fun stripAnnotations =>
      bind (read_opt stripAnnotations) (fun st =>
      bind get_locals (fun config =>
      bind (lift (load_strip_annotations NDEBUG config st)) (fun config =>
      bind (modify (fun _ => config)) (fun _ =>
      bind (free stripAnnotations) (fun _ => K))))))
        (mkWorld c h QD_ERROR_NONE msg lg)
      = K (mkWorld (strip_result NDEBUG c (string_attr e "stripAnnotations")) h'
                   QD_ERROR_NONE msg lg).
Proof.
  intros HO Hok Hthere.
  assert (Hdone : load_strip_annotations NDEBUG c (string_attr e "stripAnnotations")
                  = Done (strip_result NDEBUG c (string_attr e "stripAnnotations"))).
  { unfold strip_result, string_attr, opt_string_ok in *.
    destruct (entity_get e "stripAnnotations") as [[s|z|b]|]; try discriminate.
    - unfold load_strip_annotations.
      repeat match goal with |- context [if ?b then _ else _] => destruct b end; reflexivity.
    - rewrite orb_false_r in Hthere. subst NDEBUG. reflexivity. }
  destruct (string_attr e "stripAnnotations") as [s|] eqn:Eo.
  - exists (h ++ [None]). split.
    + unfold cowns. rewrite strip_result_strs. now apply cowns_app.
    + intros K. rewrite run_opt_string, Eo, run_opt_new_string by assumption.
      cbn [opt_ptr opt_cell].
      erewrite run_read_opt by (cbn [text_at]; now rewrite heap_read_new).
      rewrite run_get_locals, Hdone, run_lift_done, run_modify.
      erewrite run_free by apply heap_read_new.
      now rewrite heap_write_last.
  - exists h. split.
    + unfold cowns. now rewrite strip_result_strs.
    + intros K. rewrite run_opt_string, Eo, run_opt_new_string by assumption.
      cbn [opt_ptr opt_cell]. rewrite app_nil_r.
      erewrite run_read_opt by reflexivity.
      rewrite run_get_locals, Hdone, run_lift_done, run_modify, run_free_null.
      reflexivity.
Qed.

End Resolve.

End ResolveFacts.


Module AttributeFacts.
Import Ownership HeapFacts RunFacts ResolveFacts.

Ltac in_list := cbn [In]; repeat (first [left; reflexivity | right]).

(** One statement that touches neither the entity nor the heap. *)
Ltac run_pure H :=
  first [ rewrite run_clear in H | rewrite run_check in H
        | rewrite run_assign_flag in H | rewrite run_assign_num in H
        | rewrite run_member_flag in H | rewrite run_member_num in H
        | rewrite run_member_str in H | rewrite run_modify in H
        | rewrite run_if_log in H
        | rewrite run_log in H | rewrite run_ret in H | rewrite run_assoc in H ];
  cbv beta in H;
  cbn [flags nums strs set_str set_flag set_num str_member_beq flag_member_beq
       num_member_beq] in H.

(** A default written over a number: the configuration becomes a new
    one, known by what it holds. *)
Ltac run_if_num H :=
  match type of H with
  | context [bind (if ?b then assign_num ?m ?v else ret tt) _ (mkWorld ?c ?h ?err ?msg ?lg)] =>
      let c' := fresh "c" in
      let Hc := fresh "Hc" in
      let Heq := fresh "Heq" in
      destruct (step_if_assign_num (B := bool) b m v c h err msg lg) as (c' & Hc & Heq);
      rewrite Heq in H; clear Heq; cbv beta in H;
      match goal with
      | HO : cowns ?h0 h _ ?T |- _ =>
          let HO2 := fresh "HO" in
          assert (HO2 : cowns h0 h c' T) by (apply (cowns_num_update _ _ _ _ _ _ _ Hc); exact HO);
          clear HO
      end
  end.

(** A text attribute copied into a member. *)
Ltac run_string H ok :=
  first [ rewrite run_opt_string in H by (apply ok; in_list)
        | rewrite run_get_string in H by (apply ok; in_list) ];
  match type of H with
  | context [bind (opt_new_string ?o) (fun v => bind (assign_str ?m v) (fun _ => _))
                  (mkWorld ?c ?h ?err ?msg ?lg)] =>
      match goal with
      | HO : cowns _ h c ?T |- _ =>
          let v := fresh "v" in
          let h' := fresh "h" in
          let HO' := fresh "HO" in
          let Heq := fresh "Heq" in
          destruct (step_assign (B := bool) _ h c T o m err msg lg HO)
            as (v & h' & HO' & Heq);
          rewrite Heq in H; clear Heq HO
      end
  end.

Ltac run_populate H :=
  match type of H with
  | context [bind call_populate_log_message _ (mkWorld ?c ?h _ ?msg ?lg)] =>
      match goal with
      | HO : cowns ?h0 h c ?T |- _ =>
          let h' := fresh "h" in
          let HO' := fresh "HO" in
          let Heq := fresh "Heq" in
          destruct (step_populate (B := bool) h0 h c T msg lg HO (is_set_slot_of _))
            as (h' & HO' & Heq);
          rewrite Heq in H; clear Heq HO
      end
  end.

(** The ownership fact follows the configuration of the current world. *)
Ltac sync H :=
  match type of H with
  | context [mkWorld ?c ?h _ _ _] =>
      match goal with
      | HO : cowns ?h0 h ?c' ?T |- _ =>
          first [ constr_eq c c'
                | let HO2 := fresh "HO" in
                  assert (HO2 : cowns h0 h c T)
                    by first [ exact HO
                             | match c with
                               | (if ?b then _ else _) => destruct b; exact HO
                               end ];
                  clear HO ]
      end
  end.

(** The annotation key, then the last assignments. *)
Ltac run_strip H NDEBUG Hok Hthere :=
  match type of H with
  | context [bind (qd_entity_opt_string ?e "stripAnnotations" None) _
                  (mkWorld ?c ?h _ ?msg ?lg)] =>
      match goal with
      | HO : cowns ?h0 h c ?T |- _ =>
          let h' := fresh "h" in
          let HO' := fresh "HO" in
          let Heq := fresh "Heq" in
          destruct (step_strip NDEBUG h0 (B := bool) e h c T msg lg HO Hok Hthere)
            as (h' & HO' & Heq);
          rewrite Heq in H; clear Heq HO
      end
  end.

Section Attributes.

Variable NDEBUG : bool.
Variable sizeof_size_t : Z.
Variable entity : qd_entity_t.
Variable is_listener : bool.
Hypothesis entity_valid : valid_server_entity NDEBUG entity is_listener = true.

(** The numbers of a configuration known by its updates. *)
Ltac known_nums :=
  repeat first
    [ progress cbn [flags nums strs set_str set_flag set_num str_member_beq flag_member_beq
                    num_member_beq]
    | rewrite strip_result_nums
    | match goal with
      | H : num_update _ ?c' _ _ |- context [nums ?c' ?m] =>
          rewrite (proj2 (proj2 H) m)
      end ].

Ltac finish_attributes HR NDEBUG Hok Hthere :=
  repeat (first [ run_pure HR ]; try sync HR);
  run_strip HR NDEBUG Hok Hthere;
  repeat (first [ run_pure HR ]; try sync HR);
  match type of HR with
  | _ = ret _ (mkWorld ?c ?h _ _ ?lg) =>
      match goal with
      | HO : cowns _ h c ?T |- _ =>
          exists c, h, lg, T;
          split; [exact HR|];
          split; [exact HO|]
      end
  end.

Ltac known_text := cbv beta delta [tupd upd str_member_beq] iota; reflexivity.

Ltac all_facts Hset Hcap :=
  split; [exact Hset|];
  split; [known_text|];
  split; [known_text|];
  split; [known_text|];
  split;
  [ let m := fresh "m" in
    let Hin := fresh "Hin" in
    intros m Hin;
    cbn [In map app fst tls_members auth_tls_members] in Hin;
    repeat (destruct Hin as [<-|Hin]; [known_text|]); destruct Hin
  | ];
  match type of Hcap with
  | incoming_capacity _ (nums ?c f_max_frame_size) _ = _ =>
      let Hmfs := fresh "Hmfs" in
      assert (Hmfs : nums c f_max_frame_size = promoted_frame_size _)
        by (known_nums; reflexivity);
      rewrite Hmfs in Hcap;
      split; [known_nums; reflexivity | known_nums; now rewrite Hcap]
  end.

Lemma load_attributes_run c0 h0 err0 msg0 lg0 :
  exists c1 h1 lg1 T,
    load_attributes NDEBUG sizeof_size_t entity is_listener (mkWorld c0 h0 err0 msg0 lg0)
    = Done (Next (bool_attr entity "requireSsl" false),
            mkWorld c1 h1 QD_ERROR_NONE "" lg1) /\
    cowns h0 h1 c1 T /\
    (forall m, is_set (T m) = true) /\
    T f_ssl_profile = slot_of (string_attr entity "sslProfile") /\
    T f_sasl_plugin = slot_of (string_attr entity "saslPlugin") /\
    T f_sasl_mechanisms = slot_of (string_attr entity "saslMechanisms") /\
    (forall m, In m (map fst (tls_members ++ auth_tls_members)
                     ++ [spc_auth_service; spc_sasl_init_hostname]) -> T m = Null) /\
    nums c1 f_max_frame_size = promoted_frame_size entity /\
    nums c1 f_incoming_capacity
    = fst (incoming_capacity sizeof_size_t (promoted_frame_size entity)
                             (to_uint64 (long_attr entity "maxSessionFrames" 0))).
Proof.
  pose proof entity_valid as Hv. unfold valid_server_entity in Hv.
  repeat match type of Hv with _ && _ = true => apply andb_true_iff in Hv;
                                                 let H := fresh "Hv" in destruct Hv as [Hv H] end.
  rename Hv into Hbools.
  match goal with H : forallb (opt_string_ok _) _ = true |- _ => rename H into Hstrs end.
  match goal with H : forallb (req_string_ok _) _ = true |- _ => rename H into Hreqs end.
  match goal with H : forallb (opt_long_ok _) _ = true |- _ => rename H into Hlongs end.
  match goal with H : forallb (req_long_ok _) _ = true |- _ => rename H into Hreql end.
  match goal with H : negb _ || _ = true |- _ => rename H into Hlistener end.
  match goal with H : NDEBUG || _ = true |- _ => rename H into Hstrip end.
  rewrite forallb_forall in Hbools, Hstrs, Hreqs, Hlongs, Hreql.
  remember (load_attributes NDEBUG sizeof_size_t entity is_listener
                            (mkWorld c0 h0 err0 msg0 lg0)) as R eqn:HR.
  unfold load_attributes in HR.
  pose proof (cowns_zero h0) as HO.
  repeat (first [ run_pure HR
                | rewrite run_opt_bool in HR by (apply Hbools; in_list); cbv beta in HR
                | rewrite run_opt_long in HR by (apply Hlongs; in_list); cbv beta in HR
                | rewrite run_get_long in HR by (apply Hreql; in_list); cbv beta in HR
                | run_string HR Hstrs | run_string HR Hreqs
                | run_populate HR ]; try sync HR).
  (* the listener's handshake timeout *)
  match type of HR with
  | context [mkWorld ?c ?h _ ?msg ?lg] =>
      assert (Hl : exists c',
                 num_update c c' f_initial_handshake_timeout_seconds
                   (if is_listener
                    then to_int32 (long_attr entity "initialHandshakeTimeoutSeconds" 0)
                    else nums c f_initial_handshake_timeout_seconds) /\
                 forall K : unit -> cfgM bool,
                   bind (if is_listener
                         then n <- qd_entity_get_long entity "initialHandshakeTimeoutSeconds" ;;
                              assign_num f_initial_handshake_timeout_seconds (to_int32 n) ;;
                              CHECK
                         else ret tt) K (mkWorld c h QD_ERROR_NONE msg lg)
                   = K tt (mkWorld c' h QD_ERROR_NONE msg lg));
      [ eexists; split; [apply (num_update_if is_listener)|];
        intros K; destruct is_listener; [|reflexivity];
        cbn [negb orb] in Hlistener; apply run_bind;
        rewrite run_get_long by assumption; now rewrite run_assign_num
      | destruct Hl as (cl & Hcl & Heq); rewrite Heq in HR; clear Heq; cbv beta in HR;
        match goal with
        | HO : cowns _ h _ ?T |- _ =>
            assert (HOl : cowns h0 h cl T)
              by (apply (cowns_num_update _ _ _ _ _ _ _ Hcl); exact HO);
            clear HO
        end ]
  end.
  repeat (first [ run_pure HR
                | rewrite run_opt_bool in HR by (apply Hbools; in_list); cbv beta in HR
                | rewrite run_opt_long in HR by (apply Hlongs; in_list); cbv beta in HR
                | rewrite run_get_long in HR by (apply Hreql; in_list); cbv beta in HR
                | run_string HR Hstrs | run_string HR Hreqs ]; try sync HR).
  (* the host and the composed key *)
  assert (Hport_ok : req_string_ok entity "port" = true) by (apply Hreqs; in_list).
  assert (Hhost_ok : req_string_ok entity "host" = true) by (apply Hreqs; in_list).
  destruct (req_string_attr entity "port" Hport_ok) as [ps Hps].
  match type of HR with
  | context [bind (set_config_host _ _) _ (mkWorld ?c ?h _ ?msg ?lg)] =>
      match goal with
      | HO : cowns _ h c ?T |- _ =>
          assert (Hport : T f_port = Text ps)
            by (cbv beta delta [tupd upd str_member_beq] iota; now rewrite Hps);
          destruct (step_host NDEBUG h0 (B := bool) entity h c T ps msg lg HO Hport Hhost_ok)
            as (hs & vh & vhp & hh & Hhs & HOh & Heq);
          rewrite Heq in HR; clear Heq HO Hport
      end
  end.
  repeat (first [ run_pure HR | run_if_num HR ]; try sync HR).
  assert (Hstrip_ok : opt_string_ok entity "stripAnnotations" = true)
    by (apply Hstrs; in_list).
  (* the incoming capacity and its warning *)
  destruct (incoming_capacity sizeof_size_t _ _) as [capacity truncated] eqn:Hcap in HR.
  run_pure HR. sync HR.
  match goal with
  | HO : cowns _ _ _ ?T |- _ =>
      assert (Hset : forall m, is_set (T m) = true)
        by (intros m; destruct m;
            cbv beta delta [tupd upd str_member_beq] iota;
            rewrite ?is_set_residue; first [reflexivity | apply is_set_slot_of])
  end.
  destruct truncated as [computed|].
  - repeat (first [ run_pure HR
                  | match goal with
                    | HO : cowns _ _ _ _ |- _ =>
                        erewrite run_read_opt in HR
                          by (apply (cowns_text _ _ _ _ _ HO); apply Hset)
                    end ]; try sync HR).
    finish_attributes HR NDEBUG Hstrip_ok Hstrip.
    all_facts Hset Hcap.
  - finish_attributes HR NDEBUG Hstrip_ok Hstrip.
    all_facts Hset Hcap.
Qed.

End Attributes.
End AttributeFacts.

(** ** The profile blocks and the error path of load_server_config *)

Module ProfileFacts.
Import Ownership HeapFacts RunFacts ResolveFacts AttributeFacts.

Lemma valid_text h0 p : valid_ptr h0 p = true -> text_at h0 p = Some (old_text h0 p).
Proof. unfold valid_ptr, old_text. now destruct (text_at h0 p). Qed.

Lemma named_valid h0 p : named_ptr h0 p = true -> valid_ptr h0 p = true.
Proof. unfold named_ptr, valid_ptr. now destruct (text_at h0 p) as [[s|]|]. Qed.

Lemma named_text h0 p : named_ptr h0 p = true -> exists s, text_at h0 p = Some (Some s).
Proof.
  unfold named_ptr. destruct (text_at h0 p) as [[s|]|]; try discriminate. now exists s.
Qed.

Lemma is_set_tupd T m t m' :
  is_set t = true -> is_set (T m') = true -> is_set (tupd T m t m') = true.
Proof. intros Ht HT. unfold tupd, upd. now destruct (str_member_beq m' m). Qed.

Lemma copied_is_set h0 p l : forall T,
  (forall m, is_set (T m) = true) -> forall m, is_set (copied h0 p l T m) = true.
Proof.
  induction l as [|[m pm] l IH]; intros T HT m'; [apply HT|].
  cbn [copied]. apply IH. intros m2. apply is_set_tupd; [apply is_set_slot_of | apply HT].
Qed.

Lemma copied_other h0 p l : forall T m,
  ~ In m (map fst l) -> copied h0 p l T m = T m.
Proof.
  induction l as [|[m1 pm] l IH]; intros T m Hin; [reflexivity|].
  cbn [copied]. rewrite IH by (intros H; apply Hin; now right).
  unfold tupd, upd. destruct (str_member_beq m m1) eqn:E; [|reflexivity].
  apply str_beq_eq in E. subst. exfalso. apply Hin. now left.
Qed.

Section Blocks.

Variable h0 : heap_t.
Variable cm : qd_connection_manager_t.
Hypothesis registry : registry_ok h0 cm = true.

Lemma registry_ssl p m : In p (config_ssl_profiles cm) -> valid_ptr h0 (sp p m) = true.
Proof.
  intros Hin. pose proof registry as R. unfold registry_ok in R.
  apply andb_true_iff in R as [R _]. rewrite forallb_forall in R.
  specialize (R p Hin). apply andb_true_iff in R as [_ R].
  rewrite forallb_forall in R. apply R. destruct m; in_list.
Qed.

Lemma registry_ssl_name p : In p (config_ssl_profiles cm) -> named_ptr h0 (sp p p_name) = true.
Proof.
  intros Hin. pose proof registry as R. unfold registry_ok in R.
  apply andb_true_iff in R as [R _]. rewrite forallb_forall in R.
  specialize (R p Hin). now apply andb_true_iff in R as [R _].
Qed.

Lemma registry_sasl p :
  In p (config_sasl_plugins cm) ->
  named_ptr h0 (name p) = true /\ valid_ptr h0 (auth_service p) = true /\
  valid_ptr h0 (sasl_init_hostname p) = true /\ valid_ptr h0 (auth_ssl_profile p) = true.
Proof.
  intros Hin. pose proof registry as R. unfold registry_ok in R.
  apply andb_true_iff in R as [_ R]. rewrite forallb_forall in R.
  specialize (R p Hin).
  repeat (apply andb_true_iff in R; let H := fresh in destruct R as [R H]).
  auto.
Qed.

Lemma ssl_profile_named_in l nm p : ssl_profile_named h0 l nm = Some p -> In p l.
Proof.
  induction l as [|q l IH]; [discriminate|]. cbn [ssl_profile_named].
  destruct (text_at h0 (sp q p_name)) as [[s|]|]; try discriminate.
  destruct (streq s nm).
  - intros [= ->]. now left.
  - intros H. right. now apply IH.
Qed.

Lemma sasl_plugin_named_in l nm p : sasl_plugin_named h0 l nm = Some p -> In p l.
Proof.
  induction l as [|q l IH]; [discriminate|]. cbn [sasl_plugin_named].
  destruct (text_at h0 (name q)) as [[s|]|]; try discriminate.
  destruct (streq s nm).
  - intros [= ->]. now left.
  - intros H. right. now apply IH.
Qed.

(** A text of the heap on entry, read while the configuration is built. *)
Lemma cowns_old_text h c T p :
  cowns h0 h c T -> valid_ptr h0 p = true -> text_at h p = Some (old_text h0 p).
Proof.
  intros HO Hv. rewrite (owns_old_text _ _ _ _ _ HO).
  - now apply valid_text.
  - rewrite (valid_text _ _ Hv). discriminate.
Qed.

Lemma find_ssl_loop_run {B} l nm (K : option qd_config_ssl_profile_t -> cfgM B)
    h c T err msg lg :
  cowns h0 h c T ->
  (forall p, In p l -> named_ptr h0 (sp p p_name) = true) ->
  bind (qd_find_ssl_profile_loop l nm) K (mkWorld c h err msg lg)
  = K (ssl_profile_named h0 l nm) (mkWorld c h err msg lg).
Proof.
  intros HO. induction l as [|p l IH]; intros Hn; [reflexivity|].
  cbn [qd_find_ssl_profile_loop ssl_profile_named].
  destruct (named_text _ _ (Hn p (or_introl eq_refl))) as [s Hs].
  rewrite Hs, run_assoc.
  erewrite run_read_text
    by (rewrite (cowns_old_text _ _ _ _ HO (named_valid _ _ (Hn p (or_introl eq_refl))));
        unfold old_text; now rewrite Hs).
  destruct (streq s nm); [reflexivity|].
  apply IH. intros q Hq. apply Hn. now right.
Qed.

Lemma find_ssl_run {B} p nm (K : option qd_config_ssl_profile_t -> cfgM B)
    h c T err msg lg :
  cowns h0 h c T -> text_at h p = Some (Some nm) ->
  bind (qd_find_ssl_profile cm p) K (mkWorld c h err msg lg)
  = K (ssl_profile_named h0 (config_ssl_profiles cm) nm) (mkWorld c h err msg lg).
Proof.
  intros HO Hp. unfold qd_find_ssl_profile. rewrite run_assoc.
  erewrite run_read_text by exact Hp.
  apply (find_ssl_loop_run _ _ _ _ _ _ _ _ _ HO). apply registry_ssl_name.
Qed.

Lemma find_sasl_loop_run {B} l nm (K : option qd_config_sasl_plugin_t -> cfgM B)
    h c T err msg lg :
  cowns h0 h c T ->
  (forall p, In p l -> named_ptr h0 (name p) = true) ->
  bind (qd_find_sasl_plugin_loop l nm) K (mkWorld c h err msg lg)
  = K (sasl_plugin_named h0 l nm) (mkWorld c h err msg lg).
Proof.
  intros HO. induction l as [|p l IH]; intros Hn; [reflexivity|].
  cbn [qd_find_sasl_plugin_loop sasl_plugin_named].
  destruct (named_text _ _ (Hn p (or_introl eq_refl))) as [s Hs].
  rewrite Hs, run_assoc.
  erewrite run_read_text
    by (rewrite (cowns_old_text _ _ _ _ HO (named_valid _ _ (Hn p (or_introl eq_refl))));
        unfold old_text; now rewrite Hs).
  destruct (streq s nm); [reflexivity|].
  apply IH. intros q Hq. apply Hn. now right.
Qed.

Lemma find_sasl_run {B} p nm (K : option qd_config_sasl_plugin_t -> cfgM B)
    h c T err msg lg :
  cowns h0 h c T -> text_at h p = Some (Some nm) ->
  bind (qd_find_sasl_plugin cm p) K (mkWorld c h err msg lg)
  = K (sasl_plugin_named h0 (config_sasl_plugins cm) nm) (mkWorld c h err msg lg).
Proof.
  intros HO Hp. unfold qd_find_sasl_plugin. rewrite run_assoc.
  erewrite run_read_text by exact Hp.
  apply (find_sasl_loop_run _ _ _ _ _ _ _ _ _ HO).
  intros q Hq. now apply registry_sasl.
Qed.

(** A member assigned the copy of a text of the heap on entry. *)
Lemma step_copy {B} h c T p m err msg lg :
  cowns h0 h c T -> valid_ptr h0 p = true ->
  exists v h',
    cowns h0 h' (set_str m v c) (tupd T m (slot_of (old_text h0 p))) /\
    forall K : unit -> cfgM B,
      bind (SSTRDUP p) (fun v => bind (assign_str m v) K) (mkWorld c h err msg lg)
      = K tt (mkWorld (set_str m v c) h' err msg lg).
Proof.
  intros HO Hv.
  exists (opt_ptr (old_text h0 p) h), (h ++ opt_cell (old_text h0 p)). split.
  - now apply cowns_assign.
  - intros K. erewrite run_SSTRDUP by (eapply cowns_old_text; eassumption).
    now rewrite run_opt_new_string, run_assign_str.
Qed.

End Blocks.

End ProfileFacts.

(** ** The TLS block, the auth block and the error path *)

Module BlockFacts.
Import Ownership HeapFacts RunFacts ResolveFacts AttributeFacts ProfileFacts.

Lemma slot_text_slot_of o : slot_text (slot_of o) = o.
Proof. now destruct o. Qed.

(** One copy of a profile member into a member of the configuration. *)
Ltac run_copy H Hval :=
  match type of H with
  | _ = bind (SSTRDUP ?p) (fun v => bind (assign_str ?m v) _) (mkWorld ?c ?h ?err ?msg ?lg) =>
      match goal with
      | HO : cowns ?h0 h c ?T |- _ =>
          let v := fresh "v" in
          let h' := fresh "h" in
          let HO' := fresh "HO" in
          let Heq := fresh "Heq" in
          let Hv := fresh "Hv" in
          assert (Hv : valid_ptr h0 p = true) by (first [apply Hval | assumption]);
          destruct (step_copy h0 (B := unit) h c T p m err msg lg HO Hv)
            as (v & h' & HO' & Heq);
          rewrite Heq in H; clear Heq HO Hv; cbv beta in H
      end
  end.

Section Blocks.

Variable h0 : heap_t.
Variable cm : qd_connection_manager_t.
Hypothesis registry : registry_ok h0 cm = true.

(** The last copy of a block. *)
Lemma step_copy_last h c T p m err msg lg :
  cowns h0 h c T -> valid_ptr h0 p = true ->
  exists v h',
    cowns h0 h' (set_str m v c) (tupd T m (slot_of (old_text h0 p))) /\
    bind (SSTRDUP p) (fun v => assign_str m v) (mkWorld c h err msg lg)
    = Done (Next tt, mkWorld (set_str m v c) h' err msg lg).
Proof.
  intros HO Hv.
  exists (opt_ptr (old_text h0 p) h), (h ++ opt_cell (old_text h0 p)). split.
  - now apply cowns_assign.
  - erewrite run_SSTRDUP by (eapply cowns_old_text; eassumption).
    now rewrite run_opt_new_string.
Qed.

(** The nine copies of a profile's members. *)
Lemma copy_tls_run p h c T err msg lg :
  cowns h0 h c T -> (forall pm, valid_ptr h0 (sp p pm) = true) ->
  exists c' h',
    (v <- SSTRDUP (sp p p_ssl_certificate_file) ;;
     assign_str f_ssl_certificate_file v ;;
     v <- SSTRDUP (sp p p_ssl_private_key_file) ;;
     assign_str f_ssl_private_key_file v ;;
     v <- SSTRDUP (sp p p_ssl_ciphers) ;;
     assign_str f_ssl_ciphers v ;;
     v <- SSTRDUP (sp p p_ssl_protocols) ;;
     assign_str f_ssl_protocols v ;;
     v <- SSTRDUP (sp p p_ssl_password) ;;
     assign_str f_ssl_password v ;;
     v <- SSTRDUP (sp p p_ssl_trusted_certificate_db) ;;
     assign_str f_ssl_trusted_certificate_db v ;;
     v <- SSTRDUP (sp p p_ssl_trusted_certificates) ;;
     assign_str f_ssl_trusted_certificates v ;;
     v <- SSTRDUP (sp p p_ssl_uid_format) ;;
     assign_str f_ssl_uid_format v ;;
     v <- SSTRDUP (sp p p_uid_name_mapping_file) ;;
     assign_str f_ssl_uid_name_mapping_file v) (mkWorld c h err msg lg)
    = Done (Next tt, mkWorld c' h' err msg lg) /\
    cowns h0 h' c' (copied h0 p tls_members T) /\
    nums c' = nums c /\ flags c' = flags c.
Proof.
  intros HO Hval.
  match goal with |- exists c' h', ?run = _ /\ _ => remember run as R eqn:HR end.
  do 8 run_copy HR Hval.
  match type of HR with
  | _ = bind (SSTRDUP ?p) _ (mkWorld ?c ?h _ _ _) =>
      match goal with
      | HO : cowns _ h c ?T |- _ =>
          destruct (step_copy_last h c T p f_ssl_uid_name_mapping_file err msg lg HO (Hval _))
            as (v9 & h9 & HO9 & Heq)
      end
  end.
  rewrite Heq in HR. eexists; eexists. split; [exact HR|].
  split; [exact HO9|]. split; reflexivity.
Qed.

Lemma copy_auth_tls_run p h c T err msg lg :
  cowns h0 h c T -> (forall pm, valid_ptr h0 (sp p pm) = true) ->
  exists c' h',
    copy_auth_ssl_profile (Some p) (mkWorld c h err msg lg)
    = Done (Next tt, mkWorld c' h' err msg lg) /\
    cowns h0 h' c' (copied h0 p auth_tls_members T) /\
    nums c' = nums c /\ flags c' = flags c.
Proof.
  intros HO Hval.
  match goal with |- exists c' h', ?run = _ /\ _ => remember run as R eqn:HR end.
  unfold copy_auth_ssl_profile in HR.
  do 8 run_copy HR Hval.
  match type of HR with
  | _ = bind (SSTRDUP ?p) _ (mkWorld ?c ?h _ _ _) =>
      match goal with
      | HO : cowns _ h c ?T |- _ =>
          destruct (step_copy_last h c T p spc_ssl_uid_name_mapping_file err msg lg HO (Hval _))
            as (v9 & h9 & HO9 & Heq)
      end
  end.
  rewrite Heq in HR. eexists; eexists. split; [exact HR|].
  split; [exact HO9|]. split; reflexivity.
Qed.

(** The TLS block: it ends, sets no error, logs nothing, and leaves the
    members as [ssl_slots] says. *)
Lemma ssl_block r h c T msg lg :
  cowns h0 h c T -> (forall m, is_set (T m) = true) ->
  exists c' h',
    load_ssl_profile cm r (mkWorld c h QD_ERROR_NONE msg lg)
    = Done (Next tt, mkWorld c' h' QD_ERROR_NONE msg lg) /\
    cowns h0 h' c' (ssl_slots h0 cm T) /\
    nums c' = nums c.
Proof.
  intros HO Hset.
  remember (load_ssl_profile cm r (mkWorld c h QD_ERROR_NONE msg lg)) as R eqn:HR.
  unfold load_ssl_profile in HR. rewrite run_member_str in HR.
  unfold ssl_slots.
  destruct (T f_ssl_profile) as [| |nm] eqn:ET.
  - specialize (Hset f_ssl_profile). rewrite ET in Hset. discriminate.
  - rewrite (cowns_null _ _ _ _ _ HO ET) in HR. cbn [is_null] in HR.
    exists c, h. split; [exact HR|]. split; [assumption | reflexivity].
  - destruct (cowns_ptr _ _ _ _ _ _ HO ET) as (a & Ha & Hge & Hread).
    rewrite Ha in HR. cbn [is_null] in HR.
    run_pure HR. sync HR. run_pure HR.
    erewrite run_read_opt in HR by (apply (cowns_text _ _ _ _ _ HO0); apply Hset).
    run_pure HR. sync HR.
    erewrite (find_ssl_run h0 cm registry) in HR
      by first [ eassumption | cbn [text_at]; rewrite Hread; reflexivity ].
    destruct (ssl_profile_named h0 (config_ssl_profiles cm) nm) as [p|] eqn:Ef.
    + match type of HR with
      | _ = _ (mkWorld ?c1 _ _ _ _) =>
          destruct (copy_tls_run p h c1 T QD_ERROR_NONE msg lg HO)
            as (c' & h' & Hrun & HO' & Hn & _)
      end.
      { intros pm. apply (registry_ssl h0 cm registry).
        eapply ssl_profile_named_in. eassumption. }
      cbv beta iota in HR. rewrite Hrun in HR.
      exists c', h'. split; [exact HR|]. split; assumption.
    + cbv beta iota in HR. eexists; eexists. split; [exact HR|].
      split; [assumption | reflexivity].
Qed.

Lemma ssl_slots_is_set T :
  (forall m, is_set (T m) = true) -> forall m, is_set (ssl_slots h0 cm T m) = true.
Proof.
  intros HT. unfold ssl_slots. destruct (T f_ssl_profile); try assumption.
  destruct (ssl_profile_named _ _ _); [|assumption]. now apply copied_is_set.
Qed.

Lemma ssl_slots_other T m :
  ~ In m (map fst tls_members) -> ssl_slots h0 cm T m = T m.
Proof.
  intros Hin. unfold ssl_slots. destruct (T f_ssl_profile); try reflexivity.
  destruct (ssl_profile_named _ _ _); [|reflexivity]. now apply copied_other.
Qed.

(** *** The auth block *)

Lemma text_none_null h p : text_at h p = Some None -> p = NULL.
Proof.
  destruct p as [|a|]; cbn [text_at]; try discriminate; [reflexivity|].
  now destruct (heap_read h a).
Qed.

Lemma text_some_not_null h p s : text_at h p = Some (Some s) -> is_null p = false.
Proof. destruct p as [|a|]; cbn [text_at]; try discriminate; reflexivity. Qed.

(** The message of the failed lookup of an auth plugin. *)
Lemma missing_plugin_message nm :
  format_text "Cannot find sasl plugin %s" [nm] = ("Cannot find sasl plugin " ++ nm)%string.
Proof. cbn. now rewrite append_empty_r. Qed.

Lemma sasl_block_none h c T err msg lg :
  cowns h0 h c T -> T f_sasl_plugin = Null ->
  load_sasl_plugin cm (mkWorld c h err msg lg) = Done (Next tt, mkWorld c h err msg lg).
Proof.
  intros HO ET. unfold load_sasl_plugin.
  rewrite run_member_str, (cowns_null _ _ _ _ _ HO ET). reflexivity.
Qed.

(** A plugin name that finds nothing: the error is raised and the
    function jumps to its [error:] label. *)
Lemma sasl_block_missing h c T msg lg nm :
  cowns h0 h c T -> T f_sasl_plugin = Text nm ->
  sasl_plugin_named h0 (config_sasl_plugins cm) nm = None ->
  load_sasl_plugin cm (mkWorld c h QD_ERROR_NONE msg lg)
  = Done (Jump, mkWorld c h QD_ERROR_RUNTIME ("Cannot find sasl plugin " ++ nm) lg).
Proof.
  intros HO ET Hnone. unfold load_sasl_plugin. rewrite run_member_str.
  destruct (cowns_ptr _ _ _ _ _ _ HO ET) as (a & Ha & Hge & Hread).
  rewrite Ha. cbn [is_null].
  erewrite (find_sasl_run h0 cm registry)
    by first [ eassumption | cbn [text_at]; rewrite Hread; reflexivity ].
  rewrite Hnone.
  erewrite run_read_text by (cbn [text_at]; rewrite Hread; reflexivity).
  rewrite missing_plugin_message. reflexivity.
Qed.

(** A plugin that is found: its members are copied; where it names a
    TLS profile the lookup's result is used as it is. *)
Lemma sasl_block_found h c T msg lg nm plg :
  cowns h0 h c T -> (forall m, is_set (T m) = true) -> T f_sasl_plugin = Text nm ->
  sasl_plugin_named h0 (config_sasl_plugins cm) nm = Some plg ->
  match old_text h0 (auth_ssl_profile plg) with
  | None =>
      exists c' h',
        load_sasl_plugin cm (mkWorld c h QD_ERROR_NONE msg lg)
        = Done (Next tt, mkWorld c' h' QD_ERROR_NONE msg (lg ++ [plugin_log h0 plg nm])) /\
        cowns h0 h' c' (plugin_slots h0 plg T) /\
        flags c' spc_use_ssl = false
  | Some pn =>
      match ssl_profile_named h0 (config_ssl_profiles cm) pn with
      | Some ap =>
          exists c' h',
            load_sasl_plugin cm (mkWorld c h QD_ERROR_NONE msg lg)
            = Done (Next tt, mkWorld c' h' QD_ERROR_NONE msg (lg ++ [plugin_log h0 plg nm])) /\
            cowns h0 h' c' (copied h0 ap auth_tls_members (plugin_slots h0 plg T)) /\
            flags c' spc_use_ssl = true
      | None =>
          load_sasl_plugin cm (mkWorld c h QD_ERROR_NONE msg lg) = Undefined
      end
  end.
Proof.
  intros HO Hset ET Hfound.
  pose proof (sasl_plugin_named_in _ _ _ _ Hfound) as Hin.
  destruct (registry_sasl h0 cm registry plg Hin) as (Hn & Hsvc & Hinit & Hauth).
  remember (load_sasl_plugin cm (mkWorld c h QD_ERROR_NONE msg lg)) as R eqn:HR.
  unfold load_sasl_plugin in HR. rewrite run_member_str in HR.
  destruct (cowns_ptr _ _ _ _ _ _ HO ET) as (a & Ha & Hge & Hread).
  rewrite Ha in HR. cbn [is_null] in HR.
  erewrite (find_sasl_run h0 cm registry) in HR
    by first [ eassumption | cbn [text_at]; rewrite Hread; reflexivity ].
  rewrite Hfound in HR. cbv beta iota in HR.
  run_copy HR Hsvc. run_copy HR Hinit.
  match goal with HOp : cowns _ _ _ (tupd _ _ _) |- _ => rename HOp into HO1 end.
  fold (plugin_slots h0 plg T) in HO1.
  assert (Hset1 : forall m, is_set (plugin_slots h0 plg T m) = true).
  { intros m. unfold plugin_slots.
    repeat apply is_set_tupd; first [apply is_set_slot_of | apply Hset]. }
  run_pure HR.
  pose proof (cowns_text _ _ _ _ spc_auth_service HO1 (Hset1 _)) as Hservice.
  change (plugin_slots h0 plg T spc_auth_service)
    with (slot_of (old_text h0 (auth_service plg))) in Hservice.
  rewrite slot_text_slot_of in Hservice.
  cbn [strs set_str str_member_beq] in Hservice.
  erewrite run_read_opt in HR by exact Hservice.
  pose proof (cowns_text _ _ _ _ f_sasl_plugin HO1 (Hset1 _)) as Hname.
  change (plugin_slots h0 plg T f_sasl_plugin) with (T f_sasl_plugin) in Hname.
  rewrite ET in Hname.
  cbn [strs set_str str_member_beq slot_text] in Hname. rewrite Ha in Hname.
  erewrite run_read_opt in HR by exact Hname.
  run_pure HR. fold (plugin_log h0 plg nm) in HR.
  pose proof (valid_text _ _ Hauth) as Htext.
  destruct (old_text h0 (auth_ssl_profile plg)) as [pn|] eqn:Eo.
  - rewrite (text_some_not_null _ _ _ Htext) in HR.
    run_pure HR. sync HR.
    erewrite (find_ssl_run h0 cm registry) in HR
      by first [ eassumption
               | erewrite cowns_old_text by eassumption; now rewrite Eo ].
    destruct (ssl_profile_named h0 (config_ssl_profiles cm) pn) as [ap|] eqn:Ef.
    + match type of HR with
      | _ = _ (mkWorld ?c1 ?h1 _ _ ?lg1) =>
          destruct (copy_auth_tls_run ap h1 c1 (plugin_slots h0 plg T) QD_ERROR_NONE msg lg1)
            as (c' & h' & Hrun & HO' & _ & Hf)
      end.
      { assumption. }
      { intros pm. apply (registry_ssl h0 cm registry).
        eapply ssl_profile_named_in. eassumption. }
      rewrite Hrun in HR. eexists; eexists. split; [exact HR|].
      split; [exact HO'|]. now rewrite Hf.
    + exact HR.
  - rewrite (text_none_null _ _ Htext) in HR. cbn [is_null] in HR.
    eexists; eexists. split; [exact HR|]. split; [exact HO1 | reflexivity].
Qed.

(** *** The error path *)

Lemma NoDup_freed_members : NoDup freed_members.
Proof.
  unfold freed_members.
  repeat (constructor; [cbn [In]; intuition discriminate|]). constructor.
Qed.

Lemma free_members_run ms :
  NoDup ms -> forall h c err msg lg,
  (forall m1 m2 a, strs c m1 = Ptr a -> strs c m2 = Ptr a -> m1 = m2) ->
  (forall m, In m ms -> text_at h (strs c m) <> None) ->
  exists h',
    free_members ms (mkWorld c h err msg lg) = Done (Next tt, mkWorld c h' err msg lg) /\
    forall a, (forall m, In m ms -> strs c m <> Ptr a) -> nth_error h' a = nth_error h a.
Proof.
  induction 1 as [|m ms Hnotin Hnd IH]; intros h c err msg lg Hinj Hlive.
  - exists h. split; reflexivity.
  - cbn [free_members]. rewrite run_member_str.
    pose proof (Hlive m (or_introl eq_refl)) as Hm.
    destruct (strs c m) as [|a|] eqn:Em.
    + rewrite run_free_null.
      destruct (IH h c err msg lg Hinj) as (h' & Hrun & Hframe).
      { intros m' Hin. apply Hlive. now right. }
      exists h'. split; [exact Hrun|].
      intros a Ha. apply Hframe. intros m' Hin. apply Ha. now right.
    + cbn [text_at] in Hm. destruct (heap_read h a) as [s|] eqn:Hr; [|now contradiction Hm].
      erewrite run_free by exact Hr.
      destruct (IH (heap_write h a None) c err msg lg Hinj) as (h' & Hrun & Hframe).
      { intros m' Hin. pose proof (Hlive m' (or_intror Hin)) as Hm'.
        destruct (strs c m') as [|a'|] eqn:Em'; try assumption.
        cbn [text_at] in *. rewrite heap_read_write_other; [assumption|].
        intros <-. apply Hnotin. now rewrite (Hinj m m' a Em Em'). }
      exists h'. split; [exact Hrun|].
      intros b Hb. rewrite Hframe by (intros m' Hin; apply Hb; now right).
      rewrite nth_error_heap_write.
      destruct (Nat.eqb b a) eqn:E; [|reflexivity].
      apply Nat.eqb_eq in E. subst b. exfalso. apply (Hb m); [now left | assumption].
    + now contradiction Hm.
Qed.

(** The code after the [error:] label: every member is released, the
    configuration is zeroed, and the error code is the result.  The
    heap on entry is as it was. *)
Lemma error_path h c T err msg lg :
  cowns h0 h c T -> (forall m, is_set (T m) = true) ->
  exists h',
    (qd_server_config_free ;; qd_error_code) (mkWorld c h err msg lg)
    = Done (Next err, mkWorld config_zero h' err msg lg) /\
    forall a, (a < List.length h0)%nat -> nth_error h' a = nth_error h0 a.
Proof.
  intros HO Hset.
  destruct (free_members_run freed_members NoDup_freed_members h c err msg lg)
    as (h' & Hrun & Hframe).
  - apply (owns_inj _ _ _ _ HO).
  - intros m _. rewrite (cowns_text _ _ _ _ _ HO (Hset m)). discriminate.
  - exists h'. split.
    + unfold qd_server_config_free. rewrite run_assoc. erewrite run_bind by exact Hrun.
      reflexivity.
    + intros a Ha. rewrite Hframe; [now apply (owns_old _ _ _ _ HO)|].
      intros m _ Hm. pose proof (owns_txt _ _ _ _ HO m) as Hs. rewrite Hm in Hs.
      unfold slot_ok in Hs. destruct (T m); try contradiction. lia.
Qed.

End Blocks.

End BlockFacts.

(** ** load_server_config as a whole *)

Module ResolutionFacts.
Import Ownership HeapFacts RunFacts ResolveFacts AttributeFacts ProfileFacts BlockFacts.

Lemma NoDup_tls_members : NoDup (map fst tls_members).
Proof. cbn. repeat (constructor; [cbn [In]; intuition discriminate|]). constructor. Qed.

Lemma NoDup_auth_tls_members : NoDup (map fst auth_tls_members).
Proof. cbn. repeat (constructor; [cbn [In]; intuition discriminate|]). constructor. Qed.

Lemma copied_member h0 p l : forall T m pm,
  NoDup (map fst l) -> In (m, pm) l ->
  copied h0 p l T m = slot_of (old_text h0 (sp p pm)).
Proof.
  induction l as [|[m1 pm1] l IH]; intros T m pm Hnd Hin; [destruct Hin|].
  cbn [map fst] in Hnd. inversion Hnd as [|x xs Hnotin Hnd']. subst.
  cbn [copied]. destruct Hin as [[= -> ->]|Hin].
  - rewrite copied_other by assumption. unfold tupd, upd.
    now rewrite (proj2 (str_beq_eq m m) eq_refl).
  - now apply IH.
Qed.

Lemma plugin_slots_other h0 plg T m :
  m <> spc_auth_service -> m <> spc_sasl_init_hostname -> plugin_slots h0 plg T m = T m.
Proof.
  intros H1 H2. unfold plugin_slots, tupd, upd.
  destruct (str_member_beq m spc_sasl_init_hostname) eqn:E2;
    [apply str_beq_eq in E2; contradiction|].
  destruct (str_member_beq m spc_auth_service) eqn:E1;
    [apply str_beq_eq in E1; contradiction|].
  reflexivity.
Qed.

Lemma tls_not_auth m :
  In m (map fst tls_members) ->
  ~ In m (map fst auth_tls_members) /\ m <> spc_auth_service /\ m <> spc_sasl_init_hostname.
Proof.
  cbn. intros H.
  repeat (destruct H as [<-|H]; [repeat split; try discriminate; intuition discriminate|]).
  destruct H.
Qed.

Lemma In_fst {A B} (a : A) (b : B) l : In (a, b) l -> In a (map fst l).
Proof. intros H. apply (in_map fst) in H. exact H. Qed.

Section Resolution.

Variable NDEBUG : bool.
Variable sizeof_size_t : Z.
Variable cm : qd_connection_manager_t.
Variable entity : qd_entity_t.
Variable is_listener : bool.
Variable c0 : qd_server_config_t.
Variable h0 : heap_t.
Variable err0 : qd_error_t.
Variable msg0 : string.
Variable lg0 : list log_entry.
Hypothesis entity_valid : valid_server_entity NDEBUG entity is_listener = true.
Hypothesis registry : registry_ok h0 cm = true.

(** The attributes and the TLS block: they end, with no error, and
    the TLS block logs nothing. *)
Lemma through_tls_block :
  exists c1 h1 lg1 T1 c2 h2,
    load_attributes NDEBUG sizeof_size_t entity is_listener (mkWorld c0 h0 err0 msg0 lg0)
    = Done (Next (bool_attr entity "requireSsl" false), mkWorld c1 h1 QD_ERROR_NONE "" lg1) /\
    load_ssl_profile cm (bool_attr entity "requireSsl" false)
                     (mkWorld c1 h1 QD_ERROR_NONE "" lg1)
    = Done (Next tt, mkWorld c2 h2 QD_ERROR_NONE "" lg1) /\
    cowns h0 h2 c2 (ssl_slots h0 cm T1) /\
    (forall m, is_set (ssl_slots h0 cm T1 m) = true) /\
    ssl_slots h0 cm T1 f_sasl_plugin = slot_of (string_attr entity "saslPlugin") /\
    (forall m pm, In (m, pm) tls_members ->
                  ssl_slots h0 cm T1 m = tls_slot h0 cm entity pm) /\
    (forall m, In m (map fst auth_tls_members ++ [spc_auth_service; spc_sasl_init_hostname]) ->
               ssl_slots h0 cm T1 m = Null).
Proof.
  destruct (load_attributes_run NDEBUG sizeof_size_t entity is_listener entity_valid
                                c0 h0 err0 msg0 lg0)
    as (c1 & h1 & lg1 & T1 & Hattrs & HO1 & Hset1 & Hssl & Hsasl & _ & Hnull & _).
  destruct (ssl_block h0 cm registry (bool_attr entity "requireSsl" false)
                      h1 c1 T1 "" lg1 HO1 Hset1)
    as (c2 & h2 & Hrun & HO2 & _).
  exists c1, h1, lg1, T1, c2, h2.
  split; [exact Hattrs|]. split; [exact Hrun|]. split; [exact HO2|].
  split; [now apply ssl_slots_is_set|].
  split; [|split].
  - rewrite ssl_slots_other by (cbn; intuition discriminate). exact Hsasl.
  - intros m pm Hin. unfold ssl_slots, tls_slot. rewrite Hssl.
    assert (Hm : T1 m = Null).
    { apply Hnull. rewrite map_app, <- app_assoc. apply in_or_app. left.
      now apply (In_fst m pm). }
    destruct (string_attr entity "sslProfile") as [nm|]; cbn [slot_of]; [|exact Hm].
    destruct (ssl_profile_named h0 (config_ssl_profiles cm) nm) as [p|]; [|exact Hm].
    apply copied_member; [apply NoDup_tls_members | exact Hin].
  - intros m Hin. rewrite ssl_slots_other.
    + apply Hnull. rewrite map_app, <- app_assoc. apply in_or_app. right. exact Hin.
    + cbn in Hin |- *.
      repeat (destruct Hin as [<-|Hin]; [intuition discriminate|]). destruct Hin.
Qed.

(** Where the auth block ends without an error the resolution returns
    success; what it logs after the attributes is at the level
    [QD_LOG_INFO]. *)
Lemma resolution_succeeds :
  auth_plugin_resolves h0 cm entity = true ->
  exists c1 h1 lg1 c h extra T,
    load_attributes NDEBUG sizeof_size_t entity is_listener (mkWorld c0 h0 err0 msg0 lg0)
    = Done (Next (bool_attr entity "requireSsl" false), mkWorld c1 h1 QD_ERROR_NONE "" lg1) /\
    load_server_config NDEBUG sizeof_size_t cm entity is_listener
                       (mkWorld c0 h0 err0 msg0 lg0)
    = Done (Next QD_ERROR_NONE, mkWorld c h QD_ERROR_NONE "" (lg1 ++ extra)) /\
    (forall e, In e extra -> level e = QD_LOG_INFO) /\
    cowns h0 h c T /\
    (forall m pm, In (m, pm) tls_members -> T m = tls_slot h0 cm entity pm).
Proof.
  intros Hres.
  destruct through_tls_block
    as (c1 & h1 & lg1 & T1 & c2 & h2 & Hattrs & Hssl & HO2 & Hset2 & Hplug & Htls & _).
  exists c1, h1, lg1.
  unfold load_server_config, on_error.
  erewrite run_bind by exact Hattrs. erewrite run_bind by exact Hssl.
  unfold auth_plugin_resolves in Hres.
  destruct (string_attr entity "saslPlugin") as [nm|]; cbn [slot_of] in Hplug.
  - destruct (sasl_plugin_named h0 (config_sasl_plugins cm) nm) as [plg|] eqn:Hfound;
      [|discriminate].
    pose proof (sasl_block_found h0 cm registry h2 c2 _ "" lg1 nm plg HO2 Hset2 Hplug Hfound)
      as Hblock.
    assert (Hinfo : forall e, In e [plugin_log h0 plg nm] -> level e = QD_LOG_INFO)
      by (intros e [<-|[]]; reflexivity).
    destruct (old_text h0 (auth_ssl_profile plg)) as [pn|].
    + destruct (ssl_profile_named h0 (config_ssl_profiles cm) pn) as [ap|]; [|discriminate].
      destruct Hblock as (c & h & Hrun & HO & _).
      erewrite run_bind by exact Hrun.
      exists c, h, [plugin_log h0 plg nm]. eexists.
      split; [exact Hattrs|]. split; [reflexivity|]. split; [exact Hinfo|].
      split; [exact HO|].
      intros m pm Hin. destruct (tls_not_auth m (In_fst _ _ _ Hin)) as (Hna & Hn1 & Hn2).
      rewrite copied_other by exact Hna. rewrite plugin_slots_other by assumption.
      now apply Htls.
    + destruct Hblock as (c & h & Hrun & HO & _).
      erewrite run_bind by exact Hrun.
      exists c, h, [plugin_log h0 plg nm]. eexists.
      split; [exact Hattrs|]. split; [reflexivity|]. split; [exact Hinfo|].
      split; [exact HO|].
      intros m pm Hin. destruct (tls_not_auth m (In_fst _ _ _ Hin)) as (Hna & Hn1 & Hn2).
      rewrite plugin_slots_other by assumption.
      now apply Htls.
  - exists c2, h2, [], (ssl_slots h0 cm T1).
    erewrite run_bind by (apply (sasl_block_none h0 cm _ _ _ _ _ _ HO2 Hplug)).
    rewrite app_nil_r. split; [exact Hattrs|]. split; [reflexivity|].
    split; [intros e []|]. split; assumption.
Qed.

(** An auth plugin name that finds nothing: the function takes its
    error path, which releases what was built and returns the code. *)
Lemma resolution_fails nm :
  string_attr entity "saslPlugin" = Some nm ->
  sasl_plugin_named h0 (config_sasl_plugins cm) nm = None ->
  exists lg h,
    load_server_config NDEBUG sizeof_size_t cm entity is_listener
                       (mkWorld c0 h0 err0 msg0 lg0)
    = Done (Next QD_ERROR_RUNTIME,
            mkWorld config_zero h QD_ERROR_RUNTIME ("Cannot find sasl plugin " ++ nm) lg) /\
    forall a, (a < List.length h0)%nat -> nth_error h a = nth_error h0 a.
Proof.
  intros Hattr Hnone.
  destruct through_tls_block
    as (c1 & h1 & lg1 & T1 & c2 & h2 & Hattrs & Hssl & HO2 & Hset2 & Hplug & _).
  rewrite Hattr in Hplug. cbn [slot_of] in Hplug.
  destruct (error_path h0 h2 c2 _ QD_ERROR_RUNTIME ("Cannot find sasl plugin " ++ nm) lg1 HO2 Hset2)
    as (h & Hrun & Hframe).
  exists lg1, h. split; [|exact Hframe].
  unfold load_server_config, on_error.
  erewrite run_bind by exact Hattrs. erewrite run_bind by exact Hssl.
  erewrite run_bind_jump
    by (apply (sasl_block_missing h0 cm registry _ _ _ _ _ _ HO2 Hplug Hnone)).
  exact Hrun.
Qed.

(** A registered auth plugin that names a TLS profile which is not
    registered: the result of the lookup is dereferenced as it is. *)
Lemma resolution_undefined nm plg pn :
  string_attr entity "saslPlugin" = Some nm ->
  sasl_plugin_named h0 (config_sasl_plugins cm) nm = Some plg ->
  old_text h0 (auth_ssl_profile plg) = Some pn ->
  ssl_profile_named h0 (config_ssl_profiles cm) pn = None ->
  load_server_config NDEBUG sizeof_size_t cm entity is_listener (mkWorld c0 h0 err0 msg0 lg0)
  = Undefined.
Proof.
  intros Hattr Hfound Hpn Hnone.
  destruct through_tls_block
    as (c1 & h1 & lg1 & T1 & c2 & h2 & Hattrs & Hssl & HO2 & Hset2 & Hplug & _).
  rewrite Hattr in Hplug. cbn [slot_of] in Hplug.
  pose proof (sasl_block_found h0 cm registry h2 c2 _ "" lg1 nm plg HO2 Hset2 Hplug Hfound)
    as Hblock.
  rewrite Hpn, Hnone in Hblock.
  unfold load_server_config, on_error.
  erewrite run_bind by exact Hattrs. erewrite run_bind by exact Hssl.
  erewrite run_bind_undefined by exact Hblock. reflexivity.
Qed.

(** The same with the TLS profile registered: its members are copied
    into the members of the auth channel. *)
Lemma resolution_auth_tls nm plg pn ap :
  string_attr entity "saslPlugin" = Some nm ->
  sasl_plugin_named h0 (config_sasl_plugins cm) nm = Some plg ->
  old_text h0 (auth_ssl_profile plg) = Some pn ->
  ssl_profile_named h0 (config_ssl_profiles cm) pn = Some ap ->
  exists c h lg T,
    load_server_config NDEBUG sizeof_size_t cm entity is_listener
                       (mkWorld c0 h0 err0 msg0 lg0)
    = Done (Next QD_ERROR_NONE, mkWorld c h QD_ERROR_NONE "" lg) /\
    cowns h0 h c T /\
    flags c spc_use_ssl = true /\
    (forall m pm, In (m, pm) auth_tls_members -> T m = slot_of (old_text h0 (sp ap pm))).
Proof.
  intros Hattr Hfound Hpn Hap.
  destruct through_tls_block
    as (c1 & h1 & lg1 & T1 & c2 & h2 & Hattrs & Hssl & HO2 & Hset2 & Hplug & _).
  rewrite Hattr in Hplug. cbn [slot_of] in Hplug.
  pose proof (sasl_block_found h0 cm registry h2 c2 _ "" lg1 nm plg HO2 Hset2 Hplug Hfound)
    as Hblock.
  rewrite Hpn, Hap in Hblock. destruct Hblock as (c & h & Hrun & HO & Hflag).
  exists c, h. eexists. eexists.
  split; [|split; [exact HO|split; [exact Hflag|]]].
  - unfold load_server_config, on_error.
    erewrite run_bind by exact Hattrs. erewrite run_bind by exact Hssl.
    erewrite run_bind by exact Hrun. reflexivity.
  - intros m pm Hin. apply copied_member; [apply NoDup_auth_tls_members | exact Hin].
Qed.

End Resolution.

(** *** What the configuration holds is its own *)

(** A member that holds the copy of a text of the heap on entry reads
    as that text. *)
Lemma copy_reads h0 h c T m q :
  cowns h0 h c T -> T m = slot_of (old_text h0 q) -> valid_ptr h0 q = true ->
  text_at h (strs c m) = text_at h0 q.
Proof.
  intros HO HT Hv.
  rewrite (cowns_text _ _ _ _ m HO) by (rewrite HT; apply is_set_slot_of).
  now rewrite HT, slot_text_slot_of, (valid_text _ _ Hv).
Qed.

(** The blocks of the members were allocated by the resolution. *)
Lemma copy_fresh h0 h c T m a :
  cowns h0 h c T -> strs c m = Ptr a -> (List.length h0 <= a)%nat.
Proof.
  intros HO Hm. pose proof (owns_txt _ _ _ _ HO m) as Hs. rewrite Hm in Hs.
  unfold slot_ok in Hs. destruct (T m); try contradiction. lia.
Qed.

(** Whatever happens to the blocks of the heap on entry, the members
    read the same. *)
Lemma copy_frame h0 h c T h' m :
  cowns h0 h c T ->
  (forall a, (List.length h0 <= a)%nat -> nth_error h' a = nth_error h a) ->
  text_at h' (strs c m) = text_at h (strs c m).
Proof.
  intros HO Hframe. destruct (strs c m) as [|a|] eqn:Em; try reflexivity.
  cbn [text_at]. unfold heap_read. now rewrite Hframe by (eapply copy_fresh; eassumption).
Qed.

Lemma profile_at_in a l q : profile_at a l = Some q -> In q l.
Proof.
  induction l as [|p l IH]; [discriminate|]. cbn [profile_at].
  destruct (Nat.eqb (sp_addr p) a).
  - intros [= ->]. now left.
  - intros H. right. now apply IH.
Qed.

Lemma free_profile_members_frame (n : nat) q ms : forall (w w' : world qd_connection_manager_t) r,
  (forall pm a, sp q pm = Ptr a -> (a < n)%nat) ->
  free_profile_members q ms w = Done (r, w') ->
  forall x, (n <= x)%nat -> nth_error (heap w') x = nth_error (heap w) x.
Proof.
  induction ms as [|pm ms IH]; intros w w' r Hold Hrun x Hx.
  - cbn in Hrun. now injection Hrun as _ <-.
  - cbn [free_profile_members] in Hrun. unfold bind in Hrun.
    destruct (free (sp q pm) w) as [[[u|] w1]| | |] eqn:Hfree; try discriminate.
    + rewrite (IH w1 w' r Hold Hrun x Hx).
      unfold free in Hfree. destruct (sp q pm) as [|a|] eqn:Epm; try discriminate.
      * now injection Hfree as _ <-.
      * destruct (heap_read (heap w) a); [|discriminate].
        injection Hfree as _ <-. cbn [heap]. rewrite nth_error_heap_write.
        destruct (Nat.eqb x a) eqn:E; [|reflexivity].
        apply Nat.eqb_eq in E. subst x. specialize (Hold pm a Epm). lia.
    + unfold free in Hfree. destruct (sp q pm) as [|a|]; try discriminate.
      destruct (heap_read (heap w) a); discriminate.
Qed.

(** The deletion of a registered profile touches blocks of the heap
    on entry only. *)
Lemma profile_free_frame h0 cm a h err msg lg r w' :
  registry_ok h0 cm = true ->
  config_ssl_profile_free a (mkWorld cm h err msg lg) = Done (r, w') ->
  forall x, (List.length h0 <= x)%nat -> nth_error (heap w') x = nth_error h x.
Proof.
  intros Hreg Hrun x Hx. unfold config_ssl_profile_free in Hrun.
  rewrite run_get_locals in Hrun.
  destruct (profile_at a (config_ssl_profiles cm)) as [q|] eqn:Hat; [|discriminate].
  rewrite run_modify in Hrun. unfold bind in Hrun.
  assert (Hold : forall pm b, sp q pm = Ptr b -> (b < List.length h0)%nat).
  { intros pm b Hpm.
    pose proof (registry_ssl h0 cm Hreg q pm (profile_at_in _ _ _ Hat)) as Hv.
    unfold valid_ptr in Hv. rewrite Hpm in Hv. cbn [text_at] in Hv.
    destruct (heap_read h0 b) as [s|] eqn:Hr; [|discriminate].
    now apply heap_read_live in Hr. }
  destruct (free_profile_members q profile_members _) as [[[u|] w1]| | |] eqn:Hfree;
    try discriminate; injection Hrun as _ <-;
    now rewrite (free_profile_members_frame (List.length h0) q _ _ _ _ Hold Hfree x Hx).
Qed.

End ResolutionFacts.

(** ** Profiles that are, and are not, registered *)

Import Ownership HeapFacts RunFacts ResolveFacts ProfileFacts BlockFacts ResolutionFacts.

(** C6, as the code has it: on a well-formed endpoint description and
    well-formed registered profiles, a TLS-profile name that matches no
    registered profile is soft, and silent: where the auth block does
    not fail, load_server_config returns QD_ERROR_NONE with every TLS
    member of the configuration null, and whatever it logs after the
    attributes have been read is at the level QD_LOG_INFO, so no
    warning tells of the missing profile.  An auth-plugin name that
    matches no registered plugin is hard: the function returns
    QD_ERROR_RUNTIME with the message that names the plugin, the
    configuration released and zeroed, and the blocks of the heap on
    entry as they were. *)
Theorem C6_profile_not_found NDEBUG sizeof_size_t cm entity is_listener c0 h0 err0 msg0 lg0 :
  valid_server_entity NDEBUG entity is_listener = true ->
  registry_ok h0 cm = true ->
  (forall nm,
      string_attr entity "sslProfile" = Some nm ->
      ssl_profile_named h0 (config_ssl_profiles cm) nm = None ->
      auth_plugin_resolves h0 cm entity = true ->
      exists r w1 w extra,
        load_attributes NDEBUG sizeof_size_t entity is_listener (mkWorld c0 h0 err0 msg0 lg0)
        = Done (Next r, w1) /\
        load_server_config NDEBUG sizeof_size_t cm entity is_listener
                           (mkWorld c0 h0 err0 msg0 lg0)
        = Done (Next QD_ERROR_NONE, w) /\
        error_code w = QD_ERROR_NONE /\
        log w = log w1 ++ extra /\
        (forall e, In e extra -> level e = QD_LOG_INFO) /\
        (forall m, In m (map fst tls_members) -> strs (locals w) m = NULL)) /\
  (forall nm,
      string_attr entity "saslPlugin" = Some nm ->
      sasl_plugin_named h0 (config_sasl_plugins cm) nm = None ->
      exists w,
        load_server_config NDEBUG sizeof_size_t cm entity is_listener
                           (mkWorld c0 h0 err0 msg0 lg0)
        = Done (Next QD_ERROR_RUNTIME, w) /\
        error_code w = QD_ERROR_RUNTIME /\
        error_message w = ("Cannot find sasl plugin " ++ nm)%string /\
        locals w = config_zero /\
        (forall a, (a < List.length h0)%nat -> nth_error (heap w) a = nth_error h0 a)).
Proof.
  intros Hvalid Hreg. split.
  - intros nm Hattr Hnone Hres.
    destruct (resolution_succeeds NDEBUG sizeof_size_t cm entity is_listener
                                  c0 h0 err0 msg0 lg0 Hvalid Hreg Hres)
      as (c1 & h1 & lg1 & c & h & extra & T & Hattrs & Hrun & Hinfo & HO & Htls).
    eexists; eexists; eexists; exists extra.
    split; [exact Hattrs|]. split; [exact Hrun|].
    split; [reflexivity|]. split; [reflexivity|]. split; [exact Hinfo|].
    intros m Hin. cbn [locals].
    apply in_map_iff in Hin. destruct Hin as ([m' pm] & <- & Hin). cbn [fst].
    apply (cowns_null _ _ _ _ _ HO). rewrite (Htls _ _ Hin).
    unfold tls_slot. now rewrite Hattr, Hnone.
  - intros nm Hattr Hnone.
    destruct (resolution_fails NDEBUG sizeof_size_t cm entity is_listener
                               c0 h0 err0 msg0 lg0 Hvalid Hreg nm Hattr Hnone)
      as (lg & h & Hrun & Hframe).
    eexists. split; [exact Hrun|]. repeat split. exact Hframe.
Qed.

Lemma C6_profile_not_found_witness :
  (exists w,
      load_server_config false 8 empty_manager example_entity false (example_world [])
      = Done (Next QD_ERROR_NONE, w) /\
      strs (locals w) f_ssl_certificate_file = NULL) /\
  (exists w,
      load_server_config false 8 empty_manager lost_auth_entity false (example_world [])
      = Done (Next QD_ERROR_RUNTIME, w) /\
      error_message w = "Cannot find sasl plugin nope"%string /\
      locals w = config_zero).
Proof.
  split.
  - destruct (proj1 (C6_profile_not_found false 8 empty_manager example_entity false
                       config_zero [] QD_ERROR_NONE "" [] eq_refl eq_refl)
                    "nope"%string eq_refl eq_refl eq_refl)
      as (r & w1 & w & extra & _ & Hrun & _ & _ & _ & Hnull).
    exists w. split; [exact Hrun|]. apply Hnull. cbn. now left.
  - destruct (proj2 (C6_profile_not_found false 8 empty_manager lost_auth_entity false
                       config_zero [] QD_ERROR_NONE "" [] eq_refl eq_refl)
                    "nope"%string eq_refl eq_refl)
      as (w & Hrun & _ & Hmsg & Hzero & _).
    exists w. split; [exact Hrun|]. split; [exact Hmsg | exact Hzero].
Defined.

(** The endpoint of the example names a TLS profile that is not
    registered: the resolution succeeds and its log holds no warning. *)
Lemma C6_counterexample :
  string_attr example_entity "sslProfile" = Some "nope"%string /\
  ssl_profile_named [] (config_ssl_profiles empty_manager) "nope" = None /\
  match load_server_config false 8 empty_manager example_entity false (example_world []) with
  | Done (Next e, w) =>
      e = QD_ERROR_NONE /\
      forallb (fun entry => match level entry with QD_LOG_WARNING => false | _ => true end)
              (log w) = true
  | _ => False
  end.
Proof. vm_compute. repeat split; reflexivity. Qed.

(** C8: an endpoint resolved against a registered TLS profile holds a
    copy of each TLS member of the profile, in a block of its own that
    the resolution allocated.  So the members read as the profile's
    texts did on entry in any later heap, whatever became of the
    blocks of the heap on entry, the profile's among them; and in
    particular after config_ssl_profile_free has released the profile. *)
Theorem C8_tls_copied_by_value NDEBUG sizeof_size_t cm entity is_listener c0 h0 err0 msg0 lg0
    nm p :
  valid_server_entity NDEBUG entity is_listener = true ->
  registry_ok h0 cm = true ->
  string_attr entity "sslProfile" = Some nm ->
  ssl_profile_named h0 (config_ssl_profiles cm) nm = Some p ->
  auth_plugin_resolves h0 cm entity = true ->
  exists w,
    load_server_config NDEBUG sizeof_size_t cm entity is_listener (mkWorld c0 h0 err0 msg0 lg0)
    = Done (Next QD_ERROR_NONE, w) /\
    (forall m pm, In (m, pm) tls_members ->
       text_at (heap w) (strs (locals w) m) = text_at h0 (sp p pm)) /\
    (forall m pm a, In (m, pm) tls_members ->
       strs (locals w) m = Ptr a -> (List.length h0 <= a)%nat) /\
    (forall h',
       (forall a, (List.length h0 <= a)%nat -> nth_error h' a = nth_error (heap w) a) ->
       forall m pm, In (m, pm) tls_members ->
         text_at h' (strs (locals w) m) = text_at h0 (sp p pm)) /\
    (forall a err msg lg r w',
       config_ssl_profile_free a (mkWorld cm (heap w) err msg lg) = Done (r, w') ->
       forall m pm, In (m, pm) tls_members ->
         text_at (heap w') (strs (locals w) m) = text_at h0 (sp p pm)).
Proof.
  intros Hvalid Hreg Hattr Hfound Hres.
  destruct (resolution_succeeds NDEBUG sizeof_size_t cm entity is_listener
                                c0 h0 err0 msg0 lg0 Hvalid Hreg Hres)
    as (c1 & h1 & lg1 & c & h & extra & T & Hattrs & Hrun & Hinfo & HO & Htls).
  assert (Hreads : forall m pm, In (m, pm) tls_members ->
                                text_at h (strs c m) = text_at h0 (sp p pm)).
  { intros m pm Hin. apply (copy_reads _ _ _ T); [exact HO | |].
    - rewrite (Htls _ _ Hin). unfold tls_slot. now rewrite Hattr, Hfound.
    - apply (registry_ssl h0 cm Hreg). eapply ssl_profile_named_in. eassumption. }
  assert (Hframe : forall h',
             (forall a, (List.length h0 <= a)%nat -> nth_error h' a = nth_error h a) ->
             forall m pm, In (m, pm) tls_members ->
                          text_at h' (strs c m) = text_at h0 (sp p pm)).
  { intros h' Hsame m pm Hin.
    rewrite (copy_frame _ _ _ _ _ m HO Hsame). now apply Hreads. }
  eexists. split; [exact Hrun|]. cbn [locals heap].
  split; [exact Hreads|]. split; [|split; [exact Hframe|]].
  - intros m pm a _ Hm. eapply copy_fresh; eassumption.
  - intros a err msg lg r w' Hfree. apply Hframe.
    intros x Hx. eapply profile_free_frame; eassumption.
Qed.

Lemma C8_tls_copied_by_value_witness :
  exists w,
    load_server_config false 8 example_registry tls_entity false (example_world example_heap)
    = Done (Next QD_ERROR_NONE, w) /\
    text_at (heap w) (strs (locals w) f_ssl_certificate_file) = Some (Some "cert.pem"%string) /\
    match config_ssl_profile_free 1 (mkWorld example_registry (heap w) QD_ERROR_NONE "" []) with
    | Done (Next true, w') =>
        heap_read (heap w') 1 = None /\
        text_at (heap w') (strs (locals w) f_ssl_certificate_file)
        = Some (Some "cert.pem"%string)
    | _ => False
    end.
Proof.
  destruct (C8_tls_copied_by_value false 8 example_registry tls_entity false
              config_zero example_heap QD_ERROR_NONE "" [] "tls"%string example_profile
              eq_refl eq_refl eq_refl eq_refl eq_refl)
    as (w & Hrun & Hreads & _ & _ & Hfree).
  exists w. split; [exact Hrun|].
  split; [apply (Hreads f_ssl_certificate_file p_ssl_certificate_file); cbn; now left|].
  destruct (config_ssl_profile_free 1 (mkWorld example_registry (heap w) QD_ERROR_NONE "" []))
    as [[[[|]|] w']| | |] eqn:Hdel.
  - split.
    + unfold example_world in Hrun. vm_compute in Hrun. injection Hrun as <-.
      vm_compute in Hdel. injection Hdel as <-. reflexivity.
    + apply (Hfree 1%nat QD_ERROR_NONE ""%string [] _ _ Hdel
                   f_ssl_certificate_file p_ssl_certificate_file).
      cbn. now left.
  - unfold example_world in Hrun. vm_compute in Hrun. injection Hrun as <-.
    vm_compute in Hdel. discriminate.
  - unfold example_world in Hrun. vm_compute in Hrun. injection Hrun as <-.
    vm_compute in Hdel. discriminate.
  - unfold example_world in Hrun. vm_compute in Hrun. injection Hrun as <-.
    vm_compute in Hdel. discriminate.
  - unfold example_world in Hrun. vm_compute in Hrun. injection Hrun as <-.
    vm_compute in Hdel. discriminate.
  - unfold example_world in Hrun. vm_compute in Hrun. injection Hrun as <-.
    vm_compute in Hdel. discriminate.
Defined.

(** C10: where the endpoint names a registered auth plugin that itself
    names a TLS profile, load_server_config uses the result of the
    lookup of that profile with no test.  With the profile registered
    the function returns QD_ERROR_NONE, the auth channel is marked as
    using TLS and its TLS members read as the profile's; with the
    profile not registered the null result is dereferenced, which the
    embedding gives as [Undefined]. *)
Theorem C10_auth_tls_lookup NDEBUG sizeof_size_t cm entity is_listener c0 h0 err0 msg0 lg0
    nm plg pn :
  valid_server_entity NDEBUG entity is_listener = true ->
  registry_ok h0 cm = true ->
  string_attr entity "saslPlugin" = Some nm ->
  sasl_plugin_named h0 (config_sasl_plugins cm) nm = Some plg ->
  text_at h0 (auth_ssl_profile plg) = Some (Some pn) ->
  match ssl_profile_named h0 (config_ssl_profiles cm) pn with
  | Some ap =>
      exists w,
        load_server_config NDEBUG sizeof_size_t cm entity is_listener
                           (mkWorld c0 h0 err0 msg0 lg0)
        = Done (Next QD_ERROR_NONE, w) /\
        flags (locals w) spc_use_ssl = true /\
        (forall m pm, In (m, pm) auth_tls_members ->
           text_at (heap w) (strs (locals w) m) = text_at h0 (sp ap pm))
  | None =>
      load_server_config NDEBUG sizeof_size_t cm entity is_listener
                         (mkWorld c0 h0 err0 msg0 lg0)
      = Undefined
  end.
Proof.
  intros Hvalid Hreg Hattr Hfound Hnames.
  assert (Hpn : old_text h0 (auth_ssl_profile plg) = Some pn)
    by (unfold old_text; now rewrite Hnames).
  destruct (ssl_profile_named h0 (config_ssl_profiles cm) pn) as [ap|] eqn:Hap.
  - destruct (resolution_auth_tls NDEBUG sizeof_size_t cm entity is_listener
                                  c0 h0 err0 msg0 lg0 Hvalid Hreg nm plg pn ap
                                  Hattr Hfound Hpn Hap)
      as (c & h & lg & T & Hrun & HO & Hflag & Hauth).
    eexists. split; [exact Hrun|]. split; [exact Hflag|].
    intros m pm Hin. cbn [locals heap].
    apply (copy_reads _ _ _ T); [exact HO | now apply Hauth |].
    apply (registry_ssl h0 cm Hreg). eapply ssl_profile_named_in. eassumption.
  - now apply (resolution_undefined NDEBUG sizeof_size_t cm entity is_listener
                                    c0 h0 err0 msg0 lg0 Hvalid Hreg nm plg pn).
Qed.

Lemma C10_auth_tls_lookup_witness :
  (exists w,
      load_server_config false 8 example_registry auth_entity false (example_world example_heap)
      = Done (Next QD_ERROR_NONE, w) /\
      text_at (heap w) (strs (locals w) spc_ssl_certificate_file)
      = Some (Some "cert.pem"%string)) /\
  load_server_config false 8 example_plugin_only auth_entity false (example_world example_heap)
  = Undefined.
Proof.
  split.
  - destruct (C10_auth_tls_lookup false 8 example_registry auth_entity false
                config_zero example_heap QD_ERROR_NONE "" [] "auth"%string example_plugin
                "tls"%string eq_refl eq_refl eq_refl eq_refl eq_refl)
      as (w & Hrun & _ & Hreads).
    exists w. split; [exact Hrun|].
    apply (Hreads spc_ssl_certificate_file p_ssl_certificate_file). cbn. now left.
  - exact (C10_auth_tls_lookup false 8 example_plugin_only auth_entity false
             config_zero example_heap QD_ERROR_NONE "" [] "auth"%string example_plugin
             "tls"%string eq_refl eq_refl eq_refl eq_refl eq_refl).
Defined.

(** ** Registration of a TLS profile *)

Module RegistrationFacts.
Import Ownership HeapFacts RunFacts ResolveFacts AttributeFacts ProfileFacts BlockFacts.

Lemma profile_beq_eq a b : ssl_profile_member_beq a b = true <-> a = b.
Proof.
  split; [apply internal_ssl_profile_member_dec_bl | apply internal_ssl_profile_member_dec_lb].
Qed.

Lemma addr_below_fresh l q : In q l -> (sp_addr q < fresh_profile_addr l)%nat.
Proof.
  unfold fresh_profile_addr. induction l as [|p l IH]; [intros []|].
  cbn [map fold_right]. intros [->|Hin]; [lia|]. specialize (IH Hin). lia.
Qed.

Lemma fresh_not_in l q : In q l -> Nat.eqb (sp_addr q) (fresh_profile_addr l) = false.
Proof. intros Hin. apply Nat.eqb_neq. pose proof (addr_below_fresh l q Hin). lia. Qed.

Lemma profile_at_last l a p :
  (forall q, In q l -> Nat.eqb (sp_addr q) a = false) -> sp_addr p = a ->
  profile_at a (l ++ [p]) = Some p.
Proof.
  intros Hl Hp. induction l as [|q l IH]; cbn [app profile_at].
  - now rewrite Hp, Nat.eqb_refl.
  - rewrite (Hl q (or_introl eq_refl)). apply IH. intros q' Hq'. apply Hl. now right.
Qed.

Lemma profile_update_last l a p f :
  (forall q, In q l -> Nat.eqb (sp_addr q) a = false) -> sp_addr p = a ->
  profile_update a f (l ++ [p]) = l ++ [f p].
Proof.
  intros Hl Hp. induction l as [|q l IH]; cbn [app profile_update].
  - now rewrite Hp, Nat.eqb_refl.
  - rewrite (Hl q (or_introl eq_refl)). f_equal. apply IH. intros q' Hq'. apply Hl. now right.
Qed.

Lemma profile_remove_last l a p :
  (forall q, In q l -> Nat.eqb (sp_addr q) a = false) -> sp_addr p = a ->
  profile_remove a (l ++ [p]) = l.
Proof.
  intros Hl Hp. induction l as [|q l IH]; cbn [app profile_remove].
  - now rewrite Hp, Nat.eqb_refl.
  - rewrite (Hl q (or_introl eq_refl)). f_equal. apply IH. intros q' Hq'. apply Hl. now right.
Qed.

Lemma NoDup_profile_members : NoDup profile_members.
Proof.
  unfold profile_members.
  repeat (constructor; [cbn [In]; intuition discriminate|]). constructor.
Qed.

Lemma run_check_error {L B} (k : unit -> M L B) (c : L) h err msg lg :
  is_error err = true ->
  bind CHECK k (mkWorld c h err msg lg) = Done (Jump, mkWorld c h err msg lg).
Proof. intros He. unfold bind, CHECK, qd_error_code. cbn. now rewrite He. Qed.

Lemma on_error_run {L A} (body handler : M L A) w r :
  body w = r ->
  on_error body handler w = match r with Done (Jump, w') => handler w' | x => x end.
Proof.
  intros <-. unfold on_error. destruct (body w) as [[[x|] w']| | |]; reflexivity.
Qed.

Lemma run_error_message {L B} (k : string -> M L B) (c : L) h err msg lg :
  bind qd_error_message k (mkWorld c h err msg lg) = k msg (mkWorld c h err msg lg).
Proof. reflexivity. Qed.

(** The members of a profile released one after the other. *)
Lemma free_profile_members_run p ms :
  NoDup ms -> forall (c : qd_connection_manager_t) h err msg lg,
  (forall m1 m2 a, sp p m1 = Ptr a -> sp p m2 = Ptr a -> m1 = m2) ->
  (forall m, In m ms -> text_at h (sp p m) <> None) ->
  exists h',
    free_profile_members p ms (mkWorld c h err msg lg)
    = Done (Next tt, mkWorld c h' err msg lg) /\
    forall a, (forall m, In m ms -> sp p m <> Ptr a) -> nth_error h' a = nth_error h a.
Proof.
  induction 1 as [|m ms Hnotin Hnd IH]; intros c h err msg lg Hinj Hlive.
  - exists h. split; reflexivity.
  - cbn [free_profile_members].
    pose proof (Hlive m (or_introl eq_refl)) as Hm.
    destruct (sp p m) as [|a|] eqn:Em.
    + rewrite run_free_null.
      destruct (IH c h err msg lg Hinj) as (h' & Hrun & Hframe).
      { intros m' Hin. apply Hlive. now right. }
      exists h'. split; [exact Hrun|].
      intros a Ha. apply Hframe. intros m' Hin. apply Ha. now right.
    + cbn [text_at] in Hm. destruct (heap_read h a) as [s|] eqn:Hr; [|now contradiction Hm].
      erewrite run_free by exact Hr.
      destruct (IH c (heap_write h a None) err msg lg Hinj) as (h' & Hrun & Hframe).
      { intros m' Hin. pose proof (Hlive m' (or_intror Hin)) as Hm'.
        destruct (sp p m') as [|a'|] eqn:Em'; try assumption.
        cbn [text_at] in *. rewrite heap_read_write_other; [assumption|].
        intros <-. apply Hnotin. now rewrite (Hinj m m' a Em Em'). }
      exists h'. split; [exact Hrun|].
      intros b Hb. rewrite Hframe by (intros m' Hin; apply Hb; now right).
      rewrite nth_error_heap_write.
      destruct (Nat.eqb b a) eqn:E; [|reflexivity].
      apply Nat.eqb_eq in E. subst b. exfalso. apply (Hb m); [now left | assumption].
    + now contradiction Hm.
Qed.

Section Registration.

Variable getenv : string -> option string.
Variable fopen : string -> option string.
Variable entity : qd_entity_t.
Variable h0 : heap_t.
Variable l : list qd_config_ssl_profile_t.
Variable plugins : list qd_config_sasl_plugin_t.
Variable a : nat.
Hypothesis entity_valid : valid_profile_entity entity = true.
Hypothesis a_fresh : forall q, In q l -> Nat.eqb (sp_addr q) a = false.

Lemma powns_start :
  powns h0 h0 {| sp_addr := a; sp := fun _ => Indeterminate |} (fun _ => Unset).
Proof.
  split; [reflexivity | apply Nat.le_refl | intros m; exact I
         | intros m1 m2 x H; discriminate H].
Qed.

Lemma run_profile_member {B} p m (K : cptr -> cmM B) h err msg lg :
  sp_addr p = a ->
  bind (profile_member a m) K (mkWorld (holding l plugins p) h err msg lg)
  = K (sp p m) (mkWorld (holding l plugins p) h err msg lg).
Proof.
  intros Hp. unfold profile_member. rewrite run_assoc, run_get_locals.
  cbn [holding config_ssl_profiles]. now rewrite (profile_at_last l a p a_fresh Hp).
Qed.

Lemma run_profile_assign {B} p m v (K : unit -> cmM B) h err msg lg :
  sp_addr p = a ->
  bind (profile_assign a m v) K (mkWorld (holding l plugins p) h err msg lg)
  = K tt (mkWorld (holding l plugins (sp_set m v p)) h err msg lg).
Proof.
  intros Hp. unfold profile_assign. rewrite run_modify.
  unfold with_profiles, holding. cbn [config_ssl_profiles config_sasl_plugins].
  now rewrite (profile_update_last l a p _ a_fresh Hp).
Qed.

(** One attribute copied into a member of the profile. *)
Lemma step_entity_member {B} p h T m attribute msg lg :
  sp_addr p = a -> powns h0 h p T -> opt_string_ok entity attribute = true ->
  exists p' h',
    sp_addr p' = a /\
    powns h0 h' p' (pupd T m (slot_of (string_attr entity attribute))) /\
    forall K : unit -> cmM B,
      bind (entity_member entity a m attribute) K
           (mkWorld (holding l plugins p) h QD_ERROR_NONE msg lg)
      = K tt (mkWorld (holding l plugins p') h' QD_ERROR_NONE msg lg).
Proof.
  intros Hp HO Hok.
  exists (sp_set m (opt_ptr (string_attr entity attribute) h) p),
         (h ++ opt_cell (string_attr entity attribute)).
  split; [exact Hp|]. split.
  - apply (owns_assign ssl_profile_member_beq profile_beq_eq). exact HO.
  - intros K. unfold entity_member.
    rewrite run_assoc, run_opt_string by exact Hok.
    rewrite run_opt_new_string, run_assoc, run_profile_assign by exact Hp.
    now rewrite run_check.
Qed.

(** config_ssl_profile_free on the profile being filled in, once every
    member has been assigned. *)
Lemma profile_free_run p h T err msg lg :
  sp_addr p = a -> powns h0 h p T -> (forall m, is_set (T m) = true) ->
  exists h',
    config_ssl_profile_free a (mkWorld (holding l plugins p) h err msg lg)
    = Done (Next true,
            mkWorld {| config_ssl_profiles := l; config_sasl_plugins := plugins |}
                    h' err msg lg) /\
    forall x, (x < List.length h0)%nat -> nth_error h' x = nth_error h0 x.
Proof.
  intros Hp HO Hset.
  destruct (free_profile_members_run p profile_members NoDup_profile_members
              {| config_ssl_profiles := l; config_sasl_plugins := plugins |} h err msg lg)
    as (h' & Hrun & Hframe).
  - apply (owns_inj _ _ _ _ HO).
  - intros m _. rewrite (owns_text _ _ _ _ _ HO (Hset m)). discriminate.
  - exists h'. split.
    + unfold config_ssl_profile_free. rewrite run_get_locals.
      cbn [holding config_ssl_profiles]. rewrite (profile_at_last l a p a_fresh Hp).
      rewrite run_modify. unfold with_profiles, holding.
      cbn [config_ssl_profiles config_sasl_plugins].
      rewrite (profile_remove_last l a p a_fresh Hp).
      erewrite run_bind by exact Hrun. reflexivity.
    + intros x Hx. rewrite Hframe; [now apply (owns_old _ _ _ _ HO)|].
      intros m _ Hm. pose proof (owns_txt _ _ _ _ HO m) as Hs. rewrite Hm in Hs.
      unfold slot_ok in Hs. destruct (T m); try contradiction. lia.
Qed.

(** One call of entity_member. *)
Ltac run_member H Hok :=
  match type of H with
  | _ = bind (entity_member _ _ ?m ?attribute) _ (mkWorld (holding _ _ ?p) ?h _ ?msg ?lg) =>
      match goal with
      | HO : powns _ h p ?T, Hp : sp_addr p = _ |- _ =>
          let p' := fresh "p" in
          let h' := fresh "h" in
          let Hp' := fresh "Hp" in
          let HO' := fresh "HO" in
          let Heq := fresh "Heq" in
          destruct (step_entity_member (B := option nat) p h T m attribute msg lg Hp HO
                                       (Hok attribute ltac:(in_list)))
            as (p' & h' & Hp' & HO' & Heq);
          rewrite Heq in H; clear Heq HO Hp; cbv beta in H
      end
  end.

(** The statements between the calls. *)
Ltac run_plain H :=
  repeat (first [ rewrite run_assoc in H | rewrite run_ret in H | rewrite run_check in H
                | rewrite run_log in H | rewrite run_clear in H | rewrite run_modify in H ];
          cbv beta in H).

Ltac slot_at := cbv beta delta [pupd upd ssl_profile_member_beq] iota.

(** A password [env:NAME] with [NAME] not in the environment: the
    registration takes its error path and returns the null result. *)
Lemma configure_env_missing text err0 msg0 lg0 :
  a = fresh_profile_addr l ->
  string_attr entity "password" = Some text ->
  String.prefix "env:" text = true ->
  getenv (skip_spaces (drop 4 text)) = None ->
  exists h lg,
    qd_dispatch_configure_ssl_profile getenv fopen entity
      (mkWorld {| config_ssl_profiles := l; config_sasl_plugins := plugins |}
               h0 err0 msg0 lg0)
    = Done (Next None,
            mkWorld {| config_ssl_profiles := l; config_sasl_plugins := plugins |} h
                    QD_ERROR_NOT_FOUND
                    "Failed to find a password in the environment variable"
                    (lg ++ [failure_log
                              "Failed to find a password in the environment variable"])) /\
    forall x, (x < List.length h0)%nat -> nth_error h x = nth_error h0 x.
Proof.
  intros Ha Hpw Hprefix Henv.
  pose proof entity_valid as Hok. unfold valid_profile_entity in Hok.
  rewrite forallb_forall in Hok.
  remember (qd_dispatch_configure_ssl_profile _ _ _ _) as R0 eqn:HR0.
  unfold qd_dispatch_configure_ssl_profile in HR0. rewrite run_get_locals in HR0.
  cbv beta zeta in HR0. cbn [config_ssl_profiles] in HR0. rewrite <- Ha in HR0.
  match type of HR0 with
  | _ = on_error ?body ?handler ?w =>
      remember (body w) as R eqn:HR;
      rewrite (on_error_run body handler w R (eq_sym HR)) in HR0
  end.
  rewrite run_clear, run_modify in HR.
  change (with_profiles _ _)
    with (holding l plugins {| sp_addr := a; sp := fun _ => Indeterminate |}) in HR.
  pose proof powns_start as HO.
  assert (Hp : sp_addr {| sp_addr := a; sp := fun _ => Indeterminate |} = a) by reflexivity.
  do 4 run_member HR Hok.
  (* the password is there: the deprecation warning *)
  match goal with
  | HO : powns _ _ ?p ?T |- _ =>
      assert (Hslot : T p_ssl_password = Text text) by (slot_at; now rewrite Hpw);
      destruct (owns_ptr _ _ _ T p_ssl_password text HO Hslot) as (x & Hx & _ & _);
      clear Hslot
  end.
  rewrite run_profile_member in HR by assumption. cbv beta in HR.
  rewrite Hx in HR. cbn [is_null] in HR. run_plain HR.
  do 6 run_member HR Hok.
  (* the lookup in the environment *)
  match goal with
  | HO : powns _ _ ?p ?T |- _ =>
      assert (Hslot : T p_ssl_password = Text text) by (slot_at; now rewrite Hpw);
      destruct (owns_ptr _ _ _ T p_ssl_password text HO Hslot) as (y & Hy & _ & Hread);
      clear Hslot;
      assert (Hset : forall m, is_set (T m) = true)
        by (intros m; destruct m; slot_at; apply is_set_slot_of)
  end.
  unfold qd_config_ssl_profile_process_password in HR.
  rewrite run_assoc, run_profile_member in HR by assumption. cbv beta in HR.
  rewrite Hy in HR. cbn [is_null] in HR. rewrite run_assoc in HR.
  erewrite run_read_text in HR by (cbn [text_at]; rewrite Hread; reflexivity).
  cbv beta in HR. rewrite Hprefix, Henv in HR.
  rewrite run_error, run_check_error in HR by reflexivity.
  (* the error path *)
  rewrite HR in HR0. rewrite run_error_message, run_log in HR0.
  match goal with
  | HO : powns _ ?h ?p ?T, Hp : sp_addr ?p = a |- _ =>
      destruct (profile_free_run p h T QD_ERROR_NOT_FOUND
                  "Failed to find a password in the environment variable"
                  (lg0 ++ [{| level := QD_LOG_WARNING;
                              format := "Attribute password of entity sslProfile has been deprecated. Use passwordFile instead.";
                              args := [] |}]
                       ++ [failure_log "Failed to find a password in the environment variable"])
                  Hp HO Hset)
        as (h' & Hfree & Hframe)
  end.
  rewrite <- app_assoc in HR0.
  erewrite run_bind in HR0 by exact Hfree.
  exists h'. eexists. split; [|exact Hframe].
  rewrite HR0. rewrite app_assoc. reflexivity.
Qed.

(** No password and a password file that cannot be opened: the
    registration returns the profile, with no password. *)
Lemma configure_file_missing path err0 msg0 lg0 :
  a = fresh_profile_addr l ->
  string_attr entity "password" = None ->
  string_attr entity "passwordFile" = Some path ->
  fopen path = None ->
  exists p h,
    qd_dispatch_configure_ssl_profile getenv fopen entity
      (mkWorld {| config_ssl_profiles := l; config_sasl_plugins := plugins |}
               h0 err0 msg0 lg0)
    = Done (Next (Some a),
            mkWorld (holding l plugins p) h QD_ERROR_NONE ""
                    (lg0 ++ [created_log (string_attr entity "name")])) /\
    sp_addr p = a /\
    sp p p_ssl_password = NULL /\
    text_at h (sp p p_name) = Some (string_attr entity "name").
Proof.
  intros Ha Hpw Hfile Hfopen.
  pose proof entity_valid as Hok. unfold valid_profile_entity in Hok.
  rewrite forallb_forall in Hok.
  remember (qd_dispatch_configure_ssl_profile _ _ _ _) as R0 eqn:HR0.
  unfold qd_dispatch_configure_ssl_profile in HR0. rewrite run_get_locals in HR0.
  cbv beta zeta in HR0. cbn [config_ssl_profiles] in HR0. rewrite <- Ha in HR0.
  match type of HR0 with
  | _ = on_error ?body ?handler ?w =>
      remember (body w) as R eqn:HR;
      rewrite (on_error_run body handler w R (eq_sym HR)) in HR0
  end.
  rewrite run_clear, run_modify in HR.
  change (with_profiles _ _)
    with (holding l plugins {| sp_addr := a; sp := fun _ => Indeterminate |}) in HR.
  pose proof powns_start as HO.
  assert (Hp : sp_addr {| sp_addr := a; sp := fun _ => Indeterminate |} = a) by reflexivity.
  do 4 run_member HR Hok.
  (* no password: the password file *)
  match goal with
  | HO : powns _ _ ?p ?T |- _ =>
      assert (Hslot : T p_ssl_password = Null) by (slot_at; now rewrite Hpw);
      pose proof (owns_null _ _ _ T p_ssl_password HO Hslot) as Hnull;
      clear Hslot
  end.
  rewrite run_profile_member in HR by assumption. cbv beta in HR.
  rewrite Hnull in HR. cbn [is_null] in HR. run_plain HR.
  rewrite run_opt_string in HR by (apply Hok; in_list).
  rewrite Hfile, run_opt_new_string in HR. cbn [opt_ptr opt_cell] in HR. cbv beta in HR.
  run_plain HR. cbn [is_null] in HR. run_plain HR.
  erewrite run_read_text in HR by (cbn [text_at]; rewrite heap_read_new; reflexivity).
  cbv beta in HR. rewrite Hfopen in HR. run_plain HR.
  erewrite run_free in HR by apply heap_read_new.
  rewrite heap_write_last in HR. cbv beta in HR.
  match goal with
  | HO : powns ?g ?h ?p ?T |- _ =>
      assert (HO' : powns g (h ++ [None]) p T) by (apply owns_app; exact HO); clear HO
  end.
  do 6 run_member HR Hok.
  (* nothing to look up *)
  match goal with
  | HO : powns _ ?h ?p ?T |- _ =>
      assert (Hslot : T p_ssl_password = Null) by (slot_at; now rewrite Hpw);
      pose proof (owns_null _ _ _ T p_ssl_password HO Hslot) as Hnone;
      clear Hslot;
      assert (Hname : text_at h (sp p p_name) = Some (string_attr entity "name"))
        by (rewrite (owns_text _ _ _ _ p_name HO) by (slot_at; apply is_set_slot_of);
            slot_at; now rewrite slot_text_slot_of)
  end.
  unfold qd_config_ssl_profile_process_password in HR.
  rewrite run_assoc, run_profile_member in HR by assumption. cbv beta in HR.
  rewrite Hnone in HR. cbn [is_null] in HR. run_plain HR.
  rewrite run_profile_member in HR by assumption. cbv beta in HR.
  erewrite run_read_opt in HR by exact Hname.
  rewrite run_log in HR. fold (created_log (string_attr entity "name")) in HR.
  unfold ret in HR. rewrite HR in HR0.
  eexists; eexists. split; [exact HR0|].
  split; [assumption|]. split; assumption.
Qed.

End Registration.

End RegistrationFacts.

(** ** Password resolution at registration *)

Import RegistrationFacts.

(** C3, as the code has it: on an entity whose attributes are texts, a
    password [env:NAME] with [NAME] not set in the environment is not
    soft: qd_config_ssl_profile_process_password raises
    QD_ERROR_NOT_FOUND, the CHECK that follows the call jumps to the
    error label, and qd_dispatch_configure_ssl_profile logs the
    failure, removes and releases the profile, and returns the null
    result, with the collection and the blocks of the heap on entry as
    they were.  A password file that cannot be opened is soft: with no
    password attribute the registration returns the new profile, which
    is in the collection with a null password, and no error is set. *)
Theorem C3_password_resolution getenv fopen entity cm h0 err0 msg0 lg0 :
  valid_profile_entity entity = true ->
  (forall text,
      string_attr entity "password" = Some text ->
      String.prefix "env:" text = true ->
      getenv (skip_spaces (drop 4 text)) = None ->
      exists w,
        qd_dispatch_configure_ssl_profile getenv fopen entity (mkWorld cm h0 err0 msg0 lg0)
        = Done (Next None, w) /\
        error_code w = QD_ERROR_NOT_FOUND /\
        config_ssl_profiles (locals w) = config_ssl_profiles cm /\
        (exists lg,
            log w = lg ++ [failure_log
                             "Failed to find a password in the environment variable"]) /\
        (forall x, (x < List.length h0)%nat -> nth_error (heap w) x = nth_error h0 x)) /\
  (forall path,
      string_attr entity "password" = None ->
      string_attr entity "passwordFile" = Some path ->
      fopen path = None ->
      exists a p w,
        qd_dispatch_configure_ssl_profile getenv fopen entity (mkWorld cm h0 err0 msg0 lg0)
        = Done (Next (Some a), w) /\
        error_code w = QD_ERROR_NONE /\
        profile_at a (config_ssl_profiles (locals w)) = Some p /\
        sp p p_ssl_password = NULL).
Proof.
  intros Hvalid. destruct cm as [l plugins]. split.
  - intros text Hpw Hprefix Henv.
    destruct (configure_env_missing getenv fopen entity h0 l plugins (fresh_profile_addr l)
                Hvalid (fresh_not_in l) text err0 msg0 lg0 eq_refl Hpw Hprefix Henv)
      as (h & lg & Hrun & Hframe).
    eexists. split; [exact Hrun|]. cbn [error_code locals config_ssl_profiles log heap].
    split; [reflexivity|]. split; [reflexivity|]. split; [|exact Hframe].
    now exists lg.
  - intros path Hpw Hfile Hfopen.
    destruct (configure_file_missing getenv fopen entity h0 l plugins (fresh_profile_addr l)
                Hvalid (fresh_not_in l) path err0 msg0 lg0 eq_refl Hpw Hfile Hfopen)
      as (p & h & Hrun & Hp & Hnull & _).
    exists (fresh_profile_addr l), p. eexists. split; [exact Hrun|].
    cbn [error_code locals holding config_ssl_profiles].
    split; [reflexivity|]. split; [|exact Hnull].
    apply profile_at_last; [apply fresh_not_in | exact Hp].
Qed.

Lemma C3_password_resolution_witness :
  (exists w,
      qd_dispatch_configure_ssl_profile no_variables no_files env_entity
                                        (empty_world empty_manager)
      = Done (Next None, w)) /\
  (exists a w,
      qd_dispatch_configure_ssl_profile no_variables no_files file_entity
                                        (empty_world empty_manager)
      = Done (Next (Some a), w)).
Proof.
  split.
  - destruct (proj1 (C3_password_resolution no_variables no_files env_entity empty_manager
                       [] QD_ERROR_NONE "" [] eq_refl)
                    "env:NOPE"%string eq_refl eq_refl eq_refl)
      as (w & Hrun & _).
    now exists w.
  - destruct (proj2 (C3_password_resolution no_variables no_files file_entity empty_manager
                       [] QD_ERROR_NONE "" [] eq_refl)
                    "/no/such/file"%string eq_refl eq_refl eq_refl)
      as (a & p & w & Hrun & _).
    now exists a, w.
Defined.

(** The registration of a profile whose password names a variable
    that is not set returns the null result, with an error set and
    the profile gone from the collection. *)
Lemma C3_counterexample :
  string_attr env_entity "password" = Some "env:NOPE"%string /\
  no_variables "NOPE"%string = None /\
  match qd_dispatch_configure_ssl_profile no_variables no_files env_entity
                                          (empty_world empty_manager) with
  | Done (Next None, w) =>
      error_code w = QD_ERROR_NOT_FOUND /\
      config_ssl_profiles (locals w) = [] /\
      map level (log w) = [QD_LOG_WARNING; QD_LOG_ERROR]
  | _ => False
  end.
Proof. vm_compute. repeat split; reflexivity. Qed.

(** ** Components enabled in a mask *)

Module EnabledFacts.
Import LogMessage LogMessageSpec LogMessageFacts.

Lemma land_shiftr_one b i : 0 <= i -> Z.land (Z.shiftr b i) 1 = Z.b2z (Z.testbit b i).
Proof.
  intros Hi. change 1 with (Z.ones 1). rewrite Z.land_ones by lia.
  change (2 ^ 1) with 2. rewrite <- Z.bit0_mod, Z.shiftr_spec by lia.
  reflexivity.
Qed.

(** The loop answers with the bit of the first entry that is the name. *)
Lemma enabled_loop_spec components : forall i b c,
  0 <= i ->
  negb (enabled_loop components i b c =? 0) = true <->
  exists k, nth_error components k = Some c /\
            (forall j, (j < k)%nat -> nth_error components j <> Some c) /\
            Z.testbit b (i + Z.of_nat k) = true.
Proof.
  induction components as [|x rest IH]; intros i b c Hi; cbn [enabled_loop].
  - split; [discriminate|]. intros (k & Hk & _). now destruct k.
  - unfold streq. destruct (String.eqb_spec c x) as [->|Hne].
    + rewrite land_shiftr_one by assumption. split.
      * intros H. exists 0%nat. split; [reflexivity|]. split; [intros j Hj; lia|].
        rewrite Z.add_0_r. now destruct (Z.testbit b i).
      * intros (k & Hk & Hfirst & Hbit). destruct k as [|k].
        -- rewrite Z.add_0_r in Hbit. now rewrite Hbit.
        -- exfalso. now apply (Hfirst 0%nat); [lia|].
    + rewrite IH by lia. split.
      * intros (k & Hk & Hfirst & Hbit). exists (S k). split; [exact Hk|]. split.
        -- intros [|j] Hj; cbn [nth_error]; [congruence | apply Hfirst; lia].
        -- rewrite <- Hbit. f_equal. lia.
      * intros (k & Hk & Hfirst & Hbit). destruct k as [|k]; [cbn in Hk; congruence|].
        exists k. split; [exact Hk|]. split.
        -- intros j Hj. apply (Hfirst (S j)). lia.
        -- rewrite <- Hbit. f_equal. lia.
Qed.

Lemma NoDup_components : NoDup qd_log_message_components.
Proof.
  unfold qd_log_message_components.
  repeat (constructor; [cbn [In]; intuition discriminate|]). constructor.
Qed.

(** A name is enabled in a mask when it is an entry of the table and the
    bit of its position is set. *)
Lemma enabled_bit b c :
  is_log_component_enabled b c = true <->
  exists k, nth_error qd_log_message_components k = Some c /\
            Z.testbit b (Z.of_nat k) = true.
Proof.
  unfold is_log_component_enabled. rewrite enabled_loop_spec by lia. split.
  - intros (k & Hk & _ & Hbit). now exists k.
  - intros (k & Hk & Hbit). exists k. split; [exact Hk|]. split; [|exact Hbit].
    intros j Hj Hc.
    pose proof (proj1 (NoDup_nth_error qd_log_message_components) NoDup_components j k) as Hnd.
    assert (j = k); [|lia].
    apply Hnd; [|congruence].
    apply nth_error_Some. congruence.
Qed.

End EnabledFacts.

Import EnabledFacts.

(** X1: what populate_log_message sets, is_log_component_enabled reads
    back.  For a text other than "none" and "all", a name is enabled in
    the mask of the text exactly when it is an entry of the table and
    one of the comma-separated tokens of the text. *)
Theorem X1_enabled_after_populate s bits c :
  s <> "none"%string -> s <> "all"%string ->
  populate_log_message (Some s) = Done bits ->
  (is_log_component_enabled bits c = true <->
   In c qd_log_message_components /\ In c (tokens "," s)).
Proof.
  intros Hnone Hall Hpop. rewrite enabled_bit. split.
  - intros (k & Hk & Hbit).
    apply (populate_bits s bits (Z.of_nat k) Hnone Hall) in Hbit; [|lia|exact Hpop].
    destruct Hbit as (component & Hnth & Hin). rewrite Nat2Z.id, Hk in Hnth.
    injection Hnth as <-. split; [|exact Hin]. eapply nth_error_In. eassumption.
  - intros [Hc Hin]. apply In_nth_error in Hc as [k Hk]. exists k. split; [exact Hk|].
    apply (populate_bits s bits (Z.of_nat k) Hnone Hall); [lia | exact Hpop |].
    exists c. rewrite Nat2Z.id. split; assumption.
Qed.

Lemma X1_enabled_after_populate_witness :
  is_log_component_enabled (Z.lor (Z.shiftl 1 0) (Z.shiftl 1 2)) "to" = true.
Proof.
  apply (X1_enabled_after_populate "message-id,to" _ "to");
    [discriminate | discriminate | reflexivity |].
  split; vm_compute; tauto.
Defined.

(** X2: is_log_component_enabled never answers for a name that is not
    in the table, whatever the mask; with the mask of "all" it answers
    for every entry of the table and for nothing else, and with the
    mask of "none" or of an absent text for nothing. *)
Theorem X2_enabled_names :
  (forall bits c, ~ In c qd_log_message_components ->
                  is_log_component_enabled bits c = false) /\
  (forall bits c, populate_log_message (Some "all"%string) = Done bits ->
                  (is_log_component_enabled bits c = true <->
                   In c qd_log_message_components)) /\
  (forall log_message bits c,
      log_message = None \/ log_message = Some "none"%string ->
      populate_log_message log_message = Done bits ->
      is_log_component_enabled bits c = false).
Proof.
  split; [|split].
  - intros bits c Hin. destruct (is_log_component_enabled bits c) eqn:E; [|reflexivity].
    apply enabled_bit in E as (k & Hk & _). exfalso. apply Hin.
    eapply nth_error_In. eassumption.
  - intros bits c [= <-]. rewrite enabled_bit. split.
    + intros (k & Hk & _). eapply nth_error_In. eassumption.
    + intros Hin. apply In_nth_error in Hin as [k Hk]. exists k. split; [exact Hk|].
      assert (Hlt : (k < 14)%nat)
        by (change 14%nat with (List.length qd_log_message_components);
            apply nth_error_Some; congruence).
      do 14 (destruct k as [|k]; [reflexivity|]). lia.
  - intros log_message bits c [-> | ->] [= <-];
      (destruct (is_log_component_enabled 0 c) eqn:E; [|reflexivity]);
      apply enabled_bit in E as (k & _ & Hbit); now rewrite Z.bits_0 in Hbit.
Qed.
(** ** More on the failover serialization *)

Module FailoverMoreFacts.
Import Failover FailoverSpec FailoverFacts.


Section Passes.

Variable items : list qd_failover_item_t.
Variables ci cap : Z.
Hypothesis items_there : items <> [].

Let n := Z.of_nat (List.length items).

Lemma n_pos : 0 < n.
Proof. unfold n. destruct items; [congruence | cbn [List.length]; lia]. Qed.

(** A pass over the whole list before the starting position is reached
    writes nothing and comes back to the head. *)
Lemma skip_pass fuel i buf :
  i + n <= ci -> ci <= INT_MAX ->
  refresh_loop (List.length items + fuel) items items ci n cap i 0 buf
  = refresh_loop fuel items items ci n cap (i + n) 0 buf.
Proof.
  intros Hi Hmax.
  pose proof (skip_run items ci n cap n_pos items [] fuel i buf Hi Hmax) as H.
  rewrite app_nil_r in H. cbn [next_or_head] in H.
  assert (E : next_or_head items items = items) by (destruct items; reflexivity).
  rewrite E in H. exact H.
Qed.

Lemma skip_passes q fuel i buf :
  i + Z.of_nat q * n <= ci -> ci <= INT_MAX ->
  refresh_loop (q * List.length items + fuel) items items ci n cap i 0 buf
  = refresh_loop fuel items items ci n cap (i + Z.of_nat q * n) 0 buf.
Proof.
  revert i. induction q as [|q IH]; intros i Hi Hmax.
  - cbn [Nat.mul Nat.add]. f_equal. lia.
  - pose proof n_pos as Hn.
    replace (S q * List.length items + fuel)%nat
      with (List.length items + (q * List.length items + fuel))%nat by lia.
    rewrite skip_pass by (fold n; nia).
    rewrite IH by nia. f_equal. lia.
Qed.

(** With nothing written and the starting position behind, the loop
    goes round until the counter cannot be incremented. *)
Lemma never_started fuel : forall cur i buf s,
  cur <> [] -> ci < i ->
  refresh_loop fuel items cur ci n cap i 0 buf <> Done s.
Proof.
  pose proof n_pos as Hn.
  induction fuel as [|fuel IH]; intros cur i buf s Hcur Hi; [discriminate|].
  destruct cur as [|it next]; [congruence|]. cbn [refresh_loop].
  replace (n <=? 0) with false by (symmetry; apply Z.leb_gt; lia).
  cbn [Z.leb Z.compare obind].
  replace (ci =? i) with false by (symmetry; apply Z.eqb_neq; lia).
  cbn [Z.ltb Z.compare obind].
  destruct (INT_MAX <=? i); [discriminate|].
  apply IH; [|lia]. destruct next; [assumption | discriminate].
Qed.

Lemma overflow_reached fuel : forall cur i buf,
  cur <> [] -> ci < i -> i <= INT_MAX -> INT_MAX - i < Z.of_nat fuel ->
  refresh_loop fuel items cur ci n cap i 0 buf = Undefined.
Proof.
  pose proof n_pos as Hn.
  induction fuel as [|fuel IH]; intros cur i buf Hcur Hi Hmax Hfuel; [lia|].
  destruct cur as [|it next]; [congruence|]. cbn [refresh_loop].
  replace (n <=? 0) with false by (symmetry; apply Z.leb_gt; lia).
  cbn [Z.leb Z.compare obind].
  replace (ci =? i) with false by (symmetry; apply Z.eqb_neq; lia).
  cbn [Z.ltb Z.compare obind].
  destruct (Z.leb_spec INT_MAX i) as [Hge|Hlt]; [reflexivity|].
  apply IH; [destruct next; [assumption | discriminate] | lia | lia | lia].
Qed.

End Passes.

(** The whole loop from the head of the list at counter [i0], for a
    starting position in the pass that begins there. *)
Lemma refresh_loop_split_from i0 pre x post extra :
  let items := pre ++ x :: post in
  let n := Z.of_nat (List.length items) in
  let ci := i0 + Z.of_nat (List.length pre) in
  let cap := text_len items + 2 * (n - 1) + 1 in
  ci + n <= INT_MAX ->
  refresh_loop (List.length pre + S (List.length post + (List.length pre + S extra)))
               items items ci n cap i0 0 ""
  = Done (String.concat ", " (map failover_url (x :: post ++ pre))).
Proof.
  intros items n ci cap Hmax.
  assert (Hn : n = Z.of_nat (List.length pre) + 1 + Z.of_nat (List.length post)).
  { unfold n, items. rewrite length_app. cbn [List.length]. lia. }
  assert (Hitems : items = next_or_head items (pre ++ x :: post)).
  { unfold items. destruct pre; reflexivity. }
  assert (Htext : text_len items = text_len pre + strlen (failover_url x) + text_len post).
  { unfold items. rewrite text_len_app, text_len_cons. lia. }
  pose proof (text_len_nonneg pre) as Hpre.
  pose proof (text_len_nonneg post) as Hpost.
  pose proof (strlen_nonneg (failover_url x)) as Hx.
  rewrite Hitems at 2.
  rewrite skip_run by lia.
  cbn [next_or_head].
  fold ci.
  rewrite emit_first by (change (strlen "") with 0; lia).
  replace (next_or_head items post) with (next_or_head items (post ++ []))
    by now rewrite app_nil_r.
  rewrite emit_run; try lia.
  2:{ rewrite strlen_append, strlen_sep_urls. change (strlen "") with 0. lia. }
  cbn [next_or_head]. rewrite Hitems at 2.
  rewrite emit_run; try lia.
  2:{ rewrite !strlen_append, !strlen_sep_urls. change (strlen "") with 0. lia. }
  replace (1 + Z.of_nat (List.length post) + Z.of_nat (List.length pre)) with n by lia.
  rewrite loop_done.
  rewrite concat_urls, sep_urls_app, !append_assoc. reflexivity.
Qed.

End FailoverMoreFacts.

Import FailoverMoreFacts.


(** X4: the starting position of qd_entity_refresh_connector is taken
    round the list.  For a list that is not empty, whose text fits an
    [int], and any position [k >= 1] with [k] plus the length of the
    list within [INT_MAX], the result is the items joined by ", " read
    circularly from position [(k - 1) mod n] (0-based): the loop passes
    over the list until its counter reaches [k]. *)
Theorem X4_failover_start_wraps (ct : qd_connector_t) (fuel : nat) :
  let items := conn_info_list ct in
  let n := Z.of_nat (List.length items) in
  items <> [] ->
  1 <= conn_index ct ->
  0 < get_failover_info_length items < INT_MAX ->
  conn_index ct + n <= INT_MAX ->
  conn_index ct + n <= Z.of_nat fuel ->
  qd_entity_refresh_connector fuel ct
  = Done (String.concat ", "
            (map failover_url (rotate (Z.to_nat ((conn_index ct - 1) mod n)) items))).
Proof.
  unfold qd_entity_refresh_connector. cbv zeta.
  generalize (conn_index ct) as ci. generalize (conn_info_list ct) as items.
  clear ct. intros items ci Hne Hci Hlen Hmax Hfuel.
  set (n := Z.of_nat (List.length items)) in *.
  assert (Hn : 0 < n) by (unfold n; destruct items; [congruence | cbn [List.length]; lia]).
  set (q := (ci - 1) / n). set (r := (ci - 1) mod n).
  assert (Hqr : ci - 1 = n * q + r) by (apply Z.div_mod; lia).
  assert (Hr : 0 <= r < n) by (apply Z.mod_pos_bound; lia).
  assert (Hq : 0 <= q) by (apply Z.div_pos; lia).
  set (k := Z.to_nat r).
  assert (Hk : (k < List.length items)%nat) by (unfold k, n in *; lia).
  pose proof (firstn_skipn k items) as Hsplit.
  destruct (skipn k items) as [|x post] eqn:Hskip.
  { apply (f_equal (@List.length _)) in Hskip. rewrite length_skipn in Hskip.
    simpl in Hskip. lia. }
  set (pre := firstn k items) in *.
  assert (Hpre : List.length pre = k) by (unfold pre; rewrite length_firstn; lia).
  clearbody pre.
  pose proof (get_failover_info_length_spec items Hne (proj1 Hlen)) as Hcap.
  assert (Hnsum : n = Z.of_nat (List.length pre) + 1 + Z.of_nat (List.length post)).
  { unfold n. rewrite <- Hsplit. rewrite length_app. cbn [List.length]. lia. }
  assert (Hrot : rotate k items = x :: post ++ pre).
  { rewrite <- Hsplit, <- Hpre. apply rotate_split. }
  replace ((get_failover_info_length items <=? 0) || (INT_MAX <? get_failover_info_length items))
    with false.
  2:{ symmetry. apply orb_false_iff. split; [apply Z.leb_gt | apply Z.ltb_ge]; lia. }
  set (extra := (fuel - Z.to_nat (ci + n))%nat).
  replace fuel
    with (Z.to_nat q * List.length items
          + (List.length pre + S (List.length post + (List.length pre + S extra))))%nat
    by (unfold extra, n in *; nia).
  rewrite (skip_passes items ci (get_failover_info_length items) Hne)
    by (fold n; rewrite ?Z2Nat.id by lia; nia).
  fold n. rewrite Z2Nat.id by lia.
  pose proof (refresh_loop_split_from (1 + q * n) pre x post extra) as H.
  cbv zeta in H. rewrite Hsplit in H. fold n in H.
  replace (1 + q * n + Z.of_nat (List.length pre)) with ci in H by (unfold k in *; nia).
  rewrite Hrot, Hcap. apply H. lia.
Qed.

Lemma X4_failover_start_wraps_witness :
  qd_entity_refresh_connector 8 far_connector
  = Done "b:2, amqps://c:3, amqp://a:1"%string.
Proof.
  refine (X4_failover_start_wraps far_connector 8 _ _ _ _ _).
  - discriminate.
  - vm_compute. discriminate.
  - vm_compute. split; reflexivity.
  - vm_compute. discriminate.
  - vm_compute. discriminate.
Defined.

(** X5: with a starting position below 1 and a list that is not empty
    qd_entity_refresh_connector never returns a string: nothing is ever
    written, so its loop goes round the list until the counter [i] would
    pass [INT_MAX]. *)
Theorem X5_failover_unplaced (ct : qd_connector_t) :
  conn_info_list ct <> [] ->
  conn_index ct < 1 ->
  (forall fuel s, qd_entity_refresh_connector fuel ct <> Done s) /\
  (forall fuel, INT_MAX <= Z.of_nat fuel -> qd_entity_refresh_connector fuel ct = Undefined).
Proof.
  intros Hne Hci. unfold qd_entity_refresh_connector. cbv zeta. split.
  - intros fuel s. destruct (_ || _); [discriminate|].
    apply never_started; [assumption | assumption | lia].
  - intros fuel Hfuel. destruct (_ || _); [reflexivity|].
    apply overflow_reached; [assumption | assumption | lia | | lia].
    unfold INT_MAX. lia.
Qed.

Lemma X5_failover_unplaced_witness :
  qd_entity_refresh_connector 9 unplaced_connector <> Done ""%string.
Proof.
  refine (proj1 (X5_failover_unplaced unplaced_connector _ _) 9%nat ""%string).
  - discriminate.
  - reflexivity.
Defined.
(** ** The settings load_server_config derives *)

Module SettingsFacts.
Import Ownership Settings HeapFacts RunFacts ResolveFacts AttributeFacts ProfileFacts BlockFacts.
Import ResolutionFacts.

Lemma strip_result_flags NDEBUG c o m :
  m <> f_strip_inbound_annotations -> m <> f_strip_outbound_annotations ->
  flags (strip_result NDEBUG c o) m = flags c m.
Proof.
  intros Hin Hout. unfold strip_result, load_strip_annotations.
  assert (E1 : flag_member_beq m f_strip_inbound_annotations = false).
  { destruct (flag_member_beq m f_strip_inbound_annotations) eqn:E; [|reflexivity].
    apply internal_flag_member_dec_bl in E. contradiction. }
  assert (E2 : flag_member_beq m f_strip_outbound_annotations = false).
  { destruct (flag_member_beq m f_strip_outbound_annotations) eqn:E; [|reflexivity].
    apply internal_flag_member_dec_bl in E. contradiction. }
  destruct o as [s|].
  - repeat match goal with |- context [if streq ?a ?b then _ else _] => destruct (streq a b) end;
      cbn [flags set_flag]; now rewrite ?E1, ?E2.
  - destruct NDEBUG; cbn [flags set_flag]; now rewrite ?E1, ?E2.
Qed.

(** Whether a member is null, by what it holds. *)
Lemma is_null_slot h0 h c T m o :
  cowns h0 h c T -> T m = slot_of o ->
  is_null (strs c m) = match o with Some _ => false | None => true end.
Proof.
  intros HO HT. destruct o as [s|]; cbn [slot_of] in HT.
  - destruct (cowns_ptr _ _ _ _ _ _ HO HT) as (a & -> & _). reflexivity.
  - now rewrite (cowns_null _ _ _ _ _ HO HT).
Qed.

(** The members of a configuration known by its updates. *)
Ltac known_nums :=
  repeat first
    [ progress cbn [flags nums strs set_str set_flag set_num str_member_beq flag_member_beq
                    num_member_beq]
    | rewrite strip_result_nums
    | match goal with
      | H : num_update _ ?c' _ _ |- context [nums ?c' ?m] =>
          rewrite (proj2 (proj2 H) m)
      end ].

Ltac known_flags :=
  repeat first
    [ progress cbn [flags nums strs set_str set_flag set_num str_member_beq flag_member_beq
                    num_member_beq]
    | rewrite strip_result_flags by discriminate
    | match goal with
      | H : num_update _ ?c' _ _ |- context [flags ?c'] =>
          rewrite (proj1 (proj2 H))
      end ].

Ltac known_strs H :=
  repeat first
    [ progress cbn [flags nums strs set_str set_flag set_num str_member_beq flag_member_beq
                    num_member_beq] in H
    | rewrite strip_result_strs in H
    | match goal with
      | Hc : num_update _ ?c' _ _ |- _ =>
          match type of H with context [strs c'] => rewrite (proj1 Hc) in H end
      end ].

Ltac known_text := cbv beta delta [tupd upd str_member_beq] iota; reflexivity.

Ltac finish_attributes HR NDEBUG Hok Hthere :=
  repeat (first [ run_pure HR ]; try sync HR);
  run_strip HR NDEBUG Hok Hthere;
  repeat (first [ run_pure HR ]; try sync HR);
  match type of HR with
  | _ = ret _ (mkWorld ?c ?h _ _ ?lg) =>
      match goal with
      | HO : cowns _ h c ?T |- _ =>
          exists c, h, lg, T;
          split; [exact HR|];
          split; [exact HO|]
      end
  end.

Section Attributes.

Variable NDEBUG : bool.
Variable sizeof_size_t : Z.
Variable entity : qd_entity_t.
Variable is_listener : bool.
Hypothesis entity_valid : valid_server_entity NDEBUG entity is_listener = true.

Ltac settings_facts HO Hset Hcap Hhs Hps :=
  split; [exact Hset|];
  split;
  [ let m := fresh "m" in
    let Hin := fresh "Hin" in
    intros m Hin;
    cbn [In map app fst tls_members auth_tls_members] in Hin;
    repeat (destruct Hin as [<-|Hin]; [known_text|]); destruct Hin
  | ];
  split;
  [ unfold resolved_texts;
    split; [do 2 eexists; split; [exact Hhs|]; split; [exact Hps|]; repeat split;
           cbv beta delta [tupd upd str_member_beq] iota; rewrite ?Hps; reflexivity|];
    repeat split; known_text
  | ];
  match type of Hcap with
  | incoming_capacity _ (nums ?c f_max_frame_size) _ = _ =>
      let Hmfs := fresh "Hmfs" in
      assert (Hmfs : nums c f_max_frame_size = promoted_frame_size _)
        by (known_nums; reflexivity);
      rewrite Hmfs in Hcap
  end;
  split;
  [ unfold resolved_numbers, max_sessions_of, link_capacity_of;
    repeat split;
    try (let Hl := fresh "Hl" in intros Hl);
    known_nums;
    first [ reflexivity
          | now rewrite Hcap
          | cbv beta delta [tupd upd str_member_beq] iota; now rewrite slot_text_slot_of
          | match goal with Hl : _ = true |- _ => now rewrite Hl end ]
  | ];
  split;
  [ unfold resolved_flags;
    repeat split; known_flags;
    first [ reflexivity
          | match type of HO with
            | cowns _ _ ?c ?T =>
                let Hn := fresh "Hn" in
                assert (Hn : T f_http_root_dir = slot_of (string_attr _ "httpRootDir"))
                  by known_text;
                apply (is_null_slot _ _ _ _ _ _ HO) in Hn;
                known_strs Hn; rewrite Hn; unfold has_text;
                now destruct (string_attr _ "httpRootDir")
            end ]
  | ];
  split; [known_flags; reflexivity|];
  split; [known_flags; reflexivity|];
  split; [known_flags; reflexivity|];
  match type of HO with
  | cowns _ _ ?c ?T =>
      let Hn := fresh "Hn" in
      assert (Hn : T f_http_root_dir = slot_of (string_attr _ "httpRootDir")) by known_text;
      apply (is_null_slot _ _ _ _ _ _ HO) in Hn;
      known_strs Hn;
      unfold capacity_warnings; rewrite Hcap; cbn [snd];
      let notices :=
        rewrite Hn; unfold attribute_notices, has_text, http_notice, metrics_notice;
        destruct (string_attr _ "httpRootDir"), (bool_attr _ "http" false),
          (bool_attr _ "metrics" true); cbn [negb andb orb app];
        rewrite ?app_nil_r, <- ?app_assoc; reflexivity in
      lazymatch goal with
      | |- _ = _ ++ [_] =>
          apply (f_equal2 (@app log_entry));
          [ notices
          | unfold truncation_warning;
            cbv beta delta [tupd upd str_member_beq] iota;
            rewrite ?slot_text_slot_of; cbn [slot_text];
            rewrite ?Hhs, ?Hps; reflexivity ]
      | |- _ = _ ++ [] => rewrite app_nil_r; notices
      end
  end.

(** The statements of load_server_config before the two profile
    blocks, with everything they leave in the configuration. *)
Lemma load_attributes_settings c0 h0 err0 msg0 lg0 :
  exists c1 h1 lg1 T,
    load_attributes NDEBUG sizeof_size_t entity is_listener (mkWorld c0 h0 err0 msg0 lg0)
    = Done (Next (bool_attr entity "requireSsl" false),
            mkWorld c1 h1 QD_ERROR_NONE "" lg1) /\
    cowns h0 h1 c1 T /\
    (forall m, is_set (T m) = true) /\
    (forall m, In m (map fst (tls_members ++ auth_tls_members)
                     ++ [spc_auth_service; spc_sasl_init_hostname]) -> T m = Null) /\
    resolved_texts entity T /\
    resolved_numbers sizeof_size_t entity is_listener c1 /\
    resolved_flags entity c1 /\
    flags c1 f_ssl_required = false /\
    flags c1 f_ssl_require_peer_authentication = false /\
    flags c1 spc_use_ssl = false /\
    lg1 = (lg0 ++ attribute_notices entity) ++ capacity_warnings sizeof_size_t entity.
Proof.
  pose proof entity_valid as Hv. unfold valid_server_entity in Hv.
  repeat match type of Hv with _ && _ = true => apply andb_true_iff in Hv;
                                                 let H := fresh "Hv" in destruct Hv as [Hv H] end.
  rename Hv into Hbools.
  match goal with H : forallb (opt_string_ok _) _ = true |- _ => rename H into Hstrs end.
  match goal with H : forallb (req_string_ok _) _ = true |- _ => rename H into Hreqs end.
  match goal with H : forallb (opt_long_ok _) _ = true |- _ => rename H into Hlongs end.
  match goal with H : forallb (req_long_ok _) _ = true |- _ => rename H into Hreql end.
  match goal with H : negb _ || _ = true |- _ => rename H into Hlistener end.
  match goal with H : NDEBUG || _ = true |- _ => rename H into Hstrip end.
  rewrite forallb_forall in Hbools, Hstrs, Hreqs, Hlongs, Hreql.
  remember (load_attributes NDEBUG sizeof_size_t entity is_listener
                            (mkWorld c0 h0 err0 msg0 lg0)) as R eqn:HR.
  unfold load_attributes in HR.
  pose proof (cowns_zero h0) as HO.
  repeat (first [ run_pure HR
                | rewrite run_opt_bool in HR by (apply Hbools; in_list); cbv beta in HR
                | rewrite run_opt_long in HR by (apply Hlongs; in_list); cbv beta in HR
                | rewrite run_get_long in HR by (apply Hreql; in_list); cbv beta in HR
                | run_string HR Hstrs | run_string HR Hreqs
                | run_populate HR ]; try sync HR).
  (* the listener's handshake timeout *)
  match type of HR with
  | context [mkWorld ?c ?h _ ?msg ?lg] =>
      assert (Hl : exists c',
                 num_update c c' f_initial_handshake_timeout_seconds
                   (if is_listener
                    then to_int32 (long_attr entity "initialHandshakeTimeoutSeconds" 0)
                    else nums c f_initial_handshake_timeout_seconds) /\
                 forall K : unit -> cfgM bool,
                   bind (if is_listener
                         then n <- qd_entity_get_long entity "initialHandshakeTimeoutSeconds" ;;
                              assign_num f_initial_handshake_timeout_seconds (to_int32 n) ;;
                              CHECK
                         else ret tt) K (mkWorld c h QD_ERROR_NONE msg lg)
                   = K tt (mkWorld c' h QD_ERROR_NONE msg lg));
      [ eexists; split; [apply (num_update_if is_listener)|];
        intros K; destruct is_listener; [|reflexivity];
        cbn [negb orb] in Hlistener; apply run_bind;
        rewrite run_get_long by assumption; now rewrite run_assign_num
      | destruct Hl as (cl & Hcl & Heq); rewrite Heq in HR; clear Heq; cbv beta in HR;
        match goal with
        | HO : cowns _ h _ ?T |- _ =>
            assert (HOl : cowns h0 h cl T)
              by (apply (cowns_num_update _ _ _ _ _ _ _ Hcl); exact HO);
            clear HO
        end ]
  end.
  repeat (first [ run_pure HR
                | rewrite run_opt_bool in HR by (apply Hbools; in_list); cbv beta in HR
                | rewrite run_opt_long in HR by (apply Hlongs; in_list); cbv beta in HR
                | rewrite run_get_long in HR by (apply Hreql; in_list); cbv beta in HR
                | run_string HR Hstrs | run_string HR Hreqs ]; try sync HR).
  (* the host and the composed key *)
  assert (Hport_ok : req_string_ok entity "port" = true) by (apply Hreqs; in_list).
  assert (Hhost_ok : req_string_ok entity "host" = true) by (apply Hreqs; in_list).
  destruct (req_string_attr entity "port" Hport_ok) as [ps Hps].
  match type of HR with
  | context [bind (set_config_host _ _) _ (mkWorld ?c ?h _ ?msg ?lg)] =>
      match goal with
      | HO : cowns _ h c ?T |- _ =>
          assert (Hport : T f_port = Text ps)
            by (cbv beta delta [tupd upd str_member_beq] iota; now rewrite Hps);
          destruct (step_host NDEBUG h0 (B := bool) entity h c T ps msg lg HO Hport Hhost_ok)
            as (hs & vh & vhp & hh & Hhs & HOh & Heq);
          rewrite Heq in HR; clear Heq HO Hport
      end
  end.
  repeat (first [ run_pure HR | run_if_num HR ]; try sync HR).
  assert (Hstrip_ok : opt_string_ok entity "stripAnnotations" = true)
    by (apply Hstrs; in_list).
  (* the incoming capacity and its warning *)
  destruct (incoming_capacity sizeof_size_t _ _) as [capacity truncated] eqn:Hcap in HR.
  run_pure HR. sync HR.
  match goal with
  | HO : cowns _ _ _ ?T |- _ =>
      assert (Hset : forall m, is_set (T m) = true)
        by (intros m; destruct m;
            cbv beta delta [tupd upd str_member_beq] iota;
            rewrite ?is_set_residue; first [reflexivity | apply is_set_slot_of])
  end.
  destruct truncated as [computed|].
  - repeat (first [ run_pure HR
                  | match goal with
                    | HO : cowns _ _ _ _ |- _ =>
                        erewrite run_read_opt in HR
                          by (apply (cowns_text _ _ _ _ _ HO); apply Hset)
                    end ]; try sync HR).
    finish_attributes HR NDEBUG Hstrip_ok Hstrip.
    match goal with HO : cowns _ _ _ _ |- _ => settings_facts HO Hset Hcap Hhs Hps end.
  - repeat (first [ run_pure HR ]; try sync HR).
    finish_attributes HR NDEBUG Hstrip_ok Hstrip.
    match goal with HO : cowns _ _ _ _ |- _ => settings_facts HO Hset Hcap Hhs Hps end.
Qed.

End Attributes.

Lemma set_flag_other m v c m' :
  m' <> m -> flags (set_flag m v c) m' = flags c m'.
Proof.
  intros Hne. cbn [flags set_flag].
  destruct (flag_member_beq m' m) eqn:E; [|reflexivity].
  apply internal_flag_member_dec_bl in E. contradiction.
Qed.

Section Blocks.

Variable h0 : heap_t.
Variable cm : qd_connection_manager_t.
Hypothesis registry : registry_ok h0 cm = true.

(** What the TLS block leaves of the numbers and the flags. *)
Lemma ssl_block_frame r h c T msg lg w' :
  cowns h0 h c T -> (forall m, is_set (T m) = true) ->
  load_ssl_profile cm r (mkWorld c h QD_ERROR_NONE msg lg) = Done (Next tt, w') ->
  nums (locals w') = nums c /\
  (forall m, m <> f_ssl_required -> m <> f_ssl_require_peer_authentication ->
             flags (locals w') m = flags c m) /\
  flags (locals w') f_ssl_required
  = match T f_ssl_profile with Text _ => r | _ => flags c f_ssl_required end /\
  flags (locals w') f_ssl_require_peer_authentication
  = match T f_ssl_profile with
    | Text _ => match slot_text (T f_sasl_mechanisms) with
                | Some s => mentions_external s
                | None => false
                end
    | _ => flags c f_ssl_require_peer_authentication
    end.
Proof.
  intros HO Hset Hrun.
  remember (load_ssl_profile cm r (mkWorld c h QD_ERROR_NONE msg lg)) as R eqn:HR.
  unfold load_ssl_profile in HR. rewrite run_member_str in HR.
  destruct (T f_ssl_profile) as [| |nm] eqn:ET.
  - specialize (Hset f_ssl_profile). rewrite ET in Hset. discriminate.
  - rewrite (cowns_null _ _ _ _ _ HO ET) in HR. cbn [is_null] in HR.
    rewrite HR in Hrun. injection Hrun as <-. cbn [locals]. repeat split; reflexivity.
  - destruct (cowns_ptr _ _ _ _ _ _ HO ET) as (a & Ha & Hge & Hread).
    rewrite Ha in HR. cbn [is_null] in HR.
    run_pure HR. sync HR. run_pure HR.
    erewrite run_read_opt in HR by (apply (cowns_text _ _ _ _ _ HO0); apply Hset).
    run_pure HR. sync HR.
    erewrite (find_ssl_run h0 cm registry) in HR
      by first [ eassumption | cbn [text_at]; rewrite Hread; reflexivity ].
    destruct (ssl_profile_named h0 (config_ssl_profiles cm) nm) as [p|] eqn:Ef.
    + match type of HR with
      | _ = _ (mkWorld ?c1 _ _ _ _) =>
          destruct (copy_tls_run h0 p h c1 T QD_ERROR_NONE msg lg HO)
            as (c' & h' & Hrun' & _ & Hn & Hf)
      end.
      { intros pm. apply (registry_ssl h0 cm registry).
        eapply ssl_profile_named_in. eassumption. }
      cbv beta iota in HR. rewrite Hrun' in HR.
      rewrite HR in Hrun. injection Hrun as <-. cbn [locals].
      rewrite Hn, Hf. split; [reflexivity|]. split; [|split; reflexivity].
      intros m H1 H2. now rewrite !set_flag_other by assumption.
    + cbv beta iota in HR. rewrite HR in Hrun. injection Hrun as <-. cbn [locals].
      split; [reflexivity|]. split; [|split; reflexivity].
      intros m H1 H2. now rewrite !set_flag_other by assumption.
Qed.

(** What the auth block leaves of the numbers and the flags. *)
Lemma sasl_block_frame h c T msg lg w' :
  cowns h0 h c T -> (forall m, is_set (T m) = true) ->
  load_sasl_plugin cm (mkWorld c h QD_ERROR_NONE msg lg) = Done (Next tt, w') ->
  nums (locals w') = nums c /\
  (forall m, m <> spc_use_ssl -> flags (locals w') m = flags c m).
Proof.
  intros HO Hset Hrun.
  destruct (T f_sasl_plugin) as [| |nm] eqn:ET.
  - specialize (Hset f_sasl_plugin). rewrite ET in Hset. discriminate.
  - rewrite (sasl_block_none h0 cm _ _ _ _ _ _ HO ET) in Hrun.
    injection Hrun as <-. split; [reflexivity | intros; reflexivity].
  - destruct (sasl_plugin_named h0 (config_sasl_plugins cm) nm) as [plg|] eqn:Hfound.
    2:{ rewrite (sasl_block_missing h0 cm registry _ _ _ _ _ _ HO ET Hfound) in Hrun.
        discriminate. }
    pose proof (sasl_plugin_named_in _ _ _ _ Hfound) as Hin.
    destruct (registry_sasl h0 cm registry plg Hin) as (Hn & Hsvc & Hinit & Hauth).
    remember (load_sasl_plugin cm (mkWorld c h QD_ERROR_NONE msg lg)) as R eqn:HR.
    unfold load_sasl_plugin in HR. rewrite run_member_str in HR.
    destruct (cowns_ptr _ _ _ _ _ _ HO ET) as (a & Ha & Hge & Hread).
    rewrite Ha in HR. cbn [is_null] in HR.
    erewrite (find_sasl_run h0 cm registry) in HR
      by first [ eassumption | cbn [text_at]; rewrite Hread; reflexivity ].
    rewrite Hfound in HR. cbv beta iota in HR.
    run_copy HR Hsvc. run_copy HR Hinit.
    match goal with HOp : cowns _ _ _ (tupd _ _ _) |- _ => rename HOp into HO1 end.
    fold (plugin_slots h0 plg T) in HO1.
    assert (Hset1 : forall m, is_set (plugin_slots h0 plg T m) = true).
    { intros m. unfold plugin_slots.
      repeat apply is_set_tupd; first [apply is_set_slot_of | apply Hset]. }
    run_pure HR.
    pose proof (cowns_text _ _ _ _ spc_auth_service HO1 (Hset1 _)) as Hservice.
    change (plugin_slots h0 plg T spc_auth_service)
      with (slot_of (old_text h0 (auth_service plg))) in Hservice.
    rewrite slot_text_slot_of in Hservice.
    cbn [strs set_str str_member_beq] in Hservice.
    erewrite run_read_opt in HR by exact Hservice.
    pose proof (cowns_text _ _ _ _ f_sasl_plugin HO1 (Hset1 _)) as Hname.
    change (plugin_slots h0 plg T f_sasl_plugin) with (T f_sasl_plugin) in Hname.
    rewrite ET in Hname.
    cbn [strs set_str str_member_beq slot_text] in Hname. rewrite Ha in Hname.
    erewrite run_read_opt in HR by exact Hname.
    run_pure HR.
    pose proof (valid_text _ _ Hauth) as Htext.
    destruct (old_text h0 (auth_ssl_profile plg)) as [pn|] eqn:Eo.
    + rewrite (text_some_not_null _ _ _ Htext) in HR.
      run_pure HR. sync HR.
      erewrite (find_ssl_run h0 cm registry) in HR
        by first [ eassumption
                 | erewrite cowns_old_text by eassumption; now rewrite Eo ].
      destruct (ssl_profile_named h0 (config_ssl_profiles cm) pn) as [ap|] eqn:Ef.
      * match type of HR with
        | _ = _ (mkWorld ?c1 ?h1 _ _ ?lg1) =>
            destruct (copy_auth_tls_run h0 ap h1 c1 (plugin_slots h0 plg T)
                                        QD_ERROR_NONE msg lg1)
              as (c' & h' & Hrun' & _ & Hnums & Hf)
        end.
        { assumption. }
        { intros pm. apply (registry_ssl h0 cm registry).
          eapply ssl_profile_named_in. eassumption. }
        rewrite Hrun' in HR. rewrite HR in Hrun. injection Hrun as <-. cbn [locals].
        rewrite Hnums, Hf. split; [reflexivity|].
        intros m Hm. now rewrite set_flag_other by assumption.
      * rewrite HR in Hrun. discriminate.
    + rewrite (text_none_null _ _ Htext) in HR. cbn [is_null] in HR.
      rewrite HR in Hrun. injection Hrun as <-. cbn [locals].
      split; [reflexivity|].
      intros m Hm. now rewrite set_flag_other by assumption.
Qed.

End Blocks.

Lemma resolved_texts_ext entity T T' :
  (forall m, In m attribute_members -> T' m = T m) ->
  resolved_texts entity T -> resolved_texts entity T'.
Proof.
  intros Hsame. unfold resolved_texts.
  rewrite !Hsame by (cbn; tauto). exact (fun H => H).
Qed.

Lemma resolved_numbers_ext sizeof_size_t entity is_listener c c' :
  nums c' = nums c ->
  resolved_numbers sizeof_size_t entity is_listener c ->
  resolved_numbers sizeof_size_t entity is_listener c'.
Proof. intros Hsame. unfold resolved_numbers. now rewrite Hsame. Qed.

Lemma resolved_flags_ext entity c c' :
  (forall m, m <> f_ssl_required -> m <> f_ssl_require_peer_authentication ->
             m <> spc_use_ssl -> flags c' m = flags c m) ->
  resolved_flags entity c -> resolved_flags entity c'.
Proof.
  intros Hsame. unfold resolved_flags.
  rewrite !Hsame by discriminate. exact (fun H => H).
Qed.

Lemma attribute_not_tls m :
  In m attribute_members ->
  ~ In m (map fst tls_members) /\ ~ In m (map fst auth_tls_members) /\
  m <> spc_auth_service /\ m <> spc_sasl_init_hostname.
Proof.
  cbn. intros H.
  repeat (destruct H as [<-|H]; [repeat split; try discriminate; intuition discriminate|]).
  destruct H.
Qed.

Section Resolution.

Variable NDEBUG : bool.
Variable sizeof_size_t : Z.
Variable cm : qd_connection_manager_t.
Variable entity : qd_entity_t.
Variable is_listener : bool.
Variable c0 : qd_server_config_t.
Variable h0 : heap_t.
Variable err0 : qd_error_t.
Variable msg0 : string.
Variable lg0 : list log_entry.
Hypothesis entity_valid : valid_server_entity NDEBUG entity is_listener = true.
Hypothesis registry : registry_ok h0 cm = true.

(** Where the auth block ends without an error the resolution returns
    success, and the configuration holds what the attributes say. *)
Lemma resolution_settings :
  auth_plugin_resolves h0 cm entity = true ->
  exists c h lg T,
    load_server_config NDEBUG sizeof_size_t cm entity is_listener
                       (mkWorld c0 h0 err0 msg0 lg0)
    = Done (Next QD_ERROR_NONE, mkWorld c h QD_ERROR_NONE "" lg) /\
    cowns h0 h c T /\
    (forall m, is_set (T m) = true) /\
    (resolved_texts entity T /\
     resolved_numbers sizeof_size_t entity is_listener c /\
     resolved_flags entity c /\
     resolved_tls_flags entity c) /\
    exists extra,
      lg = ((lg0 ++ attribute_notices entity) ++ capacity_warnings sizeof_size_t entity)
           ++ extra /\
      forall e, In e extra -> level e = QD_LOG_INFO.
Proof.
  intros Hres.
  destruct (load_attributes_settings NDEBUG sizeof_size_t entity is_listener entity_valid
                                     c0 h0 err0 msg0 lg0)
    as (c1 & h1 & lg1 & T1 & Hattrs & HO1 & Hset1 & Hnull & Htexts & Hnums & Hflags
        & Hf1 & Hf2 & Hf3 & Hlog1).
  destruct (ssl_block h0 cm registry (bool_attr entity "requireSsl" false)
                      h1 c1 T1 "" lg1 HO1 Hset1)
    as (c2 & h2 & Hssl & HO2 & _).
  destruct (ssl_block_frame h0 cm registry _ _ _ _ _ _ _ HO1 Hset1 Hssl)
    as (Hn2 & Hfr2 & Hs1 & Hs2).
  cbn [locals] in Hn2, Hfr2, Hs1, Hs2.
  pose proof (ssl_slots_is_set h0 cm T1 Hset1) as Hset2.
  assert (Hplug : ssl_slots h0 cm T1 f_sasl_plugin = slot_of (string_attr entity "saslPlugin")).
  { rewrite ssl_slots_other by (cbn; intuition discriminate). apply Htexts. }
  assert (Htls2 : resolved_tls_flags entity c2).
  { unfold resolved_tls_flags, has_text. rewrite Hs1, Hs2.
    replace (T1 f_ssl_profile) with (slot_of (string_attr entity "sslProfile"))
      by (symmetry; apply Htexts).
    replace (T1 f_sasl_mechanisms) with (slot_of (string_attr entity "saslMechanisms"))
      by (symmetry; apply Htexts).
    rewrite slot_text_slot_of.
    destruct (string_attr entity "sslProfile"); cbn [slot_of andb]; split;
      first [reflexivity | assumption]. }
  assert (Hfinish : forall c T,
             nums c = nums c2 ->
             (forall m, m <> spc_use_ssl -> flags c m = flags c2 m) ->
             (forall m, In m attribute_members -> T m = ssl_slots h0 cm T1 m) ->
             resolved_texts entity T /\
             resolved_numbers sizeof_size_t entity is_listener c /\
             resolved_flags entity c /\
             resolved_tls_flags entity c).
  { intros c T Hn Hf HT. split; [|split; [|split]].
    - apply (resolved_texts_ext entity T1); [|exact Htexts].
      intros m Hin. rewrite (HT m Hin).
      apply ssl_slots_other. now apply attribute_not_tls.
    - apply (resolved_numbers_ext _ _ _ c1); [|exact Hnums]. now rewrite Hn.
    - apply (resolved_flags_ext entity c1); [|exact Hflags].
      intros m H1 H2 H3. rewrite Hf by assumption. now apply Hfr2.
    - unfold resolved_tls_flags. rewrite !Hf by discriminate. exact Htls2. }
  unfold load_server_config, on_error.
  erewrite run_bind by exact Hattrs. erewrite run_bind by exact Hssl.
  unfold auth_plugin_resolves in Hres.
  destruct (string_attr entity "saslPlugin") as [nm|]; cbn [slot_of] in Hplug.
  - destruct (sasl_plugin_named h0 (config_sasl_plugins cm) nm) as [plg|] eqn:Hfound;
      [|discriminate].
    pose proof (sasl_block_found h0 cm registry h2 c2 _ "" lg1 nm plg HO2 Hset2 Hplug Hfound)
      as Hblock.
    assert (Hset3 : forall m, is_set (plugin_slots h0 plg (ssl_slots h0 cm T1) m) = true).
    { intros m. unfold plugin_slots.
      repeat apply is_set_tupd; first [apply is_set_slot_of | apply Hset2]. }
    destruct (old_text h0 (auth_ssl_profile plg)) as [pn|].
    + destruct (ssl_profile_named h0 (config_ssl_profiles cm) pn) as [ap|]; [|discriminate].
      destruct Hblock as (c & h & Hrun & HO & _).
      destruct (sasl_block_frame h0 cm registry _ _ _ _ _ _ HO2 Hset2 Hrun) as (Hn & Hf).
      erewrite run_bind by exact Hrun.
      exists c, h. eexists. eexists.
      split; [reflexivity|]. split; [exact HO|].
      split; [now apply copied_is_set|].
      split; [|exists [plugin_log h0 plg nm]; split;
                [now rewrite Hlog1 | intros e [<-|[]]; reflexivity]].
      apply (Hfinish c); [exact Hn | exact Hf |].
      intros m Hin. destruct (attribute_not_tls m Hin) as (_ & Hna & Hp1 & Hp2).
      rewrite copied_other by exact Hna. now apply plugin_slots_other.
    + destruct Hblock as (c & h & Hrun & HO & _).
      destruct (sasl_block_frame h0 cm registry _ _ _ _ _ _ HO2 Hset2 Hrun) as (Hn & Hf).
      erewrite run_bind by exact Hrun.
      exists c, h. eexists. eexists.
      split; [reflexivity|]. split; [exact HO|].
      split; [exact Hset3|].
      split; [|exists [plugin_log h0 plg nm]; split;
                [now rewrite Hlog1 | intros e [<-|[]]; reflexivity]].
      apply (Hfinish c); [exact Hn | exact Hf |].
      intros m Hin. destruct (attribute_not_tls m Hin) as (_ & Hna & Hp1 & Hp2).
      now apply plugin_slots_other.
  - exists c2, h2, lg1, (ssl_slots h0 cm T1).
    erewrite run_bind by (apply (sasl_block_none h0 cm _ _ _ _ _ _ HO2 Hplug)).
    split; [reflexivity|]. split; [exact HO2|]. split; [exact Hset2|].
    split; [|exists []; split; [now rewrite app_nil_r | intros e []]].
    apply (Hfinish c2); [reflexivity | reflexivity | reflexivity].
Qed.

End Resolution.

End SettingsFacts.
(** ** What a resolved endpoint holds, and what its release leaves *)

Module ReleaseFacts.
Import Ownership Settings HeapFacts RunFacts ResolveFacts ProfileFacts BlockFacts.

(** The release of the members [ms]: the blocks of these members are
    released, the other blocks are as they were. *)
Lemma free_members_released ms :
  NoDup ms -> forall h c err msg lg,
  (forall m1 m2 a, strs c m1 = Ptr a -> strs c m2 = Ptr a -> m1 = m2) ->
  (forall m, In m ms -> text_at h (strs c m) <> None) ->
  exists h',
    free_members ms (mkWorld c h err msg lg) = Done (Next tt, mkWorld c h' err msg lg) /\
    (forall a, (forall m, In m ms -> strs c m <> Ptr a) -> nth_error h' a = nth_error h a) /\
    (forall m a, In m ms -> strs c m = Ptr a -> heap_read h' a = None).
Proof.
  induction 1 as [|m ms Hnotin Hnd IH]; intros h c err msg lg Hinj Hlive.
  - exists h. split; [reflexivity|]. split; [reflexivity|]. intros m a [].
  - cbn [free_members]. rewrite run_member_str.
    pose proof (Hlive m (or_introl eq_refl)) as Hm.
    destruct (strs c m) as [|a|] eqn:Em.
    + rewrite run_free_null.
      destruct (IH h c err msg lg Hinj) as (h' & Hrun & Hframe & Hgone).
      { intros m' Hin. apply Hlive. now right. }
      exists h'. split; [exact Hrun|]. split.
      * intros a Ha. apply Hframe. intros m' Hin. apply Ha. now right.
      * intros m' a [<-|Hin] Hp; [congruence | now apply (Hgone m')].
    + cbn [text_at] in Hm. destruct (heap_read h a) as [s|] eqn:Hr; [|now contradiction Hm].
      erewrite run_free by exact Hr.
      destruct (IH (heap_write h a None) c err msg lg Hinj) as (h' & Hrun & Hframe & Hgone).
      { intros m' Hin. pose proof (Hlive m' (or_intror Hin)) as Hm'.
        destruct (strs c m') as [|a'|] eqn:Em'; try assumption.
        cbn [text_at] in *. rewrite heap_read_write_other; [assumption|].
        intros <-. apply Hnotin. now rewrite (Hinj m m' a Em Em'). }
      exists h'. split; [exact Hrun|]. split.
      * intros b Hb. rewrite Hframe by (intros m' Hin; apply Hb; now right).
        rewrite nth_error_heap_write.
        destruct (Nat.eqb b a) eqn:E; [|reflexivity].
        apply Nat.eqb_eq in E. subst b. exfalso. apply (Hb m); [now left | assumption].
      * intros m' b [<-|Hin] Hp; [|now apply (Hgone m')].
        assert (b = a) by congruence. subst b.
        unfold heap_read. rewrite Hframe.
        -- rewrite nth_error_heap_write, Nat.eqb_refl. now destruct (nth_error h a).
        -- intros m' Hin Hp'. apply Hnotin. now rewrite (Hinj m m' a Em Hp').
    + now contradiction Hm.
Qed.

Lemma freed_all_but_plugin m : m <> f_sasl_plugin -> In m freed_members.
Proof. intros Hm. destruct m; cbn; tauto. Qed.

Lemma plugin_not_freed : ~ In f_sasl_plugin freed_members.
Proof. cbn. intuition discriminate. Qed.

(** qd_server_config_free on a configuration that owns its blocks. *)
Lemma config_free_run h0 h c T err msg lg :
  cowns h0 h c T -> (forall m, is_set (T m) = true) ->
  exists h',
    qd_server_config_free (mkWorld c h err msg lg)
    = Done (Next tt, mkWorld config_zero h' err msg lg) /\
    (forall a, (a < List.length h0)%nat -> nth_error h' a = nth_error h0 a) /\
    (forall m a, m <> f_sasl_plugin -> strs c m = Ptr a -> heap_read h' a = None) /\
    (forall a, strs c f_sasl_plugin = Ptr a -> heap_read h' a = heap_read h a).
Proof.
  intros HO Hset.
  destruct (free_members_released freed_members NoDup_freed_members h c err msg lg)
    as (h' & Hrun & Hframe & Hgone).
  - apply (owns_inj _ _ _ _ HO).
  - intros m _. rewrite (cowns_text _ _ _ _ _ HO (Hset m)). discriminate.
  - exists h'. split; [|split; [|split]].
    + unfold qd_server_config_free. erewrite run_bind by exact Hrun. reflexivity.
    + intros a Ha. rewrite Hframe; [now apply (owns_old _ _ _ _ HO)|].
      intros m _ Hm. pose proof (owns_txt _ _ _ _ HO m) as Hs. rewrite Hm in Hs.
      unfold slot_ok in Hs. destruct (T m); try contradiction. lia.
    + intros m a Hm. apply Hgone. now apply freed_all_but_plugin.
    + intros a Ha. unfold heap_read. rewrite Hframe; [reflexivity|].
      intros m Hin Hm. apply plugin_not_freed.
      now rewrite (owns_inj _ _ _ _ HO f_sasl_plugin m a Ha Hm).
Qed.

(** A second release: the configuration is zeroed, nothing is
    released again. *)
Lemma config_free_zeroed h err msg lg :
  qd_server_config_free (mkWorld config_zero h err msg lg)
  = Done (Next tt, mkWorld config_zero h err msg lg).
Proof. reflexivity. Qed.

Lemma to_uint32_range z : 0 <= to_uint32 z < 2 ^ 32.
Proof. unfold to_uint32. apply Z.mod_pos_bound. lia. Qed.

End ReleaseFacts.

Import Ownership Settings HeapFacts RunFacts ResolveFacts ProfileFacts BlockFacts.
Import ResolutionFacts SettingsFacts ReleaseFacts.

(** X6: on a well-formed endpoint description whose auth plugin
    resolves, load_server_config returns QD_ERROR_NONE with the numbers
    of the configuration as the attributes give them: the cost with
    default 1, the frame size raised to 512 at least, the session count
    with 0 and anything above 32768 replaced by 32768, the link
    capacity with 0 replaced by 250, the handshake timeout read for a
    listener only.  So the frame size is an unsigned 32-bit value of
    512 at least, the session count is between 1 and 32768, and the
    link capacity is never 0. *)
Theorem X6_resolved_numbers NDEBUG sizeof_size_t cm entity is_listener c0 h0 err0 msg0 lg0 :
  valid_server_entity NDEBUG entity is_listener = true ->
  registry_ok h0 cm = true ->
  auth_plugin_resolves h0 cm entity = true ->
  exists w,
    load_server_config NDEBUG sizeof_size_t cm entity is_listener (mkWorld c0 h0 err0 msg0 lg0)
    = Done (Next QD_ERROR_NONE, w) /\
    resolved_numbers sizeof_size_t entity is_listener (locals w) /\
    512 <= nums (locals w) f_max_frame_size < 2 ^ 32 /\
    1 <= nums (locals w) f_max_sessions <= 32768 /\
    nums (locals w) f_link_capacity <> 0.
Proof.
  intros Hvalid Hreg Hres.
  destruct (resolution_settings NDEBUG sizeof_size_t cm entity is_listener
                                c0 h0 err0 msg0 lg0 Hvalid Hreg Hres)
    as (c & h & lg & T & Hrun & _ & _ & (_ & Hnums & _) & _).
  eexists. split; [exact Hrun|]. cbn [locals]. split; [exact Hnums|].
  destruct Hnums as (_ & _ & Hmfs & Hms & _ & _ & Hlc & _).
  rewrite Hmfs, Hms, Hlc.
  unfold promoted_frame_size, max_sessions_of, link_capacity_of, QD_AMQP_MIN_MAX_FRAME_SIZE.
  pose proof (to_uint32_range (long_attr entity "maxFrameSize" 0)) as Hf.
  pose proof (to_uint32_range (long_attr entity "maxSessions" 0)) as Hs.
  split; [|split].
  - destruct (Z.ltb_spec (to_uint32 (long_attr entity "maxFrameSize" 0)) 512); lia.
  - destruct (Z.eqb_spec (to_uint32 (long_attr entity "maxSessions" 0)) 0);
      destruct (Z.ltb_spec 32768 (to_uint32 (long_attr entity "maxSessions" 0)));
      cbn [orb]; lia.
  - destruct (Z.eqb_spec (to_int32 (long_attr entity "linkCapacity" 0)) 0); lia.
Qed.

Lemma X6_resolved_numbers_witness :
  exists w,
    load_server_config false 8 example_registry tls_entity false (example_world example_heap)
    = Done (Next QD_ERROR_NONE, w) /\
    nums (locals w) f_max_sessions = 32768 /\
    nums (locals w) f_link_capacity = 250 /\
    nums (locals w) f_inter_router_cost = 1.
Proof.
  destruct (X6_resolved_numbers false 8 example_registry tls_entity false
              config_zero example_heap QD_ERROR_NONE "" [] eq_refl eq_refl eq_refl)
    as (w & Hrun & Hnums & _).
  exists w. split; [exact Hrun|].
  destruct Hnums as (_ & Hcost & _ & Hms & _ & _ & Hlc & _).
  rewrite Hcost, Hms, Hlc. repeat split.
Defined.

(** X7: on the same inputs the flags of the returned configuration are
    these.  allowInsecureAuthentication is set whatever the entity
    says; requireAuthentication is authenticatePeer; requireEncryption
    is requireEncryption or requireSsl; http is set by the http
    attribute or by the presence of httpRootDir.  ssl_required is
    requireSsl where a TLS profile is named, registered or not, and
    false where none is named; peer authentication is required where a
    TLS profile is named and saslMechanisms mentions EXTERNAL.  So a
    configuration that requires TLS requires encryption. *)
Theorem X7_resolved_flags NDEBUG sizeof_size_t cm entity is_listener c0 h0 err0 msg0 lg0 :
  valid_server_entity NDEBUG entity is_listener = true ->
  registry_ok h0 cm = true ->
  auth_plugin_resolves h0 cm entity = true ->
  exists w,
    load_server_config NDEBUG sizeof_size_t cm entity is_listener (mkWorld c0 h0 err0 msg0 lg0)
    = Done (Next QD_ERROR_NONE, w) /\
    resolved_flags entity (locals w) /\
    resolved_tls_flags entity (locals w) /\
    (flags (locals w) f_ssl_required = true ->
     flags (locals w) f_requireEncryption = true).
Proof.
  intros Hvalid Hreg Hres.
  destruct (resolution_settings NDEBUG sizeof_size_t cm entity is_listener
                                c0 h0 err0 msg0 lg0 Hvalid Hreg Hres)
    as (c & h & lg & T & Hrun & _ & _ & (_ & _ & Hflags & Htls) & _).
  eexists. split; [exact Hrun|]. cbn [locals].
  split; [exact Hflags|]. split; [exact Htls|].
  destruct Hflags as (_ & _ & _ & _ & _ & _ & Henc). destruct Htls as (Hreq & _).
  rewrite Hreq, Henc. intros H. apply andb_true_iff in H as [_ ->]. apply orb_true_r.
Qed.

Lemma X7_resolved_flags_witness :
  exists w,
    load_server_config false 8 example_registry tls_entity false (example_world example_heap)
    = Done (Next QD_ERROR_NONE, w) /\
    flags (locals w) f_allowInsecureAuthentication = true /\
    flags (locals w) f_ssl_required = false /\
    flags (locals w) f_metrics = true.
Proof.
  destruct (X7_resolved_flags false 8 example_registry tls_entity false
              config_zero example_heap QD_ERROR_NONE "" [] eq_refl eq_refl eq_refl)
    as (w & Hrun & Hflags & Htls & _).
  exists w. split; [exact Hrun|].
  destruct Hflags as (Hmetrics & _ & _ & Hinsecure & _). destruct Htls as (Hreq & _).
  rewrite Hmetrics, Hinsecure, Hreq. repeat split.
Defined.

(** X8: on the same inputs the text members of the returned
    configuration read as the attributes: each of name, role,
    protocolFamily, httpRootDir, saslUsername, saslPassword,
    saslMechanisms, sslProfile, saslPlugin, host and port holds a copy
    of its attribute, or null where the attribute is absent; host_port
    reads as the host, a colon and the port; the failover list is
    null; and the logging components are left as strtok cut them, not
    as the attribute had them. *)
Theorem X8_resolved_texts NDEBUG sizeof_size_t cm entity is_listener c0 h0 err0 msg0 lg0 :
  valid_server_entity NDEBUG entity is_listener = true ->
  registry_ok h0 cm = true ->
  auth_plugin_resolves h0 cm entity = true ->
  exists w hs ps,
    load_server_config NDEBUG sizeof_size_t cm entity is_listener (mkWorld c0 h0 err0 msg0 lg0)
    = Done (Next QD_ERROR_NONE, w) /\
    string_attr entity "host" = Some hs /\
    string_attr entity "port" = Some ps /\
    text_at (heap w) (strs (locals w) f_host_port) = Some (Some (hs ++ ":" ++ ps)%string) /\
    (forall m attribute, In (m, attribute) attribute_texts ->
       text_at (heap w) (strs (locals w) m) = Some (string_attr entity attribute)) /\
    text_at (heap w) (strs (locals w) f_log_message)
    = Some (logging_residue (string_attr entity "messageLoggingComponents")) /\
    strs (locals w) f_failover_list = NULL.
Proof.
  intros Hvalid Hreg Hres.
  destruct (resolution_settings NDEBUG sizeof_size_t cm entity is_listener
                                c0 h0 err0 msg0 lg0 Hvalid Hreg Hres)
    as (c & h & lg & T & Hrun & HO & Hset & (Htexts & _) & _).
  destruct Htexts as ((hs & ps & Hhs & Hps & Hh & Hp & Hhp) & Hlog & Hname & Hrole & Hfam
                      & Hroot & Huser & Hpass & Hmech & Hssl & Hplug & Hfail).
  exists (mkWorld c h QD_ERROR_NONE "" lg), hs, ps. cbn [locals heap].
  assert (Hread : forall m, text_at h (strs c m) = Some (slot_text (T m)))
    by (intros m; apply (cowns_text _ _ _ _ _ HO), Hset).
  split; [exact Hrun|]. split; [exact Hhs|]. split; [exact Hps|].
  split; [now rewrite Hread, Hhp|]. split; [|split].
  - intros m attribute Hin. rewrite Hread. cbn [In attribute_texts] in Hin.
    repeat (destruct Hin as [[= <- <-]|Hin];
            [first [ rewrite Hname | rewrite Hrole | rewrite Hfam | rewrite Hroot
                   | rewrite Huser | rewrite Hpass | rewrite Hmech | rewrite Hssl
                   | rewrite Hplug | rewrite Hh, Hhs | rewrite Hp, Hps ];
             first [ now rewrite slot_text_slot_of | reflexivity ]|]).
    destruct Hin.
  - rewrite Hread, Hlog. reflexivity.
  - now apply (cowns_null _ _ _ _ _ HO).
Qed.

Lemma X8_resolved_texts_witness :
  exists w,
    load_server_config false 8 example_registry tls_entity false (example_world example_heap)
    = Done (Next QD_ERROR_NONE, w) /\
    text_at (heap w) (strs (locals w) f_host_port) = Some (Some "0.0.0.0:5672"%string) /\
    text_at (heap w) (strs (locals w) f_ssl_profile) = Some (Some "tls"%string) /\
    text_at (heap w) (strs (locals w) f_name) = Some None.
Proof.
  destruct (X8_resolved_texts false 8 example_registry tls_entity false
              config_zero example_heap QD_ERROR_NONE "" [] eq_refl eq_refl eq_refl)
    as (w & hs & ps & Hrun & Hhs & Hps & Hhp & Hattr & _).
  exists w. split; [exact Hrun|].
  injection Hhs as <-. injection Hps as <-.
  split; [exact Hhp|]. split.
  - apply (Hattr f_ssl_profile "sslProfile"%string). cbn. tauto.
  - apply (Hattr f_name "name"%string). cbn. tauto.
Defined.

(** X9: on the same inputs the text members of the returned
    configuration own their storage: no member is left uninitialised,
    a member that is not null points to a live block the call itself
    allocated, no two members point to the same block, and every block
    of the heap on entry is as it was.  So the configuration shares
    nothing with the entity, the registered profiles or the
    registered plugins. *)
Theorem X9_members_own_their_blocks NDEBUG sizeof_size_t cm entity is_listener
    c0 h0 err0 msg0 lg0 :
  valid_server_entity NDEBUG entity is_listener = true ->
  registry_ok h0 cm = true ->
  auth_plugin_resolves h0 cm entity = true ->
  exists w,
    load_server_config NDEBUG sizeof_size_t cm entity is_listener (mkWorld c0 h0 err0 msg0 lg0)
    = Done (Next QD_ERROR_NONE, w) /\
    (forall m, strs (locals w) m <> Indeterminate) /\
    (forall m a, strs (locals w) m = Ptr a ->
       (List.length h0 <= a)%nat /\ heap_read (heap w) a <> None) /\
    (forall m1 m2 a,
       strs (locals w) m1 = Ptr a -> strs (locals w) m2 = Ptr a -> m1 = m2) /\
    (forall a, (a < List.length h0)%nat -> nth_error (heap w) a = nth_error h0 a).
Proof.
  intros Hvalid Hreg Hres.
  destruct (resolution_settings NDEBUG sizeof_size_t cm entity is_listener
                                c0 h0 err0 msg0 lg0 Hvalid Hreg Hres)
    as (c & h & lg & T & Hrun & HO & Hset & _).
  eexists. split; [exact Hrun|]. cbn [locals heap].
  assert (Hslot : forall m, slot_ok h0 h (strs c m) (T m)) by apply (owns_txt _ _ _ _ HO).
  split; [|split; [|split]].
  - intros m Hm. specialize (Hslot m). specialize (Hset m). rewrite Hm in Hslot.
    unfold slot_ok in Hslot. destruct (T m); [discriminate | contradiction | contradiction].
  - intros m a Hm. specialize (Hslot m). rewrite Hm in Hslot.
    unfold slot_ok in Hslot. destruct (T m); try contradiction.
    destruct Hslot as [Hge Hr]. split; [exact Hge | now rewrite Hr].
  - apply (owns_inj _ _ _ _ HO).
  - apply (owns_old _ _ _ _ HO).
Qed.

Lemma X9_members_own_their_blocks_witness :
  exists w,
    load_server_config false 8 example_registry tls_entity false (example_world example_heap)
    = Done (Next QD_ERROR_NONE, w) /\
    strs (locals w) f_ssl_certificate_file <> strs (locals w) f_ssl_private_key_file /\
    heap_read (heap w) 1 = Some "cert.pem"%string.
Proof.
  destruct (X9_members_own_their_blocks false 8 example_registry tls_entity false
              config_zero example_heap QD_ERROR_NONE "" [] eq_refl eq_refl eq_refl)
    as (w & Hrun & _ & _ & Hinj & Hold).
  exists w. split; [exact Hrun|]. split.
  - intros Heq.
    destruct (strs (locals w) f_ssl_certificate_file) as [|a|] eqn:E.
    + unfold example_world in Hrun. vm_compute in Hrun. injection Hrun as <-.
      vm_compute in E. discriminate.
    + assert (Hm : f_ssl_certificate_file = f_ssl_private_key_file)
        by (apply (Hinj _ _ a); [exact E | now rewrite <- Heq]).
      discriminate.
    + unfold example_world in Hrun. vm_compute in Hrun. injection Hrun as <-.
      vm_compute in E. discriminate.
  - unfold heap_read. rewrite Hold by (cbn; lia). reflexivity.
Defined.

(** X10: qd_server_config_free, run on the configuration that
    load_server_config returned, ends with the configuration zeroed and
    the block of every text member released, but for one: the member
    sasl_plugin is not among those it frees, so where the endpoint
    names an auth plugin the block that holds the name stays allocated
    with nothing left that points to it.  The blocks of the heap on
    entry are as they were. *)
Theorem X10_release_leaves_plugin_name NDEBUG sizeof_size_t cm entity is_listener
    c0 h0 err0 msg0 lg0 :
  valid_server_entity NDEBUG entity is_listener = true ->
  registry_ok h0 cm = true ->
  auth_plugin_resolves h0 cm entity = true ->
  exists w w',
    load_server_config NDEBUG sizeof_size_t cm entity is_listener (mkWorld c0 h0 err0 msg0 lg0)
    = Done (Next QD_ERROR_NONE, w) /\
    qd_server_config_free w = Done (Next tt, w') /\
    locals w' = config_zero /\
    (forall m a, m <> f_sasl_plugin -> strs (locals w) m = Ptr a ->
       heap_read (heap w') a = None) /\
    (forall nm, string_attr entity "saslPlugin" = Some nm ->
       exists a, strs (locals w) f_sasl_plugin = Ptr a /\ (List.length h0 <= a)%nat /\
                 heap_read (heap w') a = Some nm) /\
    (forall a, (a < List.length h0)%nat -> nth_error (heap w') a = nth_error h0 a).
Proof.
  intros Hvalid Hreg Hres.
  destruct (resolution_settings NDEBUG sizeof_size_t cm entity is_listener
                                c0 h0 err0 msg0 lg0 Hvalid Hreg Hres)
    as (c & h & lg & T & Hrun & HO & Hset & (Htexts & _) & _).
  destruct (config_free_run h0 h c T QD_ERROR_NONE "" lg HO Hset)
    as (h' & Hfree & Hold & Hgone & Hleft).
  eexists. eexists. split; [exact Hrun|]. split; [exact Hfree|]. cbn [locals heap].
  split; [reflexivity|]. split; [exact Hgone|]. split; [|exact Hold].
  intros nm Hattr.
  destruct Htexts as (_ & _ & _ & _ & _ & _ & _ & _ & _ & _ & Hplug & _).
  rewrite Hattr in Hplug. cbn [slot_of] in Hplug.
  destruct (cowns_ptr _ _ _ _ _ _ HO Hplug) as (a & Ha & Hge & Hr).
  exists a. split; [exact Ha|]. split; [exact Hge|]. now rewrite (Hleft a Ha).
Qed.

Lemma X10_release_leaves_plugin_name_witness :
  exists w w' a,
    load_server_config false 8 example_registry auth_entity false (example_world example_heap)
    = Done (Next QD_ERROR_NONE, w) /\
    qd_server_config_free w = Done (Next tt, w') /\
    locals w' = config_zero /\
    (List.length example_heap <= a)%nat /\
    heap_read (heap w') a = Some "auth"%string.
Proof.
  destruct (X10_release_leaves_plugin_name false 8 example_registry auth_entity false
              config_zero example_heap QD_ERROR_NONE "" [] eq_refl eq_refl eq_refl)
    as (w & w' & Hrun & Hfree & Hzero & _ & Hleak & _).
  destruct (Hleak "auth"%string eq_refl) as (a & _ & Hge & Hr).
  exists w, w', a. repeat split; assumption.
Defined.

(** X11: the same on the error path.  Where the endpoint names an
    auth plugin that is not registered, load_server_config returns
    QD_ERROR_RUNTIME with the configuration zeroed, and the copy of the
    plugin's name that the call allocated is still allocated on
    return. *)
Theorem X11_failure_leaves_plugin_name NDEBUG sizeof_size_t cm entity is_listener
    c0 h0 err0 msg0 lg0 nm :
  valid_server_entity NDEBUG entity is_listener = true ->
  registry_ok h0 cm = true ->
  string_attr entity "saslPlugin" = Some nm ->
  sasl_plugin_named h0 (config_sasl_plugins cm) nm = None ->
  exists w a,
    load_server_config NDEBUG sizeof_size_t cm entity is_listener (mkWorld c0 h0 err0 msg0 lg0)
    = Done (Next QD_ERROR_RUNTIME, w) /\
    locals w = config_zero /\
    (List.length h0 <= a)%nat /\
    heap_read (heap w) a = Some nm.
Proof.
  intros Hvalid Hreg Hattr Hnone.
  destruct (through_tls_block NDEBUG sizeof_size_t cm entity is_listener
                              c0 h0 err0 msg0 lg0 Hvalid Hreg)
    as (c1 & h1 & lg1 & T1 & c2 & h2 & Hattrs & Hssl & HO2 & Hset2 & Hplug & _).
  rewrite Hattr in Hplug. cbn [slot_of] in Hplug.
  destruct (config_free_run h0 h2 c2 _ QD_ERROR_RUNTIME ("Cannot find sasl plugin " ++ nm) lg1
                            HO2 Hset2)
    as (h' & Hfree & _ & _ & Hleft).
  destruct (cowns_ptr _ _ _ _ _ _ HO2 Hplug) as (a & Ha & Hge & Hr).
  exists (mkWorld config_zero h' QD_ERROR_RUNTIME ("Cannot find sasl plugin " ++ nm) lg1), a.
  cbn [locals heap]. split; [|split; [reflexivity|split; [exact Hge|]]].
  - unfold load_server_config, on_error.
    erewrite run_bind by exact Hattrs. erewrite run_bind by exact Hssl.
    erewrite run_bind_jump
      by (apply (sasl_block_missing h0 cm Hreg _ _ _ _ _ _ HO2 Hplug Hnone)).
    erewrite run_bind by exact Hfree. reflexivity.
  - now rewrite (Hleft a Ha).
Qed.

Lemma X11_failure_leaves_plugin_name_witness :
  exists w a,
    load_server_config false 8 empty_manager lost_auth_entity false (example_world [])
    = Done (Next QD_ERROR_RUNTIME, w) /\
    locals w = config_zero /\
    heap_read (heap w) a = Some "nope"%string.
Proof.
  destruct (X11_failure_leaves_plugin_name false 8 empty_manager lost_auth_entity false
              config_zero [] QD_ERROR_NONE "" [] "nope"%string
              eq_refl eq_refl eq_refl eq_refl)
    as (w & a & Hrun & Hzero & _ & Hr).
  exists w, a. repeat split; assumption.
Defined.

(** X28: a configuration can be released twice.
    qd_server_config_free ends by zeroing the configuration, so a
    second call on the same object frees nothing and changes nothing:
    after a successful load_server_config and a release, and after a
    failed load_server_config, whose error path has released the
    configuration already, the release that the owner of the object
    makes is safe. *)
Theorem X28_release_twice NDEBUG sizeof_size_t cm entity is_listener c0 h0 err0 msg0 lg0 :
  valid_server_entity NDEBUG entity is_listener = true ->
  registry_ok h0 cm = true ->
  (auth_plugin_resolves h0 cm entity = true ->
   exists w w',
     load_server_config NDEBUG sizeof_size_t cm entity is_listener
                        (mkWorld c0 h0 err0 msg0 lg0)
     = Done (Next QD_ERROR_NONE, w) /\
     qd_server_config_free w = Done (Next tt, w') /\
     qd_server_config_free w' = Done (Next tt, w')) /\
  (forall nm,
      string_attr entity "saslPlugin" = Some nm ->
      sasl_plugin_named h0 (config_sasl_plugins cm) nm = None ->
      exists w,
        load_server_config NDEBUG sizeof_size_t cm entity is_listener
                           (mkWorld c0 h0 err0 msg0 lg0)
        = Done (Next QD_ERROR_RUNTIME, w) /\
        qd_server_config_free w = Done (Next tt, w)).
Proof.
  intros Hvalid Hreg. split.
  - intros Hres.
    destruct (resolution_settings NDEBUG sizeof_size_t cm entity is_listener
                                  c0 h0 err0 msg0 lg0 Hvalid Hreg Hres)
      as (c & h & lg & T & Hrun & HO & Hset & _).
    destruct (config_free_run h0 h c T QD_ERROR_NONE "" lg HO Hset) as (h' & Hfree & _).
    eexists. eexists. split; [exact Hrun|]. split; [exact Hfree|].
    apply config_free_zeroed.
  - intros nm Hattr Hnone.
    destruct (resolution_fails NDEBUG sizeof_size_t cm entity is_listener
                               c0 h0 err0 msg0 lg0 Hvalid Hreg nm Hattr Hnone)
      as (lg & h & Hrun & _).
    eexists. split; [exact Hrun|]. apply config_free_zeroed.
Qed.

Lemma X28_release_twice_witness :
  exists w w',
    load_server_config false 8 example_registry tls_entity false (example_world example_heap)
    = Done (Next QD_ERROR_NONE, w) /\
    qd_server_config_free w = Done (Next tt, w') /\
    qd_server_config_free w' = Done (Next tt, w').
Proof.
  exact (proj1 (X28_release_twice false 8 example_registry tls_entity false
                  config_zero example_heap QD_ERROR_NONE "" [] eq_refl eq_refl) eq_refl).
Defined.

(** X30: what load_server_config logs for the attributes http,
    httpRootDir and metrics.  After the log on entry come a notice
    that no static content is served, where http is set and there is
    no httpRootDir, and a notice that metrics need http, where metrics
    is set, as it is by default, and neither http nor httpRootDir is;
    then whatever the rest of the function logs.  So an entity that
    says nothing about http or metrics gets the metrics notice. *)
Theorem X30_attribute_notices NDEBUG sizeof_size_t cm entity is_listener c0 h0 err0 msg0 lg0 :
  valid_server_entity NDEBUG entity is_listener = true ->
  registry_ok h0 cm = true ->
  auth_plugin_resolves h0 cm entity = true ->
  exists w tail,
    load_server_config NDEBUG sizeof_size_t cm entity is_listener (mkWorld c0 h0 err0 msg0 lg0)
    = Done (Next QD_ERROR_NONE, w) /\
    log w = (lg0 ++ attribute_notices entity) ++ tail /\
    (entity_get entity "http" = None -> entity_get entity "httpRootDir" = None ->
     entity_get entity "metrics" = None ->
     log w = (lg0 ++ [metrics_notice]) ++ tail).
Proof.
  intros Hvalid Hreg Hres.
  destruct (resolution_settings NDEBUG sizeof_size_t cm entity is_listener
                                c0 h0 err0 msg0 lg0 Hvalid Hreg Hres)
    as (c & h & lg & T & Hrun & _ & _ & _ & extra & Hlog & _).
  rewrite <- app_assoc in Hlog.
  eexists. eexists. split; [exact Hrun|]. cbn [log]. split; [exact Hlog|].
  intros Hhttp Hroot Hmetrics. rewrite Hlog.
  unfold attribute_notices, has_text, bool_attr, string_attr.
  now rewrite Hhttp, Hroot, Hmetrics.
Qed.

Lemma X30_attribute_notices_witness :
  exists w tail,
    load_server_config false 8 example_registry tls_entity false (example_world example_heap)
    = Done (Next QD_ERROR_NONE, w) /\
    log w = metrics_notice :: tail.
Proof.
  destruct (X30_attribute_notices false 8 example_registry tls_entity false
              config_zero example_heap QD_ERROR_NONE "" [] eq_refl eq_refl eq_refl)
    as (w & tail & Hrun & _ & Hdefault).
  exists w, tail. split; [exact Hrun|].
  exact (Hdefault eq_refl eq_refl eq_refl).
Defined.

(** ** The incoming capacity of a resolved endpoint *)

Module CapacityFacts.
Import Settings.

Lemma attribute_notices_info entity e :
  In e (attribute_notices entity) -> level e = QD_LOG_INFO.
Proof.
  unfold attribute_notices. intros Hin. apply in_app_or in Hin.
  destruct Hin as [Hin|Hin];
    match type of Hin with
    | In _ (if ?b then _ else _) => destruct b
    end; cbn [In] in Hin;
    first [destruct Hin as [<-|[]]; reflexivity | destruct Hin].
Qed.

Lemma promoted_frame_size_range entity :
  QD_AMQP_MIN_MAX_FRAME_SIZE <= promoted_frame_size entity < 2 ^ 32.
Proof.
  unfold promoted_frame_size, QD_AMQP_MIN_MAX_FRAME_SIZE. cbv zeta.
  pose proof (ReleaseFacts.to_uint32_range (long_attr entity "maxFrameSize" 0)) as H.
  destruct (Z.ltb_spec (to_uint32 (long_attr entity "maxFrameSize" 0)) 512); lia.
Qed.

End CapacityFacts.

Import Ownership Settings SettingsFacts CapacityFacts.

(** C2, as the code has it: for an endpoint that load_server_config
    resolves, with the frame size as the resolution leaves it, raised
    to the floor of 512, and the session frame count [n] of the entity
    as an unsigned 64-bit number.  With [n = 0] the capacity is the
    signed 32-bit maximum times the frame size where [size_t] has 8
    bytes, and the signed 32-bit maximum itself, not zero, where it is
    narrower.  With [n > 0] the candidate is [n] times the frame size
    in unsigned 64-bit arithmetic; it is adopted, raised to 512 if
    below, when [size_t] has 8 bytes or the candidate is below the
    limit [2^31 - 1]; otherwise the capacity is that limit, and the
    resolution logs one warning, which carries name, host and port of
    the endpoint, the frame count asked for and the limit divided by
    the frame size.  In the other cases it logs no warning: what it
    logs besides is at the level of a notice.  So [n = 4] and frame
    size 512 give 2048; the capacity is never below 512, and on a
    narrow platform never above the limit. *)
Theorem C2_incoming_capacity NDEBUG sizeof_size_t cm entity is_listener c0 h0 err0 msg0 lg0 :
  valid_server_entity NDEBUG entity is_listener = true ->
  registry_ok h0 cm = true ->
  auth_plugin_resolves h0 cm entity = true ->
  sizeof_size_t = 4 \/ sizeof_size_t = 8 ->
  let n := to_uint64 (long_attr entity "maxSessionFrames" 0) in
  let limit := 2 ^ 31 - 1 in
  exists w warnings extra,
    load_server_config NDEBUG sizeof_size_t cm entity is_listener (mkWorld c0 h0 err0 msg0 lg0)
    = Done (Next QD_ERROR_NONE, w) /\
    log w = ((lg0 ++ attribute_notices entity) ++ warnings) ++ extra /\
    (forall e, In e (attribute_notices entity ++ extra) -> level e = QD_LOG_INFO) /\
    let max_frame_size := nums (locals w) f_max_frame_size in
    let capacity := nums (locals w) f_incoming_capacity in
    let candidate := (n * max_frame_size) mod 2 ^ 64 in
    QD_AMQP_MIN_MAX_FRAME_SIZE <= max_frame_size < 2 ^ 32 /\
    (n = 0 ->
     warnings = [] /\
     capacity = if sizeof_size_t <? 8 then INT32_MAX else INT32_MAX * max_frame_size) /\
    (0 < n -> sizeof_size_t = 8 \/ candidate < limit ->
     warnings = [] /\ capacity = Z.max candidate QD_AMQP_MIN_MAX_FRAME_SIZE) /\
    (0 < n -> sizeof_size_t = 4 -> limit <= candidate ->
     warnings = [truncation_warning sizeof_size_t entity (limit / max_frame_size)] /\
     capacity = limit) /\
    (n = 4 -> max_frame_size = 512 -> capacity = 2048) /\
    QD_AMQP_MIN_MAX_FRAME_SIZE <= capacity /\
    (sizeof_size_t = 4 -> capacity <= limit).
Proof.
  intros Hvalid Hreg Hres Hsz n limit.
  destruct (resolution_settings NDEBUG sizeof_size_t cm entity is_listener
                                c0 h0 err0 msg0 lg0 Hvalid Hreg Hres)
    as (c & h & lg & T & Hrun & _ & _ & (_ & Hnums & _) & extra & Hlog & Hinfo).
  destruct Hnums as (_ & _ & Hmfs & _ & Hcap & _).
  exists (mkWorld c h QD_ERROR_NONE "" lg), (capacity_warnings sizeof_size_t entity), extra.
  split; [exact Hrun|]. cbn [log locals]. split; [exact Hlog|].
  split.
  { intros e Hin. apply in_app_or in Hin.
    destruct Hin as [Hin|Hin]; [exact (attribute_notices_info entity e Hin) | exact (Hinfo e Hin)]. }
  cbv zeta. rewrite Hmfs, Hcap.
  pose proof (promoted_frame_size_range entity) as Hb.
  assert (Hn : 0 <= n < 2 ^ 64) by (unfold n, to_uint64; apply Z.mod_pos_bound; lia).
  pose proof (incoming_capacity_cases sizeof_size_t (promoted_frame_size entity) n Hsz Hb Hn)
    as H.
  cbv zeta in H. destruct H as (H0 & Hadopt & Hclamp & Hex & Hfloor & Hnarrow).
  unfold capacity_warnings. fold n.
  split; [exact Hb|].
  split. { intros E. destruct (H0 E) as [-> ->]. split; reflexivity. }
  split. { intros E1 E2. destruct (Hadopt E1 E2) as [-> ->]. split; reflexivity. }
  split. { intros E1 E2 E3. destruct (Hclamp E1 E2 E3) as [-> ->]. split; reflexivity. }
  split; [exact Hex|]. split; [exact Hfloor | exact Hnarrow].
Qed.

Lemma C2_incoming_capacity_witness :
  (exists w,
      load_server_config false 4 empty_manager (small_framed_entity 4) false (example_world [])
      = Done (Next QD_ERROR_NONE, w) /\
      nums (locals w) f_incoming_capacity = 2048) /\
  (exists w,
      load_server_config false 4 empty_manager (framed_entity (2 ^ 40)) false (example_world [])
      = Done (Next QD_ERROR_NONE, w) /\
      nums (locals w) f_incoming_capacity = 2 ^ 31 - 1 /\
      In (truncation_warning 4 (framed_entity (2 ^ 40)) ((2 ^ 31 - 1) / 16384)) (log w)).
Proof.
  split.
  - destruct (C2_incoming_capacity false 4 empty_manager (small_framed_entity 4) false
                config_zero [] QD_ERROR_NONE "" [] eq_refl eq_refl eq_refl (or_introl eq_refl))
      as (w & warnings & extra & Hrun & _ & _ & Hcases).
    exists w. split; [exact Hrun|].
    cbv zeta in Hcases. destruct Hcases as (_ & _ & _ & _ & Hex & _).
    apply Hex; [reflexivity|].
    vm_compute in Hrun. injection Hrun as <-. reflexivity.
  - destruct (C2_incoming_capacity false 4 empty_manager (framed_entity (2 ^ 40)) false
                config_zero [] QD_ERROR_NONE "" [] eq_refl eq_refl eq_refl (or_introl eq_refl))
      as (w & warnings & extra & Hrun & Hlog & _ & Hcases).
    exists w. split; [exact Hrun|].
    cbv zeta in Hcases. destruct Hcases as (_ & _ & _ & Hclamp & _).
    assert (Hmfs : nums (locals w) f_max_frame_size = 16384)
      by (vm_compute in Hrun; injection Hrun as <-; reflexivity).
    rewrite Hmfs in Hclamp.
    destruct Hclamp as [Hw Hc]; [reflexivity | reflexivity | vm_compute; discriminate |].
    split; [exact Hc|].
    rewrite Hlog, Hw. apply in_or_app. left. apply in_or_app. right. now left.
Defined.

(** C2 as stated fails, twice.  Where [size_t] has 4 bytes and no
    session frame count is given, the resolved capacity is the signed
    32-bit maximum, not zero.  And the candidate is a product of
    unsigned 64-bit numbers: where [size_t] has 8 bytes, a frame count
    of 2^55 and a frame size of 512 give the candidate 0, and the
    capacity is the floor of 512, not the frame count times the frame
    size. *)
Lemma C2_counterexample :
  match load_server_config true 4 empty_manager example_entity false
                           (empty_world config_zero) with
  | Done (Next e, w) =>
      e = QD_ERROR_NONE /\
      nums (locals w) f_max_frame_size = 16384 /\
      nums (locals w) f_incoming_capacity = 2147483647 /\
      nums (locals w) f_incoming_capacity <> 0
  | _ => False
  end /\
  match load_server_config true 8 empty_manager (small_framed_entity (2 ^ 55)) false
                           (empty_world config_zero) with
  | Done (Next e, w) =>
      e = QD_ERROR_NONE /\
      nums (locals w) f_max_frame_size = 512 /\
      nums (locals w) f_incoming_capacity = 512 /\
      nums (locals w) f_incoming_capacity <> 2 ^ 55 * 512
  | _ => False
  end.
Proof. vm_compute. repeat split; discriminate. Qed.

(** ** Registration of a TLS profile: every path *)

Module RegistrationMoreFacts.
Import Ownership Registered HeapFacts RunFacts ResolveFacts AttributeFacts ProfileFacts.
Import BlockFacts RegistrationFacts.

Lemma heap_write_app h y x v :
  (x < List.length h)%nat -> heap_write (h ++ y) x v = heap_write h x v ++ y.
Proof.
  revert x. induction h as [|c h IH]; intros x Hx; [cbn in Hx; lia|].
  destruct x as [|x]; cbn [heap_write app]; [reflexivity|].
  rewrite IH by (cbn in Hx; lia). reflexivity.
Qed.

Section Owned.

Context {Mem : Type}.
Variable beq : Mem -> Mem -> bool.
Hypothesis beq_eq : forall a b, beq a b = true <-> a = b.
Variable h0 : heap_t.
Implicit Types (f : Mem -> cptr) (T : Mem -> slot) (m : Mem).

Lemma owns_ext h f T f' T' :
  (forall m, f' m = f m) -> (forall m, T' m = T m) -> owns h0 h f T -> owns h0 h f' T'.
Proof.
  intros Hf HT [Hold Hlen Htxt Hinj]. split; [exact Hold | exact Hlen | |].
  - intros m. rewrite Hf, HT. apply Htxt.
  - intros m1 m2 a. rewrite !Hf. apply Hinj.
Qed.

(** A block no member points to is released. *)
Lemma owns_free_unowned h f T x :
  owns h0 h f T -> (List.length h0 <= x)%nat -> (forall m, f m <> Ptr x) ->
  owns h0 (heap_write h x None) f T.
Proof.
  intros [Hold Hlen Htxt Hinj] Hx Hnone. split.
  - intros a Ha. rewrite nth_error_heap_write.
    rewrite (proj2 (Nat.eqb_neq a x)) by lia. now apply Hold.
  - now rewrite length_heap_write.
  - intros m. specialize (Htxt m). unfold slot_ok in *.
    destruct (f m) as [|y|] eqn:E, (T m); try assumption.
    destruct Htxt as [Hge Hr]. split; [exact Hge|].
    rewrite heap_read_write_other; [exact Hr|].
    intros <-. now apply (Hnone m).
  - exact Hinj.
Qed.

(** The block of a member is released and the member set to null. *)
Lemma owns_release h f T m x :
  owns h0 h f T -> f m = Ptr x ->
  owns h0 (heap_write h x None) (upd beq f m NULL) (upd beq T m Null).
Proof.
  intros HO Hm. pose proof HO as [Hold Hlen Htxt Hinj].
  assert (Hx : (List.length h0 <= x)%nat).
  { specialize (Htxt m). rewrite Hm in Htxt. unfold slot_ok in Htxt.
    destruct (T m); try contradiction. apply Htxt. }
  split.
  - intros a Ha. rewrite nth_error_heap_write.
    rewrite (proj2 (Nat.eqb_neq a x)) by lia. now apply Hold.
  - now rewrite length_heap_write.
  - intros m'. unfold upd. destruct (beq m' m) eqn:E; [exact I|].
    specialize (Htxt m'). unfold slot_ok in *.
    destruct (f m') as [|y|] eqn:E', (T m'); try assumption.
    destruct Htxt as [Hge Hr]. split; [exact Hge|].
    rewrite heap_read_write_other; [exact Hr|].
    intros <-. rewrite (proj2 (beq_eq m' m) (Hinj m' m x E' Hm)) in E. discriminate.
  - intros m1 m2 y. unfold upd.
    destruct (beq m1 m); [discriminate|]. destruct (beq m2 m); [discriminate|].
    apply Hinj.
Qed.

(** The block of a member is released and the member assigned a new
    text. *)
Lemma owns_replace h f T m x s :
  owns h0 h f T -> f m = Ptr x ->
  owns h0 (heap_write h x None ++ [Some s]) (upd beq f m (Ptr (List.length h)))
       (upd beq T m (Text s)).
Proof.
  intros HO Hm.
  pose proof (owns_assign beq beq_eq h0 _ _ _ m (Some s) (owns_release h f T m x HO Hm))
    as HO'.
  cbn [opt_cell opt_ptr slot_of] in HO'. rewrite length_heap_write in HO'.
  revert HO'. apply owns_ext; intros m'; unfold upd; now destruct (beq m' m).
Qed.

Lemma owns_same h f T m :
  owns h0 h f T -> owns h0 h f (upd beq T m (T m)).
Proof.
  apply owns_ext; [reflexivity|]. intros m'. unfold upd.
  destruct (beq m' m) eqn:E; [|reflexivity]. apply beq_eq in E. now subst.
Qed.

Lemma owns_live h f T m x : owns h0 h f T -> f m = Ptr x -> (x < List.length h)%nat.
Proof.
  intros [_ _ Htxt _] Hm. specialize (Htxt m). rewrite Hm in Htxt.
  now apply slot_ok_ptr in Htxt.
Qed.

End Owned.

Section Registration.

Variable getenv : string -> option string.
Variable fopen : string -> option string.
Variable entity : qd_entity_t.
Variable h0 : heap_t.
Variable l : list qd_config_ssl_profile_t.
Variable plugins : list qd_config_sasl_plugin_t.
Variable a : nat.
Hypothesis entity_valid : valid_profile_entity entity = true.
Hypothesis a_fresh : forall q, In q l -> Nat.eqb (sp_addr q) a = false.

Ltac run_plain H :=
  repeat (first [ rewrite run_assoc in H | rewrite run_ret in H | rewrite run_check in H
                | rewrite run_log in H | rewrite run_clear in H | rewrite run_modify in H ];
          cbv beta in H).

Ltac slot_at := cbv beta delta [pupd upd ssl_profile_member_beq] iota.

(** qd_config_ssl_profile_process_password on a profile that owns its
    blocks. *)
Lemma step_process_password {B} p h T o msg lg :
  sp_addr p = a -> powns h0 h p T -> T p_ssl_password = slot_of o ->
  match processed_password getenv o with
  | Some final =>
      exists p' h',
        sp_addr p' = a /\
        powns h0 h' p' (pupd T p_ssl_password (slot_of final)) /\
        forall K : unit -> cmM B,
          bind (qd_config_ssl_profile_process_password getenv a) K
               (mkWorld (holding l plugins p) h QD_ERROR_NONE msg lg)
          = K tt (mkWorld (holding l plugins p') h' QD_ERROR_NONE msg lg)
  | None =>
      forall K : unit -> cmM B,
        bind (qd_config_ssl_profile_process_password getenv a) (fun _ => bind CHECK K)
             (mkWorld (holding l plugins p) h QD_ERROR_NONE msg lg)
        = Done (Jump, mkWorld (holding l plugins p) h QD_ERROR_NOT_FOUND
                              "Failed to find a password in the environment variable" lg)
  end.
Proof.
  intros Hp HO Hslot. unfold processed_password, qd_config_ssl_profile_process_password.
  destruct o as [text|]; cbn [slot_of] in Hslot.
  - destruct (owns_ptr _ _ _ T p_ssl_password text HO Hslot) as (x & Hx & Hge & Hread).
    assert (Hstart : forall K : cptr -> cmM B,
               bind (profile_member a p_ssl_password) K
                    (mkWorld (holding l plugins p) h QD_ERROR_NONE msg lg)
               = K (Ptr x) (mkWorld (holding l plugins p) h QD_ERROR_NONE msg lg)).
    { intros K. rewrite (run_profile_member l plugins a a_fresh) by exact Hp.
      now rewrite Hx. }
    assert (Htext : text_at h (Ptr x) = Some (Some text))
      by (cbn [text_at]; now rewrite Hread).
    destruct (String.prefix "env:" text) eqn:Eenv.
    + destruct (getenv (skip_spaces (drop 4 text))) as [passwd|] eqn:Eget.
      * exists (sp_set p_ssl_password (Ptr (List.length h)) p),
               (heap_write h x None ++ [Some passwd]).
        split; [exact Hp|]. split.
        -- apply (owns_replace ssl_profile_member_beq profile_beq_eq h0 h (sp p) T
                               p_ssl_password x passwd HO Hx).
        -- intros K. rewrite run_assoc, Hstart. cbn [is_null]. rewrite run_assoc.
           erewrite run_read_text by exact Htext. cbv beta. rewrite Eenv, Eget.
           rewrite run_assoc. erewrite run_free by exact Hread.
           rewrite run_assoc, run_new_string, length_heap_write.
           now rewrite (run_profile_assign l plugins a a_fresh) by exact Hp.
      * intros K. rewrite run_assoc, Hstart. cbn [is_null]. rewrite run_assoc.
        erewrite run_read_text by exact Htext. cbv beta. rewrite Eenv, Eget.
        rewrite run_error. now rewrite run_check_error.
    + destruct (String.prefix "literal:" text) eqn:Elit.
      * exists (sp_set p_ssl_password (Ptr (List.length h)) p),
               (heap_write h x None ++ [Some (skip_spaces (drop 8 text))]).
        split; [exact Hp|]. split.
        -- apply (owns_replace ssl_profile_member_beq profile_beq_eq h0 h (sp p) T
                               p_ssl_password x _ HO Hx).
        -- intros K. rewrite run_assoc, Hstart. cbn [is_null]. rewrite run_assoc.
           erewrite run_read_text by exact Htext. cbv beta. rewrite Eenv, Elit.
           rewrite run_assoc, run_new_string, run_assoc.
           erewrite run_free by (apply heap_read_app_old; exact Hread).
           rewrite heap_write_app by (apply (heap_read_live _ _ _ Hread)).
           now rewrite (run_profile_assign l plugins a a_fresh) by exact Hp.
      * exists p, h. split; [exact Hp|]. split.
        -- cbn [slot_of]. rewrite <- Hslot. apply (owns_same ssl_profile_member_beq profile_beq_eq). exact HO.
        -- intros K. rewrite run_assoc, Hstart. cbn [is_null]. rewrite run_assoc.
           erewrite run_read_text by exact Htext. cbv beta. now rewrite Eenv, Elit.
  - exists p, h. split; [exact Hp|]. split.
    + cbn [slot_of]. rewrite <- Hslot. apply (owns_same ssl_profile_member_beq profile_beq_eq). exact HO.
    + intros K. rewrite run_assoc.
      rewrite (run_profile_member l plugins a a_fresh) by exact Hp.
      now rewrite (owns_null _ _ _ T p_ssl_password HO Hslot).
Qed.

(** One call of entity_member. *)
Ltac run_member H Hok :=
  match type of H with
  | _ = bind (entity_member _ _ ?m ?attribute) _ (mkWorld (holding _ _ ?p) ?h _ ?msg ?lg) =>
      match goal with
      | HO : powns _ h p ?T, Hp : sp_addr p = _ |- _ =>
          let p' := fresh "p" in
          let h' := fresh "h" in
          let Hp' := fresh "Hp" in
          let HO' := fresh "HO" in
          let Heq := fresh "Heq" in
          destruct (step_entity_member entity h0 l plugins a a_fresh (B := option nat)
                      p h T m attribute msg lg Hp HO (Hok attribute ltac:(in_list)))
            as (p' & h' & Hp' & HO' & Heq);
          rewrite Heq in H; clear Heq HO Hp; cbv beta in H
      end
  end.

(** The registration of a profile, on every path: the password is the
    attribute or the first line of the password file, processed. *)
Lemma configure_run err0 msg0 lg0 :
  a = fresh_profile_addr l ->
  match processed_password getenv (initial_password fopen entity) with
  | Some final =>
      exists p h,
        qd_dispatch_configure_ssl_profile getenv fopen entity
          (mkWorld {| config_ssl_profiles := l; config_sasl_plugins := plugins |}
                   h0 err0 msg0 lg0)
        = Done (Next (Some a),
                mkWorld (holding l plugins p) h QD_ERROR_NONE ""
                        ((lg0 ++ password_warning entity)
                           ++ [created_log (string_attr entity "name")])) /\
        sp_addr p = a /\
        powns h0 h p (registered_slots entity final)
  | None =>
      exists h,
        qd_dispatch_configure_ssl_profile getenv fopen entity
          (mkWorld {| config_ssl_profiles := l; config_sasl_plugins := plugins |}
                   h0 err0 msg0 lg0)
        = Done (Next None,
                mkWorld {| config_ssl_profiles := l; config_sasl_plugins := plugins |} h
                        QD_ERROR_NOT_FOUND
                        "Failed to find a password in the environment variable"
                        ((lg0 ++ password_warning entity)
                           ++ [failure_log
                                 "Failed to find a password in the environment variable"])) /\
        forall x, (x < List.length h0)%nat -> nth_error h x = nth_error h0 x
  end.
Proof.
  intros Ha.
  pose proof entity_valid as Hok. unfold valid_profile_entity in Hok.
  rewrite forallb_forall in Hok.
  remember (qd_dispatch_configure_ssl_profile _ _ _ _) as R0 eqn:HR0.
  unfold qd_dispatch_configure_ssl_profile in HR0. rewrite run_get_locals in HR0.
  cbv beta zeta in HR0. cbn [config_ssl_profiles] in HR0. rewrite <- Ha in HR0.
  match type of HR0 with
  | _ = on_error ?body ?handler ?w =>
      remember (body w) as R eqn:HR;
      rewrite (on_error_run body handler w R (eq_sym HR)) in HR0
  end.
  rewrite run_clear, run_modify in HR.
  change (with_profiles _ _)
    with (holding l plugins {| sp_addr := a; sp := fun _ => Indeterminate |}) in HR.
  pose proof (powns_start h0 a) as HO.
  assert (Hp : sp_addr {| sp_addr := a; sp := fun _ => Indeterminate |} = a) by reflexivity.
  do 4 run_member HR Hok.
  (* the password attribute, or the password file *)
  match type of HR with
  | _ = bind _ (fun pw => bind (@?blk pw) ?K) _ => set (rest := K) in HR
  end.
  match goal with
  | HO : powns _ ?h ?p ?T, Hp : sp_addr ?p = a |- _ =>
      assert (Hblock : exists p' h',
                 sp_addr p' = a /\
                 powns h0 h' p' (pupd T p_ssl_password (slot_of (initial_password fopen entity))) /\
                 R = rest tt (mkWorld (holding l plugins p') h' QD_ERROR_NONE ""
                                      (lg0 ++ password_warning entity)));
      [ assert (Hslot : T p_ssl_password = slot_of (string_attr entity "password"))
          by (slot_at; reflexivity);
        rewrite (run_profile_member l plugins a a_fresh) in HR by assumption;
        cbv beta in HR;
        unfold initial_password, password_warning;
        destruct (string_attr entity "password") as [text|] eqn:Hpw; cbn [slot_of] in Hslot
      | ]
  end.
  - (* the attribute is there: the deprecation warning *)
    destruct (owns_ptr _ _ _ _ p_ssl_password text HO Hslot) as (x & Hx & _ & _).
    rewrite Hx in HR. cbn [is_null] in HR. rewrite run_log in HR.
    eexists; eexists. split; [exact Hp|]. split; [|exact HR].
    cbn [slot_of]. rewrite <- Hslot.
    apply (owns_same ssl_profile_member_beq profile_beq_eq). exact HO.
  - rewrite (owns_null _ _ _ _ p_ssl_password HO Hslot) in HR. cbn [is_null] in HR.
    rewrite !run_assoc in HR.
    rewrite run_opt_string in HR by (apply Hok; in_list).
    rewrite run_opt_new_string in HR. cbv beta in HR.
    rewrite !run_assoc, run_check in HR.
    rewrite app_nil_r.
    destruct (string_attr entity "passwordFile") as [path|] eqn:Hfile;
      cbn [opt_ptr opt_cell is_null] in HR.
    + rewrite !run_assoc in HR.
      erewrite run_read_text in HR by (cbn [text_at]; rewrite heap_read_new; reflexivity).
      cbv beta in HR.
      destruct (fopen path) as [file|] eqn:Hfopen.
      * cbv zeta in HR.
        destruct (String.length (read_line 199 file) =? 0)%nat eqn:Elen.
        -- rewrite run_ret in HR.
           erewrite run_free in HR by apply heap_read_new.
           rewrite heap_write_last in HR.
           eexists; eexists. split; [exact Hp|]. split; [|exact HR].
           cbn [slot_of]. rewrite <- Hslot.
           apply (owns_same ssl_profile_member_beq profile_beq_eq).
           apply owns_app. exact HO.
        -- run_plain HR.
           rewrite (run_profile_member l plugins a a_fresh) in HR by assumption.
           cbv beta in HR.
           rewrite (owns_null _ _ _ _ p_ssl_password HO Hslot) in HR.
           run_plain HR. rewrite run_free_null in HR. cbv beta in HR.
           run_plain HR. rewrite run_new_string in HR. cbv beta in HR.
           run_plain HR.
           rewrite (run_profile_assign l plugins a a_fresh) in HR by assumption.
           erewrite run_free in HR by (apply heap_read_app_old, heap_read_new).
           eexists; eexists. split; [|split; [|exact HR]]; [exact Hp|].
           apply (owns_free_unowned h0).
           ++ apply (owns_assign ssl_profile_member_beq profile_beq_eq h0 _ _ _
                                 p_ssl_password (Some (c_str (read_line 199 file)))).
              apply owns_app. exact HO.
           ++ apply (owns_len _ _ _ _ HO).
           ++ intros m Hm. unfold upd in Hm. cbn [opt_ptr sp sp_set] in Hm.
              destruct (ssl_profile_member_beq m p_ssl_password).
              ** injection Hm as Hm. rewrite length_app in Hm. cbn in Hm. lia.
              ** pose proof (owns_live h0 _ _ _ m _ HO Hm). lia.
      * rewrite run_ret in HR.
        erewrite run_free in HR by apply heap_read_new.
        rewrite heap_write_last in HR.
        eexists; eexists. split; [exact Hp|]. split; [|exact HR].
        cbn [slot_of]. rewrite <- Hslot.
        apply (owns_same ssl_profile_member_beq profile_beq_eq).
        apply owns_app. exact HO.
    + run_plain HR. rewrite run_free_null in HR. rewrite app_nil_r in HR.
      eexists; eexists. split; [exact Hp|]. split; [|exact HR].
      cbn [slot_of]. rewrite <- Hslot.
      apply (owns_same ssl_profile_member_beq profile_beq_eq). exact HO.
  - clear HR HO Hp. destruct Hblock as (p' & h' & Hp & HO & HR).
    subst rest. cbv beta in HR.
    do 6 run_member HR Hok.
    match goal with
    | HO : powns _ ?h ?p ?T |- _ =>
        assert (Hslot : T p_ssl_password = slot_of (initial_password fopen entity))
          by (slot_at; reflexivity);
        pose proof (step_process_password (B := option nat) p h T _ "" 
                      (lg0 ++ password_warning entity) ltac:(assumption) HO Hslot) as Hproc;
        assert (Hset : forall m, is_set (T m) = true)
          by (intros m; destruct m; slot_at; apply is_set_slot_of)
    end.
    destruct (processed_password getenv (initial_password fopen entity)) as [final|].
    + destruct Hproc as (pf & hf & Hpf & HOf & Heq).
      rewrite Heq in HR. rewrite run_check in HR.
      rewrite (run_profile_member l plugins a a_fresh) in HR by assumption.
      cbv beta in HR.
      assert (Hname : text_at hf (sp pf p_name) = Some (string_attr entity "name")).
      { rewrite (owns_text _ _ _ _ p_name HOf) by (slot_at; apply is_set_slot_of).
        slot_at. now rewrite slot_text_slot_of. }
      erewrite run_read_opt in HR by exact Hname.
      rewrite run_log in HR. fold (created_log (string_attr entity "name")) in HR.
      unfold ret in HR. rewrite HR in HR0.
      exists pf, hf. split; [exact HR0|]. split; [exact Hpf|].
      revert HOf. apply owns_ext; [reflexivity|].
      intros m. destruct m; slot_at; reflexivity.
    + rewrite Hproc in HR. rewrite HR in HR0.
      rewrite run_error_message, run_log in HR0.
      match goal with
      | HO : powns _ ?h ?p ?T, Hp : sp_addr ?p = a |- _ =>
          destruct (profile_free_run h0 l plugins a a_fresh p h T QD_ERROR_NOT_FOUND
                      "Failed to find a password in the environment variable"
                      ((lg0 ++ password_warning entity)
                         ++ [failure_log "Failed to find a password in the environment variable"])
                      Hp HO Hset)
            as (he & Hfree & Hframe)
      end.
      erewrite run_bind in HR0 by exact Hfree.
      exists he. split; [exact HR0 | exact Hframe].
Qed.

End Registration.

End RegistrationMoreFacts.
(** ** The registry after a registration *)

Module RegistryFacts.
Import Ownership Registered HeapFacts RunFacts ResolveFacts AttributeFacts ProfileFacts.
Import BlockFacts RegistrationFacts RegistrationMoreFacts.

(** The lookup loop over profiles whose names are texts. *)
Lemma find_loop_named {L} h l nm (c : L) err msg lg :
  (forall q, In q l -> named_ptr h (sp q p_name) = true) ->
  qd_find_ssl_profile_loop l nm (mkWorld c h err msg lg)
  = Done (Next (ssl_profile_named h l nm), mkWorld c h err msg lg).
Proof.
  induction l as [|q l IH]; intros Hn; [reflexivity|].
  cbn [qd_find_ssl_profile_loop ssl_profile_named].
  destruct (named_text _ _ (Hn q (or_introl eq_refl))) as [s Hs].
  rewrite Hs. erewrite run_read_text by exact Hs.
  destruct (streq s nm); [reflexivity|].
  apply IH. intros q' Hq'. apply Hn. now right.
Qed.

(** The same where the last profile has no name: a lookup that comes
    to it compares a null pointer. *)
Lemma find_loop_nameless {L} h l p nm (c : L) err msg lg :
  (forall q, In q l -> named_ptr h (sp q p_name) = true) ->
  ssl_profile_named h l nm = None ->
  sp p p_name = NULL ->
  qd_find_ssl_profile_loop (l ++ [p]) nm (mkWorld c h err msg lg) = Undefined.
Proof.
  intros Hn Hnone Hp. induction l as [|q l IH].
  - cbn [app qd_find_ssl_profile_loop]. rewrite Hp. reflexivity.
  - cbn [app qd_find_ssl_profile_loop]. cbn [ssl_profile_named] in Hnone.
    destruct (named_text _ _ (Hn q (or_introl eq_refl))) as [s Hs].
    rewrite Hs in Hnone. erewrite run_read_text by exact Hs.
    destruct (streq s nm); [discriminate|].
    apply IH; [|exact Hnone]. intros q' Hq'. apply Hn. now right.
Qed.

Lemma ssl_profile_named_app h l p nm :
  (forall q, In q l -> named_ptr h (sp q p_name) = true) ->
  ssl_profile_named h (l ++ [p]) nm
  = match ssl_profile_named h l nm with
    | Some q => Some q
    | None => ssl_profile_named h [p] nm
    end.
Proof.
  intros Hn. induction l as [|q l IH]; [reflexivity|].
  cbn [app]. change (ssl_profile_named h (q :: l ++ [p]) nm)
    with (match text_at h (sp q p_name) with
          | Some (Some s) => if streq s nm then Some q else ssl_profile_named h (l ++ [p]) nm
          | _ => None
          end).
  change (ssl_profile_named h (q :: l) nm)
    with (match text_at h (sp q p_name) with
          | Some (Some s) => if streq s nm then Some q else ssl_profile_named h l nm
          | _ => None
          end).
  destruct (named_text _ _ (Hn q (or_introl eq_refl))) as [s Hs]. rewrite Hs.
  destruct (streq s nm); [reflexivity|].
  apply IH. intros q' Hq'. apply Hn. now right.
Qed.

Section Frame.

Context {Mem : Type}.
Variables (h0 h : heap_t) (f : Mem -> cptr) (T : Mem -> slot).
Hypothesis HO : owns h0 h f T.

Lemma valid_ptr_frame x : valid_ptr h0 x = true -> valid_ptr h x = true.
Proof.
  unfold valid_ptr. intros Hv.
  rewrite (owns_old_text h0 h f T x HO); [exact Hv|].
  intros E. rewrite E in Hv. discriminate.
Qed.

Lemma named_ptr_frame x : named_ptr h0 x = true -> named_ptr h x = true.
Proof.
  unfold named_ptr. intros Hv.
  rewrite (owns_old_text h0 h f T x HO); [exact Hv|].
  intros E. rewrite E in Hv. discriminate.
Qed.

Lemma text_at_frame x : named_ptr h0 x = true -> text_at h x = text_at h0 x.
Proof.
  unfold named_ptr. intros Hv. apply (owns_old_text h0 h f T x HO).
  intros E. rewrite E in Hv. discriminate.
Qed.

Lemma ssl_profile_named_frame l nm :
  (forall q, In q l -> named_ptr h0 (sp q p_name) = true) ->
  ssl_profile_named h l nm = ssl_profile_named h0 l nm.
Proof.
  intros Hn. induction l as [|q l IH]; [reflexivity|].
  cbn [ssl_profile_named].
  rewrite (text_at_frame _ (Hn q (or_introl eq_refl))).
  destruct (text_at h0 (sp q p_name)) as [[s|]|]; try reflexivity.
  destruct (streq s nm); [reflexivity|].
  apply IH. intros q' Hq'. apply Hn. now right.
Qed.

Lemma sasl_plugin_named_frame l nm :
  (forall q, In q l -> named_ptr h0 (name q) = true) ->
  sasl_plugin_named h l nm = sasl_plugin_named h0 l nm.
Proof.
  intros Hn. induction l as [|q l IH]; [reflexivity|].
  cbn [sasl_plugin_named].
  rewrite (text_at_frame _ (Hn q (or_introl eq_refl))).
  destruct (text_at h0 (name q)) as [[s|]|]; try reflexivity.
  destruct (streq s nm); [reflexivity|].
  apply IH. intros q' Hq'. apply Hn. now right.
Qed.

End Frame.

(** The registry with a new profile that owns its blocks and has a
    name is well formed in the new heap. *)
Lemma registry_ok_holding h0 h l plugins p T :
  registry_ok h0 {| config_ssl_profiles := l; config_sasl_plugins := plugins |} = true ->
  powns h0 h p T -> (forall m, is_set (T m) = true) ->
  (exists nm, T p_name = Text nm) ->
  registry_ok h (holding l plugins p) = true.
Proof.
  intros Hreg HO Hset [nm Hnm]. unfold registry_ok in *.
  cbn [holding config_ssl_profiles config_sasl_plugins] in *.
  apply andb_true_iff in Hreg as [Hl Hp]. apply andb_true_iff. split.
  - rewrite forallb_app. apply andb_true_iff. split.
    + rewrite forallb_forall in Hl |- *. intros q Hq. specialize (Hl q Hq).
      apply andb_true_iff in Hl as [Hname Hmem]. apply andb_true_iff. split.
      * exact (named_ptr_frame h0 h _ T HO _ Hname).
      * rewrite forallb_forall in Hmem |- *. intros m Hm.
        exact (valid_ptr_frame h0 h _ T HO _ (Hmem m Hm)).
    + assert (Hv : forall m, valid_ptr h (sp p m) = true)
        by (intros m; unfold valid_ptr; now rewrite (owns_text _ _ _ _ m HO (Hset _))).
      cbn [forallb]. rewrite !Hv. cbn [andb]. rewrite !andb_true_r.
      unfold named_ptr. rewrite (owns_text _ _ _ _ p_name HO (Hset _)), Hnm. reflexivity.
  - rewrite forallb_forall in Hp |- *. intros q Hq. specialize (Hp q Hq).
    repeat (apply andb_true_iff in Hp; let H := fresh "H" in destruct Hp as [Hp H]).
    repeat (apply andb_true_iff; split);
      first [ apply (named_ptr_frame h0 h _ T HO); assumption
            | apply (valid_ptr_frame h0 h _ T HO); assumption ].
Qed.

Lemma registered_is_set entity final m : is_set (registered_slots entity final m) = true.
Proof. destruct m; apply is_set_slot_of. Qed.

Lemma registered_attribute entity final m attribute :
  In (m, attribute) profile_attributes ->
  registered_slots entity final m = slot_of (string_attr entity attribute).
Proof.
  cbn [In profile_attributes]. intros H.
  repeat (destruct H as [[= <- <-]|H]; [reflexivity|]). destruct H.
Qed.

Lemma registry_names h0 cm q :
  registry_ok h0 cm = true -> In q (config_ssl_profiles cm) ->
  named_ptr h0 (sp q p_name) = true.
Proof.
  unfold registry_ok. intros H Hq. apply andb_true_iff in H as [H _].
  rewrite forallb_forall in H. specialize (H q Hq). now apply andb_true_iff in H as [H _].
Qed.

End RegistryFacts.

Import Ownership Registered HeapFacts RunFacts ResolveFacts AttributeFacts ProfileFacts.
Import BlockFacts ResolutionFacts RegistrationFacts RegistrationMoreFacts RegistryFacts.

(** X12: on an entity whose attributes are texts,
    qd_dispatch_configure_ssl_profile returns the new profile whenever
    the processing of the password does not fail.  The profile is
    appended to the collection under an address no other profile has,
    each member holds a copy of its attribute, and the password is the
    password attribute or else the first line of the password file (at
    most 199 bytes), after processing: the value of the variable for
    [env:], the rest of the text for [literal:], the text itself
    otherwise.  A password that came from the file is processed in the
    same way.  No error is set, the log ends with the creation
    message, and the blocks of the heap on entry are as they were. *)
Theorem X12_registration_result getenv fopen entity cm h0 err0 msg0 lg0 final :
  valid_profile_entity entity = true ->
  processed_password getenv (initial_password fopen entity) = Some final ->
  exists a p w,
    qd_dispatch_configure_ssl_profile getenv fopen entity (mkWorld cm h0 err0 msg0 lg0)
    = Done (Next (Some a), w) /\
    error_code w = QD_ERROR_NONE /\
    config_ssl_profiles (locals w) = config_ssl_profiles cm ++ [p] /\
    config_sasl_plugins (locals w) = config_sasl_plugins cm /\
    sp_addr p = a /\
    (forall q, In q (config_ssl_profiles cm) -> sp_addr q <> a) /\
    text_at (heap w) (sp p p_ssl_password) = Some final /\
    (forall m attribute, In (m, attribute) profile_attributes ->
       text_at (heap w) (sp p m) = Some (string_attr entity attribute)) /\
    log w = (lg0 ++ password_warning entity) ++ [created_log (string_attr entity "name")] /\
    (forall x, (x < List.length h0)%nat -> nth_error (heap w) x = nth_error h0 x).
Proof.
  intros Hvalid Hfinal. destruct cm as [l plugins].
  pose proof (configure_run getenv fopen entity h0 l plugins (fresh_profile_addr l)
                Hvalid (fresh_not_in l) err0 msg0 lg0 eq_refl) as Hrun.
  rewrite Hfinal in Hrun. destruct Hrun as (p & h & Hrun & Hp & HO).
  exists (fresh_profile_addr l), p. eexists. split; [exact Hrun|].
  cbn [error_code locals heap log holding config_ssl_profiles config_sasl_plugins].
  repeat (split; [reflexivity|]). split; [exact Hp|]. split; [|split; [|split; [|split]]].
  - intros q Hq. apply Nat.eqb_neq. now apply fresh_not_in.
  - rewrite (owns_text _ _ _ _ p_ssl_password HO (registered_is_set _ _ _)).
    cbn [registered_slots]. now rewrite slot_text_slot_of.
  - intros m attribute Hin.
    rewrite (owns_text _ _ _ _ m HO (registered_is_set _ _ _)).
    rewrite (registered_attribute _ _ _ _ Hin). now rewrite slot_text_slot_of.
  - reflexivity.
  - apply (owns_old _ _ _ _ HO).
Qed.

Lemma X12_registration_result_witness :
  exists a p w,
    qd_dispatch_configure_ssl_profile secret_environment password_files file_password_entity
      (mkWorld example_registry example_heap QD_ERROR_NONE "" [])
    = Done (Next (Some a), w) /\
    config_ssl_profiles (locals w) = [example_profile; p] /\
    text_at (heap w) (sp p p_ssl_password) = Some (Some "s3cret"%string) /\
    text_at (heap w) (sp p p_ssl_certificate_file) = Some (Some "c2.pem"%string).
Proof.
  destruct (X12_registration_result secret_environment password_files file_password_entity
              example_registry example_heap QD_ERROR_NONE "" [] (Some "s3cret"%string)
              eq_refl eq_refl)
    as (a & p & w & Hrun & _ & Hl & _ & _ & _ & Hpw & Hattr & _).
  exists a, p, w. split; [exact Hrun|]. split; [exact Hl|]. split; [exact Hpw|].
  apply (Hattr p_ssl_certificate_file "certFile"%string). cbn. tauto.
Defined.

(** X13: on an entity whose attributes are texts the registration
    always returns: it is never undefined and never ends the process.
    It returns the null result exactly when the processing of the
    password fails, that is when the password, from the attribute or
    from the file, starts with [env:] and names a variable that is not
    set; then the error is QD_ERROR_NOT_FOUND, the collection is as it
    was, the failure is the last entry of the log, and the blocks of
    the heap on entry are as they were. *)
Theorem X13_registration_returns getenv fopen entity cm h0 err0 msg0 lg0 :
  valid_profile_entity entity = true ->
  exists r w,
    qd_dispatch_configure_ssl_profile getenv fopen entity (mkWorld cm h0 err0 msg0 lg0)
    = Done (Next r, w) /\
    (r = None <-> processed_password getenv (initial_password fopen entity) = None) /\
    (r = None ->
     locals w = cm /\
     error_code w = QD_ERROR_NOT_FOUND /\
     log w = (lg0 ++ password_warning entity)
               ++ [failure_log "Failed to find a password in the environment variable"] /\
     (forall x, (x < List.length h0)%nat -> nth_error (heap w) x = nth_error h0 x)).
Proof.
  intros Hvalid. destruct cm as [l plugins].
  pose proof (configure_run getenv fopen entity h0 l plugins (fresh_profile_addr l)
                Hvalid (fresh_not_in l) err0 msg0 lg0 eq_refl) as Hrun.
  destruct (processed_password getenv (initial_password fopen entity)) as [final|].
  - destruct Hrun as (p & h & Hrun & _). eexists; eexists. split; [exact Hrun|].
    split; [split; discriminate | discriminate].
  - destruct Hrun as (h & Hrun & Hframe). eexists; eexists. split; [exact Hrun|].
    split; [split; reflexivity|]. intros _. cbn [locals error_code log heap].
    repeat split. exact Hframe.
Qed.

Lemma X13_registration_returns_witness :
  exists w,
    qd_dispatch_configure_ssl_profile no_variables password_files file_password_entity
      (mkWorld example_registry example_heap QD_ERROR_NONE "" [])
    = Done (Next None, w) /\
    locals w = example_registry /\
    error_code w = QD_ERROR_NOT_FOUND.
Proof.
  destruct (X13_registration_returns no_variables password_files file_password_entity
              example_registry example_heap QD_ERROR_NONE "" [] eq_refl)
    as (r & w & Hrun & Hiff & Hfail).
  assert (Hr : r = None) by (apply Hiff; reflexivity).
  subst r. destruct (Hfail eq_refl) as (Hcm & Herr & _).
  exists w. repeat split; assumption.
Defined.

(** X14: after the registration of a profile with a name, in a
    registry whose profiles have names, qd_find_ssl_profile finds by
    any other name what it found before, and by the new name the
    profile that was first registered under it: the new profile where
    the name was free, and the older profile where the name was taken.
    The registration does not refuse a name that is taken. *)
Theorem X14_first_registered_wins getenv fopen entity cm h0 err0 msg0 lg0 final nm :
  valid_profile_entity entity = true ->
  registry_ok h0 cm = true ->
  processed_password getenv (initial_password fopen entity) = Some final ->
  string_attr entity "name" = Some nm ->
  exists a p w,
    qd_dispatch_configure_ssl_profile getenv fopen entity (mkWorld cm h0 err0 msg0 lg0)
    = Done (Next (Some a), w) /\
    sp_addr p = a /\
    In p (config_ssl_profiles (locals w)) /\
    registry_ok (heap w) (locals w) = true /\
    forall (c : qd_server_config_t) name other err msg lg,
      text_at (heap w) name = Some (Some other) ->
      qd_find_ssl_profile (locals w) name (mkWorld c (heap w) err msg lg)
      = Done (Next (match ssl_profile_named h0 (config_ssl_profiles cm) other with
                    | Some q => Some q
                    | None => if streq nm other then Some p else None
                    end),
              mkWorld c (heap w) err msg lg).
Proof.
  intros Hvalid Hreg Hfinal Hname. destruct cm as [l plugins].
  pose proof (configure_run getenv fopen entity h0 l plugins (fresh_profile_addr l)
                Hvalid (fresh_not_in l) err0 msg0 lg0 eq_refl) as Hrun.
  rewrite Hfinal in Hrun. destruct Hrun as (p & h & Hrun & Hp & HO).
  assert (Hregh : registry_ok h (holding l plugins p) = true).
  { apply (registry_ok_holding h0 h l plugins p _ Hreg HO (registered_is_set _ _)).
    exists nm. cbn [registered_slots]. now rewrite Hname. }
  assert (Hold : forall q, In q l -> named_ptr h0 (sp q p_name) = true)
    by (intros q Hq; apply (registry_names h0 _ q Hreg Hq)).
  assert (Hnew : forall q, In q (l ++ [p]) -> named_ptr h (sp q p_name) = true)
    by (intros q Hq; apply (registry_names h _ q Hregh Hq)).
  assert (Hpn : text_at h (sp p p_name) = Some (Some nm)).
  { rewrite (owns_text _ _ _ _ p_name HO (registered_is_set _ _ _)).
    cbn [registered_slots]. now rewrite Hname. }
  exists (fresh_profile_addr l), p. eexists. split; [exact Hrun|].
  cbn [locals heap holding config_ssl_profiles].
  split; [exact Hp|]. split; [apply in_or_app; right; now left|]. split; [exact Hregh|].
  intros c np other err msg lg Hnp. unfold qd_find_ssl_profile.
  erewrite run_read_text by exact Hnp.
  cbn [holding config_ssl_profiles].
  rewrite (find_loop_named h (l ++ [p]) other c err msg lg Hnew).
  rewrite ssl_profile_named_app
    by (intros q Hq; apply Hnew; apply in_or_app; now left).
  rewrite (ssl_profile_named_frame h0 h _ _ HO l other Hold).
  cbn [ssl_profile_named]. rewrite Hpn. reflexivity.
Qed.

Lemma X14_first_registered_wins_witness :
  exists a w,
    qd_dispatch_configure_ssl_profile no_variables no_files same_name_entity
      (mkWorld example_registry example_heap QD_ERROR_NONE "" [])
    = Done (Next (Some a), w) /\
    List.length (config_ssl_profiles (locals w)) = 2%nat /\
    qd_find_ssl_profile (locals w) (Ptr 0) (mkWorld config_zero (heap w) QD_ERROR_NONE "" [])
    = Done (Next (Some example_profile), mkWorld config_zero (heap w) QD_ERROR_NONE "" []).
Proof.
  destruct (X14_first_registered_wins no_variables no_files same_name_entity
              example_registry example_heap QD_ERROR_NONE "" [] None "tls"%string
              eq_refl eq_refl eq_refl eq_refl)
    as (a & p & w & Hrun & _ & _ & _ & Hfind).
  exists a, w. split; [exact Hrun|].
  assert (Hw : heap_read (heap w) 0 = Some "tls"%string
               /\ List.length (config_ssl_profiles (locals w)) = 2%nat).
  { vm_compute in Hrun. injection Hrun as _ <-. split; reflexivity. }
  split; [apply Hw|].
  apply (Hfind config_zero (Ptr 0) "tls"%string).
  cbn [text_at]. now rewrite (proj1 Hw).
Defined.

(** X15: the name of a profile is optional for the registration, but
    not for the lookup.  After the registration of a profile with no
    name, a lookup by a name that no older profile has comes to the
    new profile and compares its null name: qd_find_ssl_profile is
    undefined. *)
Theorem X15_nameless_profile getenv fopen entity cm h0 err0 msg0 lg0 final :
  valid_profile_entity entity = true ->
  registry_ok h0 cm = true ->
  processed_password getenv (initial_password fopen entity) = Some final ->
  string_attr entity "name" = None ->
  exists a w,
    qd_dispatch_configure_ssl_profile getenv fopen entity (mkWorld cm h0 err0 msg0 lg0)
    = Done (Next (Some a), w) /\
    error_code w = QD_ERROR_NONE /\
    forall (c : qd_server_config_t) name other err msg lg,
      text_at (heap w) name = Some (Some other) ->
      ssl_profile_named h0 (config_ssl_profiles cm) other = None ->
      qd_find_ssl_profile (locals w) name (mkWorld c (heap w) err msg lg) = Undefined.
Proof.
  intros Hvalid Hreg Hfinal Hname. destruct cm as [l plugins].
  pose proof (configure_run getenv fopen entity h0 l plugins (fresh_profile_addr l)
                Hvalid (fresh_not_in l) err0 msg0 lg0 eq_refl) as Hrun.
  rewrite Hfinal in Hrun. destruct Hrun as (p & h & Hrun & Hp & HO).
  assert (Hold : forall q, In q l -> named_ptr h0 (sp q p_name) = true)
    by (intros q Hq; apply (registry_names h0 _ q Hreg Hq)).
  exists (fresh_profile_addr l). eexists. split; [exact Hrun|].
  cbn [locals heap error_code holding config_ssl_profiles]. split; [reflexivity|].
  intros c np other err msg lg Hnp Hnone. unfold qd_find_ssl_profile.
  erewrite run_read_text by exact Hnp.
  cbn [holding config_ssl_profiles].
  apply find_loop_nameless.
  - intros q Hq. exact (named_ptr_frame h0 h _ _ HO _ (Hold q Hq)).
  - now rewrite (ssl_profile_named_frame h0 h _ _ HO l other Hold).
  - apply (owns_null _ _ _ _ p_name HO). cbn [registered_slots]. now rewrite Hname.
Qed.

Lemma X15_nameless_profile_witness :
  exists a w,
    qd_dispatch_configure_ssl_profile no_variables no_files nameless_entity
      (mkWorld example_registry example_heap QD_ERROR_NONE "" [])
    = Done (Next (Some a), w) /\
    qd_find_ssl_profile (locals w) (Ptr 1) (mkWorld config_zero (heap w) QD_ERROR_NONE "" [])
    = Undefined.
Proof.
  destruct (X15_nameless_profile no_variables no_files nameless_entity
              example_registry example_heap QD_ERROR_NONE "" [] None
              eq_refl eq_refl eq_refl eq_refl)
    as (a & w & Hrun & _ & Hfind).
  exists a, w. split; [exact Hrun|].
  apply (Hfind config_zero (Ptr 1) "cert.pem"%string); [|reflexivity].
  vm_compute in Hrun. injection Hrun as _ <-. reflexivity.
Defined.

(** X16: a profile registered under a free name, then an endpoint
    that names it.  load_server_config, run in the registry and the
    heap that the registration left, returns QD_ERROR_NONE, and the
    TLS members of the endpoint's configuration read as the attributes
    of the profile's entity: the certificate file as certFile, the key
    file as privateKeyFile, and so on, and the password as the
    processed password, not as the password attribute. *)
Theorem X16_endpoint_uses_registered_profile getenv fopen entity cm h0 err0 msg0 lg0 final nm
    NDEBUG sizeof_size_t endpoint is_listener c1 err1 msg1 lg1 :
  valid_profile_entity entity = true ->
  registry_ok h0 cm = true ->
  processed_password getenv (initial_password fopen entity) = Some final ->
  string_attr entity "name" = Some nm ->
  ssl_profile_named h0 (config_ssl_profiles cm) nm = None ->
  valid_server_entity NDEBUG endpoint is_listener = true ->
  string_attr endpoint "sslProfile" = Some nm ->
  string_attr endpoint "saslPlugin" = None ->
  exists a w1 w2,
    qd_dispatch_configure_ssl_profile getenv fopen entity (mkWorld cm h0 err0 msg0 lg0)
    = Done (Next (Some a), w1) /\
    load_server_config NDEBUG sizeof_size_t (locals w1) endpoint is_listener
                       (mkWorld c1 (heap w1) err1 msg1 lg1)
    = Done (Next QD_ERROR_NONE, w2) /\
    text_at (heap w2) (strs (locals w2) f_ssl_password) = Some final /\
    (forall m pm attribute,
       In (m, pm) tls_members -> In (pm, attribute) profile_attributes ->
       text_at (heap w2) (strs (locals w2) m) = Some (string_attr entity attribute)).
Proof.
  intros Hvalid Hreg Hfinal Hname Hfree Hendpoint Hssl Hplug. destruct cm as [l plugins].
  pose proof (configure_run getenv fopen entity h0 l plugins (fresh_profile_addr l)
                Hvalid (fresh_not_in l) err0 msg0 lg0 eq_refl) as Hrun.
  rewrite Hfinal in Hrun. destruct Hrun as (p & h & Hrun & Hp & HO).
  assert (Hregh : registry_ok h (holding l plugins p) = true).
  { apply (registry_ok_holding h0 h l plugins p _ Hreg HO (registered_is_set _ _)).
    exists nm. cbn [registered_slots]. now rewrite Hname. }
  assert (Hold : forall q, In q l -> named_ptr h0 (sp q p_name) = true)
    by (intros q Hq; apply (registry_names h0 _ q Hreg Hq)).
  assert (Hread : forall pm, text_at h (sp p pm) = Some (slot_text (registered_slots entity final pm)))
    by (intros pm; apply (owns_text _ _ _ _ pm HO (registered_is_set _ _ _))).
  assert (Hfound : ssl_profile_named h (config_ssl_profiles (holding l plugins p)) nm = Some p).
  { cbn [holding config_ssl_profiles].
    rewrite ssl_profile_named_app
      by (intros q Hq; exact (named_ptr_frame h0 h _ _ HO _ (Hold q Hq))).
    rewrite (ssl_profile_named_frame h0 h _ _ HO l nm Hold).
    cbn [config_ssl_profiles] in Hfree. rewrite Hfree.
    cbn [ssl_profile_named]. rewrite (Hread p_name). cbn [registered_slots].
    rewrite Hname. cbn [slot_of slot_text]. unfold streq. now rewrite String.eqb_refl. }
  assert (Hres : auth_plugin_resolves h (holding l plugins p) endpoint = true)
    by (unfold auth_plugin_resolves; now rewrite Hplug).
  destruct (resolution_succeeds NDEBUG sizeof_size_t (holding l plugins p) endpoint is_listener
                                c1 h err1 msg1 lg1 Hendpoint Hregh Hres)
    as (c' & h' & lg' & c & h2 & extra & T & _ & Hload & _ & HO2 & Htls).
  assert (Hcopy : forall m pm, In (m, pm) tls_members ->
                    text_at h2 (strs c m) = Some (slot_text (registered_slots entity final pm))).
  { intros m pm Hin. rewrite <- Hread. apply (copy_reads _ _ _ T); [exact HO2 | |].
    - rewrite (Htls _ _ Hin). unfold tls_slot. now rewrite Hssl, Hfound.
    - unfold valid_ptr. now rewrite Hread. }
  exists (fresh_profile_addr l). eexists. eexists.
  split; [exact Hrun|]. cbn [locals heap]. split; [exact Hload|]. cbn [locals heap]. split.
  - rewrite (Hcopy f_ssl_password p_ssl_password) by (cbn; tauto).
    cbn [registered_slots]. now rewrite slot_text_slot_of.
  - intros m pm attribute Hin Hattr. rewrite (Hcopy m pm Hin).
    rewrite (registered_attribute _ _ _ _ Hattr). now rewrite slot_text_slot_of.
Qed.

Lemma X16_endpoint_uses_registered_profile_witness :
  exists a w1 w2,
    qd_dispatch_configure_ssl_profile secret_environment password_files file_password_entity
      (mkWorld example_registry example_heap QD_ERROR_NONE "" [])
    = Done (Next (Some a), w1) /\
    load_server_config false 8 (locals w1) tls2_endpoint false
                       (mkWorld config_zero (heap w1) QD_ERROR_NONE "" [])
    = Done (Next QD_ERROR_NONE, w2) /\
    text_at (heap w2) (strs (locals w2) f_ssl_password) = Some (Some "s3cret"%string) /\
    text_at (heap w2) (strs (locals w2) f_ssl_certificate_file) = Some (Some "c2.pem"%string).
Proof.
  destruct (X16_endpoint_uses_registered_profile
              secret_environment password_files file_password_entity
              example_registry example_heap QD_ERROR_NONE "" [] (Some "s3cret"%string)
              "tls2"%string false 8 tls2_endpoint false config_zero QD_ERROR_NONE "" []
              eq_refl eq_refl eq_refl eq_refl eq_refl eq_refl eq_refl eq_refl)
    as (a & w1 & w2 & Hrun & Hload & Hpw & Hattr).
  exists a, w1, w2. split; [exact Hrun|]. split; [exact Hload|]. split; [exact Hpw|].
  apply (Hattr f_ssl_certificate_file p_ssl_certificate_file "certFile"%string); cbn; tauto.
Defined.

(** ** Deletion of a registered TLS profile *)

Module DeletionFacts.
Import Ownership Registered HeapFacts RunFacts ResolveFacts AttributeFacts ProfileFacts.
Import BlockFacts RegistrationFacts RegistrationMoreFacts RegistryFacts.

(** The members of a profile released one after the other: their
    blocks are released, the other blocks are as they were. *)
Lemma free_profile_members_released p ms :
  NoDup ms -> forall (c : qd_connection_manager_t) h err msg lg,
  (forall m1 m2 a, sp p m1 = Ptr a -> sp p m2 = Ptr a -> m1 = m2) ->
  (forall m, In m ms -> text_at h (sp p m) <> None) ->
  exists h',
    free_profile_members p ms (mkWorld c h err msg lg)
    = Done (Next tt, mkWorld c h' err msg lg) /\
    (forall a, (forall m, In m ms -> sp p m <> Ptr a) -> nth_error h' a = nth_error h a) /\
    (forall m a, In m ms -> sp p m = Ptr a -> heap_read h' a = None).
Proof.
  induction 1 as [|m ms Hnotin Hnd IH]; intros c h err msg lg Hinj Hlive.
  - exists h. split; [reflexivity|]. split; [reflexivity|]. intros m a [].
  - cbn [free_profile_members].
    pose proof (Hlive m (or_introl eq_refl)) as Hm.
    destruct (sp p m) as [|a|] eqn:Em.
    + rewrite run_free_null.
      destruct (IH c h err msg lg Hinj) as (h' & Hrun & Hframe & Hgone).
      { intros m' Hin. apply Hlive. now right. }
      exists h'. split; [exact Hrun|]. split.
      * intros a Ha. apply Hframe. intros m' Hin. apply Ha. now right.
      * intros m' a [<-|Hin] Hp; [congruence | now apply (Hgone m')].
    + cbn [text_at] in Hm. destruct (heap_read h a) as [s|] eqn:Hr; [|now contradiction Hm].
      erewrite run_free by exact Hr.
      destruct (IH c (heap_write h a None) err msg lg Hinj) as (h' & Hrun & Hframe & Hgone).
      { intros m' Hin. pose proof (Hlive m' (or_intror Hin)) as Hm'.
        destruct (sp p m') as [|a'|] eqn:Em'; try assumption.
        cbn [text_at] in *. rewrite heap_read_write_other; [assumption|].
        intros <-. apply Hnotin. now rewrite (Hinj m m' a Em Em'). }
      exists h'. split; [exact Hrun|]. split.
      * intros b Hb. rewrite Hframe by (intros m' Hin; apply Hb; now right).
        rewrite nth_error_heap_write.
        destruct (Nat.eqb b a) eqn:E; [|reflexivity].
        apply Nat.eqb_eq in E. subst b. exfalso. apply (Hb m); [now left | assumption].
      * intros m' b [<-|Hin] Hp; [|now apply (Hgone m')].
        assert (b = a) by congruence. subst b.
        unfold heap_read. rewrite Hframe.
        -- rewrite nth_error_heap_write, Nat.eqb_refl. now destruct (nth_error h a).
        -- intros m' Hin Hp'. apply Hnotin. now rewrite (Hinj m m' a Em Hp').
    + now contradiction Hm.
Qed.

Lemma all_profile_members m : In m profile_members.
Proof. destruct m; cbn; tauto. Qed.

Lemma profile_at_fresh l a :
  (forall q, In q l -> Nat.eqb (sp_addr q) a = false) -> profile_at a l = None.
Proof.
  intros Hl. induction l as [|q l IH]; [reflexivity|].
  cbn [profile_at]. rewrite (Hl q (or_introl eq_refl)).
  apply IH. intros q' Hq'. apply Hl. now right.
Qed.

(** The deletion of the last profile of the collection, and the
    deletion after it. *)
Lemma delete_profile_run h0 l plugins a p h T err msg lg :
  (forall q, In q l -> Nat.eqb (sp_addr q) a = false) ->
  sp_addr p = a -> powns h0 h p T -> (forall m, is_set (T m) = true) ->
  exists h',
    qd_connection_manager_delete_ssl_profile a (mkWorld (holding l plugins p) h err msg lg)
    = Done (Next tt,
            mkWorld {| config_ssl_profiles := l; config_sasl_plugins := plugins |}
                    h' err msg lg) /\
    (forall x, (x < List.length h0)%nat -> nth_error h' x = nth_error h0 x) /\
    (forall m x, sp p m = Ptr x -> heap_read h' x = None) /\
    qd_connection_manager_delete_ssl_profile a
      (mkWorld {| config_ssl_profiles := l; config_sasl_plugins := plugins |} h' err msg lg)
    = Undefined.
Proof.
  intros Hfresh Hp HO Hset.
  destruct (free_profile_members_released p profile_members NoDup_profile_members
              {| config_ssl_profiles := l; config_sasl_plugins := plugins |} h err msg lg)
    as (h' & Hrun & Hframe & Hgone).
  - apply (owns_inj _ _ _ _ HO).
  - intros m _. rewrite (owns_text _ _ _ _ _ HO (Hset m)). discriminate.
  - exists h'. split; [|split; [|split]].
    + unfold qd_connection_manager_delete_ssl_profile, config_ssl_profile_free.
      rewrite run_assoc, run_get_locals.
      cbn [holding config_ssl_profiles]. rewrite (profile_at_last l a p Hfresh Hp).
      rewrite !run_assoc, run_modify. unfold with_profiles, holding.
      cbn [config_ssl_profiles config_sasl_plugins].
      rewrite (profile_remove_last l a p Hfresh Hp).
      rewrite ?run_assoc. erewrite run_bind by exact Hrun. reflexivity.
    + intros x Hx. rewrite Hframe; [now apply (owns_old _ _ _ _ HO)|].
      intros m _ Hm. pose proof (owns_txt _ _ _ _ HO m) as Hs. rewrite Hm in Hs.
      unfold slot_ok in Hs. destruct (T m); try contradiction. lia.
    + intros m x. apply Hgone, all_profile_members.
    + unfold qd_connection_manager_delete_ssl_profile, config_ssl_profile_free.
      rewrite run_assoc, run_get_locals. cbn [config_ssl_profiles].
      now rewrite (profile_at_fresh l a Hfresh).
Qed.

End DeletionFacts.

Import DeletionFacts.

(** X17: a profile that was registered and is then deleted.
    qd_connection_manager_delete_ssl_profile returns with the
    collection as it was before the registration, every block of the
    profile's members released, and the blocks of the heap before the
    registration as they were: the two calls leave nothing behind.  A
    second deletion through the same handle finds no profile: it goes
    through a dangling pointer. *)
Theorem X17_register_then_delete getenv fopen entity cm h0 err0 msg0 lg0 final :
  valid_profile_entity entity = true ->
  processed_password getenv (initial_password fopen entity) = Some final ->
  exists a p w1 w2,
    qd_dispatch_configure_ssl_profile getenv fopen entity (mkWorld cm h0 err0 msg0 lg0)
    = Done (Next (Some a), w1) /\
    In p (config_ssl_profiles (locals w1)) /\
    sp_addr p = a /\
    qd_connection_manager_delete_ssl_profile a w1 = Done (Next tt, w2) /\
    locals w2 = cm /\
    (forall m x, sp p m = Ptr x -> heap_read (heap w2) x = None) /\
    (forall x, (x < List.length h0)%nat -> nth_error (heap w2) x = nth_error h0 x) /\
    qd_connection_manager_delete_ssl_profile a w2 = Undefined.
Proof.
  intros Hvalid Hfinal. destruct cm as [l plugins].
  pose proof (configure_run getenv fopen entity h0 l plugins (fresh_profile_addr l)
                Hvalid (fresh_not_in l) err0 msg0 lg0 eq_refl) as Hrun.
  rewrite Hfinal in Hrun. destruct Hrun as (p & h & Hrun & Hp & HO).
  destruct (delete_profile_run h0 l plugins (fresh_profile_addr l) p h _ QD_ERROR_NONE ""
              ((lg0 ++ password_warning entity) ++ [created_log (string_attr entity "name")])
              (fresh_not_in l) Hp HO (registered_is_set _ _))
    as (h' & Hdel & Hframe & Hgone & Htwice).
  exists (fresh_profile_addr l), p. eexists. eexists.
  split; [exact Hrun|]. cbn [locals holding config_ssl_profiles].
  split; [apply in_or_app; right; now left|]. split; [exact Hp|].
  split; [exact Hdel|]. cbn [locals heap].
  split; [reflexivity|]. split; [exact Hgone|]. split; [exact Hframe | exact Htwice].
Qed.

Lemma X17_register_then_delete_witness :
  exists a w1 w2,
    qd_dispatch_configure_ssl_profile secret_environment password_files file_password_entity
      (mkWorld example_registry example_heap QD_ERROR_NONE "" [])
    = Done (Next (Some a), w1) /\
    qd_connection_manager_delete_ssl_profile a w1 = Done (Next tt, w2) /\
    locals w2 = example_registry /\
    qd_connection_manager_delete_ssl_profile a w2 = Undefined.
Proof.
  destruct (X17_register_then_delete secret_environment password_files file_password_entity
              example_registry example_heap QD_ERROR_NONE "" [] (Some "s3cret"%string)
              eq_refl eq_refl)
    as (a & p & w1 & w2 & Hrun & _ & _ & Hdel & Hcm & _ & _ & Htwice).
  exists a, w1, w2. repeat split; assumption.
Defined.

(** ** The creation of a connector *)

Module ConnectorFacts.
Import Ownership Settings HeapFacts RunFacts ResolveFacts AttributeFacts ProfileFacts.
Import BlockFacts ResolutionFacts SettingsFacts FailoverFacts.

(** The run of qd_dispatch_configure_connector where the resolution
    succeeds. *)
Lemma configure_connector_run NDEBUG sizeof_size_t cm entity ct m c0 h0 err0 msg0 lg0 hs ps :
  valid_server_entity NDEBUG entity false = true ->
  registry_ok h0 cm = true ->
  auth_plugin_resolves h0 cm entity = true ->
  string_attr entity "host" = Some hs ->
  string_attr entity "port" = Some ps ->
  strlen hs + strlen ps + 2 <= INT_MAX ->
  exists w lg,
    let tls := has_text entity "sslProfile" && bool_attr entity "requireSsl" false in
    let ct' := with_item ct (Failover.own_address tls hs ps) in
    qd_dispatch_configure_connector NDEBUG sizeof_size_t cm entity (Some ct) m
                                    (mkWorld c0 h0 err0 msg0 lg0)
    = Done (Next (Some ct', insert_connector ct' m, []), w) /\
    error_code w = QD_ERROR_NONE /\
    log w = lg ++ [{| level := QD_LOG_INFO;
                      format := "Configured %s: %s proto=%s, role=%s%s%s%s";
                      args := [LText (Some "Connector"%string);
                               LText (Some (hs ++ ":" ++ ps)%string);
                               LText (Some match string_attr entity "protocolFamily" with
                                           | Some s => s
                                           | None => "any"%string
                                           end);
                               LText (string_attr entity "role");
                               LText (Some (if bool_attr entity "http" false
                                                || has_text entity "httpRootDir"
                                            then ", http" else "")%string);
                               LText (Some match string_attr entity "sslProfile" with
                                           | Some _ => ", sslProfile="%string
                                           | None => ""%string
                                           end);
                               LText (Some match string_attr entity "sslProfile" with
                                           | Some s => s
                                           | None => ""%string
                                           end)] |}].
Proof.
  intros Hvalid Hreg Hres Hhost Hport Hlen.
  destruct (resolution_settings NDEBUG sizeof_size_t cm entity false
                                c0 h0 err0 msg0 lg0 Hvalid Hreg Hres)
    as (c & h & lg & T & Hrun & HO & Hset & (Htexts & _ & Hflags & Htls) & _).
  destruct Htexts as ((hs' & ps' & Hhs & Hps & Hh & Hp & Hhp) & _ & _ & Hrole & Hfam
                      & _ & _ & _ & _ & Hssl & _).
  rewrite Hhost in Hhs. injection Hhs as <-. rewrite Hport in Hps. injection Hps as <-.
  assert (Hread : forall x, text_at h (strs c x) = Some (slot_text (T x)))
    by (intros x; apply (cowns_text _ _ _ _ _ HO), Hset).
  destruct Hflags as (_ & Hhttp & _). destruct Htls as (Hreq & _).
  eexists. exists lg. cbv zeta.
  unfold qd_dispatch_configure_connector.
  erewrite run_bind by exact Hrun. cbn [is_error].
  unfold log_config. rewrite !run_assoc, run_get_locals.
  rewrite !run_assoc. erewrite run_read_opt by apply Hread.
  rewrite !run_assoc. erewrite run_read_opt by apply Hread.
  rewrite !run_assoc. erewrite run_read_opt by apply Hread.
  rewrite !run_assoc. erewrite run_read_opt by apply Hread.
  rewrite run_log, run_get_locals.
  erewrite run_read_text by (rewrite Hread, Hh; reflexivity).
  erewrite run_read_text by (rewrite Hread, Hp; reflexivity).
  replace (INT_MAX <? strlen hs + strlen ps + 2) with false
    by (symmetry; apply Z.ltb_ge; exact Hlen).
  rewrite Hreq, Hhttp, Hhp, Hrole, Hfam, Hssl, !slot_text_slot_of.
  cbn [slot_text]. unfold ret.
  split; [reflexivity|]. split; [reflexivity|]. cbn [log].
  destruct (string_attr entity "sslProfile"); reflexivity.
Qed.

(** The length of the text of the connector's own address. *)
Lemma own_address_length tls hs ps :
  Failover.get_failover_info_length [Failover.own_address tls hs ps]
  = strlen (if tls then "amqps" else "amqp")%string + 3 + (strlen hs + 1 + strlen ps) + 1.
Proof.
  unfold Failover.get_failover_info_length, Failover.own_address.
  cbn [Failover.failover_length_loop scheme host_port].
  rewrite !strlen_append.
  pose proof (strlen_nonneg hs). pose proof (strlen_nonneg ps).
  assert (Hs : 0 < strlen (if tls then "amqps" else "amqp")%string)
    by (destruct tls; reflexivity).
  change (strlen ":") with 1.
  destruct (Z.ltb_spec 0 (0 + (strlen (if tls then "amqps" else "amqp")%string + 3)
                          + (strlen hs + (1 + strlen ps)))); lia.
Qed.

End ConnectorFacts.

Import Ownership Settings HeapFacts RunFacts ResolveFacts AttributeFacts ProfileFacts.
Import BlockFacts ResolutionFacts SettingsFacts ConnectorFacts.

(** X18: on a well-formed entity whose auth plugin resolves, and an
    object from qd_server_connector, qd_dispatch_configure_connector
    returns the connector with one item more at the tail of its list:
    its own address, with the scheme amqps where the entity names a
    TLS profile and requires TLS, and amqp otherwise, and with the
    host and the port of the entity.  The connector is at the tail of
    the manager's collection, the last entry of the log is that of
    log_config, and nothing is released. *)
Theorem X18_connector_own_address NDEBUG sizeof_size_t cm entity ct m c0 h0 err0 msg0 lg0 hs ps :
  valid_server_entity NDEBUG entity false = true ->
  registry_ok h0 cm = true ->
  auth_plugin_resolves h0 cm entity = true ->
  string_attr entity "host" = Some hs ->
  string_attr entity "port" = Some ps ->
  strlen hs + strlen ps + 2 <= INT_MAX ->
  exists w lg,
    let tls := has_text entity "sslProfile" && bool_attr entity "requireSsl" false in
    let ct' := with_item ct (Failover.own_address tls hs ps) in
    qd_dispatch_configure_connector NDEBUG sizeof_size_t cm entity (Some ct) m
                                    (mkWorld c0 h0 err0 msg0 lg0)
    = Done (Next (Some ct', insert_connector ct' m, []), w) /\
    error_code w = QD_ERROR_NONE /\
    log w = lg ++ [{| level := QD_LOG_INFO;
                      format := "Configured %s: %s proto=%s, role=%s%s%s%s";
                      args := [LText (Some "Connector"%string);
                               LText (Some (hs ++ ":" ++ ps)%string);
                               LText (Some match string_attr entity "protocolFamily" with
                                           | Some s => s
                                           | None => "any"%string
                                           end);
                               LText (string_attr entity "role");
                               LText (Some (if bool_attr entity "http" false
                                                || has_text entity "httpRootDir"
                                            then ", http" else "")%string);
                               LText (Some match string_attr entity "sslProfile" with
                                           | Some _ => ", sslProfile="%string
                                           | None => ""%string
                                           end);
                               LText (Some match string_attr entity "sslProfile" with
                                           | Some s => s
                                           | None => ""%string
                                           end)] |}].
Proof. apply configure_connector_run. Qed.


Lemma X18_connector_own_address_witness :
  exists w,
    qd_dispatch_configure_connector false 8 example_registry tls_entity
      (Some unplaced_connector) example_manager (example_world example_heap)
    = Done (Next (Some (with_item unplaced_connector (Failover.own_address false "0.0.0.0" "5672")),
                  insert_connector
                    (with_item unplaced_connector (Failover.own_address false "0.0.0.0" "5672"))
                    example_manager,
                  []), w) /\
    error_code w = QD_ERROR_NONE.
Proof.
  destruct (X18_connector_own_address false 8 example_registry tls_entity unplaced_connector
              example_manager config_zero example_heap QD_ERROR_NONE "" []
              "0.0.0.0"%string "5672"%string eq_refl eq_refl eq_refl eq_refl eq_refl)
    as (w & lg & Hrun & Herr & _).
  - vm_compute. discriminate.
  - exists w. split; [exact Hrun | exact Herr].
Defined.


(** X19: the connector is not created where the resolution fails or
    where there is no object.  With an auth plugin that is not
    registered the function returns the null result, leaves the
    manager as it was, gives the object back with one release, and
    the last entry of the log carries the message of the resolution,
    which names the plugin that was not found;
    the configuration is zeroed and the blocks of the heap on entry
    are as they were.  With no object from qd_server_connector it
    returns the null result after one entry in the log, which carries
    whatever message was on record on entry. *)
Theorem X19_connector_not_created NDEBUG sizeof_size_t cm entity m c0 h0 err0 msg0 lg0 :
  valid_server_entity NDEBUG entity false = true ->
  registry_ok h0 cm = true ->
  (forall ct nm,
      string_attr entity "saslPlugin" = Some nm ->
      sasl_plugin_named h0 (config_sasl_plugins cm) nm = None ->
      exists w lg,
        qd_dispatch_configure_connector NDEBUG sizeof_size_t cm entity (Some ct) m
                                        (mkWorld c0 h0 err0 msg0 lg0)
        = Done (Next (None, m, [Lifecycle.Decref (ct_addr ct)]), w) /\
        locals w = config_zero /\
        error_code w = QD_ERROR_RUNTIME /\
        log w = lg ++ [{| level := QD_LOG_ERROR;
                          format := "Unable to create connector: %s";
                          args := [LText (Some ("Cannot find sasl plugin " ++ nm)%string)] |}] /\
        (forall a, (a < List.length h0)%nat -> nth_error (heap w) a = nth_error h0 a)) /\
  qd_dispatch_configure_connector NDEBUG sizeof_size_t cm entity None m
                                  (mkWorld c0 h0 err0 msg0 lg0)
  = Done (Next (None, m, []),
          mkWorld c0 h0 err0 msg0
                  (lg0 ++ [{| level := QD_LOG_ERROR;
                              format := "Unable to create connector: %s";
                              args := [LText (Some msg0)] |}])).
Proof.
  intros Hvalid Hreg. split; [|reflexivity].
  intros ct nm Hattr Hnone.
  destruct (resolution_fails NDEBUG sizeof_size_t cm entity false
                             c0 h0 err0 msg0 lg0 Hvalid Hreg nm Hattr Hnone)
    as (lg & h & Hrun & Hframe).
  eexists. exists lg. unfold qd_dispatch_configure_connector.
  erewrite run_bind by exact Hrun. cbn [is_error].
  split; [reflexivity|]. cbn [locals error_code log heap].
  repeat (split; [reflexivity|]). exact Hframe.
Qed.

Lemma X19_connector_not_created_witness :
  exists w,
    qd_dispatch_configure_connector false 8 empty_manager lost_auth_entity
      (Some unplaced_connector) example_manager (example_world [])
    = Done (Next (None, example_manager, [Lifecycle.Decref (ct_addr unplaced_connector)]), w) /\
    locals w = config_zero /\
    exists lg,
      log w = lg ++ [{| level := QD_LOG_ERROR;
                        format := "Unable to create connector: %s";
                        args := [LText (Some "Cannot find sasl plugin nope"%string)] |}].
Proof.
  destruct (proj1 (X19_connector_not_created false 8 empty_manager lost_auth_entity
                     example_manager config_zero [] QD_ERROR_NONE "" [] eq_refl eq_refl)
                  unplaced_connector "nope"%string eq_refl eq_refl)
    as (w & lg & Hrun & Hzero & _ & Hlog & _).
  exists w. split; [exact Hrun|]. split; [exact Hzero|]. exists lg. exact Hlog.
Defined.

(** X20: a connector that is created and then refreshed.  For an
    object with an empty list and the start position 1, the address
    list that qd_entity_refresh_connector reports for the connector
    that qd_dispatch_configure_connector returned is the connector's
    own address and nothing else: amqps://host:port where the entity
    names a TLS profile and requires TLS, amqp://host:port
    otherwise. *)
Theorem X20_created_connector_refreshed NDEBUG sizeof_size_t cm entity ct m c0 h0 err0 msg0 lg0
    hs ps fuel :
  valid_server_entity NDEBUG entity false = true ->
  registry_ok h0 cm = true ->
  auth_plugin_resolves h0 cm entity = true ->
  string_attr entity "host" = Some hs ->
  string_attr entity "port" = Some ps ->
  strlen hs + strlen ps + 10 < INT_MAX ->
  conn_info_list ct = [] ->
  conn_index ct = 1 ->
  (2 <= fuel)%nat ->
  exists w ct' m',
    qd_dispatch_configure_connector NDEBUG sizeof_size_t cm entity (Some ct) m
                                    (mkWorld c0 h0 err0 msg0 lg0)
    = Done (Next (Some ct', m', []), w) /\
    Failover.qd_entity_refresh_connector fuel ct'
    = Done ((if has_text entity "sslProfile" && bool_attr entity "requireSsl" false
             then "amqps" else "amqp") ++ "://" ++ hs ++ ":" ++ ps)%string.
Proof.
  intros Hvalid Hreg Hres Hhost Hport Hlen Hlist Hindex Hfuel.
  destruct (configure_connector_run NDEBUG sizeof_size_t cm entity ct m c0 h0 err0 msg0 lg0
              hs ps Hvalid Hreg Hres Hhost Hport ltac:(lia))
    as (w & lg & Hrun & _).
  cbv zeta in Hrun. eexists. eexists. eexists. split; [exact Hrun|].
  set (tls := has_text entity "sslProfile" && bool_attr entity "requireSsl" false).
  pose proof (own_address_length tls hs ps) as Hcap.
  pose proof (strlen_nonneg hs). pose proof (strlen_nonneg ps).
  assert (Hs : 0 < strlen (if tls then "amqps" else "amqp")%string <= 5)
    by (destruct tls; split; vm_compute; congruence).
  rewrite FailoverFacts.refresh_connector_rotation;
    cbn [with_item conn_info_list conn_index]; rewrite Hlist, ?Hindex; cbn [app List.length].
  - cbn. unfold Failover.failover_url, Failover.own_address. cbn [scheme host_port].
    now rewrite append_assoc.
  - lia.
  - rewrite Hcap. lia.
  - lia.
Qed.

Lemma X20_created_connector_refreshed_witness :
  exists w ct' m',
    qd_dispatch_configure_connector false 8 example_registry tls_entity
      (Some unplaced_connector_empty) example_manager (example_world example_heap)
    = Done (Next (Some ct', m', []), w) /\
    Failover.qd_entity_refresh_connector 2 ct' = Done "amqp://0.0.0.0:5672"%string.
Proof.
  destruct (X20_created_connector_refreshed false 8 example_registry tls_entity
              unplaced_connector_empty example_manager config_zero example_heap
              QD_ERROR_NONE "" [] "0.0.0.0"%string "5672"%string 2
              eq_refl eq_refl eq_refl eq_refl eq_refl)
    as (w & ct' & m' & Hrun & Hrefresh).
  - vm_compute. reflexivity.
  - reflexivity.
  - reflexivity.
  - lia.
  - exists w, ct', m'. split; assumption.
Defined.

(** ** Start and deletion: process exit, flags, and what a deletion leaves to start *)

Module LifecycleMoreFacts.
Import Lifecycle LifecycleSpec LifecycleFacts.

(** The listener loop ends the process exactly on a failed attempt
    during the first start. *)
Lemma start_listeners_aborted d fs lis :
  start_listeners d fs lis = Aborted <->
  fs = true /\
  exists li, In li lis /\ listener_active li = false /\ snd (qd_listener_listen d li) = false.
Proof.
  induction lis as [|l lis IH]; cbn [start_listeners].
  - split; [discriminate | intros (_ & li & [] & _)].
  - assert (Hrec : forall f : list qd_listener_t * list event
                               -> outcome (list qd_listener_t * list event),
               (forall x, f x <> Aborted) ->
               (obind (start_listeners d fs lis) f = Aborted
                <-> start_listeners d fs lis = Aborted)).
    { intros f Hf. destruct (start_listeners d fs lis) as [x| | |]; cbn [obind];
        split; try discriminate; try reflexivity. intros H. now apply Hf in H. }
    unfold listener_active in *. destruct (pn_listener l) as [pn|] eqn:Epn.
    + rewrite Hrec by (intros [rest evs]; discriminate). rewrite IH.
      split; intros (Hfs & li & Hin & Hact & Hfail); (split; [exact Hfs|]); exists li.
      * split; [now right | now split].
      * destruct Hin as [<-|Hin]; [rewrite Epn in Hact; discriminate | now split].
    + destruct (qd_listener_listen d l) as [l' ok] eqn:El.
      destruct (negb ok && fs) eqn:Eb.
      * apply andb_true_iff in Eb as [Hok ->]. apply negb_true_iff in Hok. subst ok.
        split; [intros _|reflexivity]. split; [reflexivity|]. exists l.
        split; [now left|]. rewrite Epn, El. now split.
      * rewrite Hrec by (intros [rest evs]; discriminate). rewrite IH.
        split; intros (Hfs & li & Hin & Hact & Hfail); (split; [exact Hfs|]); exists li.
        -- split; [now right | now split].
        -- destruct Hin as [<-|Hin]; [|now split].
           rewrite El in Hfail. cbn in Hfail. subst ok fs. discriminate Eb.
Qed.

(** The listener loop returns or ends the process. *)
Lemma start_listeners_total d fs lis :
  (exists lis' evs, start_listeners d fs lis = Done (lis', evs)) \/
  start_listeners d fs lis = Aborted.
Proof.
  induction lis as [|l lis IH]; cbn [start_listeners]; [left; eauto|].
  destruct (pn_listener l).
  - destruct IH as [(lis' & evs & ->)| ->]; cbn [obind]; [left; eauto | now right].
  - destruct (qd_listener_listen d l) as [l' ok].
    destruct (negb ok && fs); [now right|].
    destruct IH as [(lis' & evs & ->)| ->]; cbn [obind]; [left; eauto | now right].
Qed.

(** The connector loop returns, or reads an address that has no
    object. *)
Lemma start_connectors_total d ct : forall objs,
  (exists objs' evs, start_connectors d ct objs = Done (objs', evs)) \/
  start_connectors d ct objs = Undefined.
Proof.
  induction ct as [|a ct IH]; intros objs; cbn [start_connectors]; [left; eauto|].
  destruct (object_at a objs) as [c|]; [|now right].
  destruct (connector_active c); [apply IH|].
  destruct (IH (object_store (qd_connector_connect d c) objs)) as [(objs' & evs & ->)| ->];
    cbn [obind]; [left; eauto | now right].
Qed.

(** The listeners after the loop: an accepting listener is as it was,
    an attempted one has the flag of the call. *)
Lemma start_listeners_flags d fs lis lis' evs :
  start_listeners d fs lis = Done (lis', evs) ->
  Forall2 (fun li li' =>
             if listener_active li then li' = li
             else li' = set_exit_on_error fs (fst (qd_listener_listen d li)))
          lis lis'.
Proof.
  revert lis' evs. induction lis as [|l lis IH]; intros lis' evs; cbn [start_listeners].
  - intros [= <- <-]. constructor.
  - unfold listener_active at 1. destruct (pn_listener l) as [pn|] eqn:Epn.
    + destruct (start_listeners d fs lis) as [[rest e]| | |]; cbn [obind]; try discriminate.
      intros [= <- <-]. constructor; [|now apply (IH rest e)].
      unfold listener_active. now rewrite Epn.
    + destruct (qd_listener_listen d l) as [l' ok] eqn:El.
      destruct (negb ok && fs); [discriminate|].
      destruct (start_listeners d fs lis) as [[rest e]| | |]; cbn [obind]; try discriminate.
      intros [= <- <-]. constructor; [|now apply (IH rest e)].
      unfold listener_active. now rewrite Epn, El.
Qed.

Lemma deq_remove_gone a l : NoDup l -> ~ In a (deq_remove a l).
Proof.
  induction 1 as [|x l Hx Hnd IH]; cbn [deq_remove]; [intros []|].
  destruct (Nat.eqb x a) eqn:E.
  - apply Nat.eqb_eq in E. now subst.
  - intros [->|Hin]; [now rewrite Nat.eqb_refl in E | now apply IH].
Qed.

Lemma deq_remove_subset a l x : In x (deq_remove a l) -> In x l.
Proof.
  induction l as [|y l IH]; cbn [deq_remove]; [intros []|].
  destruct (Nat.eqb y a); [now right|]. intros [->|Hin]; [now left | right; now apply IH].
Qed.

End LifecycleMoreFacts.

Import Lifecycle LifecycleSpec LifecycleFacts LifecycleMoreFacts.

(** X21: qd_connection_manager_start ends the process exactly when it
    is the first start and the listen attempt fails on a listener that
    is not accepting; a later start never ends the process, whatever
    fails.  A start that does not end the process returns, unless the
    collection holds the address of a connector that has no object. *)
Theorem X21_start_exit (d : driver) (m : manager) :
  (qd_connection_manager_start d m = Aborted <->
   first_start m = true /\
   exists li, In li (listeners m) /\ listener_active li = false /\
              snd (qd_listener_listen d li) = false) /\
  qd_connection_manager_start d m <> OutOfFuel /\
  ((forall a, In a (connectors m) -> object_at a (connector_objects m) <> None) ->
   (forall c, ct_addr (qd_connector_connect d c) = ct_addr c) ->
   qd_connection_manager_start d m <> Undefined).
Proof.
  unfold qd_connection_manager_start.
  pose proof (start_listeners_aborted d (first_start m) (listeners m)) as Habort.
  destruct (start_listeners_total d (first_start m) (listeners m))
    as [(lis & evs1 & Hl)|Hl]; rewrite Hl in *; cbn [obind].
  - destruct (start_connectors_total d (connectors m) (connector_objects m))
      as [(objs & evs2 & Hc)|Hc]; rewrite Hc; cbn [obind].
    + split; [|split; [discriminate | intros; discriminate]].
      split; [discriminate | intros H; apply Habort in H; discriminate].
    + split; [|split; [discriminate|]].
      * split; [discriminate | intros H; apply Habort in H; discriminate].
      * intros Hobj Haddr _. revert Hobj Hc.
        generalize (connector_objects m) as objs.
        induction (connectors m) as [|a ct IH]; intros objs Hobj; cbn [start_connectors];
          [discriminate|].
        destruct (object_at a objs) as [c|] eqn:Ea;
          [|now contradiction (Hobj a (or_introl eq_refl))].
        destruct (connector_active c).
        -- apply IH. intros x Hx. apply Hobj. now right.
        -- destruct (start_connectors d ct (object_store (qd_connector_connect d c) objs))
             as [[objs' e]| | |] eqn:E; cbn [obind]; try discriminate.
           intros _. revert E. apply IH. intros x Hx.
           rewrite object_at_store, Haddr.
           destruct (Nat.eqb (ct_addr c) x);
             [|apply Hobj; now right].
           pose proof (Hobj x (or_intror Hx)) as Hsome.
           destruct (object_at x objs); [discriminate | contradiction].
  - split; [|split; [discriminate | intros; discriminate]].
    split; [intros _; now apply Habort | reflexivity].
Qed.

Lemma X21_start_exit_witness :
  qd_connection_manager_start failing_driver example_manager = Aborted.
Proof.
  apply (proj1 (X21_start_exit failing_driver example_manager)).
  split; [reflexivity|]. eexists. split; [now left|]. split; reflexivity.
Defined.

(** X22: what a start that returns leaves.  The function-static flag
    is cleared: no later start is a first start.  The collection of
    connectors is the same.  Every listener that was accepting is as
    it was, and every listener that was attempted has exit_on_error
    set to the flag of this call: true in the first start, false in
    the later ones. *)
Theorem X22_start_leaves (d : driver) (m m' : manager) (evs : list event) :
  qd_connection_manager_start d m = Done (m', evs) ->
  first_start m' = false /\
  connectors m' = connectors m /\
  Forall2 (fun li li' =>
             if listener_active li then li' = li
             else li' = set_exit_on_error (first_start m) (fst (qd_listener_listen d li)))
          (listeners m) (listeners m').
Proof.
  intros Hrun.
  destruct (start_inv _ _ _ _ Hrun) as (lis & e1 & objs & e2 & Hl & _ & -> & _).
  cbn [first_start connectors listeners].
  split; [reflexivity|]. split; [reflexivity|].
  exact (start_listeners_flags _ _ _ _ _ Hl).
Qed.

Lemma X22_start_leaves_witness :
  exists m' evs,
    qd_connection_manager_start example_driver example_manager = Done (m', evs) /\
    first_start m' = false /\
    map exit_on_error (listeners m') = [true].
Proof.
  destruct (qd_connection_manager_start example_driver example_manager)
    as [[m' evs]| | |] eqn:Hrun; try (vm_compute in Hrun; discriminate).
  exists m', evs. split; [reflexivity|].
  destruct (X22_start_leaves example_driver example_manager m' evs Hrun) as (Hfirst & _ & Hlis).
  split; [exact Hfirst|].
  cbn [example_manager listeners] in Hlis.
  inversion Hlis as [|li li' l1 l2 Hli Hrest]; subst. inversion Hrest; subst.
  cbn in Hli. subst li'. reflexivity.
Defined.

(** X23: a connector that was deleted is not started again.  After
    qd_connection_manager_delete_connector on a handle, in a
    collection that holds every address once, a start makes no
    connect attempt on that address, also when the object lives on
    under another reference; and it attempts no connector that the
    earlier collection did not hold. *)
Theorem X23_deleted_connector_not_started (d : driver) (m m1 m2 : manager) (a : nat)
    (evs1 evs2 : list event) :
  NoDup (connectors m) ->
  qd_connection_manager_delete_connector m (Some a) = Done (m1, evs1) ->
  qd_connection_manager_start d m1 = Done (m2, evs2) ->
  forall c, In (Connect c) evs2 -> ct_addr c <> a /\ In (ct_addr c) (connectors m).
Proof.
  intros Hnd Hdel Hstart c Hin.
  unfold qd_connection_manager_delete_connector in Hdel.
  destruct (object_at a (connector_objects m)) as [ct|]; [|discriminate].
  injection Hdel as <- _.
  destruct (start_inv _ _ _ _ Hstart) as (lis & e1 & objs & e2 & Hl & Hc & _ & ->).
  cbn [connectors connector_objects listeners first_start] in Hl, Hc.
  apply in_app_or in Hin as [Hin|Hin].
  - rewrite (start_listeners_events _ _ _ _ _ Hl) in Hin.
    apply in_map_iff in Hin as (li & [=] & _).
  - destruct (start_connectors_events _ _ _ _ _ Hc _ Hin) as (c' & [= <-] & _ & Hmem).
    split.
    + intros <-. exact (deq_remove_gone _ _ Hnd Hmem).
    + exact (deq_remove_subset _ _ _ Hmem).
Qed.

Lemma X23_deleted_connector_not_started_witness :
  exists m1 m2 evs1 evs2,
    qd_connection_manager_delete_connector example_manager (Some 7%nat) = Done (m1, evs1) /\
    qd_connection_manager_start example_driver m1 = Done (m2, evs2) /\
    forall c, In (Connect c) evs2 -> ct_addr c <> 7%nat.
Proof.
  destruct (qd_connection_manager_delete_connector example_manager (Some 7%nat))
    as [[m1 evs1]| | |] eqn:Hdel; try (vm_compute in Hdel; discriminate).
  destruct (qd_connection_manager_start example_driver m1)
    as [[m2 evs2]| | |] eqn:Hstart;
    try (vm_compute in Hdel; injection Hdel as <- <-; vm_compute in Hstart; discriminate).
  exists m1, m2, evs1, evs2. split; [reflexivity|]. split; [exact Hstart|].
  intros c Hin.
  refine (proj1 (X23_deleted_connector_not_started example_driver example_manager m1 m2 7
                   evs1 evs2 _ Hdel Hstart c Hin)).
  repeat constructor. intros [].
Defined.

Module StartFacts.
Import Lifecycle LifecycleSpec LifecycleFacts LifecycleMoreFacts.

Lemma object_at_new a objs c :
  object_at a objs = None -> ct_addr c = a -> object_at a (objs ++ [c]) = Some c.
Proof.
  intros Hnone Hc. induction objs as [|o objs IH]; cbn [app object_at] in *.
  - now rewrite Hc, Nat.eqb_refl.
  - destruct (Nat.eqb (ct_addr o) a); [discriminate | now apply IH].
Qed.

Lemma object_at_old a objs c x :
  object_at a objs = Some x -> object_at a (objs ++ [c]) = Some x.
Proof.
  intros Hsome. induction objs as [|o objs IH]; cbn [app object_at] in *; [discriminate|].
  destruct (Nat.eqb (ct_addr o) a); [exact Hsome | now apply IH].
Qed.

(** The connector loop comes to the connector at the tail of the
    collection, as it was at the start of the loop. *)
Lemma start_connectors_reaches d cts : forall objs objs2 evs a c,
  (forall x, ct_addr (qd_connector_connect d x) = ct_addr x) ->
  start_connectors d (cts ++ [a]) objs = Done (objs2, evs) ->
  object_at a objs = Some c -> connector_active c = false -> ~ In a cts ->
  In (Connect c) evs.
Proof.
  induction cts as [|b cts IH]; intros objs objs2 evs a c Haddr Hrun Hc Hidle Hnotin;
    cbn [app start_connectors] in Hrun.
  - rewrite Hc, Hidle in Hrun. cbn [start_connectors obind] in Hrun.
    injection Hrun as _ <-. now left.
  - destruct (object_at b objs) as [cb|] eqn:Eb; [|discriminate].
    destruct (connector_active cb).
    + apply (IH objs objs2 evs a c Haddr Hrun Hc Hidle).
      intros Hin. apply Hnotin. now right.
    + destruct (start_connectors d (cts ++ [a]) (object_store (qd_connector_connect d cb) objs))
        as [[objs' evs']| | |] eqn:E; cbn [obind] in Hrun; try discriminate.
      injection Hrun as _ <-. right.
      apply (IH _ objs' evs' a c Haddr E); [|exact Hidle|].
      * rewrite object_at_store, Haddr, (object_at_addr _ _ _ Eb).
        destruct (Nat.eqb b a) eqn:Eba; [|exact Hc].
        apply Nat.eqb_eq in Eba. subst. exfalso. apply Hnotin. now left.
      * intros Hin. apply Hnotin. now right.
Qed.

End StartFacts.

Import Ownership Settings HeapFacts RunFacts ResolveFacts AttributeFacts ProfileFacts.
Import BlockFacts ResolutionFacts SettingsFacts ConnectorFacts StartFacts.

(** X29: a connector that is created is attempted by the next start.
    For an object that is neither connecting nor open, at an address
    the manager does not know yet, and a driver that gives a
    connector back at its address: a start of the manager that
    qd_dispatch_configure_connector left, if it returns, has made a
    connect attempt on the new connector, with its own address in its
    list. *)
Theorem X29_created_connector_started NDEBUG sizeof_size_t cm entity ct m c0 h0 err0 msg0 lg0
    hs ps d :
  valid_server_entity NDEBUG entity false = true ->
  registry_ok h0 cm = true ->
  auth_plugin_resolves h0 cm entity = true ->
  string_attr entity "host" = Some hs ->
  string_attr entity "port" = Some ps ->
  strlen hs + strlen ps + 2 <= INT_MAX ->
  connector_active ct = false ->
  object_at (ct_addr ct) (connector_objects m) = None ->
  (forall a, In a (connectors m) -> object_at a (connector_objects m) <> None) ->
  (forall c, ct_addr (qd_connector_connect d c) = ct_addr c) ->
  exists w ct' m',
    qd_dispatch_configure_connector NDEBUG sizeof_size_t cm entity (Some ct) m
                                    (mkWorld c0 h0 err0 msg0 lg0)
    = Done (Next (Some ct', m', []), w) /\
    conn_info_list ct'
    = conn_info_list ct
        ++ [Failover.own_address
              (has_text entity "sslProfile" && bool_attr entity "requireSsl" false) hs ps] /\
    forall m2 evs,
      qd_connection_manager_start d m' = Done (m2, evs) -> In (Connect ct') evs.
Proof.
  intros Hvalid Hreg Hres Hhost Hport Hlen Hidle Hfresh Hobjs Haddr.
  destruct (configure_connector_run NDEBUG sizeof_size_t cm entity ct m c0 h0 err0 msg0 lg0
              hs ps Hvalid Hreg Hres Hhost Hport Hlen)
    as (w & lg & Hrun & _).
  cbv zeta in Hrun. eexists. eexists. eexists. split; [exact Hrun|].
  split; [reflexivity|].
  intros m2 evs Hstart.
  destruct (start_inv _ _ _ _ Hstart) as (lis & e1 & objs & e2 & _ & Hc & _ & ->).
  cbn [insert_connector connectors connector_objects] in Hc.
  apply in_or_app. right.
  apply (start_connectors_reaches d _ _ _ _ _ _ Haddr Hc).
  - apply object_at_new; [exact Hfresh | reflexivity].
  - exact Hidle.
  - intros Hin. now apply (Hobjs _ Hin).
Qed.

Lemma X29_created_connector_started_witness :
  exists w ct' m',
    qd_dispatch_configure_connector false 8 example_registry tls_entity
      (Some idle_connector) example_manager (example_world example_heap)
    = Done (Next (Some ct', m', []), w) /\
    match qd_connection_manager_start example_driver m' with
    | Done (_, evs) => In (Connect ct') evs
    | _ => False
    end.
Proof.
  destruct (X29_created_connector_started false 8 example_registry tls_entity
              idle_connector example_manager config_zero example_heap QD_ERROR_NONE "" []
              "0.0.0.0"%string "5672"%string example_driver
              eq_refl eq_refl eq_refl eq_refl eq_refl)
    as (w & ct' & m' & Hrun & _ & Hstart).
  - vm_compute. discriminate.
  - reflexivity.
  - reflexivity.
  - intros a [<-|[]]. discriminate.
  - intros c. reflexivity.
  - exists w, ct', m'. split; [exact Hrun|].
    destruct (qd_connection_manager_start example_driver m') as [[m2 evs]| | |] eqn:E.
    + exact (Hstart m2 evs eq_refl).
    + vm_compute in Hrun. injection Hrun as _ <- _. vm_compute in E. discriminate.
    + vm_compute in Hrun. injection Hrun as _ <- _. vm_compute in E. discriminate.
    + vm_compute in Hrun. injection Hrun as _ <- _. vm_compute in E. discriminate.
Defined.

(** ** A malformed attribute at the registration of a TLS profile *)

Import Ownership HeapFacts RunFacts ResolveFacts AttributeFacts ProfileFacts.
Import BlockFacts RegistrationFacts.

(** X26: the object of a new TLS profile comes from NEW, which does
    not clear it, and the error path of
    qd_dispatch_configure_ssl_profile releases every member.  So where
    the name of the entity is there but is not a text, the first CHECK
    jumps to the error path with nine members never assigned, and
    config_ssl_profile_free calls free on an uninitialised pointer:
    the registration is undefined. *)
Theorem X26_malformed_name_frees_uninitialised getenv fopen entity cm h0 err0 msg0 lg0 v :
  entity_get entity "name" = Some v ->
  (forall s, v <> AString s) ->
  qd_dispatch_configure_ssl_profile getenv fopen entity (mkWorld cm h0 err0 msg0 lg0)
  = Undefined.
Proof.
  intros Hname Hkind. destruct cm as [l plugins].
  unfold qd_dispatch_configure_ssl_profile. rewrite run_get_locals.
  cbv beta zeta. cbn [config_ssl_profiles].
  set (a := fresh_profile_addr l).
  set (p0 := {| sp_addr := a; sp := fun _ => Indeterminate |}).
  assert (Hfresh : forall q, In q l -> Nat.eqb (sp_addr q) a = false) by apply fresh_not_in.
  match goal with
  | |- on_error ?body ?handler ?w = _ =>
      assert (Hbody : body w
                      = Done (Jump, mkWorld (holding l plugins (sp_set p_name NULL p0)) h0
                                            QD_ERROR_VALUE "name" lg0))
  end.
  { rewrite run_clear, run_modify.
    change (with_profiles _ _) with (holding l plugins p0).
    unfold entity_member at 1. rewrite ?run_assoc.
    unfold qd_entity_opt_string, qd_entity_get_string. rewrite Hname.
    assert (Hv : match v with
                 | AString s => new_string s
                 | _ => qd_error QD_ERROR_VALUE "name" ;; ret NULL
                 end = (qd_error QD_ERROR_VALUE "name" ;; ret NULL
                        : M qd_connection_manager_t cptr)).
    { destruct v as [s| |]; [now contradiction (Hkind s) | reflexivity | reflexivity]. }
    rewrite Hv. rewrite ?run_assoc, run_error, run_ret.
    rewrite ?run_assoc.
    rewrite (run_profile_assign l plugins a Hfresh) by reflexivity.
    rewrite ?run_assoc. now rewrite run_check_error. }
  erewrite on_error_run by exact Hbody. cbv iota beta.
  rewrite run_error_message, run_log.
  unfold config_ssl_profile_free. rewrite ?run_assoc, run_get_locals.
  cbn [holding config_ssl_profiles].
  rewrite (profile_at_last l a (sp_set p_name NULL p0) Hfresh eq_refl).
  rewrite ?run_assoc, run_modify. reflexivity.
Qed.

Lemma X26_malformed_name_frees_uninitialised_witness :
  qd_dispatch_configure_ssl_profile no_variables no_files numbered_entity
    (mkWorld example_registry example_heap QD_ERROR_NONE "" [])
  = Undefined.
Proof.
  apply (X26_malformed_name_frees_uninitialised no_variables no_files numbered_entity
           example_registry example_heap QD_ERROR_NONE "" [] (ALong 7)).
  - reflexivity.
  - discriminate.
Defined.

(** ** Registration of an auth plugin *)

Module PluginFacts.
Import Ownership Plugins HeapFacts RunFacts ResolveFacts AttributeFacts ProfileFacts.
Import BlockFacts RegistrationFacts RegistrationMoreFacts RegistryFacts.

Lemma plugin_beq_eq a b : plugin_member_beq a b = true <-> a = b.
Proof.
  split; [apply internal_plugin_member_dec_bl | apply internal_plugin_member_dec_lb].
Qed.

Lemma last_plugin_app l p : last_plugin (l ++ [p]) = Some p.
Proof. unfold last_plugin. now rewrite rev_app_distr. Qed.

Lemma update_last_app f l p : update_last f (l ++ [p]) = l ++ [f p].
Proof. unfold update_last. rewrite rev_app_distr. cbn [rev app]. now rewrite rev_involutive. Qed.

Lemma pg_set_upd m v p m' : pg (pg_set m v p) m' = upd plugin_member_beq (pg p) m v m'.
Proof. destruct m, m'; reflexivity. Qed.

Lemma gowns_start h0 :
  gowns h0 h0 {| name := NULL; auth_service := NULL; sasl_init_hostname := NULL;
                 auth_ssl_profile := NULL |} (fun _ => Null).
Proof.
  split; [reflexivity | apply Nat.le_refl | intros m; destruct m; exact I
         | intros m1 m2 x H; destruct m1; discriminate H].
Qed.

Lemma gowns_assign h0 h p T m o :
  gowns h0 h p T ->
  gowns h0 (h ++ opt_cell o) (pg_set m (opt_ptr o h) p) (gupd T m (slot_of o)).
Proof.
  intros HO. unfold gowns, gupd.
  apply (owns_ext h0 _ _ _ _ _ (pg_set_upd m _ p) (fun _ => eq_refl)).
  apply (owns_assign plugin_member_beq plugin_beq_eq). exact HO.
Qed.

Section Registration.

Variable entity : qd_entity_t.
Variable h0 : heap_t.
Variable profiles : list qd_config_ssl_profile_t.
Variable l : list qd_config_sasl_plugin_t.
Hypothesis entity_valid : valid_plugin_entity entity = true.

Lemma run_plugin_read {B} p m (K : cptr -> cmM B) h err msg lg :
  bind (plugin_read m) K (mkWorld (holding_plugin profiles l p) h err msg lg)
  = K (pg p m) (mkWorld (holding_plugin profiles l p) h err msg lg).
Proof.
  unfold plugin_read. rewrite run_assoc, run_get_locals.
  cbn [holding_plugin config_sasl_plugins]. now rewrite last_plugin_app.
Qed.

Lemma run_plugin_assign {B} p m v (K : unit -> cmM B) h err msg lg :
  bind (plugin_assign m v) K (mkWorld (holding_plugin profiles l p) h err msg lg)
  = K tt (mkWorld (holding_plugin profiles l (pg_set m v p)) h err msg lg).
Proof.
  unfold plugin_assign. rewrite run_modify.
  unfold with_plugins, holding_plugin. cbn [config_ssl_profiles config_sasl_plugins].
  now rewrite update_last_app.
Qed.

Ltac slot_at := cbv beta delta [gupd upd plugin_member_beq] iota.

Ltac run_member H Hok :=
  rewrite ?run_assoc in H;
  match type of H with
  | _ = bind (qd_entity_opt_string _ ?attribute None) _
             (mkWorld (holding_plugin _ _ ?p) ?h _ ?msg ?lg) =>
      rewrite run_opt_string in H by (apply Hok; in_list);
      rewrite run_opt_new_string in H; cbv beta in H;
      rewrite ?run_assoc in H;
      match type of H with
      | _ = bind (plugin_assign ?m _) _ _ =>
          rewrite run_plugin_assign in H; cbv beta in H;
          rewrite ?run_assoc in H; rewrite run_check in H; cbv beta in H;
          match goal with
          | HO : gowns _ h p ?T |- _ =>
              let HO' := fresh "HO" in
              pose proof (gowns_assign h0 h p T m (string_attr entity attribute) HO) as HO';
              clear HO
          end
      end
  end.

(** The registration of a plugin on an entity whose attributes are
    texts. *)
Lemma configure_plugin_run err0 msg0 lg0 :
  exists p h,
    qd_dispatch_configure_sasl_plugin entity
      (mkWorld {| config_ssl_profiles := profiles; config_sasl_plugins := l |}
               h0 err0 msg0 lg0)
    = Done (Next (Some p),
            mkWorld (holding_plugin profiles l p) h QD_ERROR_NONE ""
                    ((lg0 ++ service_warning entity)
                       ++ [plugin_created_log (string_attr entity "name")])) /\
    gowns h0 h p (plugin_registered_slots entity).
Proof.
  pose proof entity_valid as Hok. unfold valid_plugin_entity in Hok.
  rewrite forallb_forall in Hok.
  remember (qd_dispatch_configure_sasl_plugin _ _) as R0 eqn:HR0.
  unfold qd_dispatch_configure_sasl_plugin in HR0.
  match type of HR0 with
  | _ = on_error ?body ?handler ?w =>
      remember (body w) as R eqn:HR;
      rewrite (on_error_run body handler w R (eq_sym HR)) in HR0
  end.
  rewrite run_clear, run_modify in HR.
  change (with_plugins _ _)
    with (holding_plugin profiles l {| name := NULL; auth_service := NULL;
                                       sasl_init_hostname := NULL;
                                       auth_ssl_profile := NULL |}) in HR.
  pose proof (gowns_start h0) as HO.
  run_member HR Hok.
  match goal with
  | H : gowns _ ?hx ?px _ |- _ =>
      rename H into HO; set (h := hx) in *; set (p := px) in *; clearbody h p
  end.
  (* the host and the port *)
  rewrite ?run_assoc in HR.
  rewrite run_opt_string in HR by (apply Hok; in_list).
  rewrite run_opt_new_string in HR. cbv beta in HR.
  rewrite ?run_assoc in HR.
  rewrite run_opt_string in HR by (apply Hok; in_list).
  rewrite run_opt_new_string in HR. cbv beta in HR.
  rewrite ?run_assoc in HR.
  match type of HR with
  | _ = bind _ (fun _ => bind (free _) (fun _ => bind (free _) ?K)) _ => set (rest := K) in HR
  end.
  match goal with
  | HO : gowns _ ?h ?p ?T |- _ =>
      assert (Hblock : exists p' h',
                 gowns h0 h' p' (gupd T g_auth_service (slot_of (entity_service entity))) /\
                 R = rest tt (mkWorld (holding_plugin profiles l p') h' QD_ERROR_NONE "" lg0));
      [ assert (Hsvc : T g_auth_service = Null) by (slot_at; reflexivity);
        assert (Hlive : forall m x, pg p m = Ptr x -> (x < List.length h)%nat)
          by (intros m x; apply (owns_live h0 _ _ _ m x HO));
        unfold entity_service
      | ]
  end.
  - destruct (string_attr entity "host") as [hs|], (string_attr entity "port") as [ps|];
      cbn [opt_ptr opt_cell is_null negb andb] in HR.
    + rewrite ?run_assoc in HR.
      erewrite run_read_text in HR
        by (cbn [text_at]; rewrite (heap_read_app_old _ _ _ _ (heap_read_new _ hs));
            reflexivity).
      cbv beta in HR. rewrite ?run_assoc in HR.
      erewrite run_read_text in HR by (cbn [text_at]; rewrite heap_read_new; reflexivity).
      cbv beta zeta in HR. unfold joined_service.
      destruct ((0 <? to_int32 (strlen hs)) && (0 <? to_int32 (strlen ps)));
        [destruct (2 <? to_int32 (strlen hs + strlen ps + 2))|].
      * rewrite ?run_assoc in HR. rewrite run_new_string in HR. cbv beta in HR.
        rewrite run_plugin_assign in HR.
        erewrite run_free in HR
          by (apply heap_read_app_old, heap_read_app_old, heap_read_new).
        erewrite run_free in HR
          by (rewrite heap_read_write_other
                by (rewrite length_app; cbn [List.length]; lia);
              apply heap_read_app_old, heap_read_new).
        eexists; eexists. split; [|exact HR].
        pose proof (gowns_assign h0 _ _ _ g_auth_service
                      (Some (snprintf_pair (to_int32 (strlen hs + strlen ps + 2)) hs ps))
                      (owns_app h0 _ _ _ [Some ps]
                         (owns_app h0 _ _ _ [Some hs] HO))) as HO2.
        cbn [opt_cell opt_ptr] in HO2.
        assert (Hnone : forall x, (x < List.length ((h ++ [Some hs]) ++ [Some ps]))%nat ->
                   (List.length h <= x)%nat ->
                   forall m, pg (pg_set g_auth_service
                                        (Ptr (List.length ((h ++ [Some hs]) ++ [Some ps]))) p) m
                             = Ptr x -> False).
        { intros x Hx Hge m Hm. rewrite pg_set_upd in Hm. unfold upd in Hm.
          destruct (plugin_member_beq m g_auth_service).
          - injection Hm as Hm. lia.
          - pose proof (Hlive m x Hm). lia. }
        cbn [slot_of].
        apply (owns_free_unowned h0).
        -- apply (owns_free_unowned h0); [exact HO2 | |].
           ++ pose proof (owns_len _ _ _ _ HO). lia.
           ++ intros m Hm. apply (Hnone (List.length h)) in Hm; [exact Hm | | lia].
              rewrite !length_app. cbn [List.length]. lia.
        -- pose proof (owns_len _ _ _ _ HO). rewrite length_app. lia.
        -- intros m Hm. apply (Hnone (List.length (h ++ [Some hs]))) in Hm; [exact Hm | |].
           ++ rewrite !length_app. cbn [List.length]. lia.
           ++ rewrite length_app. lia.
      * rewrite run_ret in HR.
        erewrite run_free in HR by (apply heap_read_app_old, heap_read_new).
        erewrite run_free in HR
          by (rewrite heap_read_write_other
                by (rewrite length_app; cbn [List.length]; lia);
              apply heap_read_new).
        eexists; eexists. split; [|exact HR].
        cbn [slot_of]. rewrite <- Hsvc.
        apply (owns_same plugin_member_beq plugin_beq_eq).
        apply (owns_free_unowned h0).
        -- apply (owns_free_unowned h0).
           ++ apply owns_app, owns_app. exact HO.
           ++ apply (owns_len _ _ _ _ HO).
           ++ intros m Hm. pose proof (Hlive m _ Hm). lia.
        -- pose proof (owns_len _ _ _ _ HO). rewrite length_app. lia.
        -- intros m Hm. pose proof (Hlive m _ Hm). rewrite length_app in *. lia.
      * rewrite run_ret in HR.
        erewrite run_free in HR by (apply heap_read_app_old, heap_read_new).
        erewrite run_free in HR
          by (rewrite heap_read_write_other
                by (rewrite length_app; cbn [List.length]; lia);
              apply heap_read_new).
        eexists; eexists. split; [|exact HR].
        cbn [slot_of]. rewrite <- Hsvc.
        apply (owns_same plugin_member_beq plugin_beq_eq).
        apply (owns_free_unowned h0).
        -- apply (owns_free_unowned h0).
           ++ apply owns_app, owns_app. exact HO.
           ++ apply (owns_len _ _ _ _ HO).
           ++ intros m Hm. pose proof (Hlive m _ Hm). lia.
        -- pose proof (owns_len _ _ _ _ HO). rewrite length_app. lia.
        -- intros m Hm. pose proof (Hlive m _ Hm). rewrite length_app in *. lia.
    + rewrite run_ret in HR.
      erewrite run_free in HR by (rewrite app_nil_r; apply heap_read_new).
      rewrite run_free_null in HR. rewrite app_nil_r in HR.
      eexists; eexists. split; [|exact HR].
      cbn [slot_of]. rewrite <- Hsvc.
      apply (owns_same plugin_member_beq plugin_beq_eq).
      apply (owns_free_unowned h0).
      * apply owns_app. exact HO.
      * apply (owns_len _ _ _ _ HO).
      * intros m Hm. pose proof (Hlive m _ Hm). lia.
    + rewrite run_ret in HR. rewrite run_free_null in HR.
      rewrite app_nil_r in HR.
      erewrite run_free in HR by apply heap_read_new.
      eexists; eexists. split; [|exact HR].
      cbn [slot_of]. rewrite <- Hsvc.
      apply (owns_same plugin_member_beq plugin_beq_eq).
      apply (owns_free_unowned h0).
      * apply owns_app. exact HO.
      * apply (owns_len _ _ _ _ HO).
      * intros m Hm. pose proof (Hlive m _ Hm). lia.
    + rewrite run_ret in HR. rewrite !run_free_null in HR.
      rewrite !app_nil_r in HR.
      eexists; eexists. split; [|exact HR].
      cbn [slot_of]. rewrite <- Hsvc.
      apply (owns_same plugin_member_beq plugin_beq_eq). exact HO.
  - clear HR HO. destruct Hblock as (p' & h' & HO & HR).
    subst rest. cbv beta in HR.
    (* the service address, from the attribute where there is none yet *)
    rewrite run_plugin_read in HR.
    match type of HR with
    | _ = bind _ ?K _ => set (rest := K) in HR
    end.
    match goal with
    | HO : gowns _ ?h ?p ?T |- _ =>
        assert (Hblock : exists p' h',
                   gowns h0 h' p' (gupd T g_auth_service (slot_of (plugin_service entity))) /\
                   R = rest tt (mkWorld (holding_plugin profiles l p') h' QD_ERROR_NONE ""
                                        (lg0 ++ service_warning entity)));
        [ assert (Hsvc : T g_auth_service = slot_of (entity_service entity))
            by (slot_at; reflexivity);
          unfold plugin_service, service_warning
        | ]
    end.
    + destruct (entity_service entity) as [s|]; cbn [slot_of] in Hsvc.
      * destruct (owns_ptr _ _ _ _ g_auth_service s HO Hsvc) as (x & Hx & _ & _).
        rewrite Hx in HR. cbn [is_null] in HR. rewrite run_ret in HR.
        rewrite app_nil_r.
        eexists; eexists. split; [|exact HR].
        cbn [slot_of]. rewrite <- Hsvc.
        apply (owns_same plugin_member_beq plugin_beq_eq). exact HO.
      * rewrite (owns_null _ _ _ _ g_auth_service HO Hsvc) in HR. cbn [is_null] in HR.
        run_member HR Hok. rewrite run_log in HR.
        eexists; eexists. split; [|exact HR]. assumption.
    + clear HR HO. destruct Hblock as (p2 & h2 & HO & HR).
      subst rest. cbv beta in HR.
      do 2 run_member HR Hok.
      rewrite ?run_assoc in HR. rewrite run_plugin_read in HR.
      match goal with
      | HO : gowns _ ?h ?p ?T |- _ =>
          assert (Hname : text_at h (pg p g_name) = Some (string_attr entity "name"))
            by (rewrite (owns_text _ _ _ _ g_name HO) by (slot_at; apply is_set_slot_of);
                slot_at; now rewrite slot_text_slot_of)
      end.
      rewrite ?run_assoc in HR. erewrite run_read_opt in HR by exact Hname.
      rewrite run_log, run_get_locals in HR.
      cbn [holding_plugin config_sasl_plugins] in HR. rewrite last_plugin_app in HR.
      fold (plugin_created_log (string_attr entity "name")) in HR.
      unfold ret in HR. rewrite HR in HR0.
      eexists; eexists. split; [exact HR0|].
      match goal with HO : gowns _ _ _ _ |- _ => revert HO end.
      apply owns_ext; [reflexivity|].
      intros m. destruct m; slot_at; reflexivity.
Qed.

End Registration.

Lemma to_int32_small z : 0 <= z <= INT_MAX -> to_int32 z = z.
Proof.
  unfold to_int32, INT_MAX. intros Hz. rewrite Z.mod_small; lia.
Qed.

Lemma substring_all s : substring 0 (String.length s) s = s.
Proof. induction s as [|c s IH]; [reflexivity|]. cbn. now rewrite IH. Qed.

Lemma strlen_zero s : strlen s = 0 -> s = ""%string.
Proof. destruct s; [reflexivity|]. unfold strlen. cbn [String.length]. lia. Qed.

(** Host and port that are not empty, of lengths an [int] holds, give
    the service address in full. *)
Lemma joined_service_small hs ps :
  hs <> ""%string -> ps <> ""%string -> strlen hs + strlen ps + 2 <= INT_MAX ->
  joined_service hs ps = Some (hs ++ ":" ++ ps)%string.
Proof.
  intros Hh Hp Hlen. unfold joined_service.
  pose proof (strlen_nonneg hs) as H1. pose proof (strlen_nonneg ps) as H2.
  assert (0 < strlen hs) by (destruct (Z.eq_dec (strlen hs) 0) as [E|E];
                             [now apply strlen_zero in E | lia]).
  assert (0 < strlen ps) by (destruct (Z.eq_dec (strlen ps) 0) as [E|E];
                             [now apply strlen_zero in E | lia]).
  rewrite !to_int32_small by lia.
  replace (0 <? strlen hs) with true by (symmetry; apply Z.ltb_lt; lia).
  replace (0 <? strlen ps) with true by (symmetry; apply Z.ltb_lt; lia).
  cbn [andb]. cbv zeta.
  replace (2 <? strlen hs + strlen ps + 2) with true by (symmetry; apply Z.ltb_lt; lia).
  unfold snprintf_pair. f_equal.
  replace (Z.to_nat (strlen hs + strlen ps + 2 - 1))
    with (String.length (hs ++ ":" ++ ps)).
  - apply substring_all.
  - apply Nat2Z.inj. fold (strlen (hs ++ ":" ++ ps)).
    rewrite !strlen_append. change (strlen ":") with 1. lia.
Qed.

(** An empty host or port gives no service address. *)
Lemma joined_service_empty hs ps :
  hs = ""%string \/ ps = ""%string -> joined_service hs ps = None.
Proof.
  unfold joined_service. intros [-> | ->]; [reflexivity|].
  now rewrite andb_false_r.
Qed.

Lemma plugin_registered_is_set entity m : is_set (plugin_registered_slots entity m) = true.
Proof. destruct m; apply is_set_slot_of. Qed.

Lemma sasl_plugin_named_app h l p nm :
  (forall q, In q l -> named_ptr h (name q) = true) ->
  sasl_plugin_named h (l ++ [p]) nm
  = match sasl_plugin_named h l nm with
    | Some q => Some q
    | None => sasl_plugin_named h [p] nm
    end.
Proof.
  intros Hn. induction l as [|q l IH]; [reflexivity|].
  cbn [app]. change (sasl_plugin_named h (q :: l ++ [p]) nm)
    with (match text_at h (name q) with
          | Some (Some s) => if streq s nm then Some q else sasl_plugin_named h (l ++ [p]) nm
          | _ => None
          end).
  change (sasl_plugin_named h (q :: l) nm)
    with (match text_at h (name q) with
          | Some (Some s) => if streq s nm then Some q else sasl_plugin_named h l nm
          | _ => None
          end).
  destruct (named_text _ _ (Hn q (or_introl eq_refl))) as [s Hs]. rewrite Hs.
  destruct (streq s nm); [reflexivity|].
  apply IH. intros q' Hq'. apply Hn. now right.
Qed.

(** The registry with a new plugin that owns its blocks and has a
    name is well formed in the new heap. *)
Lemma registry_ok_holding_plugin h0 h profiles l p T :
  registry_ok h0 {| config_ssl_profiles := profiles; config_sasl_plugins := l |} = true ->
  gowns h0 h p T -> (forall m, is_set (T m) = true) ->
  (exists nm, T g_name = Text nm) ->
  registry_ok h (holding_plugin profiles l p) = true.
Proof.
  intros Hreg HO Hset [nm Hnm]. unfold registry_ok in *.
  cbn [holding_plugin config_ssl_profiles config_sasl_plugins] in *.
  apply andb_true_iff in Hreg as [Hl Hp]. apply andb_true_iff. split.
  - rewrite forallb_forall in Hl |- *. intros q Hq. specialize (Hl q Hq).
    apply andb_true_iff in Hl as [Hname Hmem]. apply andb_true_iff. split.
    + exact (named_ptr_frame h0 h _ T HO _ Hname).
    + rewrite forallb_forall in Hmem |- *. intros m Hm.
      exact (valid_ptr_frame h0 h _ T HO _ (Hmem m Hm)).
  - rewrite forallb_app. apply andb_true_iff. split.
    + rewrite forallb_forall in Hp |- *. intros q Hq. specialize (Hp q Hq).
      repeat (apply andb_true_iff in Hp; let H := fresh "H" in destruct Hp as [Hp H]).
      repeat (apply andb_true_iff; split);
        first [ apply (named_ptr_frame h0 h _ T HO); assumption
              | apply (valid_ptr_frame h0 h _ T HO); assumption ].
    + assert (Hv : forall m, valid_ptr h (pg p m) = true)
        by (intros m; unfold valid_ptr; now rewrite (owns_text _ _ _ _ m HO (Hset _))).
      pose proof (Hv g_auth_service) as H1. pose proof (Hv g_sasl_init_hostname) as H2.
      pose proof (Hv g_auth_ssl_profile) as H3. cbn [pg] in H1, H2, H3.
      cbn [forallb]. rewrite andb_true_r, H1, H2, H3, !andb_true_r.
      unfold named_ptr. change (name p) with (pg p g_name).
      rewrite (owns_text _ _ _ _ g_name HO (Hset _)), Hnm. reflexivity.
Qed.

Lemma registry_plugin_names h0 cm q :
  registry_ok h0 cm = true -> In q (config_sasl_plugins cm) ->
  named_ptr h0 (name q) = true.
Proof.
  unfold registry_ok. intros H Hq. apply andb_true_iff in H as [_ H].
  rewrite forallb_forall in H. specialize (H q Hq).
  repeat (apply andb_true_iff in H; destruct H as [H _]). exact H.
Qed.

(** The resolution of an endpoint against a registered plugin that
    names no TLS profile. *)
Lemma resolution_plugin_texts NDEBUG sizeof_size_t cm entity is_listener c0 h0 err0 msg0 lg0
    nm plg :
  valid_server_entity NDEBUG entity is_listener = true ->
  registry_ok h0 cm = true ->
  string_attr entity "saslPlugin" = Some nm ->
  sasl_plugin_named h0 (config_sasl_plugins cm) nm = Some plg ->
  old_text h0 (auth_ssl_profile plg) = None ->
  exists c h lg,
    load_server_config NDEBUG sizeof_size_t cm entity is_listener
                       (mkWorld c0 h0 err0 msg0 lg0)
    = Done (Next QD_ERROR_NONE, mkWorld c h QD_ERROR_NONE "" lg) /\
    text_at h (strs c spc_auth_service) = Some (old_text h0 (auth_service plg)) /\
    text_at h (strs c spc_sasl_init_hostname) = Some (old_text h0 (sasl_init_hostname plg)) /\
    flags c spc_use_ssl = false.
Proof.
  intros Hvalid Hreg Hattr Hfound Hnossl.
  destruct (ResolutionFacts.through_tls_block NDEBUG sizeof_size_t cm entity is_listener
              c0 h0 err0 msg0 lg0 Hvalid Hreg)
    as (c1 & h1 & lg1 & T1 & c2 & h2 & Hattrs & Hssl & HO2 & Hset2 & Hplug & _).
  rewrite Hattr in Hplug. cbn [slot_of] in Hplug.
  pose proof (sasl_block_found h0 cm Hreg h2 c2 _ "" lg1 nm plg HO2 Hset2 Hplug Hfound)
    as Hblock.
  rewrite Hnossl in Hblock. destruct Hblock as (c & h & Hrun & HO & Hflag).
  exists c, h. eexists. split; [|split; [|split; [|exact Hflag]]].
  - unfold load_server_config, on_error.
    erewrite run_bind by exact Hattrs. erewrite run_bind by exact Hssl.
    erewrite run_bind by exact Hrun. reflexivity.
  - rewrite (cowns_text _ _ _ _ spc_auth_service HO)
      by (unfold plugin_slots; repeat apply is_set_tupd;
          first [apply is_set_slot_of | apply Hset2]).
    unfold plugin_slots, tupd, upd. cbn [str_member_beq]. now rewrite slot_text_slot_of.
  - rewrite (cowns_text _ _ _ _ spc_sasl_init_hostname HO)
      by (unfold plugin_slots; repeat apply is_set_tupd;
          first [apply is_set_slot_of | apply Hset2]).
    unfold plugin_slots, tupd, upd. cbn [str_member_beq]. now rewrite slot_text_slot_of.
Qed.

End PluginFacts.

Import Ownership Plugins HeapFacts RunFacts ResolveFacts AttributeFacts ProfileFacts.
Import BlockFacts RegistrationFacts RegistrationMoreFacts RegistryFacts PluginFacts.

(** X24: on an entity whose attributes are texts,
    qd_dispatch_configure_sasl_plugin always returns the new plugin,
    appended to the collection, with no error set.  Its name, realm
    and TLS profile are copies of the attributes name, realm and
    sslProfile.  Its auth service is host:port where the entity has
    both and neither is empty, and then the attribute authService is
    not read; otherwise it is the attribute authService, and the
    deprecation warning is logged, whether or not that attribute is
    there.  The two temporary copies of host and port are released
    and the blocks of the heap on entry are as they were. *)
Theorem X24_plugin_registered entity cm h0 err0 msg0 lg0 :
  valid_plugin_entity entity = true ->
  exists p w,
    qd_dispatch_configure_sasl_plugin entity (mkWorld cm h0 err0 msg0 lg0)
    = Done (Next (Some p), w) /\
    error_code w = QD_ERROR_NONE /\
    config_sasl_plugins (locals w) = config_sasl_plugins cm ++ [p] /\
    config_ssl_profiles (locals w) = config_ssl_profiles cm /\
    text_at (heap w) (name p) = Some (string_attr entity "name") /\
    text_at (heap w) (sasl_init_hostname p) = Some (string_attr entity "realm") /\
    text_at (heap w) (auth_ssl_profile p) = Some (string_attr entity "sslProfile") /\
    text_at (heap w) (auth_service p) = Some (plugin_service entity) /\
    log w = (lg0 ++ service_warning entity)
              ++ [plugin_created_log (string_attr entity "name")] /\
    (forall x, (x < List.length h0)%nat -> nth_error (heap w) x = nth_error h0 x) /\
    (forall hs ps,
        string_attr entity "host" = Some hs -> string_attr entity "port" = Some ps ->
        hs <> ""%string -> ps <> ""%string -> strlen hs + strlen ps + 2 <= INT_MAX ->
        plugin_service entity = Some (hs ++ ":" ++ ps)%string /\ service_warning entity = []) /\
    (string_attr entity "host" = None \/ string_attr entity "port" = None \/
     string_attr entity "host" = Some ""%string \/ string_attr entity "port" = Some ""%string ->
     plugin_service entity = string_attr entity "authService" /\
     List.length (service_warning entity) = 1%nat).
Proof.
  intros Hvalid. destruct cm as [profiles l].
  destruct (configure_plugin_run entity h0 profiles l Hvalid err0 msg0 lg0)
    as (p & h & Hrun & HO).
  assert (Hread : forall m, text_at h (pg p m) = Some (slot_text (plugin_registered_slots entity m)))
    by (intros m; apply (owns_text _ _ _ _ m HO (plugin_registered_is_set _ _))).
  exists p. eexists. split; [exact Hrun|].
  cbn [error_code locals heap log holding_plugin config_ssl_profiles config_sasl_plugins].
  repeat (split; [reflexivity|]).
  split; [rewrite <- (slot_text_slot_of (string_attr entity "name"));
          exact (Hread g_name)|].
  split; [rewrite <- (slot_text_slot_of (string_attr entity "realm"));
          exact (Hread g_sasl_init_hostname)|].
  split; [rewrite <- (slot_text_slot_of (string_attr entity "sslProfile"));
          exact (Hread g_auth_ssl_profile)|].
  split; [rewrite <- (slot_text_slot_of (plugin_service entity));
          exact (Hread g_auth_service)|].
  split; [reflexivity|]. split; [apply (owns_old _ _ _ _ HO)|]. split.
  - intros hs ps Hh Hp Hhs Hps Hlen.
    unfold plugin_service, service_warning, entity_service.
    rewrite Hh, Hp, (joined_service_small hs ps Hhs Hps Hlen). split; reflexivity.
  - intros Hnone. unfold plugin_service, service_warning, entity_service.
    destruct (string_attr entity "host") as [hs|], (string_attr entity "port") as [ps|];
      try (split; reflexivity).
    rewrite joined_service_empty; [split; reflexivity|].
    destruct Hnone as [H|[H|[H|H]]]; try discriminate;
      injection H as ->; [now left | now right].
Qed.

Lemma X24_plugin_registered_witness :
  exists p w,
    qd_dispatch_configure_sasl_plugin host_port_plugin_entity
      (mkWorld example_registry example_heap QD_ERROR_NONE "" [])
    = Done (Next (Some p), w) /\
    config_sasl_plugins (locals w) = [example_plugin; p] /\
    text_at (heap w) (auth_service p) = Some (Some "auth.example:5671"%string).
Proof.
  destruct (X24_plugin_registered host_port_plugin_entity example_registry example_heap
              QD_ERROR_NONE "" [] eq_refl)
    as (p & w & Hrun & _ & Hl & _ & _ & _ & _ & Hsvc & _).
  exists p, w. split; [exact Hrun|]. split; [exact Hl|].
  rewrite Hsvc. reflexivity.
Defined.

(** X25: a plugin registered under a free name, with no TLS profile,
    then an endpoint that names it.  load_server_config, run in the
    registry and the heap that the registration left, returns
    QD_ERROR_NONE; the auth service of the endpoint reads as the
    plugin's (host:port, or authService), its SASL hostname as the
    realm, and the channel to the auth service is marked as not using
    TLS. *)
Theorem X25_endpoint_uses_registered_plugin entity cm h0 err0 msg0 lg0 nm
    NDEBUG sizeof_size_t endpoint is_listener c1 err1 msg1 lg1 :
  valid_plugin_entity entity = true ->
  registry_ok h0 cm = true ->
  string_attr entity "name" = Some nm ->
  string_attr entity "sslProfile" = None ->
  sasl_plugin_named h0 (config_sasl_plugins cm) nm = None ->
  valid_server_entity NDEBUG endpoint is_listener = true ->
  string_attr endpoint "saslPlugin" = Some nm ->
  exists p w1 w2,
    qd_dispatch_configure_sasl_plugin entity (mkWorld cm h0 err0 msg0 lg0)
    = Done (Next (Some p), w1) /\
    load_server_config NDEBUG sizeof_size_t (locals w1) endpoint is_listener
                       (mkWorld c1 (heap w1) err1 msg1 lg1)
    = Done (Next QD_ERROR_NONE, w2) /\
    text_at (heap w2) (strs (locals w2) spc_auth_service) = Some (plugin_service entity) /\
    text_at (heap w2) (strs (locals w2) spc_sasl_init_hostname)
    = Some (string_attr entity "realm") /\
    flags (locals w2) spc_use_ssl = false.
Proof.
  intros Hvalid Hreg Hname Hnossl Hfree Hendpoint Hplug. destruct cm as [profiles l].
  destruct (configure_plugin_run entity h0 profiles l Hvalid err0 msg0 lg0)
    as (p & h & Hrun & HO).
  assert (Hread : forall m, text_at h (pg p m) = Some (slot_text (plugin_registered_slots entity m)))
    by (intros m; apply (owns_text _ _ _ _ m HO (plugin_registered_is_set _ _))).
  assert (Hregh : registry_ok h (holding_plugin profiles l p) = true).
  { apply (registry_ok_holding_plugin h0 h profiles l p _ Hreg HO
             (plugin_registered_is_set _)).
    exists nm. cbn [plugin_registered_slots]. now rewrite Hname. }
  assert (Hold : forall q, In q l -> named_ptr h0 (name q) = true)
    by (intros q Hq; apply (registry_plugin_names h0 _ q Hreg Hq)).
  assert (Hfound : sasl_plugin_named h (config_sasl_plugins (holding_plugin profiles l p)) nm
                   = Some p).
  { cbn [holding_plugin config_sasl_plugins].
    rewrite sasl_plugin_named_app
      by (intros q Hq; exact (named_ptr_frame h0 h _ _ HO _ (Hold q Hq))).
    rewrite (sasl_plugin_named_frame h0 h _ _ HO l nm Hold).
    cbn [config_sasl_plugins] in Hfree. rewrite Hfree.
    cbn [sasl_plugin_named]. change (name p) with (pg p g_name).
    rewrite (Hread g_name). cbn [plugin_registered_slots].
    rewrite Hname. cbn [slot_of slot_text]. unfold streq. now rewrite String.eqb_refl. }
  assert (Hnone : old_text h (auth_ssl_profile p) = None).
  { unfold old_text. change (auth_ssl_profile p) with (pg p g_auth_ssl_profile).
    rewrite (Hread g_auth_ssl_profile). cbn [plugin_registered_slots]. now rewrite Hnossl. }
  destruct (resolution_plugin_texts NDEBUG sizeof_size_t (holding_plugin profiles l p)
              endpoint is_listener c1 h err1 msg1 lg1 nm p Hendpoint Hregh Hplug Hfound Hnone)
    as (c & h2 & lg & Hload & Hsvc & Hrealm & Hflag).
  exists p. eexists. eexists. split; [exact Hrun|]. cbn [locals heap].
  split; [exact Hload|]. cbn [locals heap].
  split; [|split; [|exact Hflag]].
  - rewrite Hsvc. unfold old_text. change (auth_service p) with (pg p g_auth_service).
    rewrite (Hread g_auth_service). cbn [plugin_registered_slots].
    now rewrite slot_text_slot_of.
  - rewrite Hrealm. unfold old_text.
    change (sasl_init_hostname p) with (pg p g_sasl_init_hostname).
    rewrite (Hread g_sasl_init_hostname). cbn [plugin_registered_slots].
    now rewrite slot_text_slot_of.
Qed.

Lemma X25_endpoint_uses_registered_plugin_witness :
  exists p w1 w2,
    qd_dispatch_configure_sasl_plugin host_port_plugin_entity
      (mkWorld example_registry example_heap QD_ERROR_NONE "" [])
    = Done (Next (Some p), w1) /\
    load_server_config false 8 (locals w1) auth2_endpoint false
                       (mkWorld config_zero (heap w1) QD_ERROR_NONE "" [])
    = Done (Next QD_ERROR_NONE, w2) /\
    flags (locals w2) spc_use_ssl = false.
Proof.
  destruct (X25_endpoint_uses_registered_plugin host_port_plugin_entity
              example_registry example_heap QD_ERROR_NONE "" [] "auth2"%string
              false 8 auth2_endpoint false config_zero QD_ERROR_NONE "" []
              eq_refl eq_refl eq_refl eq_refl eq_refl eq_refl eq_refl)
    as (p & w1 & w2 & Hrun & Hload & _ & _ & Hflag).
  exists p, w1, w2. repeat split; assumption.
Defined.

(** X27: the object of a new auth plugin is cleared before it is
    filled in, so the error path of qd_dispatch_configure_sasl_plugin
    is clean where that of the TLS profile is not.  Where the name of
    the entity is there but is not a text, the registration returns
    the null result with the error QD_ERROR_VALUE, the failure is the
    last entry of the log, and the collection and the heap are as
    they were. *)
Theorem X27_malformed_plugin_name entity cm h0 err0 msg0 lg0 v :
  entity_get entity "name" = Some v ->
  (forall s, v <> AString s) ->
  qd_dispatch_configure_sasl_plugin entity (mkWorld cm h0 err0 msg0 lg0)
  = Done (Next None,
          mkWorld cm h0 QD_ERROR_VALUE "name"
                  (lg0 ++ [{| level := QD_LOG_ERROR;
                              format := "Unable to create SASL plugin config: %s";
                              args := [LText (Some "name"%string)] |}])).
Proof.
  intros Hname Hkind. destruct cm as [profiles l].
  unfold qd_dispatch_configure_sasl_plugin.
  set (p0 := {| name := NULL; auth_service := NULL; sasl_init_hostname := NULL;
                auth_ssl_profile := NULL |}).
  match goal with
  | |- on_error ?body ?handler ?w = _ =>
      assert (Hbody : body w
                      = Done (Jump, mkWorld (holding_plugin profiles l p0) h0
                                            QD_ERROR_VALUE "name" lg0))
  end.
  { rewrite run_clear, run_modify.
    change (with_plugins _ _) with (holding_plugin profiles l p0).
    unfold qd_entity_opt_string, qd_entity_get_string. rewrite Hname.
    assert (Hv : match v with
                 | AString s => new_string s
                 | _ => qd_error QD_ERROR_VALUE "name" ;; ret NULL
                 end = (qd_error QD_ERROR_VALUE "name" ;; ret NULL
                        : M qd_connection_manager_t cptr)).
    { destruct v as [s| |]; [now contradiction (Hkind s) | reflexivity | reflexivity]. }
    rewrite Hv. rewrite ?run_assoc, run_error, run_ret.
    rewrite ?run_assoc. rewrite (run_plugin_assign profiles l).
    rewrite ?run_assoc. now rewrite run_check_error. }
  erewrite on_error_run by exact Hbody. cbv iota beta.
  rewrite run_error_message, run_log.
  unfold config_sasl_plugin_free. rewrite ?run_assoc, run_get_locals.
  cbn [holding_plugin config_sasl_plugins]. rewrite last_plugin_app.
  rewrite ?run_assoc, run_modify. unfold with_plugins.
  cbn [holding_plugin config_ssl_profiles config_sasl_plugins]. rewrite removelast_last.
  reflexivity.
Qed.

Lemma X27_malformed_plugin_name_witness :
  exists w,
    qd_dispatch_configure_sasl_plugin numbered_entity
      (mkWorld example_registry example_heap QD_ERROR_NONE "" [])
    = Done (Next None, w) /\
    locals w = example_registry /\ heap w = example_heap.
Proof.
  eexists. split.
  - apply (X27_malformed_plugin_name numbered_entity example_registry example_heap
             QD_ERROR_NONE "" [] (ALong 7)); [reflexivity | discriminate].
  - split; reflexivity.
Defined.

